(* ===== verification/_CoqProject ===== *)
-Q . S2P
Prelude.v
GoStrings.v
K8s.v
V1alpha1.v
Memory.v
DeepCopies.v
Effects.v
Interfaces.v
Selectors.v
MemServer.v
Fixtures.v
Webhook.v
ImageValidation.v
Common.v
CollectorMerge.v
PostgresConfig.v
Seeder.v
Deployments.v
Objects.v
Networks.v
TLS.v
SearchCR.v
Features.v
Status.v
Addon.v
AddonManager.v
Resources.v
Reconciler.v
Watches.v
Rollout.v
Lifecycle.v
Requests.v
Permissions.v
Ownership.v
Admission.v
Shipped.v
Established.v
Quiescence.v
ApiServer.v
ApiMem.v
Steps.v
Round.v
Convergence.v
Robustness.v
Wiring.v
Startup.v
