(* ===== verification/Prelude.v ===== *)
(** * A verification development for search-v2-operator

    The operator deploys the search components of Open Cluster Management (the
    collector, the indexer, the query API and a PostgreSQL database) in the
    namespace of one [Search] custom resource, and keeps them as that resource
    asks. This library models the Go code under [src/] that decides what the
    operator does, and proves the properties that make it correct.

    ** The parts of the program and how they interact

    - The reconciler ([src/controllers/search_controller.go]) is called with a
      request whenever a watched object changes. It reads the [Search] CR, runs
      some forty steps, each of which makes one object of the cluster what the CR
      asks, and reports in the status of the CR. A paused CR is left alone; one
      that is being deleted is finalized.
    - The desired objects are pure functions of the CR, of the environment of the
      process and of the TLS profile of the cluster ([create_*.go], [common.go],
      [defaults.go], [tlsconfig.go], [imagevalidation.go]).
    - The optional features (global search, virtual machine actions, fine-grained
      RBAC) are switched by annotations of the CR; they write service accounts and
      manifests for managed clusters, and edit the CR itself.
    - [CollectorConfig] resources say what the collector collects. Integration
      teams ship theirs with the operator (the seeder applies them at start); a
      user writes one by hand; the admission webhook refuses bad ones; a step of
      the reconciler merges them into the one the collector reads.
    - The add-on framework ([src/addon]) deploys the collector on the managed
      clusters; the operator supplies the values of its Helm chart.

    ** How the program is modelled

    Values are immutable records with the fields the source mentions ([K8s.v],
    [V1alpha1.v]); a Go map that may be nil is an [option] of a finite map, a
    pointer an [option], a string a list of bytes, an [int] a [Z] (with its 64-bit
    bounds where the code parses one). A function that calls the API server is a
    [prog] ([Effects.v]): a tree of requests, each continued by whatever the server
    may answer, which ends in a result or in a panic. An object a call fills or
    the callee edits through its pointer is returned with the result, so the
    aliasing of the source shows in the types. Where sharing is the point, in the
    generated deep copies and the code that relies on them, structs lie in a heap
    ([Memory.v]). Theorems quantify over [exec p t o]:
    program [p] with some answers of the server issues the requests [t] and ends in
    [o]; so they cover every failure and every interleaving of other clients with
    the requests. [wp] is the corresponding weakest precondition and [issues] the
    bound on the requests a program can make. [MemServer.v] is a concrete server
    with scripted faults on which the witnesses run the programs by evaluation; no
    theorem assumes it. [ApiServer.v] is the interface of an API server, for the
    theorems that say what is achieved rather than what is avoided: it says which parts
    of an object are kept when the server stores what it is sent, and leaves the rest
    (defaults, identifiers, refusals) open. [reaches] is total correctness of a run on
    such a server none of whose writes is refused; [ApiMem.v] is a server that
    implements the interface.

    ** The files

    - [Prelude], [GoStrings], [K8s], [Effects], [Interfaces], [MemServer],
      [Fixtures]: the shared lemmas and tactics, Go's [strings], the Kubernetes
      types, programs, the interfaces of controller-runtime, the concrete server
      and the sample objects.
    - [V1alpha1], [Webhook], [Selectors]: [src/api/v1alpha1]; the types, the
      admission of CollectorConfigs, and the meaning of resource selectors.
    - [Memory], [DeepCopies]: Go memory, and [zz_generated.deepcopy.go] on it: one
      definition per generated function, and what of a struct lies where.
    - [CollectorMerge]: [create_collectorconfig.go]. [Seeder]:
      [create_integration_collectorconfigs.go] and
      [integration_collectorconfig_seeder.go].
    - [ImageValidation], [Common]: [src/internal/imagevalidation.go], and the
      getters of [common.go] and [defaults.go].
    - [PostgresConfig]: [create_pgconfigmap.go]. [Deployments]: the four
      [create_*deployment.go]. [Objects]: services, accounts, secrets, roles,
      monitors. [Networks]: [create_networkpolicies.go]. [TLS]: [tlsconfig.go].
    - [Resources]: the create-or-update operations of [common.go] and of the
      [create_*.go] files.
    - [SearchCR], [Features], [Status]: the edits of the Search CR,
      [global_search_setup.go], [virtual_machines_setup.go],
      [fine_grained_rbac.go] and the status.
    - [Addon], [AddonManager]: [src/addon/addon.go]; the values, and the manager that
      serves them.
    - [Reconciler]: [search_controller.go] and [cleanup.go], the whole of
      [Reconcile]. [Watches]: [SetupWithManager]. [Startup]: [src/main.go] and the
      scheme the types of [src/api/v1alpha1] register with.
    - Theorems that compose the components: [Established] (what a successful
      [Reconcile] achieved), [Quiescence] (a cluster that is as desired is left
      alone), [Rollout] (the database), [Lifecycle] (deleting and pausing), [Wiring]
      (the objects fit together), [Robustness] (when it can panic), [Admission] (the
      merge before the operator's own webhook), [Shipped] (the configs of
      [src/config/integration_collector_configs] before both).
    - [Requests] walks once through [Reconcile] for any guarantee on its requests;
      [Permissions] (RBAC) and [Ownership] (what is left when the CR goes) are two of
      them.
    - Convergence: [ApiServer] (the server and its guarantees), [ApiMem] (one in
      memory that defaults, identifies and keeps the status apart), [Steps] (each
      operation on such a server), [Round] (one [Reconcile]), [Convergence] (round
      after round).

    ** What the theorems show

    - Merge and admission: the merged configuration refines the specification
      (teams first, then the user's rules that hide no resource a team asked for);
      the rejected rules are those the status reports and those the webhook finds;
      the webhook accepts exactly the well-formed configs, and protects the
      operator's own; it admits the merge itself exactly when no team excludes what a
      team includes.
    - Deployment: whatever the CR says, the pods run trusted images with the
      restricted security context; the network policies admit exactly the intended
      connections; services, pods, secrets and policies fit together ([Wiring]).
    - Reconciliation: a successful run had every object on the server as desired. In a
      cluster where every object is as desired (of the Deployments it is enough that
      they are there) nothing is written but CollectorConfigs, and desired Deployments
      that the server completed with defaults. On a server on which nobody else writes,
      for an active CR without optional features, every round succeeds whose writes are
      not refused, two rounds bring the cluster into that state, and no later round
      changes anything but CollectorConfigs. Every request is within the operator's
      RBAC. Every object created with the typed client is collected or finalized with
      the CR, with three exceptions; the objects of the features in the namespaces of
      managed clusters are not. A change of the database configuration reaches the hash
      that restarts it, unless the update of the Deployment is refused. The finalizer
      goes last. Pausing and deleting stop the other steps, but not the status that
      follows the pods. The only panics come right after a failed listing of the managed
      clusters. Which events wake the reconciler up, and for what.
    - The operations on one object: what is on the server after each succeeds.
    - Configuration of the database: custom settings survive, the merge reaches a
      fixpoint in two rounds, no input reaches the start script but a checked
      number.
    - Features, status, seeding, add-on: their specifications, with error paths: the
      status tells the readiness of the pods that report one; the seeder ends when an
      attempt applied every manifest, or with its context; the
      started add-on runs the operator's image with the rights of one group; the
      process starts with everything registered or not at all, and knows every kind it
      requests.

    ** Parameters

    Code outside [src/] is a parameter: the JSONPath parser and the order of map
    iteration ([Webhook]); the deep copies of the structs of the Kubernetes libraries
    ([DeepCopies]); the file system and YAML decoder of the embedded configs
    ([Seeder]); SHA-256 ([PostgresConfig], [Reconciler]); owner references,
    finalizers and conditions ([Interfaces], with their documented laws and a
    reference instance of each); nested fields of unstructured objects ([Networks]);
    JSON, profile resolution and cipher tables ([TLS]); the add-on framework
    ([Addon], [AddonManager]); zero tests of quantities and the environment
    ([Common]); the event handlers of controller-runtime ([Watches]), its manager and the kinds
    the API packages register ([Startup]); [wait.PollUntilContextCancel] ([Seeder]: it
    runs its condition until that answers true or the context ends); the API server
    ([ApiServer]: reads see the writes before them, nobody else writes, and of what is
    sent the parts the operator compares are stored; [apiMem] shows that there is one);
    [equality.Semantic.DeepEqual] ([K8s], where it is equality on the types used; on
    deployment specs, which are not modelled whole, it is assumed to be reflexive and
    to imply equal annotations of the pods, [Resources]).

    ** Bounds

    All recursion is structural on data ([afterRounds] on the number of rounds, of which
    two are enough). The retry loop of the seeder is library code: [polled] says
    inductively what its executions are, and the theorem on [Start] holds of each.

    ** Not modelled

    The flags and the loggers of [src/main.go]; logging; JSON merge patches (a [Patch]
    request carries the object it leads to; [DeepCopies] shows that the base the patch
    is computed from is the object before the edit); the unused capacity of slices;
    the Helm chart, the bundle and the YAML manifests, but for the RBAC rules, which
    [Requests] and [Permissions] state, and the configs in [Shipped]. Fields of Kubernetes objects the source does not mention are absent from the types.
    Concurrent reconciliations do not occur (one worker, the default of the
    library), so a run of [Reconcile] interleaves with other clients only; what
    those do is covered by the arbitrary answers. *)
From stdpp Require Export base gmap strings list sorting.

(** Hint databases of the development. *)
Create HintDb search.

Declare Scope search_scope.
Delimit Scope search_scope with search.

(** * Shared tactics *)

(** Split every conjunction, existential and boolean connective in the context. *)
Ltac split_hyps :=
  repeat match goal with
  | H : _ ∧ _ |- _ => destruct H
  | H : ∃ _, _ |- _ => destruct H
  | H : _ && _ = true |- _ => apply andb_prop in H
  | H : _ || _ = false |- _ => apply orb_false_elim in H
  | H : negb _ = true |- _ => apply negb_true_iff in H
  | H : negb _ = false |- _ => apply negb_false_iff in H
  end.

(** Case on the scrutinee of an [if] or a [match] of the goal and clean up. *)
Ltac case_goal := case_match; simplify_eq/=; try done.

(** Evaluate the decisions of closed equations in the goal. *)
Ltac eval_decides :=
  repeat match goal with
  | |- context [String.eqb ?a ?b] =>
      let v := eval vm_compute in (String.eqb a b) in
      lazymatch v with
      | true => change (String.eqb a b) with true
      | false => change (String.eqb a b) with false
      end
  | |- context [bool_decide (?a = ?b)] =>
      let v := eval vm_compute in (bool_decide (a = b)) in
      lazymatch v with
      | true => change (bool_decide (a = b)) with true
      | false => change (bool_decide (a = b)) with false
      end
  end; cbv iota.

(** * Generic list operations *)

Section lists.
Context {A B : Type}.
Implicit Types (l : list A).

(** [for i, x := range l { if p(x) { idx = i; break } }] with the index -1
    (no match) as [None]. *)
Fixpoint find_index (p : A → bool) l : option nat :=
  match l with
  | [] => None
  | x :: l => if p x then Some 0 else S <$> find_index p l
  end.

(** [append(l[:i], l[i+1:]...)] and [slices.Delete(l, i, i+1)]. *)
Definition delete_at (i : nat) l : list A := take i l ++ drop (S i) l.

(** The first element that satisfies [p], the Go loop with an early return. *)
Fixpoint find_first (p : A → bool) l : option A :=
  match l with
  | [] => None
  | x :: l => if p x then Some x else find_first p l
  end.
End lists.

(** * Lemmas on the shared operations *)

Section lists_lemmas.
Context {A B : Type}.
Implicit Types (l : list A) (p : A → bool).

Lemma find_index_None p l :
  find_index p l = None ↔ Forall (λ x, p x = false) l.
Proof.
  induction l as [|x l IH]; simpl; [by split|].
  rewrite Forall_cons. destruct (p x) eqn:Hp; [naive_solver|].
  destruct (find_index p l); naive_solver.
Qed.

Lemma find_index_Some p l i :
  find_index p l = Some i →
  ∃ x, l !! i = Some x ∧ p x = true ∧ Forall (λ y, p y = false) (take i l).
Proof.
  revert i. induction l as [|x l IH]; intros i; simpl; [done|].
  destruct (p x) eqn:Hp.
  - intros [= <-]. exists x. by rewrite take_0.
  - destruct (find_index p l) as [j|]; [|done]. intros [= <-].
    destruct (IH j eq_refl) as (y & Hy & Hpy & Hall). exists y. simpl.
    repeat split; auto.
Qed.

Lemma find_index_lt p l i : find_index p l = Some i → i < length l.
Proof.
  intros (x & Hx & _ & _)%find_index_Some. by eapply lookup_lt_Some.
Qed.

Lemma find_index_app_l p l1 l2 i :
  find_index p l1 = Some i → find_index p (l1 ++ l2) = Some i.
Proof.
  revert i. induction l1 as [|x l1 IH]; intros i; simpl; [done|].
  destruct (p x); [done|]. destruct (find_index p l1) as [j|]; [|done].
  intros [= <-]. by rewrite (IH j).
Qed.

Lemma find_index_app_r p l1 l2 :
  find_index p l1 = None →
  find_index p (l1 ++ l2) = (λ i, length l1 + i) <$> find_index p l2.
Proof.
  induction l1 as [|x l1 IH]; simpl; [by destruct (find_index p l2)|].
  destruct (p x); [done|]. destruct (find_index p l1) as [j|]; [done|].
  intros _. rewrite IH by done. by destruct (find_index p l2).
Qed.

Lemma delete_at_app l1 x l2 : delete_at (length l1) (l1 ++ x :: l2) = l1 ++ l2.
Proof.
  unfold delete_at. rewrite take_app_length.
  replace (S (length l1)) with (length l1 + 1) by lia.
  by rewrite drop_app_add.
Qed.

Lemma elem_of_delete_at i l x : x ∈ delete_at i l → x ∈ l.
Proof.
  unfold delete_at. rewrite elem_of_app.
  intros [H|H]; [eapply elem_of_take in H|eapply list_elem_of_lookup in H].
  - destruct H as (j & Hj & _). by eapply list_elem_of_lookup_2.
  - destruct H as (j & Hj). rewrite lookup_drop in Hj. by eapply list_elem_of_lookup_2.
Qed.

Lemma find_first_Some p l x :
  find_first p l = Some x → x ∈ l ∧ p x = true.
Proof.
  induction l as [|y l IH]; simpl; [done|].
  destruct (p y) eqn:Hp; [intros [= <-]|]; set_solver.
Qed.

Lemma find_first_None p l :
  find_first p l = None ↔ Forall (λ x, p x = false) l.
Proof.
  induction l as [|y l IH]; simpl; [by split|].
  rewrite Forall_cons. destruct (p y) eqn:Hp; naive_solver.
Qed.

Lemma existsb_elem p l : existsb p l = true ↔ ∃ x, x ∈ l ∧ p x = true.
Proof.
  rewrite existsb_exists. by setoid_rewrite list_elem_of_In.
Qed.

Lemma existsb_not_elem p l : existsb p l = false ↔ ∀ x, x ∈ l → p x = false.
Proof.
  rewrite <-not_true_iff_false, existsb_elem. split.
  - intros H x Hx. apply not_true_iff_false. eauto.
  - intros H (x & Hx & Hp). rewrite H in Hp; done.
Qed.

Lemma concat_nil (ls : list (list A)) : concat ls = [] ↔ Forall (λ l, l = []) ls.
Proof.
  induction ls as [|l ls IH]; simpl; [by split|].
  by rewrite Forall_cons, <-IH, app_nil.
Qed.

Lemma concat_map_nil (f : A → list B) l : concat (map f l) = [] ↔ ∀ x, x ∈ l → f x = [].
Proof.
  induction l as [|x l IH]; simpl; [set_solver|]. split.
  - intros [Hx Hl]%app_nil y [->|Hy]%elem_of_cons; [done|]. by apply IH.
  - intros H. rewrite (H x) by left. apply IH. intros y Hy. apply H. by right.
Qed.

Lemma concat_imap_nil (f : nat → A → list B) l :
  concat (imap f l) = [] ↔ ∀ i x, l !! i = Some x → f i x = [].
Proof.
  revert f. induction l as [|x l IH]; intros f; simpl; [by split|].
  rewrite app_nil, (IH (f ∘ S)). split.
  - intros [Hx Hl] [|i] y Hy; simplify_eq/=; [done|by apply (Hl i)].
  - intros H. split; [by apply (H 0)|]. intros i y Hy. by apply (H (S i)).
Qed.

Lemma find_first_is_None p l : find_first p l = None ↔ ∀ x, x ∈ l → p x = false.
Proof.
  by rewrite find_first_None, Forall_forall.
Qed.

Lemma filter_nil_elem p l : (∀ x, x ∈ l → p x = false) → List.filter p l = [].
Proof.
  induction l as [|x l IH]; intros H; [done|]. cbn. rewrite (H x) by left.
  apply IH. intros y Hy. apply H. by right.
Qed.

Lemma forallb_elem p l : forallb p l = true ↔ ∀ x, x ∈ l → p x = true.
Proof.
  rewrite forallb_forall. by setoid_rewrite list_elem_of_In.
Qed.
End lists_lemmas.

(** Sorting by a key: two sorted lists with the same elements and pairwise
    distinct keys are equal, so the order in which a server lists objects does
    not matter after [sort.Slice] by name. *)
Section sort_by.
Context {A : Type} (key : A → string).

Definition key_le (x y : A) : Prop := String.le (key x) (key y).

#[export] Instance key_le_dec : ∀ x y, Decision (key_le x y).
Proof. intros x y. unfold key_le. apply _. Defined.

Definition sort_by : list A → list A := merge_sort key_le.

#[export] Instance key_le_trans : Transitive key_le.
Proof. intros x y z. unfold key_le. apply (transitivity (R:=String.le)). Qed.

#[export] Instance key_le_total : Total key_le.
Proof. intros x y. apply (total String.le). Qed.

Lemma sort_by_Permutation l : sort_by l ≡ₚ l.
Proof. apply merge_sort_Permutation. Qed.

Lemma elem_of_sort_by x l : x ∈ sort_by l ↔ x ∈ l.
Proof. by rewrite sort_by_Permutation. Qed.

Lemma NoDup_key_inj l x y :
  NoDup (key <$> l) → x ∈ l → y ∈ l → key x = key y → x = y.
Proof.
  induction l as [|z l IH]; [set_solver|].
  cbn [fmap list_fmap]. rewrite NoDup_cons. intros [Hz Hnd].
  rewrite !elem_of_cons. intros [->|Hx] [->|Hy] Heq; auto.
  - destruct Hz. rewrite Heq. by apply list_elem_of_fmap_2.
  - destruct Hz. rewrite <-Heq. by apply list_elem_of_fmap_2.
Qed.

Lemma sort_by_unique l1 l2 :
  l1 ≡ₚ l2 → NoDup (key <$> l1) → sort_by l1 = sort_by l2.
Proof.
  intros Hp Hnd. apply (StronglySorted_unique_strong key_le).
  - intros x y Hx Hy Hxy Hyx.
    apply (NoDup_key_inj l1); [done|..].
    + by rewrite elem_of_sort_by in Hx.
    + rewrite elem_of_sort_by in Hy. by rewrite Hp.
    + apply (anti_symm String.le); [exact Hxy|exact Hyx].
  - apply StronglySorted_merge_sort; apply _.
  - apply StronglySorted_merge_sort; apply _.
  - by rewrite !sort_by_Permutation.
Qed.
End sort_by.

#[export] Hint Resolve elem_of_delete_at : search.
