(* ===== verification/GoStrings.v ===== *)
(** Go's [strings] package, as far as the operator uses it, on byte strings, with
    the two character-class regular expressions reduced to tests on characters.
    A Go [string] is a sequence of bytes, here a [string] of [ascii]. *)
From S2P Require Import Prelude.
From Stdlib Require Import Ascii NArith.

Create Rewrite HintDb gostr.

(** The double quote, which string literals of the model do not contain. *)
Definition dq : string := String (ascii_of_N 34) "".
Definition nl : ascii := ascii_of_N 10.

Definition quoted (s : string) : string := dq +:+ s +:+ dq.

(** [strings.HasPrefix(s, p)] *)
Definition HasPrefix (s p : string) : bool := String.prefix p s.
#[global] Arguments HasPrefix : simpl never.

Fixpoint sdrop (n : nat) (s : string) : string :=
  match n, s with
  | S n, String _ s => sdrop n s
  | _, _ => s
  end.

Fixpoint stake (n : nat) (s : string) : string :=
  match n, s with
  | S n, String c s => String c (stake n s)
  | _, _ => ""
  end.

(** [strings.TrimPrefix(s, p)] *)
Definition TrimPrefix (s p : string) : string :=
  if HasPrefix s p then sdrop (String.length p) s else s.

(** [strings.HasSuffix(s, p)] *)
Definition HasSuffix (s p : string) : bool :=
  (String.length p <=? String.length s)%nat &&
  String.eqb (sdrop (String.length s - String.length p) s) p.

(** [strings.TrimSuffix(s, p)] *)
Definition TrimSuffix (s p : string) : string :=
  if HasSuffix s p then stake (String.length s - String.length p) s else s.

(** [strings.Contains(s, sub)] *)
Fixpoint Contains (s sub : string) : bool :=
  HasPrefix s sub ||
  match s with
  | EmptyString => false
  | String _ s => Contains s sub
  end.

(** [strings.Split(s, sep)] for a separator of one byte, the only kind the
    operator uses. The result is never empty. *)
Fixpoint Split (s : string) (sep : ascii) : list string :=
  match s with
  | EmptyString => [""]
  | String c s =>
      if Ascii.eqb c sep then "" :: Split s sep
      else match Split s sep with
           | [] => [String c ""]
           | x :: l => String c x :: l
           end
  end.

(** [strings.Join(l, sep)] *)
Fixpoint Join (l : list string) (sep : string) : string :=
  match l with
  | [] => ""
  | [x] => x
  | x :: l => x +:+ sep +:+ Join l sep
  end.

Definition in_range (lo hi c : ascii) : bool :=
  (N_of_ascii lo <=? N_of_ascii c)%N && (N_of_ascii c <=? N_of_ascii hi)%N.

Definition is_lower (c : ascii) : bool := in_range "a"%char "z"%char c.
Definition is_upper (c : ascii) : bool := in_range "A"%char "Z"%char c.
Definition is_digit (c : ascii) : bool := in_range "0"%char "9"%char c.
Definition is_one_of (s : string) (c : ascii) : bool :=
  existsb (Ascii.eqb c) (String.list_ascii_of_string s).

(** [^[class]*$] on a whole string. *)
Fixpoint all_chars (p : ascii → bool) (s : string) : bool :=
  match s with
  | EmptyString => true
  | String c s => p c && all_chars p s
  end.

(** The maximal prefix of characters in a class and what follows it. *)
Fixpoint span (p : ascii → bool) (s : string) : string * string :=
  match s with
  | EmptyString => ("", "")
  | String c s' =>
      if p c then let '(a, b) := span p s' in (String c a, b) else ("", s)
  end.

Definition to_lower (c : ascii) : ascii :=
  if is_upper c then ascii_of_N (N_of_ascii c + 32) else c.

(** [strings.EqualFold(s, t)] for a [t] whose letters have no case folding
    outside ASCII (true of the only argument used, the word true). *)
Fixpoint EqualFold (s t : string) : bool :=
  match s, t with
  | EmptyString, EmptyString => true
  | String c s, String d t => Ascii.eqb (to_lower c) (to_lower d) && EqualFold s t
  | _, _ => false
  end.

(** [fmt.Sprint] of a slice of strings: [[a b c]]. *)
Definition sprint_strings (l : list string) : string := "[" +:+ Join l " " +:+ "]".

(** A literal in which backquotes stand for double quotes. *)
Fixpoint ticks (s : string) : string :=
  match s with
  | EmptyString => EmptyString
  | String c s => String (if Ascii.eqb c (ascii_of_N 96) then ascii_of_N 34 else c) (ticks s)
  end.
#[global] Arguments ticks : simpl never.

Definition newline : string := String nl "".

(** * Lemmas *)

Lemma append_nil_l (s : string) : "" +:+ s = s.
Proof. done. Qed.

Lemma append_cons c (s t : string) : String c s +:+ t = String c (s +:+ t).
Proof. done. Qed.

Lemma append_nil_r (s : string) : s +:+ "" = s.
Proof. induction s as [|c s IH]; [done|]. by rewrite append_cons, IH. Qed.

Lemma append_assoc (s t u : string) : (s +:+ t) +:+ u = s +:+ t +:+ u.
Proof. induction s as [|c s IH]; [done|]. by rewrite !append_cons, IH. Qed.

Lemma length_append (s t : string) :
  String.length (s +:+ t) = String.length s + String.length t.
Proof. induction s as [|c s IH]; [done|]. rewrite append_cons. cbn. by rewrite IH. Qed.

Lemma append_inj_l (s t u : string) : s +:+ t = s +:+ u → t = u.
Proof. induction s as [|c s IH]; [done|]. rewrite !append_cons. intros [= ?]. auto. Qed.

Lemma sdrop_append (s t : string) : sdrop (String.length s) (s +:+ t) = t.
Proof. induction s as [|c s IH]; [done|]. by rewrite append_cons. Qed.

Lemma stake_append (s t : string) : stake (String.length s) (s +:+ t) = s.
Proof. induction s as [|c s IH]; [by destruct t|]. rewrite append_cons. cbn. by rewrite IH. Qed.

Lemma HasPrefix_spec s p : HasPrefix s p = true ↔ ∃ t, s = p +:+ t.
Proof.
  unfold HasPrefix. revert s. induction p as [|c p IH]; intros s; cbn.
  - split; [intros _; by exists s|]. by destruct s.
  - destruct s as [|d s]; [split; [done|by intros [t ?]]|]; cbn.
    destruct (ascii_dec c d) as [<-|Hne].
    + rewrite IH. split; intros [t Ht]; exists t.
      * by rewrite append_cons, Ht.
      * rewrite append_cons in Ht. by simplify_eq.
    + split; [done|]. intros [t Ht]. rewrite append_cons in Ht. by simplify_eq.
Qed.

Lemma HasPrefix_append p t : HasPrefix (p +:+ t) p = true.
Proof. apply HasPrefix_spec. eauto. Qed.

Lemma HasPrefix_cons c s d p :
  HasPrefix (String c s) (String d p) = Ascii.eqb d c && HasPrefix s p.
Proof.
  unfold HasPrefix. cbn. destruct (ascii_dec d c) as [->|Hne].
  - by rewrite Ascii.eqb_refl.
  - by rewrite (proj2 (Ascii.eqb_neq d c) Hne).
Qed.

Lemma TrimPrefix_append p t : TrimPrefix (p +:+ t) p = t.
Proof. unfold TrimPrefix. by rewrite HasPrefix_append, sdrop_append. Qed.

Lemma TrimPrefix_no s p : HasPrefix s p = false → TrimPrefix s p = s.
Proof. unfold TrimPrefix. by intros ->. Qed.

Lemma HasSuffix_append t p : HasSuffix (t +:+ p) p = true.
Proof.
  unfold HasSuffix. rewrite length_append.
  replace (String.length t + String.length p - String.length p) with (String.length t) by lia.
  rewrite sdrop_append, String.eqb_refl, andb_true_r. apply Nat.leb_le. lia.
Qed.

Lemma TrimSuffix_append t p : TrimSuffix (t +:+ p) p = t.
Proof.
  unfold TrimSuffix. rewrite HasSuffix_append, length_append.
  replace (String.length t + String.length p - String.length p) with (String.length t) by lia.
  by rewrite stake_append.
Qed.

Lemma TrimSuffix_no s p : HasSuffix s p = false → TrimSuffix s p = s.
Proof. unfold TrimSuffix. by intros ->. Qed.

Lemma Contains_spec s sub : Contains s sub = true ↔ ∃ a b, s = a +:+ sub +:+ b.
Proof.
  induction s as [|c s IH]; cbn.
  - rewrite orb_false_r, HasPrefix_spec. split.
    + intros [t Ht]. by exists "", t.
    + intros (a & b & H). destruct a; [eauto|done].
  - rewrite orb_true_iff, HasPrefix_spec, IH. split.
    + intros [[t ->]|(a & b & ->)]; [by exists "", t|by exists (String c a), b].
    + intros (a & b & H). destruct a as [|d a]; [left; by exists b|right].
      rewrite append_cons in H. simplify_eq. eauto.
Qed.

Lemma Contains_middle a s b : Contains (a +:+ s +:+ b) s = true.
Proof. apply Contains_spec. eauto. Qed.

Lemma Contains_nil s : Contains s "" = true.
Proof. apply Contains_spec. by exists "", s. Qed.

Lemma Split_nonempty s sep : Split s sep ≠ [].
Proof. destruct s as [|c s]; cbn; [done|]. repeat case_match; done. Qed.

Lemma Join_cons x l sep : l ≠ [] → Join (x :: l) sep = x +:+ sep +:+ Join l sep.
Proof. by destruct l. Qed.

(** Splitting and joining with the same separator is the identity. *)
Lemma Join_Split s sep : Join (Split s sep) (String sep "") = s.
Proof.
  induction s as [|c s IH]; [done|]. cbn [Split].
  destruct (Ascii.eqb c sep) eqn:Hc.
  - apply Ascii.eqb_eq in Hc as ->. rewrite Join_cons by apply Split_nonempty.
    by rewrite IH.
  - destruct (Split s sep) as [|x l] eqn:Hs; [by destruct (Split_nonempty s sep)|].
    destruct l as [|y l]; cbn in *; [by rewrite IH|].
    by rewrite append_cons, IH.
Qed.

Lemma all_chars_append p s t : all_chars p (s +:+ t) = all_chars p s && all_chars p t.
Proof.
  induction s as [|c s IH]; [done|]. rewrite append_cons. cbn. by rewrite IH, andb_assoc.
Qed.

Lemma all_chars_elem p s :
  all_chars p s = true ↔ ∀ c, c ∈ String.list_ascii_of_string s → p c = true.
Proof.
  induction s as [|c s IH]; cbn.
  - split; [set_solver|done].
  - rewrite andb_true_iff, IH. setoid_rewrite elem_of_cons. naive_solver.
Qed.

Lemma all_chars_impl (p q : ascii → bool) s :
  (∀ c, p c = true → q c = true) → all_chars p s = true → all_chars q s = true.
Proof. rewrite !all_chars_elem. eauto. Qed.

Lemma span_append p s : (span p s).1 +:+ (span p s).2 = s.
Proof.
  induction s as [|c s IH]; [done|]. cbn. destruct (p c); [|done].
  destruct (span p s) as [a b]. cbn in *. by rewrite append_cons, IH.
Qed.

Lemma span_all p s : all_chars p (span p s).1 = true.
Proof.
  induction s as [|c s IH]; [done|]. cbn. destruct (p c) eqn:Hp; [|done].
  destruct (span p s) as [a b]. cbn in *. by rewrite Hp.
Qed.

#[export] Hint Rewrite append_nil_l append_nil_r append_assoc : gostr.
#[export] Hint Resolve HasPrefix_append HasSuffix_append Contains_middle Contains_nil : search.

Lemma Contains_refl s : Contains s s = true.
Proof. apply Contains_spec. exists "", "". by rewrite append_nil_l, append_nil_r. Qed.

Lemma Contains_append_l s t sub : Contains s sub = true → Contains (s +:+ t) sub = true.
Proof.
  rewrite !Contains_spec. intros (a & b & ->). exists a, (b +:+ t). by rewrite !append_assoc.
Qed.

Lemma Contains_append_r s t sub : Contains t sub = true → Contains (s +:+ t) sub = true.
Proof.
  rewrite !Contains_spec. intros (a & b & ->). exists (s +:+ a), b. by rewrite append_assoc.
Qed.

Lemma Contains_trans s t u : Contains s t = true → Contains t u = true → Contains s u = true.
Proof.
  intros (a & b & ->)%Contains_spec Ht. by apply Contains_append_r, Contains_append_l.
Qed.

(** A piece of a string between separators is part of the string. *)
Lemma elem_of_Split_Contains s sep x : x ∈ Split s sep → Contains s x = true.
Proof.
  rewrite <-(Join_Split s sep) at 2. generalize (Split s sep) as l.
  induction l as [|y l IH]; [set_solver|]. rewrite elem_of_cons.
  destruct l as [|z l]; [intros [<-|?]; [apply Contains_refl|set_solver]|].
  rewrite Join_cons by done. intros [<-|Hx]; [apply Contains_append_l, Contains_refl|].
  by apply Contains_append_r, Contains_append_r, IH.
Qed.

(** [s] does not contain the byte [c]. *)
Definition free_of (c : ascii) (s : string) : bool := all_chars (λ d, negb (Ascii.eqb d c)) s.

Lemma Split_free s sep : free_of sep s = true → Split s sep = [s].
Proof.
  induction s as [|c s IH]; [done|]. unfold free_of in *. cbn.
  intros [Hc Hs]%andb_true_iff. destruct (Ascii.eqb c sep); [done|]. by rewrite IH.
Qed.

Lemma Split_append s t sep :
  free_of sep s = true → Split (s +:+ String sep t) sep = s :: Split t sep.
Proof.
  induction s as [|c s IH]; rewrite ?append_nil_l, ?append_cons; unfold free_of in *; cbn.
  - by rewrite Ascii.eqb_refl.
  - intros [Hc Hs]%andb_true_iff. destruct (Ascii.eqb c sep); [done|]. by rewrite IH.
Qed.

(** Splitting undoes joining when no piece contains the separator. *)
Lemma Split_Join l sep :
  l ≠ [] → Forall (λ s, free_of sep s = true) l → Split (Join l (String sep "")) sep = l.
Proof.
  induction l as [|x l IH]; [done|]. intros _ Hl. apply Forall_cons in Hl as [Hx Hl].
  destruct l as [|y l]; [by apply Split_free|].
  rewrite Join_cons, append_cons, append_nil_l, Split_append by done. by rewrite IH.
Qed.
