(* ===== verification/K8s.v ===== *)
(** The Kubernetes object types the operator reads and writes, restricted to the
    fields its source mentions. The types are declared by [k8s.io/api] and
    friends; the kind and API version of an object ([TypeMeta]) are carried by
    its Rocq type. A Go map that may be nil is an [option (gmap _ _)] where the
    source tells nil from empty, a [gmap] elsewhere; machine integers are [Z]
    (all of them are small constants or values validated by the API server). *)
From S2P Require Import Prelude.

Abbreviation smap := (gmap string string).

(** [metav1.Time]; [Time{}] (what [IsZero] tests) is 0. *)
Abbreviation Time := Z.

(** Go errors, with the classification [k8s.io/apimachinery/pkg/api/errors]
    gives them and the text of [Error()]. *)
Inductive StatusReason := NotFound | AlreadyExists | Conflict | OtherReason.

Record error := mkError { err_reason : StatusReason; err_msg : string }.

(** [fmt.Errorf] with the formatted text. *)
Definition Errorf (msg : string) : error := mkError OtherReason msg.

Definition IsNotFound (e : error) : bool :=
  match err_reason e with NotFound => true | _ => false end.
Definition IsAlreadyExists (e : error) : bool :=
  match err_reason e with AlreadyExists => true | _ => false end.
Definition IsConflict (e : error) : bool :=
  match err_reason e with Conflict => true | _ => false end.

(** The result of a call that fills an object or fails. *)
Inductive result (A : Type) := Ok (a : A) | Err (e : error).
Arguments Ok {A} a.
Arguments Err {A} e.

Record NamespacedName := mkNN { nn_Name : string; nn_Namespace : string }.

Record OwnerReference := mkOwnerRef {
  or_APIVersion : string;
  or_Kind : string;
  or_Name : string;
  or_UID : string;
  or_Controller : option bool
}.

Record ObjectMeta := mkMeta {
  om_Name : string;
  om_Namespace : string;
  om_Labels : option smap;
  om_Annotations : option smap;
  om_OwnerReferences : list OwnerReference;
  om_Finalizers : list string;
  om_DeletionTimestamp : option Time;
  om_UID : string
}.

(** [metav1.ObjectMeta{Name: n, Namespace: ns}] *)
Definition newMeta (n ns : string) : ObjectMeta := mkMeta n ns None None [] [] None "".

Definition zeroMeta : ObjectMeta := newMeta "" "".

Definition set_Labels (l : option smap) (m : ObjectMeta) : ObjectMeta :=
  mkMeta (om_Name m) (om_Namespace m) l (om_Annotations m) (om_OwnerReferences m)
    (om_Finalizers m) (om_DeletionTimestamp m) (om_UID m).
Definition set_Annotations (a : option smap) (m : ObjectMeta) : ObjectMeta :=
  mkMeta (om_Name m) (om_Namespace m) (om_Labels m) a (om_OwnerReferences m)
    (om_Finalizers m) (om_DeletionTimestamp m) (om_UID m).
Definition set_OwnerReferences (o : list OwnerReference) (m : ObjectMeta) : ObjectMeta :=
  mkMeta (om_Name m) (om_Namespace m) (om_Labels m) (om_Annotations m) o
    (om_Finalizers m) (om_DeletionTimestamp m) (om_UID m).
Definition set_Finalizers (f : list string) (m : ObjectMeta) : ObjectMeta :=
  mkMeta (om_Name m) (om_Namespace m) (om_Labels m) (om_Annotations m) (om_OwnerReferences m)
    f (om_DeletionTimestamp m) (om_UID m).

(** Go map reads: a nil map reads as empty, a missing key as the zero value. *)
Definition map_of (m : option smap) : smap := default ∅ m.
Definition get_str (m : option smap) (k : string) : string := default "" (map_of m !! k).
Definition has_key (m : option smap) (k : string) : bool := bool_decide (is_Some (map_of m !! k)).

(** [metav1.Condition]. *)
Record Condition := mkCondition {
  c_Type : string;
  c_Status : string;
  c_LastTransitionTime : Time;
  c_Reason : string;
  c_Message : string
}.
Definition zeroCondition : Condition := mkCondition "" "" 0 "" "".
Definition ConditionTrue : string := "True".
Definition ConditionFalse : string := "False".

(** * core/v1 *)

Record SecretKeySelector := mkSecretKeyRef { sk_Name : string; sk_Key : string }.

Record EnvVarSource := mkEnvVarSource {
  evs_FieldPath : option string;
  evs_SecretKeyRef : option SecretKeySelector;
  evs_ConfigMapKeyRef : option SecretKeySelector
}.

Record EnvVar := mkEnvVar {
  ev_Name : string;
  ev_Value : string;
  ev_ValueFrom : option EnvVarSource
}.

Record Toleration := mkToleration {
  tol_Key : string; tol_Operator : string; tol_Value : string;
  tol_Effect : string; tol_Seconds : option Z
}.

(** [resource.Quantity], identified with the literal it is parsed from. *)
Record Quantity := MustParse { q_text : string }.

Abbreviation ResourceList := (gmap string Quantity).

Record ResourceRequirements := mkResources {
  rr_Requests : option ResourceList;
  rr_Limits : option ResourceList
}.

Inductive ProbeHandler :=
| HTTPGet (port : Z) (path scheme : string)
| ExecProbe (command : list string).

Record Probe := mkProbe {
  pr_InitialDelaySeconds : Z; pr_TimeoutSeconds : Z; pr_Handler : ProbeHandler
}.

Record VolumeMount := mkMount { vm_Name : string; vm_MountPath : string; vm_SubPath : string }.
Record ContainerPort := mkContainerPort { cp_Name : string; cp_Port : Z; cp_Protocol : string }.

Record SecurityContext := mkSecurityContext {
  sc_Privileged : option bool;
  sc_AllowPrivilegeEscalation : option bool;
  sc_ReadOnlyRootFilesystem : option bool;
  sc_RunAsNonRoot : option bool;
  sc_CapabilitiesDrop : list string
}.

Record PodSecurityContext := mkPodSecurityContext {
  psc_RunAsNonRoot : option bool;
  psc_SeccompProfileType : string
}.

Record Container := mkContainer {
  ct_Name : string;
  ct_Image : string;
  ct_Args : list string;
  ct_Ports : list ContainerPort;
  ct_Env : list EnvVar;
  ct_Resources : ResourceRequirements;
  ct_VolumeMounts : list VolumeMount;
  ct_LivenessProbe : option Probe;
  ct_ReadinessProbe : option Probe;
  ct_PreStop : option (list string);
  ct_ImagePullPolicy : string;
  ct_SecurityContext : option SecurityContext
}.

Inductive VolumeSource :=
| VSConfigMap (name : string)
| VSSecret (name : string) (defaultMode : option Z)
| VSEmptyDir (medium : string)
| VSPersistentVolumeClaim (claimName : string).

Record Volume := mkVolume { vol_Name : string; vol_Source : VolumeSource }.

Record PodSpec := mkPodSpec {
  ps_Containers : list Container;
  ps_Volumes : list Volume;
  ps_ServiceAccountName : string;
  ps_SecurityContext : option PodSecurityContext;
  ps_NodeSelector : option smap;
  ps_Tolerations : list Toleration;
  ps_TerminationGracePeriodSeconds : option Z
}.

Record DeploymentSpec := mkDeploymentSpec {
  ds_Replicas : option Z;
  ds_Selector : smap;
  ds_TemplateLabels : smap;
  ds_TemplateAnnotations : option smap;
  ds_PodSpec : PodSpec;
  ds_Strategy : string
}.

Record Deployment := mkDeployment { dep_Meta : ObjectMeta; dep_Spec : DeploymentSpec }.

Record ConfigMap := mkConfigMap { cm_Meta : ObjectMeta; cm_Data : option smap }.
Definition zeroConfigMap : ConfigMap := mkConfigMap zeroMeta None.

Record Secret := mkSecret { sec_Meta : ObjectMeta; sec_Type : string; sec_StringData : smap }.

Record ServicePort := mkServicePort {
  sp_Name : string; sp_Port : Z; sp_TargetPort : Z; sp_Protocol : string
}.
Record Service := mkService {
  svc_Meta : ObjectMeta; svc_Ports : list ServicePort; svc_Selector : smap
}.

Record ServiceAccount := mkServiceAccount { sa_Meta : ObjectMeta; sa_ImagePullSecrets : list string }.
Definition zeroServiceAccount : ServiceAccount := mkServiceAccount zeroMeta [].

Record PersistentVolumeClaim := mkPVC {
  pvc_Meta : ObjectMeta; pvc_AccessModes : list string;
  pvc_Requests : ResourceList; pvc_StorageClassName : option string
}.

Record PodCondition := mkPodCondition {
  pc_Type : string; pc_Status : string; pc_LastTransitionTime : Time;
  pc_Reason : string; pc_Message : string
}.
Record Pod := mkPod { pod_Meta : ObjectMeta; pod_Phase : string; pod_Conditions : list PodCondition }.

(** * rbac/v1 *)

Record PolicyRule := mkPolicyRule {
  pol_APIGroups : list string; pol_Resources : list string; pol_Verbs : list string
}.
Record RoleRef := mkRoleRef { rf_APIGroup : string; rf_Kind : string; rf_Name : string }.
Record Subject := mkSubject {
  sub_Kind : string; sub_APIGroup : string; sub_Name : string; sub_Namespace : string
}.
Record ClusterRole := mkClusterRole { cr_Meta : ObjectMeta; cr_Rules : list PolicyRule }.
Definition zeroClusterRole : ClusterRole := mkClusterRole zeroMeta [].
Record ClusterRoleBinding := mkClusterRoleBinding {
  crb_Meta : ObjectMeta; crb_RoleRef : RoleRef; crb_Subjects : list Subject
}.

(** * networking/v1 *)

Record PolicyPeer := mkPeer {
  peer_NamespaceSelector : option smap; peer_PodSelector : option smap
}.
Record PolicyPort := mkPolicyPort { pp_Protocol : string; pp_Port : Z }.
Record IngressRule := mkIngressRule { ing_From : list PolicyPeer; ing_Ports : list PolicyPort }.
Record EgressRule := mkEgressRule { eg_To : list PolicyPeer; eg_Ports : list PolicyPort }.
Record NetworkPolicySpec := mkNetworkPolicySpec {
  nps_PodSelector : smap;
  nps_PolicyTypes : list string;
  nps_Ingress : list IngressRule;
  nps_Egress : list EgressRule
}.
Record NetworkPolicy := mkNetworkPolicy { np_Meta : ObjectMeta; np_Spec : NetworkPolicySpec }.

(** * Monitoring, admission, add-on and cluster objects *)

Record Endpoint := mkEndpoint {
  ep_Port : string; ep_Scheme : string; ep_ScrapeTimeout : string; ep_Interval : string;
  ep_BearerTokenFile : string; ep_InsecureSkipVerify : option bool
}.
Record ServiceMonitor := mkServiceMonitor {
  sm_Meta : ObjectMeta; sm_JobLabel : string; sm_MatchNames : list string;
  sm_Endpoints : list Endpoint; sm_Selector : smap
}.

Record AlertRule := mkAlertRule {
  al_Alert : string; al_Expr : string; al_For : string; al_Labels : smap; al_Annotations : smap
}.
Record RuleGroup := mkRuleGroup { rg_Name : string; rg_Rules : list AlertRule }.
Record PrometheusRule := mkPrometheusRule { pru_Meta : ObjectMeta; pru_Groups : list RuleGroup }.

Record ValidatingWebhookConfiguration := mkVWC { vwc_Meta : ObjectMeta }.
Record ClusterManagementAddOn := mkCMA { cma_Meta : ObjectMeta }.

Record ClusterClaim := mkClaim { cl_Name : string; cl_Value : string }.
Record ManagedCluster := mkManagedCluster {
  mcl_Meta : ObjectMeta; mcl_ClusterClaims : list ClusterClaim
}.

(** * Unstructured objects of the dynamic client *)

(** [interface{}] values of a decoded JSON document. *)
Inductive json :=
| JNull
| JBool (b : bool)
| JNum (n : Z)
| JStr (s : string)
| JList (l : list json)
| JMap (m : list (string * json)).

Fixpoint jlookup (k : string) (m : list (string * json)) : option json :=
  match m with
  | [] => None
  | (k', v) :: m => if String.eqb k' k then Some v else jlookup k m
  end.

(** [m[k] = v] *)
Fixpoint jset (k : string) (v : json) (m : list (string * json)) : list (string * json) :=
  match m with
  | [] => [(k, v)]
  | (k', v') :: m => if String.eqb k' k then (k, v) :: m else (k', v') :: jset k v m
  end.

(** [delete(m, k)] *)
Fixpoint jdelete (k : string) (m : list (string * json)) : list (string * json) :=
  match m with
  | [] => []
  | (k', v') :: m => if String.eqb k' k then jdelete k m else (k', v') :: jdelete k m
  end.

(** Name and labels are what [GetName] and [GetLabels] return; [u_Object] holds
    the other top-level fields. *)
Record Unstructured := mkUnstructured {
  u_Name : string; u_Labels : option smap; u_Object : list (string * json)
}.

Record GroupVersionResource := mkGVR { gvr_Group : string; gvr_Version : string; gvr_Resource : string }.

(** * Decidable equality *)

#[export] Instance StatusReason_eq_dec : EqDecision StatusReason. Proof. solve_decision. Defined.
#[export] Instance error_eq_dec : EqDecision error. Proof. solve_decision. Defined.
#[export] Instance NamespacedName_eq_dec : EqDecision NamespacedName. Proof. solve_decision. Defined.
#[export] Program Instance NamespacedName_countable : Countable NamespacedName :=
  inj_countable' (λ n, (nn_Name n, nn_Namespace n)) (λ '(a, b), mkNN a b) _.
Next Obligation. by intros []. Qed.
#[export] Instance OwnerReference_eq_dec : EqDecision OwnerReference. Proof. solve_decision. Defined.
#[export] Instance ObjectMeta_eq_dec : EqDecision ObjectMeta. Proof. solve_decision. Defined.
#[export] Instance Condition_eq_dec : EqDecision Condition. Proof. solve_decision. Defined.
#[export] Instance SecretKeySelector_eq_dec : EqDecision SecretKeySelector. Proof. solve_decision. Defined.
#[export] Instance EnvVarSource_eq_dec : EqDecision EnvVarSource. Proof. solve_decision. Defined.
#[export] Instance EnvVar_eq_dec : EqDecision EnvVar. Proof. solve_decision. Defined.
#[export] Instance Toleration_eq_dec : EqDecision Toleration. Proof. solve_decision. Defined.
#[export] Instance Quantity_eq_dec : EqDecision Quantity. Proof. solve_decision. Defined.
#[export] Instance ResourceRequirements_eq_dec : EqDecision ResourceRequirements. Proof. solve_decision. Defined.
#[export] Instance ProbeHandler_eq_dec : EqDecision ProbeHandler. Proof. solve_decision. Defined.
#[export] Instance Probe_eq_dec : EqDecision Probe. Proof. solve_decision. Defined.
#[export] Instance VolumeMount_eq_dec : EqDecision VolumeMount. Proof. solve_decision. Defined.
#[export] Instance ContainerPort_eq_dec : EqDecision ContainerPort. Proof. solve_decision. Defined.
#[export] Instance SecurityContext_eq_dec : EqDecision SecurityContext. Proof. solve_decision. Defined.
#[export] Instance PodSecurityContext_eq_dec : EqDecision PodSecurityContext. Proof. solve_decision. Defined.
#[export] Instance Container_eq_dec : EqDecision Container. Proof. solve_decision. Defined.
#[export] Instance VolumeSource_eq_dec : EqDecision VolumeSource. Proof. solve_decision. Defined.
#[export] Instance Volume_eq_dec : EqDecision Volume. Proof. solve_decision. Defined.
#[export] Instance PodSpec_eq_dec : EqDecision PodSpec. Proof. solve_decision. Defined.
#[export] Instance DeploymentSpec_eq_dec : EqDecision DeploymentSpec. Proof. solve_decision. Defined.
#[export] Instance PolicyRule_eq_dec : EqDecision PolicyRule. Proof. solve_decision. Defined.
#[export] Instance RoleRef_eq_dec : EqDecision RoleRef. Proof. solve_decision. Defined.
#[export] Instance Subject_eq_dec : EqDecision Subject. Proof. solve_decision. Defined.
#[export] Instance PolicyPeer_eq_dec : EqDecision PolicyPeer. Proof. solve_decision. Defined.
#[export] Instance PolicyPort_eq_dec : EqDecision PolicyPort. Proof. solve_decision. Defined.
#[export] Instance IngressRule_eq_dec : EqDecision IngressRule. Proof. solve_decision. Defined.
#[export] Instance EgressRule_eq_dec : EqDecision EgressRule. Proof. solve_decision. Defined.
#[export] Instance NetworkPolicySpec_eq_dec : EqDecision NetworkPolicySpec. Proof. solve_decision. Defined.
#[export] Instance Endpoint_eq_dec : EqDecision Endpoint. Proof. solve_decision. Defined.
#[export] Instance AlertRule_eq_dec : EqDecision AlertRule. Proof. solve_decision. Defined.
#[export] Instance RuleGroup_eq_dec : EqDecision RuleGroup. Proof. solve_decision. Defined.
#[export] Instance GVR_eq_dec : EqDecision GroupVersionResource. Proof. solve_decision. Defined.

(** [equality.Semantic.DeepEqual] of [k8s.io/apimachinery]: equality up to nil
    and empty collections, which the model types of the specs identify. *)
Class SemanticEquality (A : Type) := {
  DeepEqual : A → A → bool;
  DeepEqual_spec x y : DeepEqual x y = true ↔ x = y
}.

#[export, refine] Instance SemanticEquality_dec {A} `{EqDecision A} : SemanticEquality A :=
  {| DeepEqual x y := bool_decide (x = y) |}.
Proof. intros x y. by rewrite bool_decide_eq_true. Defined.

(** * Lemmas on map reads and unstructured objects *)

Lemma DeepEqual_refl `{SemanticEquality A} x : DeepEqual x x = true.
Proof. by apply DeepEqual_spec. Qed.

Lemma DeepEqual_false `{SemanticEquality A} x y : DeepEqual x y = false ↔ x ≠ y.
Proof. by rewrite <-not_true_iff_false, DeepEqual_spec. Qed.

Lemma get_str_insert m k v : get_str (Some (<[k:=v]> (map_of m))) k = v.
Proof. unfold get_str. cbn. by rewrite lookup_insert_eq. Qed.

Lemma has_key_true m k : has_key m k = true ↔ is_Some (map_of m !! k).
Proof. unfold has_key. by rewrite bool_decide_eq_true. Qed.

Lemma has_key_false m k : has_key m k = false ↔ map_of m !! k = None.
Proof. unfold has_key. by rewrite bool_decide_eq_false, eq_None_not_Some. Qed.

Lemma has_key_insert m k v : has_key (Some (<[k:=v]> (map_of m))) k = true.
Proof. apply has_key_true. cbn. rewrite lookup_insert_eq. eauto. Qed.

Lemma jlookup_jset k v m : jlookup k (jset k v m) = Some v.
Proof.
  induction m as [|[k' v'] m IH]; cbn; [by rewrite String.eqb_refl|].
  destruct (String.eqb k' k) eqn:E; cbn; [by rewrite String.eqb_refl|]. by rewrite E.
Qed.

Lemma jlookup_jset_ne k k' v m : k ≠ k' → jlookup k' (jset k v m) = jlookup k' m.
Proof.
  intros Hne. induction m as [|[k2 v2] m IH]; cbn.
  - by rewrite (proj2 (String.eqb_neq k k') Hne).
  - destruct (String.eqb k2 k) eqn:E; cbn.
    + apply String.eqb_eq in E as ->. by rewrite (proj2 (String.eqb_neq k k') Hne).
    + by rewrite IH.
Qed.

Lemma jlookup_jdelete k m : jlookup k (jdelete k m) = None.
Proof.
  induction m as [|[k' v'] m IH]; cbn; [done|].
  destruct (String.eqb k' k) eqn:E; cbn; [done|]. by rewrite E.
Qed.

Lemma jlookup_jdelete_ne k k' m : k ≠ k' → jlookup k' (jdelete k m) = jlookup k' m.
Proof.
  intros Hne. induction m as [|[k2 v2] m IH]; cbn; [done|].
  destruct (String.eqb k2 k) eqn:E; cbn.
  - apply String.eqb_eq in E as ->. by rewrite (proj2 (String.eqb_neq k k') Hne).
  - by rewrite IH.
Qed.

#[export] Hint Resolve DeepEqual_refl has_key_insert : search.
