(* ===== verification/V1alpha1.v ===== *)
(** The API types of [src/api/v1alpha1]: the Search and CollectorConfig custom
    resources and their constants. *)
From S2P Require Import Prelude K8s.

(** * collectorconfig_types.go *)

(** [DataType] and [ActionType] are Go string types: any string is a value. *)
Abbreviation DataType := string (only parsing).
Definition DataTypeBytes : DataType := "bytes".
Definition DataTypeString : DataType := "string".
Definition DataTypeInteger : DataType := "integer".
Definition DataTypeFloat : DataType := "float".
Definition DataTypeBoolean : DataType := "boolean".

Abbreviation ActionType := string (only parsing).
Definition ActionInclude : ActionType := "include".
Definition ActionExclude : ActionType := "exclude".

Definition CollectorConfigConditionApplied : string := "Applied".
Definition IntegrationTeamLabel : string := "search.open-cluster-management.io/config-type".
Definition IntegrationTeamLabelValue : string := "integration".
Definition AnnotationManualOverride : string := "search.open-cluster-management.io/manual-override".
Definition CollectorConfigReasonApplied : string := "Applied".
Definition CollectorConfigReasonRulesSkipped : string := "RulesSkipped".
Definition CollectorConfigReasonLoadError : string := "LoadError".

Record LabelSelectorRequirement := mkLSR {
  lsr_Key : string; lsr_Operator : string; lsr_Values : list string
}.

Record NamespaceSelector := mkNamespaceSelector {
  ns_Include : list string;
  ns_Exclude : list string;
  ns_MatchExpressions : list LabelSelectorRequirement;
  ns_MatchLabels : smap
}.

Record CollectNamespaces := mkCollectNamespaces {
  cns_NamespaceSelector : option NamespaceSelector
}.

Record ResourceSelector := mkSelector {
  rs_APIGroups : list string;
  rs_Kinds : list string
}.

Record Field := mkField {
  f_Name : string;
  f_JSONPath : string;
  f_Type : DataType
}.

Record CollectionRule := mkRule {
  r_Action : ActionType;
  r_ResourceSelector : ResourceSelector;
  r_Fields : list Field;
  r_FieldSuffix : string;
  r_CollectAnnotations : option bool;
  r_CollectConditions : option bool;
  r_CollectAdditionalPrinterColumnsPriority : option Z
}.

(** [CollectorConfigSpec]; a nil rule list is the empty list. *)
Record CollectorConfigSpec := mkCCSpec {
  ccs_CollectNamespaces : option CollectNamespaces;
  ccs_CollectionRules : list CollectionRule
}.

Record CollectorConfig := mkCC {
  cc_Meta : ObjectMeta;
  cc_Spec : CollectorConfigSpec;
  cc_Conditions : list Condition
}.

Definition emptyCCSpec : CollectorConfigSpec := mkCCSpec None [].

Definition cc_Name (c : CollectorConfig) : string := om_Name (cc_Meta c).
Definition cc_Labels (c : CollectorConfig) : option smap := om_Labels (cc_Meta c).
Definition cc_set_Meta (m : ObjectMeta) (c : CollectorConfig) : CollectorConfig :=
  mkCC m (cc_Spec c) (cc_Conditions c).
Definition cc_set_Spec (s : CollectorConfigSpec) (c : CollectorConfig) : CollectorConfig :=
  mkCC (cc_Meta c) s (cc_Conditions c).
Definition cc_set_Labels (l : option smap) (c : CollectorConfig) : CollectorConfig :=
  cc_set_Meta (set_Labels l (cc_Meta c)) c.
Definition cc_set_Conditions (cs : list Condition) (c : CollectorConfig) : CollectorConfig :=
  mkCC (cc_Meta c) (cc_Spec c) cs.

(** * search_types.go *)

Record DeploymentConfig := mkDeploymentConfig {
  dc_ReplicaCount : Z;
  dc_Resources : option ResourceRequirements;
  dc_ImageOverride : string;
  dc_Arguments : list string;
  dc_Env : list EnvVar
}.
Definition zeroDeploymentConfig : DeploymentConfig := mkDeploymentConfig 0 None "" [] [].

Record SearchDeployments := mkSearchDeployments {
  sd_Database : DeploymentConfig;
  sd_Indexer : DeploymentConfig;
  sd_Collector : DeploymentConfig;
  sd_QueryAPI : DeploymentConfig
}.

Record StorageSpec := mkStorageSpec {
  ss_StorageClassName : string;
  ss_Size : option Quantity
}.

Record SearchSpec := mkSearchSpec {
  sp_DBStorage : StorageSpec;
  sp_DBConfig : string;
  sp_Deployments : SearchDeployments;
  sp_AvailabilityConfig : string;
  sp_ExternalDBInstance : string;
  sp_ImagePullSecret : string;
  sp_ImagePullPolicy : string;
  sp_NodeSelector : option smap;
  sp_Tolerations : option (list Toleration)
}.

Definition zeroSearchSpec : SearchSpec :=
  mkSearchSpec (mkStorageSpec "" None) ""
    (mkSearchDeployments zeroDeploymentConfig zeroDeploymentConfig zeroDeploymentConfig
       zeroDeploymentConfig)
    "" "" "" "" None None.

Record SearchStatus := mkSearchStatus {
  st_DB : string;
  st_Storage : string;
  st_Conditions : list Condition
}.

Record Search := mkSearch {
  s_Meta : ObjectMeta;
  s_Spec : SearchSpec;
  s_Status : SearchStatus
}.

Definition s_Name (s : Search) : string := om_Name (s_Meta s).
Definition s_Namespace (s : Search) : string := om_Namespace (s_Meta s).
Definition s_Annotations (s : Search) : option smap := om_Annotations (s_Meta s).

Definition s_set_Meta (m : ObjectMeta) (s : Search) : Search := mkSearch m (s_Spec s) (s_Status s).
Definition s_set_Status (st : SearchStatus) (s : Search) : Search := mkSearch (s_Meta s) (s_Spec s) st.
Definition s_set_Conditions (cs : list Condition) (s : Search) : Search :=
  s_set_Status (mkSearchStatus (st_DB (s_Status s)) (st_Storage (s_Status s)) cs) s.
Definition s_Conditions (s : Search) : list Condition := st_Conditions (s_Status s).

(** [instance.Spec.Deployments.QueryAPI.Env = e] *)
Definition s_set_QueryAPIEnv (e : list EnvVar) (s : Search) : Search :=
  let sp := s_Spec s in
  let d := sp_Deployments sp in
  let q := sd_QueryAPI d in
  let q' := mkDeploymentConfig (dc_ReplicaCount q) (dc_Resources q) (dc_ImageOverride q)
              (dc_Arguments q) e in
  mkSearch (s_Meta s)
    (mkSearchSpec (sp_DBStorage sp) (sp_DBConfig sp)
       (mkSearchDeployments (sd_Database d) (sd_Indexer d) (sd_Collector d) q')
       (sp_AvailabilityConfig sp) (sp_ExternalDBInstance sp)
       (sp_ImagePullSecret sp) (sp_ImagePullPolicy sp) (sp_NodeSelector sp) (sp_Tolerations sp))
    (s_Status s).
Definition s_QueryAPIEnv (s : Search) : list EnvVar := dc_Env (sd_QueryAPI (sp_Deployments (s_Spec s))).

(** [searchv1alpha1.GroupVersion.String()] *)
Definition GroupVersion : string := "search.open-cluster-management.io/v1alpha1".

(** * Decidable equality *)

#[export] Instance LSR_eq_dec : EqDecision LabelSelectorRequirement. Proof. solve_decision. Defined.
#[export] Instance NamespaceSelector_eq_dec : EqDecision NamespaceSelector. Proof. solve_decision. Defined.
#[export] Instance CollectNamespaces_eq_dec : EqDecision CollectNamespaces. Proof. solve_decision. Defined.
#[export] Instance ResourceSelector_eq_dec : EqDecision ResourceSelector. Proof. solve_decision. Defined.
#[export] Instance Field_eq_dec : EqDecision Field. Proof. solve_decision. Defined.
#[export] Instance CollectionRule_eq_dec : EqDecision CollectionRule. Proof. solve_decision. Defined.
#[export] Instance CollectorConfigSpec_eq_dec : EqDecision CollectorConfigSpec. Proof. solve_decision. Defined.
#[export] Instance CollectorConfig_eq_dec : EqDecision CollectorConfig. Proof. solve_decision. Defined.
#[export] Instance DeploymentConfig_eq_dec : EqDecision DeploymentConfig. Proof. solve_decision. Defined.
#[export] Instance SearchDeployments_eq_dec : EqDecision SearchDeployments. Proof. solve_decision. Defined.
#[export] Instance StorageSpec_eq_dec : EqDecision StorageSpec. Proof. solve_decision. Defined.
#[export] Instance SearchSpec_eq_dec : EqDecision SearchSpec. Proof. solve_decision. Defined.
#[export] Instance SearchStatus_eq_dec : EqDecision SearchStatus. Proof. solve_decision. Defined.
#[export] Instance Search_eq_dec : EqDecision Search. Proof. solve_decision. Defined.
