(* ===== verification/Memory.v ===== *)
(** Go memory, for the code whose correctness is about sharing: structs are values
    whose pointers, slices and maps are locations of a heap. [Mem] is the monad of
    functions that read and write it, [fresh_in] says of such a function that it
    leaves the memory it found as it was and that its result lives in new memory
    only, and [Copied] is what a type promises about its [DeepCopyInto]. *)
From S2P Require Import Prelude K8s.

(** * Heaps *)

Abbreviation loc := positive.
Abbreviation heap Cell := (gmap loc Cell).

(** Go types that are stored at a location of their own. *)
Class Stored (Cell A : Type) := {
  cell : A → Cell;
  uncell : Cell → option A;
  uncell_cell a : uncell (cell a) = Some a;
  cell_uncell c a : uncell c = Some a → c = cell a
}.

(** A computation fails on a location that holds nothing of the type it is used at. *)
Definition Mem (Cell A : Type) : Type := heap Cell → option (A * heap Cell).

#[export] Instance Mem_ret Cell : MRet (Mem Cell) := λ A a h, Some (a, h).
#[export] Instance Mem_bind Cell : MBind (Mem Cell) := λ A B f p h,
  match p h with Some (a, h') => f a h' | None => None end.

(** A location above those in use. *)
Definition fresh_loc {Cell} (h : heap Cell) : loc := Pos.succ (map_fold (λ l _ m, Pos.max l m) 1%positive h).

Section operations.
Context {Cell : Type}.

(** [*p], [*p = x] and [&x] of a variable that escapes. *)
Definition load {A} `{Stored Cell A} (l : loc) : Mem Cell A := λ h,
  match h !! l with Some c => (λ a, (a, h)) <$> uncell c | None => None end.
Definition store {A} `{Stored Cell A} (l : loc) (a : A) : Mem Cell unit := λ h,
  match h !! l with Some _ => Some ((), <[l := cell a]> h) | None => None end.
Definition new {A} `{Stored Cell A} (a : A) : Mem Cell loc := λ h,
  let l := fresh_loc h in Some (l, <[l := cell a]> h).

(** [if in.F != nil { *out = new(T); in.F.DeepCopyInto(out.F) }]; what the function
    writes through [out] is its result. *)
Definition copyPointer {A} `{Stored Cell A} (DeepCopyInto : A → Mem Cell A) (p : option loc) : Mem Cell (option loc) :=
  match p with
  | None => mret None
  | Some l => x ← load l; y ← DeepCopyInto x; l' ← new y; mret (Some l')
  end.

(** The same with [make] and a loop over the elements, or [copy] for elements that
    are copied by assignment. A location holds the visible part of the array. *)
Definition copySlice {A} `{Stored Cell (list A)} (DeepCopyInto : A → Mem Cell A) (p : option loc) : Mem Cell (option loc) :=
  match p with
  | None => mret None
  | Some l => xs ← load l; ys ← mapM DeepCopyInto xs; l' ← new ys; mret (Some l')
  end.

(** The same with [make] and an assignment for every entry, in some order. *)
Definition copyMap `{Stored Cell smap} (p : option loc) : Mem Cell (option loc) :=
  match p with
  | None => mret None
  | Some l => m ← load l; l' ← new (list_to_map (map_to_list m) : smap); mret (Some l')
  end.
End operations.

(** * What a location stands for *)

Section shapes.
Context {Cell : Type}.

(** A Go value of type [G] stands in a heap for a value of type [T]. *)
Abbreviation shape G T := (heap Cell → G → T → Prop).

Definition value {A} : shape A A := λ _ x y, x = y.

Definition pointer {A T} `{Stored Cell A} (P : shape A T) : shape (option loc) (option T) := λ h p t,
  match p, t with
  | None, None => True
  | Some l, Some t => ∃ x, h !! l = Some (cell x) ∧ P h x t
  | _, _ => False
  end.

Definition slice {A T} `{Stored Cell (list A)} (P : shape A T) : shape (option loc) (option (list T)) :=
  pointer (λ h, Forall2 (P h)).

Definition gomap `{Stored Cell smap} : shape (option loc) (option smap) := pointer value.

(** Where the model does not tell nil from empty. *)
Definition sliceOf {A T} `{Stored Cell (list A)} (P : shape A T) : shape (option loc) (list T) :=
  λ h p ts, ∃ o, slice P h p o ∧ ts = default [] o.
Definition mapOf `{Stored Cell smap} : shape (option loc) smap :=
  λ h p m, ∃ o, gomap h p o ∧ m = map_of o.

(** More memory changes nothing. *)
Class Mono {G T} (P : shape G T) : Prop := mono h h' g t : h ⊆ h' → P h g t → P h' g t.

(** The memory the computation finds is untouched, and [Q] holds of its result in the
    memory it adds. *)
Definition fresh_in {A} (h : heap Cell) (p : Mem Cell A) (Q : heap Cell → A → Prop) : Prop :=
  ∃ a m, h ##ₘ m ∧ p h = Some (a, h ∪ m) ∧ ∀ m', m ⊆ m' → Q m' a.

(** [f] copies what [P] describes: the copy stands for the same, on its own. *)
Class Copied {G T} (P : shape G T) (f : G → Mem Cell G) : Prop := {
  #[global] copied_mono :: Mono P;
  copied_fresh h g t : P h g t → fresh_in h (f g) (λ m g', P m g' t)
}.

(** A copy made by [copy] shares nothing with its original: it is made in new memory
    [m], the old stays as it was, and whatever is then written in the one leaves what
    lies in the other. *)
Definition independent_copy {G T} (P : shape G T) (copy : G → Mem Cell G) : Prop := ∀ h p t, P h p t →
  ∃ p' m, copy p h = Some (p', h ∪ m) ∧ h ##ₘ m ∧
    (∀ h', h' ##ₘ m → P (h' ∪ m) p' t) ∧ (∀ m', P (h ∪ m') p t).

(** ** Lemmas *)

Lemma fresh_loc_fresh (h : heap Cell) : h !! fresh_loc h = None.
Proof.
  assert (Hlt : ∀ l c, h !! l = Some c → (l < fresh_loc h)%positive).
  { unfold fresh_loc. intros l c Hl. apply Pos.lt_succ_r. revert l c Hl.
    apply (map_fold_weak_ind (λ r h', ∀ l c, h' !! l = Some c → (l ≤ r)%positive)).
    - intros l c. by rewrite lookup_empty.
    - intros i x h' r Hi IH l c [[<- _]|[_ Hl]]%lookup_insert_Some; [lia|]. specialize (IH _ _ Hl). lia. }
  destruct (h !! fresh_loc h) as [c|] eqn:Hc; [|done]. apply Hlt in Hc. lia.
Qed.

Lemma fresh_in_ret {A} h (a : A) (Q : heap Cell → A → Prop) : (∀ m, Q m a) → fresh_in h (mret a) Q.
Proof.
  intros HQ. exists a, ∅. split; [apply map_disjoint_empty_r|]. split; [by rewrite map_union_empty|]. by intros.
Qed.

(** Sequencing: the rest runs in a larger heap, and may rely on the first part in
    whatever memory there is in the end. *)
Lemma fresh_in_bind {A B} h (p : Mem Cell A) (f : A → Mem Cell B) Q (R : heap Cell → B → Prop) :
  fresh_in h p Q → (∀ a h', h ⊆ h' → fresh_in h' (f a) (λ m b, Q m a → R m b)) → fresh_in h (p ≫= f) R.
Proof.
  intros (a & m1 & Hd1 & Hp & HQ) Hf.
  destruct (Hf a (h ∪ m1)) as (b & m2 & Hd2 & Hr & HR); [apply map_union_subseteq_l|].
  apply map_disjoint_union_l in Hd2 as Hd. destruct Hd as [Hd3 Hd4].
  exists b, (m1 ∪ m2). split; [by apply map_disjoint_union_r|]. split.
  - unfold mbind, Mem_bind. by rewrite Hp, Hr, map_union_assoc.
  - intros m' Hm. apply HR; [|apply HQ]; (etrans; [|exact Hm]); [by apply map_union_subseteq_r|apply map_union_subseteq_l].
Qed.

Lemma fresh_in_load {A B} `{Stored Cell A} h l (x : A) (f : A → Mem Cell B) R :
  h !! l = Some (cell x) → fresh_in h (f x) R → fresh_in h (load l ≫= f) R.
Proof.
  intros Hl (b & m & Hd & Hf & HR). exists b, m. split; [done|]. split; [|done].
  unfold mbind, Mem_bind, load. by rewrite Hl, uncell_cell.
Qed.

Lemma fresh_in_new {A} `{Stored Cell A} h (x : A) : fresh_in h (new x) (λ m l, m !! l = Some (cell x)).
Proof.
  exists (fresh_loc h), {[fresh_loc h := cell x]}. pose proof (fresh_loc_fresh h) as Hf. split_and!.
  - by apply map_disjoint_singleton_r.
  - unfold new. by rewrite <-insert_union_singleton_r.
  - intros m' Hm. by apply map_singleton_subseteq_l.
Qed.

Lemma fresh_in_copy {G T} (P : shape G T) f h g t : P h g t → Copied P f → fresh_in h (f g) (λ m g', P m g' t).
Proof. intros Hp [_ Hf]. by apply Hf. Qed.

Lemma copied_independent {G T} (P : shape G T) f `{!Copied P f} : independent_copy P f.
Proof.
  intros h p t Hp. destruct (copied_fresh h p t Hp) as (p' & m & Hd & Hf & HQ). exists p', m. split_and!; [done..| |].
  - intros h' Hd'. apply HQ. by apply map_union_subseteq_r.
  - intros m'. eapply mono; [apply map_union_subseteq_l|done].
Qed.

Lemma fresh_in_mapM {A T} (P : shape A T) f `{!Copied P f} xs ts h :
  Forall2 (P h) xs ts → fresh_in h (mapM f xs) (λ m ys, Forall2 (P m) ys ts).
Proof.
  intros Hx. revert h Hx. revert ts. induction xs as [|x xs IH]; intros ts h Hx; inversion_clear Hx as [|? t ? ts' Hp Hr].
  - apply fresh_in_ret. by intros m.
  - cbn [mapM]. eapply fresh_in_bind; [by eapply fresh_in_copy|]. intros y h1 Hs1.
    eapply fresh_in_bind; [apply (IH ts'); eapply Forall2_impl; [exact Hr|]; intros; by eapply mono|].
    intros ys h2 Hs2. apply fresh_in_ret. by constructor.
Qed.
End shapes.

(** * The idioms of deep copies are copies *)

Section copies.
Context {Cell : Type}.

#[export] Instance mono_value {A} : Mono (Cell:=Cell) (@value Cell A).
Proof. by intros h h' g t _. Qed.

#[export] Instance copied_value {A} : Copied (Cell:=Cell) (@value Cell A) mret.
Proof. split; [apply _|]. intros h g t ->. by apply fresh_in_ret. Qed.

#[export] Instance mono_pointer {A T} `{Stored Cell A} (P : heap Cell → A → T → Prop) `{!Mono P} : Mono (pointer P).
Proof.
  intros h h' [l|] [t|] Hs; [|done..]. intros (x & Hx & Hp). exists x. split; [by eapply lookup_weaken|by eapply mono].
Qed.

#[export] Instance mono_Forall2 {A T} (P : heap Cell → A → T → Prop) `{!Mono P} : Mono (λ h, Forall2 (P h)).
Proof. intros h h' xs ts Hs Hx. eapply Forall2_impl; [exact Hx|]. intros. by eapply mono. Qed.

#[export] Instance copied_pointer {A T} `{Stored Cell A} (P : heap Cell → A → T → Prop) f `{!Copied P f} :
  Copied (pointer P) (copyPointer f).
Proof.
  split; [apply _|]. intros h [l|] [t|] Hp; try done; [|by apply fresh_in_ret]. destruct Hp as (x & Hx & Hp).
  eapply fresh_in_load; [done|]. eapply fresh_in_bind; [by eapply fresh_in_copy|]. intros y h1 _.
  eapply fresh_in_bind; [apply fresh_in_new|]. intros l' h2 _. apply fresh_in_ret. intros m Hl Hy. by exists y.
Qed.

#[export] Instance copied_slice {A T} `{Stored Cell (list A)} (P : heap Cell → A → T → Prop) f `{!Copied P f} :
  Copied (slice P) (copySlice f).
Proof.
  split; [apply _|]. intros h [l|] [t|] Hp; try done; [|by apply fresh_in_ret]. destruct Hp as (xs & Hx & Hp).
  eapply fresh_in_load; [done|]. eapply fresh_in_bind; [by eapply (fresh_in_mapM P)|]. intros ys h1 _.
  eapply fresh_in_bind; [apply fresh_in_new|]. intros l' h2 _. apply fresh_in_ret. intros m Hl Hy. by exists ys.
Qed.

#[export] Instance copied_gomap `{Stored Cell smap} : Copied gomap copyMap.
Proof.
  split; [apply _|]. intros h [l|] [t|] Hp; try done; [|by apply fresh_in_ret]. destruct Hp as (m & Hm & ->).
  eapply fresh_in_load; [done|]. rewrite list_to_map_to_list.
  eapply fresh_in_bind; [apply fresh_in_new|]. intros l' h2 _. apply fresh_in_ret. intros m' Hl. by exists t.
Qed.

(** A coarser view of the same memory is copied with it. *)
Lemma copied_view {G S T} (P : heap Cell → G → S → Prop) (v : S → T) f :
  Copied P f → Copied (λ h g t, ∃ s, P h g s ∧ t = v s) f.
Proof.
  intros HC. split.
  - intros h h' g t Hs (s & Hp & ->). exists s. split; [by eapply mono|done].
  - intros h g t (s & Hp & ->). destruct (copied_fresh h g s Hp) as (g' & m & Hd & Hf & HQ).
    exists g', m. split_and!; [done..|]. intros m' Hm. exists s. split; [by apply HQ|done].
Qed.

#[export] Instance copied_sliceOf {A T} `{Stored Cell (list A)} (P : heap Cell → A → T → Prop) f `{!Copied P f} :
  Copied (sliceOf P) (copySlice f).
Proof. apply copied_view, _. Qed.

#[export] Instance copied_mapOf `{Stored Cell smap} : Copied mapOf copyMap.
Proof. apply copied_view, _. Qed.
End copies.
