(* ===== verification/DeepCopies.v ===== *)
(** [src/api/v1alpha1/zz_generated.deepcopy.go] on Go memory: the structs of the API as
    they lie in memory, their copies, and that a copy shares nothing with what it was
    made from. [addBackupLabel] needs that: it copies a CollectorConfig, edits the
    labels of the original in place and sends what differs.

    Parameters (classes [LibraryTypes], [LibraryCopies], laws [LibraryLaws]): the
    structs of [k8s.io/api] and [k8s.io/apimachinery] that are copied by their own
    [DeepCopyInto], which by its documentation is such a copy. *)
From Stdlib Require Import String.
From S2P Require Import Prelude K8s V1alpha1 Memory.

Local Open Scope string_scope.

(** * The structs in memory *)

(** Structs of the libraries, and what they keep in memory; of [ObjectMeta] the owner
    references, the finalizers and the time of deletion. *)
Class LibraryTypes := {
  LibraryCell : Type;
  goMetaRest : Type; goListMeta : Type; goCondition : Type; goRequirement : Type;
  goResources : Type; goEnvVar : Type; goToleration : Type; goQuantity : Type;
  ListMeta : Type
}.

Record TypeMeta := mkTypeMeta { tm_Kind : string; tm_APIVersion : string }.

Record goObjectMeta `{LibraryTypes} := mkGoMeta {
  gm_Name : string; gm_Namespace : string; gm_UID : string;
  gm_Labels : option loc; gm_Annotations : option loc; gm_Rest : goMetaRest
}.

Record goNamespaceSelector := mkGoNamespaceSelector {
  gns_Include : option loc; gns_Exclude : option loc;
  gns_MatchExpressions : option loc; gns_MatchLabels : option loc
}.
Record goCollectNamespaces := mkGoCollectNamespaces { gcn_NamespaceSelector : option loc }.
Record goResourceSelector := mkGoSelector { grs_APIGroups : option loc; grs_Kinds : option loc }.
Record goCollectionRule := mkGoRule {
  gr_Action : ActionType; gr_ResourceSelector : goResourceSelector; gr_Fields : option loc;
  gr_FieldSuffix : string; gr_CollectAnnotations : option loc; gr_CollectConditions : option loc;
  gr_CollectAdditionalPrinterColumnsPriority : option loc
}.
Record goCollectorConfigSpec := mkGoCCSpec { gcs_CollectNamespaces : option loc; gcs_CollectionRules : option loc }.
Record goCollectorConfigStatus := mkGoCCStatus { gcst_Conditions : option loc }.
Record goCollectorConfig `{LibraryTypes} := mkGoCC {
  gcc_Type : TypeMeta; gcc_Meta : goObjectMeta; gcc_Spec : goCollectorConfigSpec; gcc_Status : goCollectorConfigStatus
}.
Record goCollectorConfigList `{LibraryTypes} := mkGoCCList {
  gcl_Type : TypeMeta; gcl_Meta : goListMeta; gcl_Items : option loc
}.

Record goDeploymentConfig := mkGoDeployment {
  gd_ReplicaCount : Z; gd_Resources : option loc; gd_ImageOverride : string;
  gd_Arguments : option loc; gd_Env : option loc
}.
Record goSearchDeployments := mkGoDeployments {
  gsd_Database : goDeploymentConfig; gsd_Indexer : goDeploymentConfig;
  gsd_Collector : goDeploymentConfig; gsd_QueryAPI : goDeploymentConfig
}.
Record goStorageSpec := mkGoStorage { gss_StorageClassName : string; gss_Size : option loc }.
Record goSearchSpec := mkGoSearchSpec {
  gs_DBStorage : goStorageSpec; gs_DBConfig : string; gs_Deployments : goSearchDeployments;
  gs_AvailabilityConfig : string; gs_ExternalDBInstance : string; gs_ImagePullSecret : string;
  gs_ImagePullPolicy : string; gs_NodeSelector : option loc; gs_Tolerations : option loc
}.
Record goSearchStatus := mkGoSearchStatus { gst_DB : string; gst_Storage : string; gst_Conditions : option loc }.
Record goSearch `{LibraryTypes} := mkGoSearch {
  gse_Type : TypeMeta; gse_Meta : goObjectMeta; gse_Spec : goSearchSpec; gse_Status : goSearchStatus
}.
Record goSearchList `{LibraryTypes} := mkGoSearchList {
  gsl_Type : TypeMeta; gsl_Meta : goListMeta; gsl_Items : option loc
}.

(** What a location of the program holds: the target of a pointer, the elements of a
    slice or the entries of a map. *)
Inductive Cell `{LibraryTypes} :=
| CStrings (l : list string) | CFields (l : list Field) | CBool (b : bool) | CInt (z : Z) | CMap (m : smap)
| CNamespaceSelector (x : goNamespaceSelector) | CCollectNamespaces (x : goCollectNamespaces)
| CResourceSelector (x : goResourceSelector) | CField (x : Field)
| CRule (x : goCollectionRule) | CRules (l : list goCollectionRule)
| CSpec (x : goCollectorConfigSpec) | CStatus (x : goCollectorConfigStatus)
| CConfig (x : goCollectorConfig) | CConfigs (l : list goCollectorConfig) | CConfigList (x : goCollectorConfigList)
| CDeployment (x : goDeploymentConfig) | CDeployments (x : goSearchDeployments) | CStorage (x : goStorageSpec)
| CSearchSpec (x : goSearchSpec) | CSearchStatus (x : goSearchStatus)
| CSearch (x : goSearch) | CSearches (l : list goSearch) | CSearchList (x : goSearchList)
| CConditions (l : list goCondition) | CRequirements (l : list goRequirement) | CResources (x : goResources)
| CEnv (l : list goEnvVar) | CTolerations (l : list goToleration) | CQuantity (x : goQuantity)
| CLibrary (c : LibraryCell).

(** The constructor of a Go type is the one whose argument has that type. *)
Ltac stored C :=
  refine {| cell := C; uncell := ltac:(let c := fresh in intros c; case c; let x := fresh in intros x;
                                       first [exact (Some x) | exact None]) |};
  [reflexivity | intros []; intros; simplify_eq/=; reflexivity].

Section stored.
Context `{LibraryTypes}.

#[export] Instance stored_strings : Stored Cell (list string). Proof. stored CStrings. Defined.
#[export] Instance stored_fields : Stored Cell (list Field). Proof. stored CFields. Defined.
#[export] Instance stored_bool : Stored Cell bool. Proof. stored CBool. Defined.
#[export] Instance stored_int : Stored Cell Z. Proof. stored CInt. Defined.
#[export] Instance stored_map : Stored Cell smap. Proof. stored CMap. Defined.
#[export] Instance stored_namespaceSelector : Stored Cell goNamespaceSelector. Proof. stored CNamespaceSelector. Defined.
#[export] Instance stored_collectNamespaces : Stored Cell goCollectNamespaces. Proof. stored CCollectNamespaces. Defined.
#[export] Instance stored_resourceSelector : Stored Cell goResourceSelector. Proof. stored CResourceSelector. Defined.
#[export] Instance stored_field : Stored Cell Field. Proof. stored CField. Defined.
#[export] Instance stored_rule : Stored Cell goCollectionRule. Proof. stored CRule. Defined.
#[export] Instance stored_rules : Stored Cell (list goCollectionRule). Proof. stored CRules. Defined.
#[export] Instance stored_spec : Stored Cell goCollectorConfigSpec. Proof. stored CSpec. Defined.
#[export] Instance stored_status : Stored Cell goCollectorConfigStatus. Proof. stored CStatus. Defined.
#[export] Instance stored_config : Stored Cell goCollectorConfig. Proof. stored CConfig. Defined.
#[export] Instance stored_configs : Stored Cell (list goCollectorConfig). Proof. stored CConfigs. Defined.
#[export] Instance stored_configList : Stored Cell goCollectorConfigList. Proof. stored CConfigList. Defined.
#[export] Instance stored_deployment : Stored Cell goDeploymentConfig. Proof. stored CDeployment. Defined.
#[export] Instance stored_deployments : Stored Cell goSearchDeployments. Proof. stored CDeployments. Defined.
#[export] Instance stored_storage : Stored Cell goStorageSpec. Proof. stored CStorage. Defined.
#[export] Instance stored_searchSpec : Stored Cell goSearchSpec. Proof. stored CSearchSpec. Defined.
#[export] Instance stored_searchStatus : Stored Cell goSearchStatus. Proof. stored CSearchStatus. Defined.
#[export] Instance stored_search : Stored Cell goSearch. Proof. stored CSearch. Defined.
#[export] Instance stored_searches : Stored Cell (list goSearch). Proof. stored CSearches. Defined.
#[export] Instance stored_searchList : Stored Cell goSearchList. Proof. stored CSearchList. Defined.
#[export] Instance stored_conditions : Stored Cell (list goCondition). Proof. stored CConditions. Defined.
#[export] Instance stored_requirements : Stored Cell (list goRequirement). Proof. stored CRequirements. Defined.
#[export] Instance stored_resources : Stored Cell goResources. Proof. stored CResources. Defined.
#[export] Instance stored_env : Stored Cell (list goEnvVar). Proof. stored CEnv. Defined.
#[export] Instance stored_tolerations : Stored Cell (list goToleration). Proof. stored CTolerations. Defined.
#[export] Instance stored_quantity : Stored Cell goQuantity. Proof. stored CQuantity. Defined.
End stored.

(** Copies made by the libraries, and what their structs stand for. *)
Class LibraryCopies `{LibraryTypes} := {
  metaRest_shape : heap Cell → goMetaRest → list OwnerReference * list string * option Time → Prop;
  listMeta_shape : heap Cell → goListMeta → ListMeta → Prop;
  condition_shape : heap Cell → goCondition → Condition → Prop;
  requirement_shape : heap Cell → goRequirement → LabelSelectorRequirement → Prop;
  resources_shape : heap Cell → goResources → ResourceRequirements → Prop;
  envVar_shape : heap Cell → goEnvVar → EnvVar → Prop;
  toleration_shape : heap Cell → goToleration → Toleration → Prop;
  quantity_shape : heap Cell → goQuantity → Quantity → Prop;
  ObjectMeta_DeepCopyInto : goObjectMeta → Mem Cell goObjectMeta;
  ListMeta_DeepCopyInto : goListMeta → Mem Cell goListMeta;
  Condition_DeepCopyInto : goCondition → Mem Cell goCondition;
  LabelSelectorRequirement_DeepCopyInto : goRequirement → Mem Cell goRequirement;
  ResourceRequirements_DeepCopyInto : goResources → Mem Cell goResources;
  EnvVar_DeepCopyInto : goEnvVar → Mem Cell goEnvVar;
  Toleration_DeepCopyInto : goToleration → Mem Cell goToleration;
  Quantity_DeepCopy : goQuantity → Mem Cell goQuantity
}.

Section copies.
Context `{LibraryCopies}.

(** * The generated functions

    [DeepCopyInto] starts from [*out = *in] and replaces what is shared: its result is
    [*out]. [DeepCopy] of a nil pointer is nil, and [DeepCopyObject] the same as an
    interface value. *)

Definition Field_DeepCopyInto (x : Field) : Mem Cell Field := mret x.
Definition Field_DeepCopy : option loc → Mem Cell (option loc) := copyPointer Field_DeepCopyInto.

Definition NamespaceSelector_DeepCopyInto (x : goNamespaceSelector) : Mem Cell goNamespaceSelector :=
  include ← copySlice (mret : string → _) (gns_Include x);
  exclude ← copySlice (mret : string → _) (gns_Exclude x);
  matchExpressions ← copySlice LabelSelectorRequirement_DeepCopyInto (gns_MatchExpressions x);
  matchLabels ← copyMap (gns_MatchLabels x);
  mret (mkGoNamespaceSelector include exclude matchExpressions matchLabels).
Definition NamespaceSelector_DeepCopy : option loc → Mem Cell (option loc) := copyPointer NamespaceSelector_DeepCopyInto.

Definition CollectNamespaces_DeepCopyInto (x : goCollectNamespaces) : Mem Cell goCollectNamespaces :=
  namespaceSelector ← copyPointer NamespaceSelector_DeepCopyInto (gcn_NamespaceSelector x);
  mret (mkGoCollectNamespaces namespaceSelector).
Definition CollectNamespaces_DeepCopy : option loc → Mem Cell (option loc) := copyPointer CollectNamespaces_DeepCopyInto.

Definition ResourceSelector_DeepCopyInto (x : goResourceSelector) : Mem Cell goResourceSelector :=
  apiGroups ← copySlice (mret : string → _) (grs_APIGroups x);
  kinds ← copySlice (mret : string → _) (grs_Kinds x);
  mret (mkGoSelector apiGroups kinds).
Definition ResourceSelector_DeepCopy : option loc → Mem Cell (option loc) := copyPointer ResourceSelector_DeepCopyInto.

Definition CollectionRule_DeepCopyInto (x : goCollectionRule) : Mem Cell goCollectionRule :=
  resourceSelector ← ResourceSelector_DeepCopyInto (gr_ResourceSelector x);
  fields ← copySlice (mret : Field → _) (gr_Fields x);
  collectAnnotations ← copyPointer (mret : bool → _) (gr_CollectAnnotations x);
  collectConditions ← copyPointer (mret : bool → _) (gr_CollectConditions x);
  priority ← copyPointer (mret : Z → _) (gr_CollectAdditionalPrinterColumnsPriority x);
  mret (mkGoRule (gr_Action x) resourceSelector fields (gr_FieldSuffix x) collectAnnotations collectConditions priority).
Definition CollectionRule_DeepCopy : option loc → Mem Cell (option loc) := copyPointer CollectionRule_DeepCopyInto.

Definition CollectorConfigSpec_DeepCopyInto (x : goCollectorConfigSpec) : Mem Cell goCollectorConfigSpec :=
  collectNamespaces ← copyPointer CollectNamespaces_DeepCopyInto (gcs_CollectNamespaces x);
  collectionRules ← copySlice CollectionRule_DeepCopyInto (gcs_CollectionRules x);
  mret (mkGoCCSpec collectNamespaces collectionRules).
Definition CollectorConfigSpec_DeepCopy : option loc → Mem Cell (option loc) := copyPointer CollectorConfigSpec_DeepCopyInto.

Definition CollectorConfigStatus_DeepCopyInto (x : goCollectorConfigStatus) : Mem Cell goCollectorConfigStatus :=
  conditions ← copySlice Condition_DeepCopyInto (gcst_Conditions x);
  mret (mkGoCCStatus conditions).
Definition CollectorConfigStatus_DeepCopy : option loc → Mem Cell (option loc) := copyPointer CollectorConfigStatus_DeepCopyInto.

Definition CollectorConfig_DeepCopyInto (x : goCollectorConfig) : Mem Cell goCollectorConfig :=
  meta ← ObjectMeta_DeepCopyInto (gcc_Meta x);
  spec ← CollectorConfigSpec_DeepCopyInto (gcc_Spec x);
  status ← CollectorConfigStatus_DeepCopyInto (gcc_Status x);
  mret (mkGoCC _ (gcc_Type x) meta spec status).
Definition CollectorConfig_DeepCopy : option loc → Mem Cell (option loc) := copyPointer CollectorConfig_DeepCopyInto.
Definition CollectorConfig_DeepCopyObject (x : option loc) : Mem Cell (option loc) := CollectorConfig_DeepCopy x.

Definition CollectorConfigList_DeepCopyInto (x : goCollectorConfigList) : Mem Cell goCollectorConfigList :=
  meta ← ListMeta_DeepCopyInto (gcl_Meta x);
  items ← copySlice CollectorConfig_DeepCopyInto (gcl_Items x);
  mret (mkGoCCList _ (gcl_Type x) meta items).
Definition CollectorConfigList_DeepCopy : option loc → Mem Cell (option loc) := copyPointer CollectorConfigList_DeepCopyInto.
Definition CollectorConfigList_DeepCopyObject (x : option loc) : Mem Cell (option loc) := CollectorConfigList_DeepCopy x.

Definition DeploymentConfig_DeepCopyInto (x : goDeploymentConfig) : Mem Cell goDeploymentConfig :=
  resources ← copyPointer ResourceRequirements_DeepCopyInto (gd_Resources x);
  arguments ← copySlice (mret : string → _) (gd_Arguments x);
  env ← copySlice EnvVar_DeepCopyInto (gd_Env x);
  mret (mkGoDeployment (gd_ReplicaCount x) resources (gd_ImageOverride x) arguments env).
Definition DeploymentConfig_DeepCopy : option loc → Mem Cell (option loc) := copyPointer DeploymentConfig_DeepCopyInto.

Definition SearchDeployments_DeepCopyInto (x : goSearchDeployments) : Mem Cell goSearchDeployments :=
  database ← DeploymentConfig_DeepCopyInto (gsd_Database x);
  indexer ← DeploymentConfig_DeepCopyInto (gsd_Indexer x);
  collector ← DeploymentConfig_DeepCopyInto (gsd_Collector x);
  queryapi ← DeploymentConfig_DeepCopyInto (gsd_QueryAPI x);
  mret (mkGoDeployments database indexer collector queryapi).
Definition SearchDeployments_DeepCopy : option loc → Mem Cell (option loc) := copyPointer SearchDeployments_DeepCopyInto.

Definition StorageSpec_DeepCopyInto (x : goStorageSpec) : Mem Cell goStorageSpec :=
  size ← copyPointer Quantity_DeepCopy (gss_Size x);
  mret (mkGoStorage (gss_StorageClassName x) size).
Definition StorageSpec_DeepCopy : option loc → Mem Cell (option loc) := copyPointer StorageSpec_DeepCopyInto.

Definition SearchSpec_DeepCopyInto (x : goSearchSpec) : Mem Cell goSearchSpec :=
  dbStorage ← StorageSpec_DeepCopyInto (gs_DBStorage x);
  deployments ← SearchDeployments_DeepCopyInto (gs_Deployments x);
  nodeSelector ← copyMap (gs_NodeSelector x);
  tolerations ← copySlice Toleration_DeepCopyInto (gs_Tolerations x);
  mret (mkGoSearchSpec dbStorage (gs_DBConfig x) deployments (gs_AvailabilityConfig x) (gs_ExternalDBInstance x)
    (gs_ImagePullSecret x) (gs_ImagePullPolicy x) nodeSelector tolerations).
Definition SearchSpec_DeepCopy : option loc → Mem Cell (option loc) := copyPointer SearchSpec_DeepCopyInto.

Definition SearchStatus_DeepCopyInto (x : goSearchStatus) : Mem Cell goSearchStatus :=
  conditions ← copySlice Condition_DeepCopyInto (gst_Conditions x);
  mret (mkGoSearchStatus (gst_DB x) (gst_Storage x) conditions).
Definition SearchStatus_DeepCopy : option loc → Mem Cell (option loc) := copyPointer SearchStatus_DeepCopyInto.

Definition Search_DeepCopyInto (x : goSearch) : Mem Cell goSearch :=
  meta ← ObjectMeta_DeepCopyInto (gse_Meta x);
  spec ← SearchSpec_DeepCopyInto (gse_Spec x);
  status ← SearchStatus_DeepCopyInto (gse_Status x);
  mret (mkGoSearch _ (gse_Type x) meta spec status).
Definition Search_DeepCopy : option loc → Mem Cell (option loc) := copyPointer Search_DeepCopyInto.
Definition Search_DeepCopyObject (x : option loc) : Mem Cell (option loc) := Search_DeepCopy x.

Definition SearchList_DeepCopyInto (x : goSearchList) : Mem Cell goSearchList :=
  meta ← ListMeta_DeepCopyInto (gsl_Meta x);
  items ← copySlice Search_DeepCopyInto (gsl_Items x);
  mret (mkGoSearchList _ (gsl_Type x) meta items).
Definition SearchList_DeepCopy : option loc → Mem Cell (option loc) := copyPointer SearchList_DeepCopyInto.
Definition SearchList_DeepCopyObject (x : option loc) : Mem Cell (option loc) := SearchList_DeepCopy x.

(** [cc.Labels = m] of the struct. *)
Definition go_set_Labels (p : option loc) (x : goCollectorConfig) : goCollectorConfig :=
  let m := gcc_Meta x in
  mkGoCC _ (gcc_Type x) (mkGoMeta _ (gm_Name m) (gm_Namespace m) (gm_UID m) p (gm_Annotations m) (gm_Rest m))
    (gcc_Spec x) (gcc_Status x).

(** [addBackupLabel] up to the request: the base of the patch, the object whose labels
    were edited in place being the one passed. [None] when the label is there. *)
Definition labelInPlace (backupLabel : string) (cc : loc) : Mem Cell (option loc) :=
  x ← load cc;
  labels ← (match gm_Labels (gcc_Meta x) with Some l => load l | None => mret (∅ : smap) end);
  if bool_decide (is_Some (labels !! backupLabel)) then mret None
  else
    base ← CollectorConfig_DeepCopy (Some cc);
    l ← (match gm_Labels (gcc_Meta x) with
         | Some l => mret l
         | None =>
             l ← new (∅ : smap);
             _ ← store cc (go_set_Labels (Some l) x);
             mret l
         end);
    _ ← store l (<[backupLabel := ""]> labels);
    mret base.

End copies.

(** * What the structs stand for *)

Section shapes.
Context `{LibraryCopies}.

Definition namespaceSelector_shape (h : heap Cell) (x : goNamespaceSelector) (t : NamespaceSelector) : Prop :=
  sliceOf value h (gns_Include x) (ns_Include t) ∧ sliceOf value h (gns_Exclude x) (ns_Exclude t) ∧
  sliceOf requirement_shape h (gns_MatchExpressions x) (ns_MatchExpressions t) ∧ mapOf h (gns_MatchLabels x) (ns_MatchLabels t).

Definition collectNamespaces_shape (h : heap Cell) (x : goCollectNamespaces) (t : CollectNamespaces) : Prop :=
  pointer namespaceSelector_shape h (gcn_NamespaceSelector x) (cns_NamespaceSelector t).

Definition selector_shape (h : heap Cell) (x : goResourceSelector) (t : ResourceSelector) : Prop :=
  sliceOf value h (grs_APIGroups x) (rs_APIGroups t) ∧ sliceOf value h (grs_Kinds x) (rs_Kinds t).

Definition rule_shape (h : heap Cell) (x : goCollectionRule) (t : CollectionRule) : Prop :=
  gr_Action x = r_Action t ∧ selector_shape h (gr_ResourceSelector x) (r_ResourceSelector t) ∧
  sliceOf value h (gr_Fields x) (r_Fields t) ∧ gr_FieldSuffix x = r_FieldSuffix t ∧
  pointer value h (gr_CollectAnnotations x) (r_CollectAnnotations t) ∧
  pointer value h (gr_CollectConditions x) (r_CollectConditions t) ∧
  pointer value h (gr_CollectAdditionalPrinterColumnsPriority x) (r_CollectAdditionalPrinterColumnsPriority t).

Definition ccSpec_shape (h : heap Cell) (x : goCollectorConfigSpec) (t : CollectorConfigSpec) : Prop :=
  pointer collectNamespaces_shape h (gcs_CollectNamespaces x) (ccs_CollectNamespaces t) ∧
  sliceOf rule_shape h (gcs_CollectionRules x) (ccs_CollectionRules t).

Definition ccStatus_shape (h : heap Cell) (x : goCollectorConfigStatus) (t : list Condition) : Prop :=
  sliceOf condition_shape h (gcst_Conditions x) t.

Definition meta_shape (h : heap Cell) (x : goObjectMeta) (t : ObjectMeta) : Prop :=
  gm_Name x = om_Name t ∧ gm_Namespace x = om_Namespace t ∧ gm_UID x = om_UID t ∧
  gomap h (gm_Labels x) (om_Labels t) ∧ gomap h (gm_Annotations x) (om_Annotations t) ∧
  metaRest_shape h (gm_Rest x) (om_OwnerReferences t, om_Finalizers t, om_DeletionTimestamp t).

(** The kind and version of an object, which the model has in the Rocq type, go with it. *)
Definition config_shape (h : heap Cell) (x : goCollectorConfig) (t : TypeMeta * CollectorConfig) : Prop :=
  gcc_Type x = t.1 ∧ meta_shape h (gcc_Meta x) (cc_Meta t.2) ∧ ccSpec_shape h (gcc_Spec x) (cc_Spec t.2) ∧
  ccStatus_shape h (gcc_Status x) (cc_Conditions t.2).

Definition configList_shape (h : heap Cell) (x : goCollectorConfigList)
    (t : TypeMeta * ListMeta * list (TypeMeta * CollectorConfig)) : Prop :=
  gcl_Type x = t.1.1 ∧ listMeta_shape h (gcl_Meta x) t.1.2 ∧ sliceOf config_shape h (gcl_Items x) t.2.

Definition deployment_shape (h : heap Cell) (x : goDeploymentConfig) (t : DeploymentConfig) : Prop :=
  gd_ReplicaCount x = dc_ReplicaCount t ∧ pointer resources_shape h (gd_Resources x) (dc_Resources t) ∧
  gd_ImageOverride x = dc_ImageOverride t ∧ sliceOf value h (gd_Arguments x) (dc_Arguments t) ∧
  sliceOf envVar_shape h (gd_Env x) (dc_Env t).

Definition deployments_shape (h : heap Cell) (x : goSearchDeployments) (t : SearchDeployments) : Prop :=
  deployment_shape h (gsd_Database x) (sd_Database t) ∧ deployment_shape h (gsd_Indexer x) (sd_Indexer t) ∧
  deployment_shape h (gsd_Collector x) (sd_Collector t) ∧ deployment_shape h (gsd_QueryAPI x) (sd_QueryAPI t).

Definition storage_shape (h : heap Cell) (x : goStorageSpec) (t : StorageSpec) : Prop :=
  gss_StorageClassName x = ss_StorageClassName t ∧ pointer quantity_shape h (gss_Size x) (ss_Size t).

Definition searchSpec_shape (h : heap Cell) (x : goSearchSpec) (t : SearchSpec) : Prop :=
  storage_shape h (gs_DBStorage x) (sp_DBStorage t) ∧ gs_DBConfig x = sp_DBConfig t ∧
  deployments_shape h (gs_Deployments x) (sp_Deployments t) ∧ gs_AvailabilityConfig x = sp_AvailabilityConfig t ∧
  gs_ExternalDBInstance x = sp_ExternalDBInstance t ∧ gs_ImagePullSecret x = sp_ImagePullSecret t ∧
  gs_ImagePullPolicy x = sp_ImagePullPolicy t ∧ gomap h (gs_NodeSelector x) (sp_NodeSelector t) ∧
  slice toleration_shape h (gs_Tolerations x) (sp_Tolerations t).

Definition searchStatus_shape (h : heap Cell) (x : goSearchStatus) (t : SearchStatus) : Prop :=
  gst_DB x = st_DB t ∧ gst_Storage x = st_Storage t ∧ sliceOf condition_shape h (gst_Conditions x) (st_Conditions t).

Definition search_shape (h : heap Cell) (x : goSearch) (t : TypeMeta * Search) : Prop :=
  gse_Type x = t.1 ∧ meta_shape h (gse_Meta x) (s_Meta t.2) ∧ searchSpec_shape h (gse_Spec x) (s_Spec t.2) ∧
  searchStatus_shape h (gse_Status x) (s_Status t.2).

Definition searchList_shape (h : heap Cell) (x : goSearchList) (t : TypeMeta * ListMeta * list (TypeMeta * Search)) : Prop :=
  gsl_Type x = t.1.1 ∧ listMeta_shape h (gsl_Meta x) t.1.2 ∧ sliceOf search_shape h (gsl_Items x) t.2.
End shapes.

(** The structs of the libraries are copied as theirs document. *)
Class LibraryLaws `{LibraryCopies} : Prop := {
  #[global] copied_meta :: Copied meta_shape ObjectMeta_DeepCopyInto;
  #[global] mono_metaRest :: Mono metaRest_shape;
  #[global] copied_listMeta :: Copied listMeta_shape ListMeta_DeepCopyInto;
  #[global] copied_condition :: Copied condition_shape Condition_DeepCopyInto;
  #[global] copied_requirement :: Copied requirement_shape LabelSelectorRequirement_DeepCopyInto;
  #[global] copied_resources :: Copied resources_shape ResourceRequirements_DeepCopyInto;
  #[global] copied_envVar :: Copied envVar_shape EnvVar_DeepCopyInto;
  #[global] copied_toleration :: Copied toleration_shape Toleration_DeepCopyInto;
  #[global] copied_quantity :: Copied quantity_shape Quantity_DeepCopy
}.

(** * The generated functions copy *)

(** Every field that is described stands in the larger heap. *)
Ltac lift_shapes Hs :=
  lazymatch type of Hs with
  | ?h ⊆ ?h' => repeat match goal with H : ?P h ?x ?t |- _ => apply (mono (P:=P) h h' x t Hs) in H end
  end.

(** The fields are copied in order; the result stands field by field for what was copied. *)
Tactic Notation "copies" reference(shape) :=
  split;
  [ intros h h' x t Hs Hx; unfold shape in *; split_hyps; lift_shapes Hs; split_and?; done
  | intros h x t Hx; unfold shape in Hx; split_hyps;
    repeat (eapply fresh_in_bind;
      [eapply fresh_in_copy; [eassumption|apply _]
      |let a := fresh in let h' := fresh in let Hs := fresh in intros a h' Hs; lift_shapes Hs]);
    apply fresh_in_ret; intros; unfold shape; split_and?; cbn; done ].

Section copied.
Context `{LibraryLaws}.

#[export] Instance copied_field : Copied (Cell:=Cell) value Field_DeepCopyInto.
Proof. apply copied_value. Qed.
#[export] Instance copied_namespaceSelector : Copied namespaceSelector_shape NamespaceSelector_DeepCopyInto.
Proof. copies namespaceSelector_shape. Qed.
#[export] Instance copied_collectNamespaces : Copied collectNamespaces_shape CollectNamespaces_DeepCopyInto.
Proof. copies collectNamespaces_shape. Qed.
#[export] Instance copied_selector : Copied selector_shape ResourceSelector_DeepCopyInto.
Proof. copies selector_shape. Qed.
#[export] Instance copied_rule : Copied rule_shape CollectionRule_DeepCopyInto.
Proof. copies rule_shape. Qed.
#[export] Instance copied_ccSpec : Copied ccSpec_shape CollectorConfigSpec_DeepCopyInto.
Proof. copies ccSpec_shape. Qed.
#[export] Instance copied_ccStatus : Copied ccStatus_shape CollectorConfigStatus_DeepCopyInto.
Proof. copies ccStatus_shape. Qed.
#[export] Instance copied_config : Copied config_shape CollectorConfig_DeepCopyInto.
Proof. copies config_shape. Qed.
#[export] Instance copied_configList : Copied configList_shape CollectorConfigList_DeepCopyInto.
Proof. copies configList_shape. Qed.
#[export] Instance copied_deployment : Copied deployment_shape DeploymentConfig_DeepCopyInto.
Proof. copies deployment_shape. Qed.
#[export] Instance copied_deployments : Copied deployments_shape SearchDeployments_DeepCopyInto.
Proof. copies deployments_shape. Qed.
#[export] Instance copied_storage : Copied storage_shape StorageSpec_DeepCopyInto.
Proof. copies storage_shape. Qed.
#[export] Instance copied_searchSpec : Copied searchSpec_shape SearchSpec_DeepCopyInto.
Proof. copies searchSpec_shape. Qed.
#[export] Instance copied_searchStatus : Copied searchStatus_shape SearchStatus_DeepCopyInto.
Proof. copies searchStatus_shape. Qed.
#[export] Instance copied_search : Copied search_shape Search_DeepCopyInto.
Proof. copies search_shape. Qed.
#[export] Instance copied_searchList : Copied searchList_shape SearchList_DeepCopyInto.
Proof. copies searchList_shape. Qed.

(** C27: deep copies are deep. For every type of the API the generated function
    succeeds on a pointer to a value in memory (or on nil); the copy stands for the
    same value and is made in new memory, so that no write to the original, or to
    anything it was made from, shows in the copy, and no write to the copy shows in
    the original. *)
Theorem deep_copies_independent :
  independent_copy (pointer (@value Cell Field)) Field_DeepCopy ∧
  independent_copy (pointer namespaceSelector_shape) NamespaceSelector_DeepCopy ∧
  independent_copy (pointer collectNamespaces_shape) CollectNamespaces_DeepCopy ∧
  independent_copy (pointer selector_shape) ResourceSelector_DeepCopy ∧
  independent_copy (pointer rule_shape) CollectionRule_DeepCopy ∧
  independent_copy (pointer ccSpec_shape) CollectorConfigSpec_DeepCopy ∧
  independent_copy (pointer ccStatus_shape) CollectorConfigStatus_DeepCopy ∧
  independent_copy (pointer config_shape) CollectorConfig_DeepCopy ∧
  independent_copy (pointer config_shape) CollectorConfig_DeepCopyObject ∧
  independent_copy (pointer configList_shape) CollectorConfigList_DeepCopy ∧
  independent_copy (pointer configList_shape) CollectorConfigList_DeepCopyObject ∧
  independent_copy (pointer deployment_shape) DeploymentConfig_DeepCopy ∧
  independent_copy (pointer deployments_shape) SearchDeployments_DeepCopy ∧
  independent_copy (pointer storage_shape) StorageSpec_DeepCopy ∧
  independent_copy (pointer searchSpec_shape) SearchSpec_DeepCopy ∧
  independent_copy (pointer searchStatus_shape) SearchStatus_DeepCopy ∧
  independent_copy (pointer search_shape) Search_DeepCopy ∧
  independent_copy (pointer search_shape) Search_DeepCopyObject ∧
  independent_copy (pointer searchList_shape) SearchList_DeepCopy ∧
  independent_copy (pointer searchList_shape) SearchList_DeepCopyObject.
Proof. split_and!; apply copied_independent, copied_pointer; apply _. Qed.

(** ** The backup label

    What of the config at [l] is elsewhere than in its struct and in its label map. *)
Definition rest_of (h : heap Cell) (l : loc) (x : goCollectorConfig) : heap Cell :=
  let h := delete l h in match gm_Labels (gcc_Meta x) with Some lm => delete lm h | None => h end.

(** The label map belongs to the labels alone, as in an object the client decoded. *)
Definition labels_unshared (h : heap Cell) (l : loc) (cc : CollectorConfig) : Prop := ∀ x,
  h !! l = Some (cell x) →
  gm_Labels (gcc_Meta x) ≠ Some l ∧
  gomap (rest_of h l x) (gm_Annotations (gcc_Meta x)) (om_Annotations (cc_Meta cc)) ∧
  metaRest_shape (rest_of h l x) (gm_Rest (gcc_Meta x))
    (om_OwnerReferences (cc_Meta cc), om_Finalizers (cc_Meta cc), om_DeletionTimestamp (cc_Meta cc)) ∧
  ccSpec_shape (rest_of h l x) (gcc_Spec x) (cc_Spec cc) ∧ ccStatus_shape (rest_of h l x) (gcc_Status x) (cc_Conditions cc).

(** The config with the label. *)
Definition labelled (backupLabel : string) (cc : CollectorConfig) : CollectorConfig :=
  cc_set_Labels (Some (<[backupLabel := ""]> (map_of (cc_Labels cc)))) cc.

(** A memory that keeps the rest and has the new labels stands for the labelled config. *)
Lemma shape_labelled k h h' l lm x tm cc :
  h !! l = Some (cell x) → config_shape h x (tm, cc) → labels_unshared h l cc →
  rest_of h l x ⊆ h' → h' !! l = Some (cell (go_set_Labels (Some lm) x)) →
  h' !! lm = Some (cell (<[k := ""]> (map_of (cc_Labels cc)) : smap)) →
  pointer config_shape h' (Some l) (Some (tm, labelled k cc)).
Proof.
  intros Hl (Ht & (Hn & Hns & Hu & _) & _) Hun Hs Hl' Hm. destruct (Hun x Hl) as (_ & Ha & Hr & Hsp & Hst).
  exists (go_set_Labels (Some lm) x). split; [done|]. lift_shapes Hs. split_and!; [done|split_and!; try done|done..].
  by eexists.
Qed.

Lemma load_at {A} `{!Stored Cell A} (h : heap Cell) l (x : A) : h !! l = Some (cell x) → load l h = Some (x, h).
Proof. intros Hl. unfold load. by rewrite Hl, uncell_cell. Qed.

Lemma store_at {A} `{!Stored Cell A} (h : heap Cell) l (x : A) c : h !! l = Some c → store l x h = Some ((), <[l := cell x]> h).
Proof. intros Hl. unfold store. by rewrite Hl. Qed.

Lemma go_set_Labels_same x lm : gm_Labels (gcc_Meta x) = Some lm → go_set_Labels (Some lm) x = x.
Proof. destruct x as [t [] sp st]. cbn. by intros ->. Qed.

(** The new cells hide nothing of the rest. *)
Lemma rest_grows h m l x c :
  rest_of h l x ⊆ match gm_Labels (gcc_Meta x) with Some lm => <[lm := c]> (h ∪ m) | None => h ∪ m end.
Proof.
  assert (Hs : delete l h ⊆ h ∪ m) by (etrans; [apply delete_subseteq|apply map_union_subseteq_l]).
  unfold rest_of. destruct (gm_Labels _) as [lm|]; [|done].
  apply map_subseteq_spec. intros i y [Hi Hy]%lookup_delete_Some. rewrite lookup_insert_ne by done.
  by eapply lookup_weaken.
Qed.

(** C26: the patch of the backup label holds the label. Adding it edits the config in
    place, in the label map if there is one, after a base was copied for the patch to
    be the difference to; the base still stands for the config without the label when
    the config has it. A config that has the label is not touched. *)
Theorem backup_label_in_patch k h l tm cc :
  pointer config_shape h (Some l) (Some (tm, cc)) → labels_unshared h l cc →
  if has_key (cc_Labels cc) k then labelInPlace k l h = Some (None, h)
  else ∃ base h', labelInPlace k l h = Some (Some base, h') ∧
    pointer config_shape h' (Some base) (Some (tm, cc)) ∧
    pointer config_shape h' (Some l) (Some (tm, labelled k cc)).
Proof.
  intros Hp Hun. destruct (copied_independent (pointer config_shape) CollectorConfig_DeepCopy h _ _ Hp)
    as (b & m & Hc & Hd & Hb & _).
  destruct b as [b|]; [|by specialize (Hb ∅ (map_disjoint_empty_l _))].
  specialize (Hb ∅ (map_disjoint_empty_l _)). rewrite map_empty_union in Hb.
  assert (Hm : m ⊆ h ∪ m) by by apply map_union_subseteq_r.
  destruct Hp as (x & Hl & Hx). pose proof Hx as (_ & (_ & _ & _ & Hlab & _) & _).
  destruct (Hun x Hl) as (Hne & _). unfold labelInPlace, cc_Labels in *. unfold mbind, Mem_bind.
  rewrite (load_at h l x Hl). unfold has_key.
  unfold gomap, pointer in Hlab. cbn [snd] in Hlab. pose proof (rest_grows h m l x) as Hrest.
  destruct (gm_Labels (gcc_Meta x)) as [lm|] eqn:Hlm, (om_Labels (cc_Meta cc)) as [labels|] eqn:Hol; try done.
  - destruct Hlab as (? & Hlab & ->). rewrite (load_at h lm labels Hlab).
    change (map_of (Some labels)) with labels. cbv beta iota. case_bool_decide; [done|].
    rewrite Hc. unfold mret, Mem_ret. rewrite (store_at _ lm _ (cell labels)) by by apply lookup_union_Some_l.
    eexists b, _. split; [done|]. split.
    + eapply mono; [|exact Hb]. apply insert_subseteq_r; [|done]. by eapply map_disjoint_Some_r.
    + eapply (shape_labelled k h _ l lm x); [done..|exact (Hrest _)| |].
      * rewrite lookup_insert_ne by congruence. rewrite (go_set_Labels_same x lm) by done. by apply lookup_union_Some_l.
      * rewrite lookup_insert_eq. unfold cc_Labels. by rewrite Hol.
  - change (map_of None) with (∅ : smap). unfold mret, Mem_ret. cbv beta iota. case_bool_decide as Hk; [by destruct Hk as [? Hk]; rewrite lookup_empty in Hk|].
    rewrite Hc. unfold new.
    set (l2 := fresh_loc (h ∪ m)). pose proof (fresh_loc_fresh (h ∪ m)) as Hf. fold l2 in Hf.
    assert (Hl0 : (h ∪ m) !! l = Some (cell x)) by by apply lookup_union_Some_l.
    assert (Hl2 : l2 ≠ l) by congruence.
    rewrite (store_at _ l _ (cell x)) by by rewrite lookup_insert_ne.
    rewrite (store_at _ l2 _ (cell (∅ : smap))) by by rewrite lookup_insert_ne, lookup_insert_eq.
    rewrite (insert_insert_ne _ l l2), insert_insert_eq by done. eexists b, _. split; [done|].
    assert (Hs : ∀ h' c c', h' ⊆ h ∪ m → h' !! l = None → h' ⊆ <[l2 := c]> (<[l := c']> (h ∪ m))).
    { intros h' c c' Hs Hn. apply insert_subseteq_r, insert_subseteq_r; [|done..].
      eapply lookup_weaken_None; [exact Hf|done]. }
    split.
    + eapply mono; [apply Hs; [done|by eapply map_disjoint_Some_r]|exact Hb].
    + eapply (shape_labelled k h _ l l2 x); [done..| | |].
      * apply Hs; [exact (Hrest (CBool true))|]. unfold rest_of. rewrite Hlm. apply lookup_delete_eq.
      * by rewrite lookup_insert_ne, lookup_insert_eq.
      * rewrite lookup_insert_eq. unfold cc_Labels. by rewrite Hol.
Qed.
End copied.

(** * The theorems at a concrete input

    A library whose structs are plain values, and a config whose rule, labels and
    slices lie in six cells. *)

#[local] Instance plainTypes : LibraryTypes := {|
  LibraryCell := Empty_set; goMetaRest := list OwnerReference * list string * option Time; goListMeta := unit;
  goCondition := Condition; goRequirement := LabelSelectorRequirement; goResources := ResourceRequirements;
  goEnvVar := EnvVar; goToleration := Toleration; goQuantity := Quantity; ListMeta := unit
|}.

#[local] Instance plainCopies : LibraryCopies := {|
  metaRest_shape := value; listMeta_shape := value; condition_shape := value; requirement_shape := value;
  resources_shape := value; envVar_shape := value; toleration_shape := value; quantity_shape := value;
  ObjectMeta_DeepCopyInto x :=
    labels ← copyMap (gm_Labels x); annotations ← copyMap (gm_Annotations x);
    mret (mkGoMeta _ (gm_Name x) (gm_Namespace x) (gm_UID x) labels annotations (gm_Rest x));
  ListMeta_DeepCopyInto := mret; Condition_DeepCopyInto := mret; LabelSelectorRequirement_DeepCopyInto := mret;
  ResourceRequirements_DeepCopyInto := mret; EnvVar_DeepCopyInto := mret; Toleration_DeepCopyInto := mret;
  Quantity_DeepCopy := mret
|}.

#[local] Instance plainLaws : LibraryLaws.
Proof. split; try apply copied_value; try apply mono_value. copies meta_shape. Qed.

Definition sampleTypeMeta : TypeMeta := mkTypeMeta "CollectorConfig" GroupVersion.

Definition sampleConfig : CollectorConfig :=
  mkCC (set_Labels (Some {[ IntegrationTeamLabel := IntegrationTeamLabelValue ]}) (newMeta "argocd" "ocm"))
    (mkCCSpec None [mkRule ActionInclude (mkSelector ["argoproj.io"] ["Application"]) [] "" (Some true) None None]) [].

Definition sampleMemory : heap Cell :=
  <[1%positive := CConfig (mkGoCC _ sampleTypeMeta
     (mkGoMeta _ "argocd" "ocm" "" (Some 2%positive) None ([], [], None)) (mkGoCCSpec None (Some 3%positive)) (mkGoCCStatus None))]>
  (<[2%positive := CMap ({[ IntegrationTeamLabel := IntegrationTeamLabelValue ]})]>
  (<[3%positive := CRules [mkGoRule ActionInclude (mkGoSelector (Some 4%positive) (Some 5%positive)) None "" (Some 6%positive) None None]]>
  (<[4%positive := CStrings ["argoproj.io"]]> (<[5%positive := CStrings ["Application"]]> {[6%positive := CBool true]})))).

(** The spec in any memory with the four cells it lies in. *)
Lemma sample_spec (h : heap Cell) :
  h !! 3%positive = sampleMemory !! 3%positive → h !! 4%positive = sampleMemory !! 4%positive →
  h !! 5%positive = sampleMemory !! 5%positive → h !! 6%positive = sampleMemory !! 6%positive →
  ccSpec_shape h (mkGoCCSpec None (Some 3%positive)) (cc_Spec sampleConfig).
Proof.
  intros H3 H4 H5 H6. split; [done|]. exists (Some (ccs_CollectionRules (cc_Spec sampleConfig))). split; [|done].
  eexists. split; [exact H3|]. repeat constructor; cbn.
  - exists (Some ["argoproj.io"]). split; [|done]. eexists. split; [exact H4|]. by repeat constructor.
  - exists (Some ["Application"]). split; [|done]. eexists. split; [exact H5|]. by repeat constructor.
  - by exists None.
  - eexists. split; [exact H6|done].
Qed.

Lemma sample_shape : pointer config_shape sampleMemory (Some 1%positive) (Some (sampleTypeMeta, sampleConfig)).
Proof.
  eexists. split; [vm_compute; reflexivity|]. split_and!; try done.
  - split_and!; try done. eexists. split; [vm_compute; reflexivity|done].
  - by apply sample_spec.
  - by exists None.
Qed.

Lemma deep_copies_independent_witness :
  pointer config_shape sampleMemory (Some 1%positive) (Some (sampleTypeMeta, sampleConfig)) ∧
  ∃ p' m, CollectorConfig_DeepCopy (Some 1%positive) sampleMemory = Some (p', sampleMemory ∪ m) ∧ sampleMemory ##ₘ m ∧
    pointer config_shape (∅ ∪ m) p' (Some (sampleTypeMeta, sampleConfig)).
Proof.
  split; [exact sample_shape|].
  destruct (proj1 (proj2 (proj2 (proj2 (proj2 (proj2 (proj2 (proj2 deep_copies_independent)))))))
    sampleMemory _ _ sample_shape) as (p' & m & Hc & Hd & Hp & _).
  exists p', m. split; [exact Hc|]. split; [exact Hd|]. apply Hp, map_disjoint_empty_l.
Defined.

Lemma backup_label_in_patch_witness :
  ∃ base h', labelInPlace "backup" 1%positive sampleMemory = Some (Some base, h') ∧
    pointer config_shape h' (Some base) (Some (sampleTypeMeta, sampleConfig)) ∧
    pointer config_shape h' (Some 1%positive) (Some (sampleTypeMeta, labelled "backup" sampleConfig)) ∧
    labelled "backup" sampleConfig ≠ sampleConfig.
Proof.
  destruct (backup_label_in_patch "backup" sampleMemory 1%positive sampleTypeMeta sampleConfig)
    as (base & h' & Hl & Hb & Hc).
  - exact sample_shape.
  - intros x [= <-]. cbn. split_and!; try done; [by apply sample_spec|by exists None].
  - exists base, h'. split_and!; [done..|]. intros Heq. apply (f_equal (λ c, has_key (cc_Labels c) "backup")) in Heq.
    vm_compute in Heq. discriminate.
Defined.
