(* ===== verification/Effects.v ===== *)
(** Programs that talk to the API server. A function of the operator that makes
    client calls is a [prog]: a tree of requests, each continued by what the
    server may answer. Nothing is assumed about the answers in the definitions;
    a theorem quantifies over every execution ([exec]), or over the answers of a
    server that satisfies stated laws. *)
From S2P Require Import Prelude K8s V1alpha1.
From Stdlib Require Eqdep_dec.

(** * Objects by kind *)

Inductive Kind :=
| KSearch | KCollectorConfig | KConfigMap | KSecret | KService | KServiceAccount
| KDeployment | KPVC | KPod | KClusterRole | KClusterRoleBinding | KRole | KRoleBinding
| KNetworkPolicy | KServiceMonitor | KPrometheusRule | KVWC | KCMA.

#[export] Instance Kind_eq_dec : EqDecision Kind.
Proof. solve_decision. Defined.

Definition Obj (k : Kind) : Type :=
  match k with
  | KSearch => Search
  | KCollectorConfig => CollectorConfig
  | KConfigMap => ConfigMap
  | KSecret => Secret
  | KService => Service
  | KServiceAccount => ServiceAccount
  | KDeployment => Deployment
  | KPVC => PersistentVolumeClaim
  | KPod => Pod
  | KClusterRole | KRole => ClusterRole
  | KClusterRoleBinding | KRoleBinding => ClusterRoleBinding
  | KNetworkPolicy => NetworkPolicy
  | KServiceMonitor => ServiceMonitor
  | KPrometheusRule => PrometheusRule
  | KVWC => ValidatingWebhookConfiguration
  | KCMA => ClusterManagementAddOn
  end.

Definition obj_meta (k : Kind) : Obj k → ObjectMeta :=
  match k with
  | KSearch => s_Meta
  | KCollectorConfig => cc_Meta
  | KConfigMap => cm_Meta
  | KSecret => sec_Meta
  | KService => svc_Meta
  | KServiceAccount => sa_Meta
  | KDeployment => dep_Meta
  | KPVC => pvc_Meta
  | KPod => pod_Meta
  | KClusterRole | KRole => cr_Meta
  | KClusterRoleBinding | KRoleBinding => crb_Meta
  | KNetworkPolicy => np_Meta
  | KServiceMonitor => sm_Meta
  | KPrometheusRule => pru_Meta
  | KVWC => vwc_Meta
  | KCMA => cma_Meta
  end.

Definition obj_key (k : Kind) (o : Obj k) : NamespacedName :=
  mkNN (om_Name (obj_meta k o)) (om_Namespace (obj_meta k o)).

(** [client.InNamespace] (absent: all namespaces) and [client.MatchingLabels]. *)
Record ListOptions := mkListOptions { lo_Namespace : option string; lo_Labels : smap }.

(** * Requests

    A request is indexed by the type of its answer. [Get] fills the object or
    fails leaving it zero; [Create], [Update], [Patch] and [StatusUpdate]
    answer with the object as the server returns it into the caller's pointer.
    The [Dyn] requests are those of the dynamic client. *)
Inductive Api : Type → Type :=
| Get (k : Kind) (n : NamespacedName) : Api (result (Obj k))
| List (k : Kind) (o : ListOptions) : Api (result (list (Obj k)))
| Create (k : Kind) (o : Obj k) : Api (result (Obj k))
| Update (k : Kind) (o : Obj k) : Api (result (Obj k))
| Patch (k : Kind) (o : Obj k) : Api (result (Obj k))
| StatusUpdate (k : Kind) (o : Obj k) : Api (result (Obj k))
| Delete (k : Kind) (n : NamespacedName) : Api (option error)
| DynGet (r : GroupVersionResource) (n : NamespacedName) : Api (result Unstructured)
| DynList (r : GroupVersionResource) : Api (result (list Unstructured))
| DynCreate (r : GroupVersionResource) (ns : string) (u : Unstructured) : Api (option error)
| DynUpdate (r : GroupVersionResource) (ns : string) (u : Unstructured) : Api (option error)
| DynDelete (r : GroupVersionResource) (n : NamespacedName) : Api (option error)
| Now : Api Time
| RandInt (bound : nat) : Api nat.

(** The requests that change the cluster. *)
Definition is_write {R} (q : Api R) : bool :=
  match q with
  | Create _ _ | Update _ _ | Patch _ _ | StatusUpdate _ _ | Delete _ _
  | DynCreate _ _ _ | DynUpdate _ _ _ | DynDelete _ _ => true
  | _ => false
  end.

(** * Programs *)

Inductive prog (A : Type) : Type :=
| Ret (a : A)
| Panic (why : string)
| Op (R : Type) (q : Api R) (f : R → prog A).
Arguments Ret {A} a.
Arguments Panic {A} why.
Arguments Op {A R} q f.

Fixpoint bind {A B} (p : prog A) (g : A → prog B) : prog B :=
  match p with
  | Ret a => g a
  | Panic w => Panic w
  | Op q f => Op q (λ x, bind (f x) g)
  end.

Definition call {R} (q : Api R) : prog R := Op q Ret.

Notation "x <- p ;; q" := (bind p (λ x, q))
  (at level 63, p at next level, right associativity) : search_scope.
(** [for _, x := range l { s = body(s, x) }] *)
Fixpoint foldM {S A} (body : S → A → prog S) (s : S) (l : list A) : prog S :=
  match l with
  | [] => Ret s
  | x :: l => bind (body s x) (λ s, foldM body s l)
  end.

(** A loop that returns from the function on the first [Some]. *)
Fixpoint forM_until {A B} (body : A → prog (option B)) (l : list A) : prog (option B) :=
  match l with
  | [] => Ret None
  | x :: l => bind (body x) (λ r, match r with Some b => Ret (Some b) | None => forM_until body l end)
  end.

(** * Executions *)

Inductive event : Type := Ev (R : Type) (q : Api R) (answer : R).
Arguments Ev {R} q answer.

Inductive outcome (A : Type) := Done (a : A) | Crashed (why : string).
Arguments Done {A} a.
Arguments Crashed {A} why.

(** [exec p t o]: with some answers of the server, [p] issues the trace [t] of
    requests and ends in [o]. *)
Inductive exec {A} : prog A → list event → outcome A → Prop :=
| exec_ret a : exec (Ret a) [] (Done a)
| exec_panic w : exec (Panic w) [] (Crashed w)
| exec_op R (q : Api R) f x t o : exec (f x) t o → exec (Op q f) (Ev q x :: t) o.

Definition ev_write (e : event) : bool := let 'Ev q _ := e in is_write q.

(** No request of the trace changes the cluster. *)
Definition read_only (t : list event) : Prop := Forall (λ e, ev_write e = false) t.

(** * A weakest precondition over all executions

    [wp G p Q]: every request [p] issues satisfies the guarantee [G] given the
    trace before it, and [Q] holds of the whole trace and the outcome. *)
Section wp.
Context (G : list event → ∀ R, Api R → Prop).

Fixpoint wp_from {A} (h : list event) (p : prog A) (Q : list event → outcome A → Prop) : Prop :=
  match p with
  | Ret a => Q h (Done a)
  | Panic w => Q h (Crashed w)
  | Op q f => G h _ q ∧ ∀ x, wp_from (h ++ [Ev q x]) (f x) Q
  end.

Definition wp {A} (p : prog A) := wp_from [] p.
End wp.

(** The program returned, it did not panic. *)
Definition returns {A} (_ : list event) (o : outcome A) : Prop := ∃ a, o = Done a.

Definition no_guarantee (_ : list event) R (_ : Api R) : Prop := True.

(** * Servers *)

(** A deterministic server with states [W]. *)
Class Server (W : Type) := serve : ∀ R, Api R → W → R * W.
Arguments serve {W _ R} q w.

Fixpoint run {W A} `{Server W} (p : prog A) (w : W) : outcome A * list event * W :=
  match p with
  | Ret a => (Done a, [], w)
  | Panic e => (Crashed e, [], w)
  | Op q f =>
      let '(x, w) := serve q w in
      let '(o, t, w) := run (f x) w in
      (o, Ev q x :: t, w)
  end.

Definition run_outcome {W A} `{Server W} (p : prog A) (w : W) : outcome A := (run p w).1.1.
Definition run_trace {W A} `{Server W} (p : prog A) (w : W) : list event := (run p w).1.2.
Definition run_state {W A} `{Server W} (p : prog A) (w : W) : W := (run p w).2.

(** * Lemmas *)

Section exec_lemmas.
Lemma exec_Ret {A} (a : A) t o : exec (Ret a) t o ↔ t = [] ∧ o = Done a.
Proof. split; [by inversion 1|intros [-> ->]; constructor]. Qed.

Lemma exec_Panic {A} w t o : exec (@Panic A w) t o ↔ t = [] ∧ o = Crashed w.
Proof. split; [by inversion 1|intros [-> ->]; constructor]. Qed.

Lemma exec_Op {A} R (q : Api R) (f : R → prog A) t o :
  exec (Op q f) t o ↔ ∃ x t', t = Ev q x :: t' ∧ exec (f x) t' o.
Proof.
  split.
  - intros H. remember (Op q f) as p eqn:Hp. destruct H as [| |R' q' f' x t o H]; [done..|].
    revert x H. refine (match Hp in _ = p' return
      match p' with
      | Op q f => ∀ x, exec (f' x) t o → ∃ x0 t', Ev q' x :: t = Ev q x0 :: t' ∧ exec (f x0) t' o
      | _ => True
      end with eq_refl => _ end).
    intros x H. eauto.
  - intros (x & t' & -> & H). by constructor.
Qed.

(** An execution of a sequence splits into executions of its parts. *)
Lemma exec_bind {A B} (p : prog A) (g : A → prog B) t o :
  exec (bind p g) t o ↔
  (∃ a t1 t2, t = t1 ++ t2 ∧ exec p t1 (Done a) ∧ exec (g a) t2 o) ∨
  (∃ w, exec p t (Crashed w) ∧ o = Crashed w).
Proof.
  revert t. induction p as [a|w|R q f IH]; intros t; cbn.
  - split.
    + intros H. left. exists a, [], t. by rewrite exec_Ret.
    + intros [(a' & t1 & t2 & -> & H & Hg)|(w & H & ->)];
        apply exec_Ret in H as [? H]; by simplify_eq.
  - rewrite exec_Panic. split.
    + intros [-> ->]. right. exists w. by rewrite exec_Panic.
    + intros [(a' & t1 & t2 & -> & H & _)|(w' & H & ->)];
        apply exec_Panic in H as [? H]; by simplify_eq.
  - rewrite exec_Op. setoid_rewrite IH. split.
    + intros (x & t' & -> & [(a & t1 & t2 & -> & H1 & H2)|(w & H & ->)]).
      * left. exists a, (Ev q x :: t1), t2. rewrite exec_Op. eauto 10.
      * right. exists w. rewrite exec_Op. eauto 10.
    + intros [(a & t1 & t2 & -> & H1 & H2)|(w & H & ->)].
      * apply exec_Op in H1 as (x & t' & -> & H1). exists x, (t' ++ t2).
        split; [done|]. left. eauto 10.
      * apply exec_Op in H as (x & t' & -> & H). eauto 10.
Qed.

Lemma exec_bind_done {A B} (p : prog A) (g : A → prog B) t1 t2 a o :
  exec p t1 (Done a) → exec (g a) t2 o → exec (bind p g) (t1 ++ t2) o.
Proof. intros. apply exec_bind. left. eauto 10. Qed.
End exec_lemmas.

Section wp_lemmas.
Context (G : list event → ∀ R, Api R → Prop).

Lemma wp_mono {A} h (p : prog A) Q Q' :
  wp_from G h p Q → (∀ t o, Q t o → Q' t o) → wp_from G h p Q'.
Proof.
  revert h. induction p as [a|w|R q f IH]; intros h; cbn; [by eauto..|].
  intros [HG Hx] HQ. split; [done|]. intros x. by apply IH.
Qed.

Lemma wp_bind {A B} h (p : prog A) (g : A → prog B) Q :
  wp_from G h (bind p g) Q ↔
  wp_from G h p (λ h' o, match o with
                         | Done a => wp_from G h' (g a) Q
                         | Crashed w => Q h' (Crashed w)
                         end).
Proof.
  revert h. induction p as [a|w|R q f IH]; intros h; cbn; [done..|].
  setoid_rewrite IH. done.
Qed.

(** Sequencing with an intermediate assertion. *)
Lemma wp_seq {A B} h (p : prog A) (g : A → prog B) Qm Q :
  wp_from G h p Qm →
  (∀ h' a, Qm h' (Done a) → wp_from G h' (g a) Q) →
  (∀ h' w, Qm h' (Crashed w) → Q h' (Crashed w)) →
  wp_from G h (bind p g) Q.
Proof.
  intros Hp Hg Hw. apply wp_bind. eapply wp_mono; [exact Hp|].
  intros h' [a|w]; eauto.
Qed.

(** Sequencing after a part of which only the guarantee and that it returns
    are known. *)
Lemma wp_returns {A B} h (p : prog A) (g : A → prog B) Q :
  wp_from G h p returns → (∀ h' a, wp_from G h' (g a) Q) → wp_from G h (bind p g) Q.
Proof.
  intros Hp Hg. apply (wp_seq _ _ _ returns); [done|by eauto|]. by intros ? ? [? ?].
Qed.

Lemma wp_call {R B} h (q : Api R) (g : R → prog B) Q :
  G h R q → (∀ x, wp_from G (h ++ [Ev q x]) (g x) Q) → wp_from G h (bind (call q) g) Q.
Proof. intros HG Hx. by split. Qed.

Lemma wp_Ret_returns {A} h (a : A) : wp_from G h (Ret a) returns.
Proof. by exists a. Qed.

(** With no guarantee to keep, the history before a program does not matter to
    whether it returns. *)
Lemma wp_history {A} h h' (p : prog A) :
  (∀ h R q, G h R q) → wp_from G h p returns → wp_from G h' p returns.
Proof.
  intros HG. revert h h'. induction p as [a|w|R q f IH]; intros h h'; cbn; [done..|].
  intros [_ Hx]. split; [apply HG|]. intros x. by eapply IH.
Qed.

(** A loop preserves an invariant its body preserves. *)
Lemma wp_foldM {S A} (I : S → list event → Prop) (body : S → A → prog S) h s l Q :
  I s h →
  (∀ h' s' x, x ∈ l → I s' h' →
     wp_from G h' (body s' x) (λ h2 o, match o with Done s2 => I s2 h2 | Crashed w => Q h2 (Crashed w) end)) →
  (∀ h' s', I s' h' → Q h' (Done s')) →
  wp_from G h (foldM body s l) Q.
Proof.
  intros HI Hb HQ. revert h s HI.
  induction l as [|x l IH]; intros h s HI; cbn; [by apply HQ|].
  apply wp_bind. eapply wp_mono; [apply Hb; [left|exact HI]|].
  intros h2 [s2|w]; [|done]. intros HI2. apply IH; [|done].
  intros h' s' y Hy. apply Hb. by right.
Qed.

Lemma wp_foldM_outcome {S A} (I : S → list event → Prop) (body : S → A → prog S) h s l :
  I s h →
  (∀ h' s' x, x ∈ l → I s' h' →
     wp_from G h' (body s' x) (λ h2 o, ∀ s2, o = Done s2 → I s2 h2)) →
  wp_from G h (foldM body s l) (λ h2 o, ∀ s2, o = Done s2 → I s2 h2).
Proof.
  intros HI Hb. apply (wp_foldM I); [done| |].
  - intros h' s' x Hx HI'. eapply wp_mono; [by apply Hb|].
    intros h2 [s2|w] H; [by apply H|done].
  - intros h' s' HI' s2 Hs2. by simplify_eq.
Qed.
End wp_lemmas.

(** Soundness: what [wp] proves holds of every execution. *)
Lemma wp_exec_from G {A} h (p : prog A) Q t o :
  wp_from G h p Q → exec p t o →
  Q (h ++ t) o ∧
  ∀ t1 R (q : Api R) x t2, t = t1 ++ Ev q x :: t2 → G (h ++ t1) R q.
Proof.
  intros Hwp He. revert h Hwp. induction He as [a|w|R q f x t o He IH]; intros h; cbn.
  - intros HQ. rewrite app_nil_r. split; [done|]. intros [|??]; by simplify_list_eq.
  - intros HQ. rewrite app_nil_r. split; [done|]. intros [|??]; by simplify_list_eq.
  - intros [HG Hx]. destruct (IH _ (Hx x)) as [HQ Hall]. rewrite <-app_assoc in HQ.
    split; [done|]. intros [|e t1] R' q' x' t2 Heq; cbn in Heq.
    + assert (Hd := f_equal (λ l, match l with Ev q _ :: _ => G h _ q | [] => True end) Heq).
      cbn in Hd. rewrite app_nil_r. by rewrite <-Hd.
    + injection Heq as He1 He2. subst e.
      specialize (Hall t1 R' q' x' t2 He2). by rewrite <-app_assoc in Hall.
Qed.

Lemma wp_exec G {A} (p : prog A) Q t o : wp G p Q → exec p t o → Q t o.
Proof. intros Hwp He. by destruct (wp_exec_from G [] p Q t o Hwp He). Qed.

Lemma wp_guarantee G {A} (p : prog A) Q t o t1 R (q : Api R) x t2 :
  wp G p Q → exec p t o → t = t1 ++ Ev q x :: t2 → G t1 R q.
Proof. intros Hwp He Ht. destruct (wp_exec_from G [] p Q t o Hwp He) as [_ H]. by eapply H. Qed.

(** A run against a server is an execution. *)
Lemma run_exec {W A} `{Server W} (p : prog A) (w : W) :
  exec p (run_trace p w) (run_outcome p w).
Proof.
  unfold run_trace, run_outcome. revert w.
  induction p as [a|e|R q f IH]; intros w; cbn; [constructor..|].
  destruct (serve q w) as [x w'] eqn:Hs. specialize (IH x w').
  destruct (run (f x) w') as [[o t] w'']. cbn in *. by constructor.
Qed.

Lemma run_exec_eq {W A} `{Server W} (p : prog A) (w : W) o :
  run_outcome p w = o → exec p (run_trace p w) o.
Proof. intros <-. apply run_exec. Qed.

Lemma run_bind {W A B} `{Server W} (p : prog A) (g : A → prog B) (w : W) :
  run (bind p g) w =
  match run p w with
  | (Done a, t, w') => let '(o, t', w'') := run (g a) w' in (o, t ++ t', w'')
  | (Crashed e, t, w') => (Crashed e, t, w')
  end.
Proof.
  revert w. induction p as [a|e|R q f IH]; intros w; cbn.
  - by destruct (run (g a) w) as [[o t] w'].
  - done.
  - destruct (serve q w) as [x w']. rewrite IH.
    destruct (run (f x) w') as [[[a|e] t] w'']; [|done].
    by destruct (run (g a) w'') as [[o t'] w3].
Qed.

Lemma read_only_app t1 t2 : read_only (t1 ++ t2) ↔ read_only t1 ∧ read_only t2.
Proof. apply Forall_app. Qed.

Lemma read_only_snoc t R (q : Api R) x :
  read_only t → is_write q = false → read_only (t ++ [Ev q x]).
Proof. intros Ht Hq. apply read_only_app. split; [done|]. by repeat constructor. Qed.

#[export] Hint Resolve read_only_snoc wp_Ret_returns : search.

(** * Programs all of whose requests satisfy a property *)

Definition ev_ok (P : ∀ R, Api R → Prop) (e : event) : Prop := let 'Ev q _ := e in P _ q.

Definition issues (P : ∀ R, Api R → Prop) {A} (p : prog A) : Prop :=
  ∀ t o, exec p t o → Forall (ev_ok P) t.

Section issues.
Context (P : ∀ R, Api R → Prop).

Lemma issues_Ret {A} (a : A) : issues P (Ret a).
Proof. intros t o [-> _]%exec_Ret. by apply Forall_nil. Qed.

Lemma issues_Panic {A} w : issues P (@Panic A w).
Proof. intros t o [-> _]%exec_Panic. by apply Forall_nil. Qed.

Lemma issues_call {R} (q : Api R) : P R q → issues P (call q).
Proof.
  intros HP t o (x & t' & -> & [-> _]%exec_Ret)%exec_Op. apply Forall_cons. split; [done|by apply Forall_nil].
Qed.

Lemma issues_bind {A B} (p : prog A) (g : A → prog B) :
  issues P p → (∀ a, issues P (g a)) → issues P (bind p g).
Proof.
  intros Hp Hg t o [(a & t1 & t2 & -> & H1 & H2)|(w & H1 & ->)]%exec_bind; [|by eapply Hp].
  apply Forall_app. split; [by eapply Hp|by eapply Hg].
Qed.

Lemma issues_foldM {S A} (body : S → A → prog S) s l :
  (∀ s x, x ∈ l → issues P (body s x)) → issues P (foldM body s l).
Proof.
  revert s. induction l as [|x l IH]; intros s Hb; cbn [foldM]; [apply issues_Ret|].
  apply issues_bind; [apply Hb; by left|]. intros s'. apply IH. intros s2 y Hy. apply Hb. by right.
Qed.
End issues.

Create HintDb issues.
#[export] Hint Resolve issues_Ret issues_Panic : issues.

(** Walk through a program, leaving the requests it makes. *)
Ltac issue_step :=
  lazymatch goal with
  | |- issues _ (bind _ _) => apply issues_bind; [|intros ?]
  | |- issues _ (Ret _) => apply issues_Ret
  | |- issues _ (Panic _) => apply issues_Panic
  | |- issues _ (call _) => apply issues_call
  | |- issues _ (foldM _ _ _) => apply issues_foldM; intros
  | |- issues _ (match ?x with _ => _ end) => destruct x
  | |- issues _ (let _ := _ in _) => cbv zeta
  end.
Ltac issue_steps := repeat (first [solve [eauto with issues nocore] | issue_step]); try solve [eauto with issues nocore].

(** Run through a [wp] goal of straight-line code: introduce answers and split
    on the tests the program makes. *)
Ltac wp_step :=
  lazymatch goal with
  | |- wp _ _ _ => unfold wp
  | |- wp_from _ _ (bind _ _) _ => apply wp_bind
  | |- wp_from _ _ (Ret _) _ => cbn [wp_from]
  | |- wp_from _ _ (Panic _) _ => cbn [wp_from]
  | |- wp_from _ _ (call _) _ => unfold call
  | |- wp_from _ _ (Op _ _) _ => cbn [wp_from]; split; [|intros ?]
  | |- wp_from _ _ (match ?x with _ => _ end) _ => destruct x eqn:?
  end.
Ltac wp_steps := repeat wp_step.

(** Decompose hypotheses about executions of straight-line code, splitting on
    the answers and tests the code looks at. *)
Ltac exec_step :=
  match goal with
  | H : exec (Ret _) _ _ |- _ =>
      let Ht := fresh in let Ho := fresh in
      apply exec_Ret in H as [Ht Ho]; try subst; try discriminate Ho
  | H : exec (Panic _) _ _ |- _ =>
      let Ht := fresh in let Ho := fresh in
      apply exec_Panic in H as [Ht Ho]; try subst; try discriminate Ho
  | H : exec (Op _ _) _ _ |- _ =>
      let x := fresh "ans" in let t := fresh "t" in let Ht := fresh in
      apply exec_Op in H as (x & t & Ht & H); subst
  | H : exec (call _) _ _ |- _ => unfold call in H
  | H : exec (bind (call _) _) _ _ |- _ => unfold call in H; cbn [bind] in H
  | H : exec (bind (Ret _) _) _ _ |- _ => cbn [bind] in H
  | H : exec (bind (Op _ _) _) _ _ |- _ => cbn [bind] in H
  | H : exec (match ?x with _ => _ end) _ _ |- _ => destruct x eqn:?
  | H : exec (bind (match ?x with _ => _ end) _) _ _ |- _ => destruct x eqn:?
  end.
Ltac exec_steps := repeat exec_step.

(** Answers that name the object asked for: [Get] answers an object with the
    requested name, a write answers with the object it wrote. *)
Definition honest (e : event) : Prop :=
  match e with
  | Ev q a =>
      match q in Api R return R → Prop with
      | Get k n => λ a, match a with Ok o => obj_key k o = n | Err _ => True end
      | Create k o | Update k o | Patch k o | StatusUpdate k o =>
          λ a, match a with Ok o' => obj_key k o' = obj_key k o | Err _ => True end
      | _ => λ _, True
      end a
  end.

Definition honestb (e : event) : bool :=
  match e with
  | Ev q a =>
      match q in Api R return R → bool with
      | Get k n => λ a, match a with Ok o => bool_decide (obj_key k o = n) | Err _ => true end
      | Create k o | Update k o | Patch k o | StatusUpdate k o =>
          λ a, match a with Ok o' => bool_decide (obj_key k o' = obj_key k o) | Err _ => true end
      | _ => λ _, true
      end a
  end.

Lemma honestb_sound t : forallb honestb t = true → Forall honest t.
Proof.
  intros Ht%Is_true_true%forallb_True. eapply Forall_impl; [exact Ht|]. cbv beta.
  intros [R q a]. destruct q; cbn; try done; destruct a; try done; intros ?%Is_true_true; by case_bool_decide.
Qed.

(** * What a trace shows of one object

    The object of a kind and name as the requests of a trace last showed it:
    answered by [Get], or sent in a write the server accepted; nothing is known
    after a failed [Get] or a successful [Delete]. *)
Definition as_kind (k k' : Kind) (o : Obj k') (st : option (Obj k)) : option (Obj k) :=
  match decide (k' = k) with
  | left e => Some (eq_rect k' Obj o k e)
  | right _ => st
  end.

Definition forget (k k' : Kind) (st : option (Obj k)) : option (Obj k) :=
  if decide (k' = k) then None else st.

Definition sent (k : Kind) (n : NamespacedName) (k' : Kind) (o : Obj k') (a : result (Obj k'))
    (st : option (Obj k)) : option (Obj k) :=
  match a with
  | Ok _ => if bool_decide (obj_key k' o = n) then as_kind k k' o st else st
  | Err _ => st
  end.

Definition track (k : Kind) (n : NamespacedName) (st : option (Obj k)) (e : event) : option (Obj k) :=
  match e with
  | Ev q a =>
      match q in Api R return R → option (Obj k) with
      | Get k' n' => λ a,
          if bool_decide (n' = n)
          then match a with Ok o => as_kind k k' o st | Err _ => forget k k' st end else st
      | Create k' o | Update k' o | Patch k' o => λ a, sent k n k' o a st
      | Delete k' n' => λ a,
          match a with
          | None => if bool_decide (n' = n) then forget k k' st else st
          | Some _ => st
          end
      | _ => λ _, st
      end a
  end.

Definition last_shown (k : Kind) (n : NamespacedName) (t : list event) : option (Obj k) :=
  fold_left (track k n) t None.

Lemma as_kind_same k o st : as_kind k k o st = Some o.
Proof.
  unfold as_kind. destruct (decide (k = k)) as [e|]; [|done].
  by rewrite (Eqdep_dec.UIP_dec (λ x y, decide (x = y)) e eq_refl).
Qed.

Lemma forget_same k st : forget k k st = None.
Proof. unfold forget. by rewrite decide_True. Qed.

Lemma track_get_ok k n o st : track k n st (Ev (Get k n) (Ok o)) = Some o.
Proof. cbn. rewrite bool_decide_eq_true_2 by done. apply as_kind_same. Qed.

Lemma track_created k n o o' st :
  obj_key k o = n → track k n st (Ev (Create k o) (Ok o')) = Some o.
Proof. intros Hn. cbn. unfold sent. rewrite bool_decide_eq_true_2 by done. apply as_kind_same. Qed.

Lemma track_updated k n o o' st :
  obj_key k o = n → track k n st (Ev (Update k o) (Ok o')) = Some o.
Proof. intros Hn. cbn. unfold sent. rewrite bool_decide_eq_true_2 by done. apply as_kind_same. Qed.

Lemma last_shown_app k n t1 t2 :
  last_shown k n (t1 ++ t2) = fold_left (track k n) t2 (last_shown k n t1).
Proof. apply fold_left_app. Qed.
