(* ===== verification/Interfaces.v ===== *)
(** What the operator relies on of controller-runtime and apimachinery beyond
    client calls: owner references, finalizers and status conditions. The
    functions are parameters ([Class] fields); the laws state their documented
    behaviour; the reference instances show the laws can hold and let examples
    be evaluated. *)
From S2P Require Import Prelude K8s V1alpha1.

(** [controllerutil]; the scheme is part of the instance. *)
Class ControllerUtil := {
  SetControllerReference : Search → ObjectMeta → result ObjectMeta;
  ContainsFinalizer : ObjectMeta → string → bool;
  AddFinalizer : ObjectMeta → string → ObjectMeta;
  RemoveFinalizer : ObjectMeta → string → ObjectMeta
}.

Section owner.
Context `{ControllerUtil}.

(** [SetControllerReference] whose error is only logged: the object keeps the
    owner references it had. *)
Definition withOwner (instance : Search) (m : ObjectMeta) : ObjectMeta :=
  match SetControllerReference instance m with Ok m' => m' | Err _ => m end.

End owner.

(** A controller owner reference to the Search CR. *)
Definition controller_ref_to (s : Search) (ref : OwnerReference) : Prop :=
  or_UID ref = om_UID (s_Meta s) ∧ or_Controller ref = Some true.

Class ControllerUtilLaws `{ControllerUtil} := {
  SetControllerReference_ok s m m' :
    SetControllerReference s m = Ok m' →
    m' = set_OwnerReferences (om_OwnerReferences m') m ∧
    Exists (controller_ref_to s) (om_OwnerReferences m');
  (* taking ownership fails only for an object of another owner or namespace *)
  SetControllerReference_free s m :
    om_OwnerReferences m = [] → om_Namespace m = s_Namespace s → ∃ m', SetControllerReference s m = Ok m';
  ContainsFinalizer_spec m f : ContainsFinalizer m f = true ↔ f ∈ om_Finalizers m;
  AddFinalizer_spec m f :
    AddFinalizer m f = set_Finalizers (om_Finalizers (AddFinalizer m f)) m ∧
    f ∈ om_Finalizers (AddFinalizer m f) ∧
    (∀ g, g ∈ om_Finalizers m → g ∈ om_Finalizers (AddFinalizer m f));
  RemoveFinalizer_spec m f :
    RemoveFinalizer m f = set_Finalizers (om_Finalizers (RemoveFinalizer m f)) m ∧
    (∀ g, g ∈ om_Finalizers (RemoveFinalizer m f) ↔ g ∈ om_Finalizers m ∧ g ≠ f)
}.

(** Taking ownership changes only the owner references. *)
Lemma withOwner_name `{ControllerUtilLaws} s m :
  om_Name (withOwner s m) = om_Name m ∧ om_Namespace (withOwner s m) = om_Namespace m ∧
  om_Labels (withOwner s m) = om_Labels m ∧ om_Annotations (withOwner s m) = om_Annotations m.
Proof.
  unfold withOwner. destruct (SetControllerReference s m) as [m'|] eqn:Hs; [|done].
  by apply SetControllerReference_ok in Hs as [-> _].
Qed.

(** Its parts, for rewriting. *)
Section withOwner_fields.
Context `{ControllerUtilLaws} (s : Search) (m : ObjectMeta).
Lemma withOwner_Name : om_Name (withOwner s m) = om_Name m.
Proof. apply withOwner_name. Qed.
Lemma withOwner_namespace : om_Namespace (withOwner s m) = om_Namespace m.
Proof. apply withOwner_name. Qed.
Lemma withOwner_Labels : om_Labels (withOwner s m) = om_Labels m.
Proof. apply withOwner_name. Qed.
Lemma withOwner_Annotations : om_Annotations (withOwner s m) = om_Annotations m.
Proof. apply withOwner_name. Qed.
Lemma withOwner_Finalizers : om_Finalizers (withOwner s m) = om_Finalizers m.
Proof.
  unfold withOwner. destruct (SetControllerReference s m) as [m'|] eqn:Hs; [|done].
  by apply SetControllerReference_ok in Hs as [-> _].
Qed.
End withOwner_fields.
Create Rewrite HintDb owner.
#[export] Hint Rewrite @withOwner_Name @withOwner_namespace @withOwner_Labels @withOwner_Annotations
  @withOwner_Finalizers using typeclasses eauto : owner.

(** [k8s.io/apimachinery/pkg/api/meta] on status conditions. *)
Class StatusConditions := {
  FindStatusCondition : list Condition → string → option Condition;
  SetStatusCondition : list Condition → Condition → list Condition
}.

Class StatusConditionsLaws `{StatusConditions} := {
  FindStatusCondition_Some cs ty c : FindStatusCondition cs ty = Some c → c ∈ cs ∧ c_Type c = ty;
  Find_SetStatusCondition cs c :
    ∃ c', FindStatusCondition (SetStatusCondition cs c) (c_Type c) = Some c' ∧
          c_Status c' = c_Status c ∧ c_Reason c' = c_Reason c ∧ c_Message c' = c_Message c
}.

(** * Reference instances *)

Definition isController (ref : OwnerReference) : bool :=
  match or_Controller ref with Some b => b | None => false end.

Definition refToSearch (s : Search) : OwnerReference :=
  mkOwnerRef GroupVersion "Search" (s_Name s) (om_UID (s_Meta s)) (Some true).

Definition ref_SetControllerReference (s : Search) (m : ObjectMeta) : result ObjectMeta :=
  match find_first (λ r, isController r && negb (String.eqb (or_UID r) (om_UID (s_Meta s))))
          (om_OwnerReferences m) with
  | Some r => Err (Errorf ("Object is already owned by another " +:+ or_Kind r))
  | None =>
      Ok (set_OwnerReferences
            (filter (λ r, or_UID r ≠ om_UID (s_Meta s)) (om_OwnerReferences m) ++ [refToSearch s]) m)
  end.

#[export] Instance reference_ControllerUtil : ControllerUtil := {
  SetControllerReference := ref_SetControllerReference;
  ContainsFinalizer m f := bool_decide (f ∈ om_Finalizers m);
  AddFinalizer m f :=
    if bool_decide (f ∈ om_Finalizers m) then m else set_Finalizers (om_Finalizers m ++ [f]) m;
  RemoveFinalizer m f := set_Finalizers (filter (λ g, g ≠ f) (om_Finalizers m)) m
}.

Definition hasType (ty : string) (c : Condition) : bool := String.eqb (c_Type c) ty.

Definition ref_SetStatusCondition (cs : list Condition) (c : Condition) : list Condition :=
  match find_index (hasType (c_Type c)) cs with
  | None => cs ++ [c]
  | Some i => <[i := c]> cs
  end.

#[export] Instance reference_StatusConditions : StatusConditions := {
  FindStatusCondition cs ty := find_first (hasType ty) cs;
  SetStatusCondition := ref_SetStatusCondition
}.

(** * The reference instances satisfy the laws *)

Lemma set_Finalizers_same m : set_Finalizers (om_Finalizers m) m = m.
Proof. by destruct m. Qed.

Lemma find_first_app_r {A} (p : A → bool) l x :
  Forall (λ y, p y = false) l → p x = true → find_first p (l ++ [x]) = Some x.
Proof.
  induction l as [|y l IH]; cbn; [by intros _ ->|].
  intros [Hy Hl]%Forall_cons Hx. rewrite Hy. by apply IH.
Qed.

Lemma find_first_insert {A} (p : A → bool) l i x :
  find_index p l = Some i → p x = true → find_first p (<[i:=x]> l) = Some x.
Proof.
  revert i. induction l as [|y l IH]; intros i; cbn; [done|].
  destruct (p y) eqn:Hy.
  - intros [= <-] Hx. cbn. by rewrite Hx.
  - destruct (find_index p l) as [j|]; [|done]. intros [= <-] Hx. cbn. rewrite Hy. by apply IH.
Qed.

#[export] Instance reference_ControllerUtilLaws : ControllerUtilLaws.
Proof.
  split.
  - intros s m m'. cbn. unfold ref_SetControllerReference.
    destruct (find_first _ _); [done|]. intros [= <-]. split; [done|]. cbn.
    apply Exists_app. right. apply Exists_cons. by left.
  - intros s m Hm _. cbn. unfold ref_SetControllerReference. rewrite Hm. cbn. by eexists.
  - intros m f. cbn. by rewrite bool_decide_eq_true.
  - intros m f. cbn. case_bool_decide.
    + split_and!; [by rewrite set_Finalizers_same|done|done].
    + cbn. split_and!; [done|set_solver|set_solver].
  - intros m f. cbn. split; [done|]. intros g. rewrite list_elem_of_filter. naive_solver.
Qed.

#[export] Instance reference_StatusConditionsLaws : StatusConditionsLaws.
Proof.
  split.
  - intros cs ty c [Hc Ht]%find_first_Some. split; [done|]. by apply String.eqb_eq.
  - intros cs c. exists c. split; [|done]. cbn. unfold ref_SetStatusCondition.
    destruct (find_index _ _) as [i|] eqn:Hi.
    + apply find_first_insert; [done|]. apply String.eqb_refl.
    + apply find_first_app_r; [by apply find_index_None|]. apply String.eqb_refl.
Qed.
