(* ===== verification/Selectors.v ===== *)
(** What a resource selector selects: the meaning of the wildcard ["*"] that the
    admission webhook and the merge share. *)
From S2P Require Import Prelude K8s V1alpha1.

(** A list of names with the wildcard matches [x]. *)
Definition matches (l : list string) (x : string) : Prop := x ∈ l ∨ "*" ∈ l.

(** The resources (API group, kind) a selector selects. *)
Definition selects (s : ResourceSelector) (g k : string) : Prop :=
  matches (rs_APIGroups s) g ∧ matches (rs_Kinds s) k.

(** Two selectors overlap when some resource is selected by both. *)
Definition overlap (s t : ResourceSelector) : Prop :=
  ∃ g k, selects s g k ∧ selects t g k.

(** The nested loops of [setsIntersect] and [webhookSetsIntersect], which the
    source has twice. *)
Definition intersect_loop (a b : list string) : bool :=
  existsb (λ x, existsb (λ y, String.eqb x "*" || String.eqb y "*" || String.eqb x y) b) a.

(** * Lemmas *)

#[export] Instance matches_dec l x : Decision (matches l x).
Proof. unfold matches. apply _. Defined.

#[export] Instance selects_dec s g k : Decision (selects s g k).
Proof. unfold selects. apply _. Defined.

Lemma intersect_loop_spec a b :
  intersect_loop a b = true ↔ ∃ x, matches a x ∧ matches b x.
Proof.
  unfold intersect_loop, matches. setoid_rewrite existsb_elem. setoid_rewrite existsb_elem.
  split.
  - intros (x & Hx & y & Hy & H). rewrite !orb_true_iff, !String.eqb_eq in H.
    destruct H as [[->| ->]| ->]; [exists y|exists x|exists y]; auto.
  - intros (x & [Ha|Ha] & [Hb|Hb]).
    + exists x. split; [done|]. exists x. split; [done|]. by rewrite String.eqb_refl, orb_true_r.
    + exists x. split; [done|]. exists "*". split; [done|]. by rewrite orb_true_r.
    + exists "*". split; [done|]. by exists x.
    + exists "*". split; [done|]. by exists "*".
Qed.

Lemma overlap_intersect s t :
  overlap s t ↔
  intersect_loop (rs_APIGroups s) (rs_APIGroups t) = true ∧
  intersect_loop (rs_Kinds s) (rs_Kinds t) = true.
Proof.
  rewrite !intersect_loop_spec. unfold overlap, selects. naive_solver.
Qed.

Lemma matches_app l1 l2 x : matches (l1 ++ l2) x ↔ matches l1 x ∨ matches l2 x.
Proof. unfold matches. rewrite !elem_of_app. naive_solver. Qed.

Lemma overlap_sym s t : overlap s t → overlap t s.
Proof. intros (g & k & ? & ?). by exists g, k. Qed.

#[export] Instance overlap_dec s t : Decision (overlap s t).
Proof.
  refine (cast_if (decide (intersect_loop (rs_APIGroups s) (rs_APIGroups t) = true ∧
    intersect_loop (rs_Kinds s) (rs_Kinds t) = true))); by rewrite overlap_intersect.
Defined.

#[export] Hint Resolve overlap_sym : search.
