(* ===== verification/MemServer.v ===== *)
(** A concrete API server that keeps objects in memory, with scripted faults. No
    theorem assumes it: it instantiates the server of the model in the witnesses
    and examples, where programs run against it by evaluation. *)
From S2P Require Import Prelude K8s V1alpha1 Effects.

Definition Store := ∀ k : Kind, gmap NamespacedName (Obj k).
Definition emptyStore : Store := λ _, ∅.

Definition store_alter (k : Kind) (f : gmap NamespacedName (Obj k) → gmap NamespacedName (Obj k))
    (s : Store) : Store := λ k',
  match decide (k = k') with
  | left e => match e in _ = k' return gmap NamespacedName (Obj k') with eq_refl => f (s k) end
  | right _ => s k'
  end.

Definition store_put (k : Kind) (o : Obj k) (s : Store) : Store :=
  store_alter k (<[obj_key k o := o]>) s.

(** Objects of the dynamic client, by resource and name. *)
Record DynObj := mkDyn { dyn_gvr : GroupVersionResource; dyn_nn : NamespacedName; dyn_obj : Unstructured }.

Record MemServer := mkServer {
  ms_store : Store;
  ms_dyn : list DynObj;
  ms_clock : Time;
  ms_faults : list (option error)  (* the n-th request fails with the n-th entry *)
}.

Definition notFound : error := mkError NotFound "not found".
Definition alreadyExists : error := mkError AlreadyExists "already exists".
Definition conflict : error := mkError Conflict "the object has been modified".
Definition serverDown : error := Errorf "connection refused".

Definition serverWith (s : Store) : MemServer := mkServer s [] 1 [].
Definition faulty (fs : list (option error)) (w : MemServer) : MemServer :=
  mkServer (ms_store w) (ms_dyn w) (ms_clock w) fs.

Definition mem_matches (o : ListOptions) (m : ObjectMeta) : bool :=
  match lo_Namespace o with Some ns => String.eqb (om_Namespace m) ns | None => true end &&
  bool_decide (map_Forall (λ k v, map_of (om_Labels m) !! k = Some v) (lo_Labels o)).

Definition mem_list (k : Kind) (o : ListOptions) (s : Store) : list (Obj k) :=
  List.filter (λ x, mem_matches o (obj_meta k x)) (map_to_list (s k)).*2.

Definition dyn_is (r : GroupVersionResource) (n : NamespacedName) (d : DynObj) : bool :=
  bool_decide (dyn_gvr d = r ∧ dyn_nn d = n).

Section serve.
Context (w : MemServer).

Let ok {R} (s : Store) (x : R) : R * MemServer := (x, mkServer s (ms_dyn w) (ms_clock w) (ms_faults w)).
Let dyn_ok {R} (d : list DynObj) (x : R) : R * MemServer :=
  (x, mkServer (ms_store w) d (ms_clock w) (ms_faults w)).

Definition mem_put (k : Kind) (o : Obj k) : result (Obj k) * MemServer :=
  match ms_store w k !! obj_key k o with
  | None => ok (ms_store w) (Err notFound)
  | Some _ => ok (store_put k o (ms_store w)) (Ok o)
  end.

Definition serve_ok {R} (q : Api R) : R * MemServer :=
  match q in Api R return R * MemServer with
  | Get k n => ok (ms_store w) (match ms_store w k !! n with Some o => Ok o | None => Err notFound end)
  | List k o => ok (ms_store w) (Ok (mem_list k o (ms_store w)))
  | Create k o =>
      match ms_store w k !! obj_key k o with
      | Some _ => ok (ms_store w) (Err alreadyExists)
      | None => ok (store_put k o (ms_store w)) (Ok o)
      end
  | Update k o | Patch k o | StatusUpdate k o => mem_put k o
  | Delete k n =>
      match ms_store w k !! n with
      | Some _ => ok (store_alter k (delete n) (ms_store w)) None
      | None => ok (ms_store w) (Some notFound)
      end
  | DynGet r n =>
      dyn_ok (ms_dyn w) (match find_first (dyn_is r n) (ms_dyn w) with
                         | Some d => Ok (dyn_obj d) | None => Err notFound end)
  | DynList r =>
      dyn_ok (ms_dyn w) (Ok (map dyn_obj (List.filter (λ d, bool_decide (dyn_gvr d = r)) (ms_dyn w))))
  | DynCreate r ns u =>
      match find_first (dyn_is r (mkNN (u_Name u) ns)) (ms_dyn w) with
      | Some _ => dyn_ok (ms_dyn w) (Some alreadyExists)
      | None => dyn_ok (ms_dyn w ++ [mkDyn r (mkNN (u_Name u) ns) u]) None
      end
  | DynUpdate r ns u =>
      match find_first (dyn_is r (mkNN (u_Name u) ns)) (ms_dyn w) with
      | Some _ => dyn_ok (map (λ d, if dyn_is r (mkNN (u_Name u) ns) d
                                    then mkDyn r (mkNN (u_Name u) ns) u else d) (ms_dyn w)) None
      | None => dyn_ok (ms_dyn w) (Some notFound)
      end
  | DynDelete r n =>
      match find_first (dyn_is r n) (ms_dyn w) with
      | Some _ => dyn_ok (List.filter (λ d, negb (dyn_is r n d)) (ms_dyn w)) None
      | None => dyn_ok (ms_dyn w) (Some notFound)
      end
  | Now => (ms_clock w, mkServer (ms_store w) (ms_dyn w) (ms_clock w + 1)%Z (ms_faults w))
  | RandInt b => (0, w)
  end.

Definition serve_fault {R} (e : error) (q : Api R) : R :=
  match q in Api R return R with
  | Get _ _ | List _ _ | Create _ _ | Update _ _ | Patch _ _ | StatusUpdate _ _ => Err e
  | DynGet _ _ | DynList _ => Err e
  | Delete _ _ | DynCreate _ _ _ | DynUpdate _ _ _ | DynDelete _ _ => Some e
  | Now => ms_clock w
  | RandInt _ => 0
  end.
End serve.

#[export] Instance memServer : Server MemServer := λ R q w,
  match ms_faults w with
  | Some e :: fs => (serve_fault w e q, faulty fs w)
  | None :: fs => serve_ok (faulty fs w) q
  | [] => serve_ok w q
  end.
