(* ===== verification/Fixtures.v ===== *)
(** Concrete objects and servers on which the theorems are evaluated. *)
From S2P Require Import Prelude K8s V1alpha1 Effects MemServer.
From Stdlib Require Ascii String.

Definition sampleMeta : ObjectMeta :=
  mkMeta "search-v2-operator" "ocm" None None [] [] None "uid-1".

Definition sampleSearch : Search := mkSearch sampleMeta zeroSearchSpec (mkSearchStatus "" "" []).

Definition includeRule (groups kinds : list string) : CollectionRule :=
  mkRule ActionInclude (mkSelector groups kinds) [] "" None None None.
Definition excludeRule (groups kinds : list string) : CollectionRule :=
  mkRule ActionExclude (mkSelector groups kinds) [] "" None None None.

Definition integrationLabels : option smap := Some {[ IntegrationTeamLabel := IntegrationTeamLabelValue ]}.

Definition teamConfig (name : string) (rules : list CollectionRule) : CollectorConfig :=
  mkCC (set_Labels integrationLabels (newMeta name "ocm")) (mkCCSpec None rules) [].

Definition userConfig (rules : list CollectionRule) : CollectorConfig :=
  mkCC (newMeta "user-collector-config" "ocm") (mkCCSpec None rules) [].

Definition teamA : CollectorConfig := teamConfig "a-integration" [includeRule ["apps"] ["Deployment"]].
Definition teamB : CollectorConfig := teamConfig "b-integration" [includeRule ["batch"] ["*"]].
Definition userMixed : CollectorConfig :=
  userConfig [excludeRule ["apps"] ["Deployment"]; excludeRule ["events.k8s.io"] ["Event"]].

(** A cluster with two integration configs and a user config one of whose rules
    conflicts with an integration. *)
Definition ccStore : Store :=
  store_put KCollectorConfig userMixed
    (store_put KCollectorConfig teamB (store_put KCollectorConfig teamA emptyStore)).
Definition ccServer : MemServer := serverWith ccStore.

(** A new cluster: the CR was just created, nothing else exists. *)
Definition freshCluster : MemServer := serverWith (store_put KSearch sampleSearch emptyStore).

(** A stand-in for a digest: the text itself. *)
Definition sampleHash : string → list Byte.byte := λ s, map Ascii.byte_of_ascii (String.list_ascii_of_string s).
