(* ===== verification/Webhook.v ===== *)
(** [src/api/v1alpha1/collectorconfig_webhook.go]: admission of CollectorConfigs.

    The validators return the list of field errors in the order the source
    appends them ([None] stands for a nil error). Parameters: the JSONPath parser
    of client-go ([jsonpath_parses]), the order in which Go ranges over the map
    [protectedKinds] ([kindsOrder]), whether a client is registered
    ([webhookClientSet]) and the admission request in the context ([request]). *)
From S2P Require Import Prelude GoStrings K8s V1alpha1 Effects Selectors MemServer Fixtures.
From Stdlib Require Import Ascii.

Local Open Scope search_scope.

(** * Field errors ([k8s.io/apimachinery/pkg/util/validation/field]) *)

Inductive path_elem := PChild (name : string) | PIndex (i : nat).
Abbreviation path := (list path_elem).

Inductive ErrorType := ErrorTypeRequired | ErrorTypeInvalid | ErrorTypeNotSupported.

Record FieldError := mkFieldError {
  fe_Type : ErrorType;
  fe_Field : path;
  fe_Detail : string
}.
Abbreviation ErrorList := (list FieldError).

Definition Required (p : path) (d : string) : FieldError := mkFieldError ErrorTypeRequired p d.
Definition Invalid (p : path) (d : string) : FieldError := mkFieldError ErrorTypeInvalid p d.
Definition NotSupported (p : path) (valid : list string) : FieldError :=
  mkFieldError ErrorTypeNotSupported p (Join valid ", ").

(** What an admission handler answers: a plain error or the aggregate of a
    non-empty error list. *)
Inductive AdmissionError :=
| ErrMessage (msg : string)
| ErrAggregate (l : ErrorList).

(** [if len(allErrs) == 0 { return nil }; return allErrs.ToAggregate()] *)
Definition aggregate (l : ErrorList) : option AdmissionError :=
  match l with [] => None | _ => Some (ErrAggregate l) end.

(** * Format checks *)

Definition is_letter (c : ascii) : bool := is_lower c || is_upper c.

(** [^[a-zA-Z][a-zA-Z0-9\-_.]*$] *)
Definition isValidFieldName (name : string) : bool :=
  match name with
  | EmptyString => false
  | String c s => is_letter c && all_chars (λ c, is_letter c || is_digit c || is_one_of "-_." c) s
  end.

(** [^[a-z0-9\-.]+$] *)
Definition isValidFieldSuffix (suffix : string) : bool :=
  negb (String.eqb suffix "") && all_chars (λ c, is_lower c || is_digit c || is_one_of "-." c) suffix.

(** [contains(slice, item)] *)
Definition contains (slice : list string) (item : string) : bool :=
  existsb (λ s, String.eqb s item) slice.

(** * Protected resources *)

Definition protectedKinds : smap :=
  {[ "ManagedCluster" := "cluster.open-cluster-management.io"; "Namespace" := "" ]}.

Definition protectedAPIGroups : gset string :=
  list_to_set [ ""; "config.openshift.io"; "template.openshift.io";
    "admissionregistration.k8s.io"; "operator.open-cluster-management.io";
    "search.open-cluster-management.io" ].

Section webhook.
Context (jsonpath_parses : string → bool).
Context (kindsOrder : list (string * string)).

(** [isValidJSONPath] *)
Definition isValidJSONPath (jsonPath : string) : bool :=
  let normalized := "{" +:+ TrimSuffix (TrimPrefix jsonPath "{") "}" +:+ "}" in
  if negb (HasPrefix normalized "{.") then false
  else
    let inner := TrimPrefix (TrimSuffix normalized "}") "{." in
    if (String.length inner <? 1)%nat then false
    else jsonpath_parses normalized.

(** [validateResourceSelector] *)
Definition validateResourceSelector (selector : ResourceSelector) (p : path) : ErrorList :=
  (match rs_APIGroups selector with
   | [] => [Required (p ++ [PChild "apiGroups"]) "must specify at least one apiGroup"]
   | _ => []
   end) ++
  (match rs_Kinds selector with
   | [] => [Required (p ++ [PChild "kinds"]) "must specify at least one kind"]
   | _ => []
   end).

Definition validTypes : list string :=
  [DataTypeString; DataTypeInteger; DataTypeFloat; DataTypeBytes; DataTypeBoolean].

(** [validateField] *)
Definition validateField (customField : Field) (p : path) : ErrorList :=
  (if String.eqb (f_Name customField) "" then
     [Required (p ++ [PChild "name"]) "field name is required"]
   else if negb (isValidFieldName (f_Name customField)) then
     [Invalid (p ++ [PChild "name"])
        "must start with a letter and contain only alphanumeric characters, '-', '_', or '.'"]
   else []) ++
  (if String.eqb (f_JSONPath customField) "" then
     [Required (p ++ [PChild "jsonPath"]) "jsonPath is required"]
   else if negb (isValidJSONPath (f_JSONPath customField)) then
     [Invalid (p ++ [PChild "jsonPath"])
        ("must be a valid JSONPath expression (e.g. " +:+ quoted ".spec.myField" +:+ " or " +:+
         quoted "{.spec.myField}" +:+ ")")]
   else []) ++
  (if negb (String.eqb (f_Type customField) "") && negb (contains validTypes (f_Type customField)) then
     [NotSupported (p ++ [PChild "type"]) validTypes]
   else []).

(** [validateSpecificKindAgainstProtected]: at most one error, for the first
    matching group. *)
Definition validateSpecificKindAgainstProtected (kind protectedGroup : string)
    (apiGroups : list string) (p : path) : ErrorList :=
  match find_first (λ g, String.eqb g protectedGroup || String.eqb g "*") apiGroups with
  | Some _ =>
      [Invalid (p ++ [PChild "resourceSelector"; PChild "kinds"])
         ("cannot exclude " +:+ kind +:+
          " — search depends on it for RBAC and cluster-scoped queries")]
  | None => []
  end.

(** [validateWildcardKindAgainstProtected]: one error per protected kind whose
    group is excluded. *)
Definition validateWildcardKindAgainstProtected (apiGroups : list string) (p : path) : ErrorList :=
  concat (map (λ '(protectedKind, protectedGroup),
    match find_first (λ g, String.eqb g "*" || String.eqb g protectedGroup) apiGroups with
    | Some _ =>
        [Invalid (p ++ [PChild "resourceSelector"; PChild "apiGroups"])
           ("cannot exclude all kinds in this apiGroup — it contains " +:+ protectedKind +:+
            ", which search depends on for RBAC and cluster-scoped queries")]
    | None => []
    end) kindsOrder).

(** [validateProtectedKinds] *)
Definition validateProtectedKinds (rule : CollectionRule) (p : path) : ErrorList :=
  let sel := r_ResourceSelector rule in
  concat (map (λ kind,
    if String.eqb kind "*" then validateWildcardKindAgainstProtected (rs_APIGroups sel) p
    else match protectedKinds !! kind with
         | Some protectedGroup =>
             validateSpecificKindAgainstProtected kind protectedGroup (rs_APIGroups sel) p
         | None => []
         end) (rs_Kinds sel)).

(** The last loop of [validateExcludeRule], which stops at the wildcard. *)
Fixpoint excludeGroupErrors (apiGroups : list string) (p : path) : ErrorList :=
  match apiGroups with
  | [] => []
  | apiGroup :: rest =>
      if String.eqb apiGroup "*" then
        [Invalid (p ++ [PChild "resourceSelector"; PChild "apiGroups"])
           ("cannot exclude all apiGroups — " +:+
            "resources in many groups are necessary for system functionality")]
      else
        (if bool_decide (apiGroup ∈ protectedAPIGroups) then
           [Invalid (p ++ [PChild "resourceSelector"; PChild "apiGroups"])
              ("cannot exclude resources in apiGroup " +:+ apiGroup +:+
               " — these resources are necessary for system functionality")]
         else []) ++ excludeGroupErrors rest p
  end.

(** [if cond { allErrs = append(allErrs, err) }] *)
Definition err_if (cond : bool) (e : FieldError) : ErrorList := if cond then [e] else [].

Definition is_set {A} (o : option A) : bool := match o with Some _ => true | None => false end.

(** [validateExcludeRule] *)
Definition validateExcludeRule (rule : CollectionRule) (p : path) : ErrorList :=
  err_if (negb (length (r_Fields rule) =? 0)%nat)
    (Invalid (p ++ [PChild "fields"]) "fields cannot be specified on an exclude rule") ++
  err_if (is_set (r_CollectConditions rule))
    (Invalid (p ++ [PChild "collectConditions"])
       "collectConditions cannot be set on an exclude rule") ++
  err_if (is_set (r_CollectAnnotations rule))
    (Invalid (p ++ [PChild "collectAnnotations"])
       "collectAnnotations cannot be set on an exclude rule") ++
  err_if (negb (String.eqb (r_FieldSuffix rule) ""))
    (Invalid (p ++ [PChild "fieldSuffix"]) "fieldSuffix cannot be specified on an exclude rule") ++
  err_if (is_set (r_CollectAdditionalPrinterColumnsPriority rule))
    (Invalid (p ++ [PChild "collectAdditionalPrinterColumnsPriority"])
       "collectAdditionalPrinterColumnsPriority cannot be set on an exclude rule") ++
  validateProtectedKinds rule p ++
  excludeGroupErrors (rs_APIGroups (r_ResourceSelector rule)) p.

(** The body of the loop of [validateCollectorConfig]. *)
Definition validateRule (i : nat) (rule : CollectionRule) : ErrorList :=
  let rulePath := [PChild "spec"; PChild "collectionRules"; PIndex i] in
  let sel := r_ResourceSelector rule in
  let include := String.eqb (r_Action rule) ActionInclude in
  let hasFields := negb (length (r_Fields rule) =? 0)%nat in
  err_if (negb include && negb (String.eqb (r_Action rule) ActionExclude))
    (NotSupported (rulePath ++ [PChild "action"]) [ActionInclude; ActionExclude]) ++
  validateResourceSelector sel (rulePath ++ [PChild "resourceSelector"]) ++
  err_if (include && existsb (λ k, String.eqb k "*" && hasFields) (rs_Kinds sel))
    (Invalid (rulePath ++ [PChild "resourceSelector"; PChild "kinds"])
       ("wildcard kind " +:+ quoted "*" +:+ " cannot be used with fields")) ++
  (if include && hasFields then
     err_if (negb (length (rs_Kinds sel) =? 1)%nat)
       (Invalid (rulePath ++ [PChild "resourceSelector"; PChild "kinds"])
          "must specify exactly 1 kind when fields are defined") ++
     err_if (negb (length (rs_APIGroups sel) =? 1)%nat)
       (Invalid (rulePath ++ [PChild "resourceSelector"; PChild "apiGroups"])
          "must specify exactly 1 apiGroup when fields are defined") ++
     concat (imap (λ j f, validateField f (rulePath ++ [PChild "fields"; PIndex j])) (r_Fields rule))
   else []) ++
  err_if (match r_CollectAdditionalPrinterColumnsPriority rule with
          | Some n => (n <? -1)%Z
          | None => false
          end)
    (Invalid (rulePath ++ [PChild "collectAdditionalPrinterColumnsPriority"])
       "must be >= -1 (-1 disables collection)") ++
  err_if (include && negb (String.eqb (r_FieldSuffix rule) "") &&
          negb (isValidFieldSuffix (r_FieldSuffix rule)))
    (Invalid (rulePath ++ [PChild "fieldSuffix"])
       "must contain only lowercase alphanumeric characters, '-', or '.'") ++
  (if String.eqb (r_Action rule) ActionExclude then validateExcludeRule rule rulePath else []).

(** [validateCollectorConfig] *)
Definition collectorConfigErrors (cc : CollectorConfig) : ErrorList :=
  concat (imap validateRule (ccs_CollectionRules (cc_Spec cc))).

Definition validateCollectorConfig (cc : CollectorConfig) : option AdmissionError :=
  aggregate (collectorConfigErrors cc).
End webhook.

(** * Protection of operator-owned configs *)

Record AdmissionRequest := mkRequest { req_Username : string; req_Namespace : string }.

Inductive WebhookOperation :=
| WebhookOperationCreate | WebhookOperationUpdate | WebhookOperationDelete.
#[export] Instance WebhookOperation_eq_dec : EqDecision WebhookOperation.
Proof. solve_decision. Defined.

(** [isOperatorOwned] *)
Definition isOperatorOwned (cc : CollectorConfig) : bool :=
  existsb (λ ref, match or_Controller ref with Some b => b | None => false end)
    (om_OwnerReferences (cc_Meta cc)).

Definition garbageCollector : string := "system:serviceaccount:kube-system:generic-garbage-collector".

(** [rejectIfProtected]; [request] is what [admission.RequestFromContext] gives. *)
Definition rejectIfProtected (request : result AdmissionRequest) (cc : CollectorConfig)
    (operation : WebhookOperation) : option AdmissionError :=
  if negb (isOperatorOwned cc) then None
  else match request with
  | Err e => Some (ErrMessage ("could not extract admission request: " +:+ err_msg e))
  | Ok req =>
      if String.eqb (req_Username req) garbageCollector &&
         bool_decide (operation = WebhookOperationDelete) then None
      else
        let expectedPrefix := "system:serviceaccount:" +:+ req_Namespace req +:+ ":" in
        if HasPrefix (req_Username req) expectedPrefix then None
        else Some (ErrMessage (cc_Name cc +:+
               " is managed by the search operator and cannot be modified directly"))
  end.

(** * Exclude rules against the integration configs *)

(** [webhookSetsIntersect] *)
Definition webhookSetsIntersect (a b : list string) : bool := intersect_loop a b.

(** The errors of one exclude rule: one per include rule of an integration
    config it overlaps. *)
Definition integrationConflicts (i : nat) (excludeRule : CollectionRule)
    (items : list CollectorConfig) : ErrorList :=
  concat (map (λ ic, concat (map (λ teamRule,
    if negb (String.eqb (r_Action teamRule) ActionInclude) then []
    else if webhookSetsIntersect (rs_APIGroups (r_ResourceSelector excludeRule))
                                 (rs_APIGroups (r_ResourceSelector teamRule)) &&
            webhookSetsIntersect (rs_Kinds (r_ResourceSelector excludeRule))
                                 (rs_Kinds (r_ResourceSelector teamRule))
    then [Invalid [PChild "spec"; PChild "collectionRules"; PIndex i; PChild "resourceSelector"]
            "cannot exclude these resources — they are necessary for system functionality"]
    else []) (ccs_CollectionRules (cc_Spec ic)))) items).

Definition excludeConflicts (cc : CollectorConfig) (items : list CollectorConfig) : ErrorList :=
  concat (imap (λ i rule,
    if negb (String.eqb (r_Action rule) ActionExclude) then []
    else integrationConflicts i rule items) (ccs_CollectionRules (cc_Spec cc))).

(** [client.MatchingLabels{IntegrationTeamLabel: IntegrationTeamLabelValue}] in a namespace *)
Definition integrationListOptions (namespace : string) : ListOptions :=
  mkListOptions (Some namespace) {[ IntegrationTeamLabel := IntegrationTeamLabelValue ]}.

(** [validateExcludeAgainstIntegrationConfigs] *)
Definition validateExcludeAgainstIntegrationConfigs (webhookClientSet : bool) (cc : CollectorConfig) :
    prog (option AdmissionError) :=
  if negb webhookClientSet then Ret None
  else if String.eqb (get_str (cc_Labels cc) IntegrationTeamLabel) IntegrationTeamLabelValue then Ret None
  else if negb (existsb (λ r, String.eqb (r_Action r) ActionExclude) (ccs_CollectionRules (cc_Spec cc)))
  then Ret None
  else
    integrationList <- call (List KCollectorConfig (integrationListOptions (om_Namespace (cc_Meta cc)))) ;;
    match integrationList with
    | Err _ => Ret None
    | Ok items => Ret (aggregate (excludeConflicts cc items))
    end.

(** * The admission handlers *)

(** A [runtime.Object]: a CollectorConfig or something of another type. *)
Inductive runtimeObject := ObjectCC (cc : CollectorConfig) | ObjectOther (type : string).

Definition unexpectedObject (type : string) : option AdmissionError :=
  Some (ErrMessage ("expected a CollectorConfig object but got " +:+ type)).

Section handlers.
Context (jsonpath_parses : string → bool) (kindsOrder : list (string * string))
        (webhookClientSet : bool) (request : result AdmissionRequest).

(** The part [ValidateCreate] and [ValidateUpdate] share. *)
Definition validateContent (cc : CollectorConfig) : prog (option AdmissionError) :=
  match validateCollectorConfig jsonpath_parses kindsOrder cc with
  | Some err => Ret (Some err)
  | None => validateExcludeAgainstIntegrationConfigs webhookClientSet cc
  end.

(** [ValidateCreate] *)
Definition ValidateCreate (obj : runtimeObject) : prog (option AdmissionError) :=
  match obj with
  | ObjectOther t => Ret (unexpectedObject t)
  | ObjectCC cc =>
      match rejectIfProtected request cc WebhookOperationCreate with
      | Some err => Ret (Some err)
      | None => validateContent cc
      end
  end.

(** [ValidateUpdate] *)
Definition ValidateUpdate (oldObj newObj : runtimeObject) : prog (option AdmissionError) :=
  match newObj with
  | ObjectOther t => Ret (unexpectedObject t)
  | ObjectCC cc =>
      match oldObj with
      | ObjectOther t => Ret (unexpectedObject t)
      | ObjectCC oldCC =>
          match rejectIfProtected request cc WebhookOperationUpdate with
          | Some err => Ret (Some err)
          | None =>
              match rejectIfProtected request oldCC WebhookOperationUpdate with
              | Some err => Ret (Some err)
              | None => validateContent cc
              end
          end
      end
  end.

(** [ValidateDelete] *)
Definition ValidateDelete (obj : runtimeObject) : prog (option AdmissionError) :=
  match obj with
  | ObjectOther t => Ret (unexpectedObject t)
  | ObjectCC cc =>
      match rejectIfProtected request cc WebhookOperationDelete with
      | Some err => Ret (Some err)
      | None => Ret None
      end
  end.
End handlers.

(** * Specification *)

(** What the webhook protects: every resource of a protected API group, and the
    protected kinds of their groups. *)
Definition protected_resource (g k : string) : Prop :=
  g ∈ protectedAPIGroups ∨ protectedKinds !! k = Some g.

Section spec.
Context (jsonpath_parses : string → bool).

Definition valid_field (f : Field) : Prop :=
  isValidFieldName (f_Name f) = true ∧
  f_JSONPath f ≠ "" ∧ isValidJSONPath jsonpath_parses (f_JSONPath f) = true ∧
  (f_Type f = "" ∨ f_Type f ∈ validTypes).

(** An include rule with fields names exactly one kind of one API group. *)
Definition valid_include (rule : CollectionRule) : Prop :=
  (r_Fields rule ≠ [] →
     (∃ g k, rs_APIGroups (r_ResourceSelector rule) = [g] ∧
             rs_Kinds (r_ResourceSelector rule) = [k] ∧ k ≠ "*") ∧
     Forall valid_field (r_Fields rule)) ∧
  (r_FieldSuffix rule = "" ∨ isValidFieldSuffix (r_FieldSuffix rule) = true) ∧
  (∀ n, r_CollectAdditionalPrinterColumnsPriority rule = Some n → (-1 ≤ n)%Z).

(** An exclude rule carries nothing but its selector, which selects no
    protected resource. *)
Definition valid_exclude (rule : CollectionRule) : Prop :=
  r_Fields rule = [] ∧ r_FieldSuffix rule = "" ∧ r_CollectConditions rule = None ∧
  r_CollectAnnotations rule = None ∧ r_CollectAdditionalPrinterColumnsPriority rule = None ∧
  ∀ g k, selects (r_ResourceSelector rule) g k → ¬ protected_resource g k.

Definition valid_rule (rule : CollectionRule) : Prop :=
  rs_APIGroups (r_ResourceSelector rule) ≠ [] ∧ rs_Kinds (r_ResourceSelector rule) ≠ [] ∧
  ((r_Action rule = ActionInclude ∧ valid_include rule) ∨
   (r_Action rule = ActionExclude ∧ valid_exclude rule)).
End spec.

(** * Lemmas *)

Lemma aggregate_None l : aggregate l = None ↔ l = [].
Proof. by destruct l. Qed.

Lemma err_if_nil c e : err_if c e = [] ↔ c = false.
Proof. by destruct c. Qed.

Lemma length_eqb_0 {A} (l : list A) : (length l =? 0)%nat = true ↔ l = [].
Proof. by destruct l. Qed.

Lemma is_set_false {A} (o : option A) : is_set o = false ↔ o = None.
Proof. by destruct o. Qed.

Lemma contains_spec l x : contains l x = true ↔ x ∈ l.
Proof.
  unfold contains. rewrite existsb_elem. setoid_rewrite String.eqb_eq. naive_solver.
Qed.

Lemma isValidFieldName_nonempty s : isValidFieldName s = true → s ≠ "".
Proof. by destruct s. Qed.

Lemma protectedKinds_lookup k g :
  protectedKinds !! k = Some g ↔
  (k = "ManagedCluster" ∧ g = "cluster.open-cluster-management.io") ∨ (k = "Namespace" ∧ g = "").
Proof.
  unfold protectedKinds. rewrite lookup_insert_Some, lookup_singleton_Some. naive_solver.
Qed.

Lemma protected_group_core k : protected_resource "" k.
Proof. left. by vm_compute. Qed.

Section lemmas.
Context (jsonpath_parses : string → bool) (kindsOrder : list (string * string)).
Hypothesis kindsOrder_perm : kindsOrder ≡ₚ map_to_list protectedKinds.

Lemma elem_of_kindsOrder k g : (k, g) ∈ kindsOrder ↔ protectedKinds !! k = Some g.
Proof. by rewrite kindsOrder_perm, elem_of_map_to_list. Qed.

Lemma validateField_nil f p :
  validateField jsonpath_parses f p = [] ↔ valid_field jsonpath_parses f.
Proof.
  unfold validateField, valid_field. rewrite !app_nil.
  assert (Hn : (if String.eqb (f_Name f) "" then
     [Required (p ++ [PChild "name"]) "field name is required"]
     else if negb (isValidFieldName (f_Name f)) then
     [Invalid (p ++ [PChild "name"])
        "must start with a letter and contain only alphanumeric characters, '-', '_', or '.'"]
     else []) = [] ↔ isValidFieldName (f_Name f) = true).
  { destruct (String.eqb_spec (f_Name f) "") as [->|]; [done|].
    by destruct (isValidFieldName (f_Name f)). }
  rewrite Hn. clear Hn.
  destruct (String.eqb_spec (f_JSONPath f) "") as [->|Hj]; [naive_solver|].
  destruct (isValidJSONPath jsonpath_parses (f_JSONPath f)); [|naive_solver].
  destruct (String.eqb_spec (f_Type f) "") as [->|Ht]; [naive_solver|].
  destruct (contains validTypes (f_Type f)) eqn:Hc; cbn.
  - apply contains_spec in Hc. naive_solver.
  - assert (f_Type f ∉ validTypes) by (rewrite <-contains_spec; congruence). naive_solver.
Qed.

Lemma excludeGroupErrors_nil gs p :
  excludeGroupErrors gs p = [] ↔ "*" ∉ gs ∧ ∀ g, g ∈ gs → g ∉ protectedAPIGroups.
Proof.
  induction gs as [|g gs IH]; cbn; [set_solver|].
  destruct (String.eqb_spec g "*") as [->|Hg]; [set_solver|].
  rewrite app_nil, IH. setoid_rewrite elem_of_cons. case_bool_decide as Hp.
  - split; [by intros [? _]|]. intros [_ H]. by destruct (H g (or_introl eq_refl)).
  - split.
    + intros (_ & Hs & H). split; [by intros [?|?]|]. intros g' [->|?]; auto.
    + intros [Hs H]. split_and!; [done|by auto|]. intros g' ?. apply H. by right.
Qed.

Lemma validateSpecific_nil k g gs p :
  validateSpecificKindAgainstProtected k g gs p = [] ↔ g ∉ gs ∧ "*" ∉ gs.
Proof.
  unfold validateSpecificKindAgainstProtected.
  destruct (find_first _ gs) as [x|] eqn:Hf.
  - apply find_first_Some in Hf as [Hx Hp]. rewrite orb_true_iff, !String.eqb_eq in Hp.
    naive_solver.
  - rewrite find_first_is_None in Hf. setoid_rewrite orb_false_iff in Hf.
    setoid_rewrite String.eqb_neq in Hf. naive_solver.
Qed.

Lemma validateWildcard_nil gs p :
  validateWildcardKindAgainstProtected kindsOrder gs p = [] ↔
  "*" ∉ gs ∧ ∀ k g, protectedKinds !! k = Some g → g ∉ gs.
Proof.
  unfold validateWildcardKindAgainstProtected. rewrite concat_map_nil.
  assert (Hns : protectedKinds !! "Namespace" = Some "") by done.
  split.
  - intros H. assert (Hall : ∀ k g, protectedKinds !! k = Some g → g ∉ gs ∧ "*" ∉ gs).
    { intros k g Hk%elem_of_kindsOrder. specialize (H _ Hk). cbn in H.
      destruct (find_first _ gs) eqn:Hf; [done|]. rewrite find_first_is_None in Hf.
      setoid_rewrite orb_false_iff in Hf. setoid_rewrite String.eqb_neq in Hf. naive_solver. }
    split; [by apply (Hall _ _ Hns)|]. intros k g Hk. by apply (Hall k).
  - intros [Hs Hall] [k g] Hk%elem_of_kindsOrder.
    destruct (find_first _ gs) as [x|] eqn:Hf; [|done].
    apply find_first_Some in Hf as [Hx Hp]. rewrite orb_true_iff, !String.eqb_eq in Hp.
    destruct Hp as [->| ->]; [done|]. by destruct (Hall k g).
Qed.

(** No group or kind error remains exactly when nothing protected is selected. *)
Lemma protected_errors_nil rule p :
  rs_Kinds (r_ResourceSelector rule) ≠ [] →
  (validateProtectedKinds kindsOrder rule p = [] ∧
   excludeGroupErrors (rs_APIGroups (r_ResourceSelector rule)) p = []) ↔
  (∀ g k, selects (r_ResourceSelector rule) g k → ¬ protected_resource g k).
Proof.
  intros Hne. unfold validateProtectedKinds. rewrite concat_map_nil, excludeGroupErrors_nil.
  set (gs := rs_APIGroups _) in *. set (ks := rs_Kinds _) in *.
  assert (Hk0 : ∃ k0, matches ks k0).
  { destruct ks as [|k0 ks']; [done|]. exists k0. left. by left. }
  split.
  - intros [Hk [Hstar Hg]] g k [Hmg Hmk].
    assert (g ∈ gs) by (by destruct Hmg).
    intros [Hp|Hp]; [by apply (Hg g)|].
    destruct Hmk as [Hmk|Hmk]; specialize (Hk _ Hmk); cbn in Hk.
    + destruct (String.eqb_spec k "*") as [Heq|_].
      * rewrite validateWildcard_nil in Hk. destruct Hk as [_ Hk]. by apply (Hk _ _ Hp).
      * rewrite Hp, validateSpecific_nil in Hk. by destruct Hk.
    + rewrite validateWildcard_nil in Hk. destruct Hk as [_ Hk]. by apply (Hk _ _ Hp).
  - intros H. destruct Hk0 as [k0 Hk0].
    assert (Hstar : "*" ∉ gs).
    { intros Hs. apply (H "" k0); [split; [by right|done]|apply protected_group_core]. }
    assert (Hgrp : ∀ k g, matches ks k → protectedKinds !! k = Some g → g ∉ gs).
    { intros k g Hk Hp Hg. apply (H g k); [split; [by left|done]|by right]. }
    split_and!; [|done|].
    + intros k Hk. destruct (String.eqb_spec k "*") as [->|_].
      * apply validateWildcard_nil. split; [done|]. intros k' g. apply Hgrp. by right.
      * destruct (protectedKinds !! k) as [g|] eqn:Hp; [|done].
        apply validateSpecific_nil. split; [|done]. apply (Hgrp k); [by left|done].
    + intros g Hg Hp. apply (H g k0); [split; [by left|done]|by left].
Qed.

Lemma validateExcludeRule_nil rule p :
  rs_Kinds (r_ResourceSelector rule) ≠ [] →
  validateExcludeRule kindsOrder rule p = [] ↔ valid_exclude rule.
Proof.
  intros Hne. unfold validateExcludeRule, valid_exclude.
  rewrite !app_nil, !err_if_nil, !is_set_false, !negb_false_iff, length_eqb_0, String.eqb_eq,
    (protected_errors_nil rule p Hne).
  naive_solver.
Qed.

Lemma validateResourceSelector_nil sel p :
  validateResourceSelector sel p = [] ↔ rs_APIGroups sel ≠ [] ∧ rs_Kinds sel ≠ [].
Proof.
  unfold validateResourceSelector. rewrite app_nil.
  destruct (rs_APIGroups sel), (rs_Kinds sel); naive_solver.
Qed.

Lemma forall_field_errors fs p :
  concat (imap (λ j f, validateField jsonpath_parses f (p ++ [PChild "fields"; PIndex j])) fs) = [] ↔
  Forall (valid_field jsonpath_parses) fs.
Proof.
  rewrite concat_imap_nil, Forall_lookup. by setoid_rewrite validateField_nil.
Qed.

(** The include part of the rule body: wildcard, arity and field checks. *)
Lemma include_fields_nil rule p e1 e2 e3 :
  let hasFields := negb (length (r_Fields rule) =? 0)%nat in
  let sel := r_ResourceSelector rule in
  (err_if (existsb (λ k, String.eqb k "*" && hasFields) (rs_Kinds sel)) e1 = [] ∧
   (if hasFields then
      err_if (negb (length (rs_Kinds sel) =? 1)%nat) e2 ++
      err_if (negb (length (rs_APIGroups sel) =? 1)%nat) e3 ++
      concat (imap (λ j f, validateField jsonpath_parses f (p ++ [PChild "fields"; PIndex j])) (r_Fields rule))
    else []) = []) ↔
  (r_Fields rule ≠ [] →
     (∃ g k, rs_APIGroups sel = [g] ∧ rs_Kinds sel = [k] ∧ k ≠ "*") ∧
     Forall (valid_field jsonpath_parses) (r_Fields rule)).
Proof.
  intros hasFields sel. subst hasFields.
  destruct (r_Fields rule) as [|f fs] eqn:Hfs.
  { cbn. split; [done|]. intros _. split; [|done]. apply err_if_nil, existsb_not_elem.
    intros k _. by rewrite andb_false_r. }
  rewrite <-Hfs. assert (Hl : negb (length (r_Fields rule) =? 0)%nat = true) by (by rewrite Hfs).
  rewrite Hl. rewrite !app_nil, !err_if_nil, existsb_not_elem, forall_field_errors,
    !negb_false_iff, !Nat.eqb_eq.
  setoid_rewrite andb_true_r. setoid_rewrite String.eqb_neq.
  split.
  - intros (Hk & Hlk & Hlg & Hall) _. split; [|done].
    destruct (rs_APIGroups sel) as [|g [|]]; try done.
    destruct (rs_Kinds sel) as [|k [|]]; try done.
    exists g, k. split_and!; [done..|]. apply Hk. by left.
  - intros H. destruct H as [(g & k & -> & -> & Hk) Hall]; [by rewrite Hfs|].
    split_and!; [|done..]. intros k' ->%list_elem_of_singleton. done.
Qed.

Lemma validateRule_nil i rule :
  validateRule jsonpath_parses kindsOrder i rule = [] ↔ valid_rule jsonpath_parses rule.
Proof.
  unfold validateRule, valid_rule. cbn zeta.
  set (p := [PChild "spec"; PChild "collectionRules"; PIndex i]).
  rewrite !app_nil, validateResourceSelector_nil, !err_if_nil.
  destruct (String.eqb_spec (r_Action rule) ActionInclude) as [Hin|Hin].
  - rewrite Hin. cbn [ActionInclude ActionExclude]. cbn [negb andb].
    replace (String.eqb ActionInclude ActionExclude) with false by done.
    rewrite <-(err_if_nil (existsb _ _) (Invalid (p ++ [PChild "resourceSelector"; PChild "kinds"])
       ("wildcard kind " +:+ quoted "*" +:+ " cannot be used with fields"))).
    assert (Hf := include_fields_nil rule p
      (Invalid (p ++ [PChild "resourceSelector"; PChild "kinds"])
         ("wildcard kind " +:+ quoted "*" +:+ " cannot be used with fields"))
      (Invalid (p ++ [PChild "resourceSelector"; PChild "kinds"])
          "must specify exactly 1 kind when fields are defined")
      (Invalid (p ++ [PChild "resourceSelector"; PChild "apiGroups"])
          "must specify exactly 1 apiGroup when fields are defined")).
    cbn zeta in Hf.
    assert (Hp : (match r_CollectAdditionalPrinterColumnsPriority rule with
                  | Some n => (n <? -1)%Z | None => false end) = false ↔
                 ∀ n, r_CollectAdditionalPrinterColumnsPriority rule = Some n → (-1 ≤ n)%Z).
    { destruct (r_CollectAdditionalPrinterColumnsPriority rule) as [n|]; [|naive_solver].
      rewrite Z.ltb_ge. naive_solver. }
    assert (Hs : negb (String.eqb (r_FieldSuffix rule) "") &&
                 negb (isValidFieldSuffix (r_FieldSuffix rule)) = false ↔
                 r_FieldSuffix rule = "" ∨ isValidFieldSuffix (r_FieldSuffix rule) = true).
    { rewrite andb_false_iff, !negb_false_iff, String.eqb_eq. done. }
    rewrite Hp, Hs. unfold valid_include. rewrite <-Hf. naive_solver.
  - replace (String.eqb (r_Action rule) ActionInclude) with false
      by (symmetry; by apply String.eqb_neq).
    cbn [negb andb].
    destruct (String.eqb_spec (r_Action rule) ActionExclude) as [Hex|Hex]; [|naive_solver].
    cbn [negb]. split.
    + intros (_ & [Hg Hk] & _ & _ & _ & _ & He).
      rewrite validateExcludeRule_nil in He by done. naive_solver.
    + intros (Hg & Hk & [[? _]|[_ He]]); [done|].
      assert (Hpr : r_CollectAdditionalPrinterColumnsPriority rule = None) by apply He.
      rewrite Hpr. split_and!; [done..|]. by apply validateExcludeRule_nil.
Qed.
End lemmas.

(** The braces the source adds are invisible to the part of the check it strips. *)
Lemma TrimPrefix_brace p :
  HasPrefix p "{" = false → HasSuffix p "}" = false →
  TrimSuffix (TrimPrefix ("{" +:+ p +:+ "}") "{") "}" = TrimSuffix (TrimPrefix p "{") "}".
Proof.
  intros Hp Hs. rewrite TrimPrefix_append, TrimSuffix_append.
  by rewrite (TrimPrefix_no p), (TrimSuffix_no p).
Qed.

(** The body of a brace pair: what [isValidJSONPath] hands to the parser. *)
Lemma isValidJSONPath_true jp s :
  isValidJSONPath jp s = true →
  ∃ c rest, TrimSuffix (TrimPrefix s "{") "}" = "." +:+ String c rest ∧
            jp ("{." +:+ String c rest +:+ "}") = true.
Proof.
  unfold isValidJSONPath. set (t := TrimSuffix (TrimPrefix s "{") "}"). cbn zeta.
  rewrite append_cons, append_nil_l.
  destruct (HasPrefix _ "{.") eqn:Hpre; [|done]. cbn [negb].
  rewrite HasPrefix_cons in Hpre. cbn in Hpre.
  destruct t as [|c t]; [done|].
  rewrite append_cons, HasPrefix_cons, andb_true_iff in Hpre. destruct Hpre as [Hc _].
  apply Ascii.eqb_eq in Hc as <-.
  replace (String "{" (String "." t +:+ "}")) with (("{." +:+ t) +:+ "}") by done.
  rewrite TrimSuffix_append, TrimPrefix_append.
  destruct t as [|c t]; [done|]. cbn [String.length Nat.ltb Nat.leb].
  intros H. exists c, t. by rewrite append_assoc in H.
Qed.

Section exec.
Context (clientSet : bool).

(** Every execution of the overlap check: it asks for the integration configs
    of the namespace at most once and changes nothing. *)
Lemma exec_validateExclude cc t o :
  exec (validateExcludeAgainstIntegrationConfigs clientSet cc) t o →
  read_only t ∧
  (o = Done None ∨
   ∃ items, t = [Ev (List KCollectorConfig (integrationListOptions (om_Namespace (cc_Meta cc)))) (Ok items)] ∧
            o = Done (aggregate (excludeConflicts cc items))).
Proof.
  unfold validateExcludeAgainstIntegrationConfigs, call. cbn [bind].
  repeat case_match; intros He;
    try (apply exec_Ret in He as [-> ->]; split; [constructor|by left]).
  apply exec_Op in He as (x & t' & -> & He).
  destruct x as [items|e]; apply exec_Ret in He as [-> ->].
  - split; [by repeat constructor|]. right. eauto.
  - split; [by repeat constructor|]. by left.
Qed.
End exec.

Lemma excludeConflicts_nil cc items :
  excludeConflicts cc items = [] ↔
  ∀ rule, rule ∈ ccs_CollectionRules (cc_Spec cc) → r_Action rule = ActionExclude →
  ∀ ic teamRule, ic ∈ items → teamRule ∈ ccs_CollectionRules (cc_Spec ic) →
    r_Action teamRule = ActionInclude →
    ¬ overlap (r_ResourceSelector rule) (r_ResourceSelector teamRule).
Proof.
  unfold excludeConflicts. rewrite concat_imap_nil.
  assert (Hone : ∀ i rule, integrationConflicts i rule items = [] ↔
    ∀ ic teamRule, ic ∈ items → teamRule ∈ ccs_CollectionRules (cc_Spec ic) →
      r_Action teamRule = ActionInclude →
      ¬ overlap (r_ResourceSelector rule) (r_ResourceSelector teamRule)).
  { intros i rule. unfold integrationConflicts. rewrite concat_map_nil.
    setoid_rewrite concat_map_nil. unfold webhookSetsIntersect.
    split.
    - intros H ic tr Hic Htr Ha [Hg Hk]%overlap_intersect.
      specialize (H ic Hic tr Htr). by rewrite Ha, String.eqb_refl, Hg, Hk in H.
    - intros H ic Hic tr Htr. destruct (String.eqb_spec (r_Action tr) ActionInclude) as [Ha|]; [|done].
      cbn [negb]. destruct (intersect_loop _ _ && intersect_loop _ _) eqn:Hb; [|done].
      apply andb_true_iff in Hb. destruct (H ic tr Hic Htr Ha). by apply overlap_intersect. }
  split.
  - intros H rule Hr Ha. apply list_elem_of_lookup in Hr as [i Hi]. specialize (H i rule Hi).
    rewrite Ha, String.eqb_refl in H. cbn [negb] in H. by rewrite Hone in H.
  - intros H i rule Hi. destruct (String.eqb_spec (r_Action rule) ActionExclude) as [Ha|]; [|done].
    cbn [negb]. rewrite Hone. apply H; [by eapply list_elem_of_lookup_2|done].
Qed.

Lemma rejectIfProtected_None request cc op :
  rejectIfProtected request cc op = None → isOperatorOwned cc = true →
  ∃ req, request = Ok req ∧
    (HasPrefix (req_Username req) ("system:serviceaccount:" +:+ req_Namespace req +:+ ":") = true ∨
     (req_Username req = garbageCollector ∧ op = WebhookOperationDelete)).
Proof.
  unfold rejectIfProtected. intros H Hown. rewrite Hown in H. cbn [negb] in H.
  destruct request as [req|e]; [|done]. exists req. split; [done|].
  destruct (String.eqb_spec (req_Username req) garbageCollector) as [Hu|_].
  - case_bool_decide; [by right|]. cbn [andb] in H. left. by destruct (HasPrefix _ _).
  - cbn [andb] in H. left. by destruct (HasPrefix _ _).
Qed.

(** The CollectorConfigs a list request was answered with. *)
Definition listed_ccs (e : event) : option (list CollectorConfig) :=
  match e with
  | Ev q a =>
      match q in Api R return R → option (list CollectorConfig) with
      | List KCollectorConfig _ => λ a, match a with Ok l => Some l | Err _ => None end
      | _ => λ _, None
      end a
  end.

Section theorems.
Context (jsonpath_parses : string → bool) (kindsOrder : list (string * string)).
Hypothesis kindsOrder_perm : kindsOrder ≡ₚ map_to_list protectedKinds.

Lemma content_rules_valid cc :
  validateCollectorConfig jsonpath_parses kindsOrder cc = None ↔
  Forall (valid_rule jsonpath_parses) (ccs_CollectionRules (cc_Spec cc)).
Proof.
  unfold validateCollectorConfig, collectorConfigErrors.
  rewrite aggregate_None, concat_imap_nil, Forall_lookup.
  by setoid_rewrite (validateRule_nil jsonpath_parses kindsOrder kindsOrder_perm).
Qed.

(** C5: a CollectorConfig passes the webhook's validation exactly when every
    rule is well formed: known action, non-empty selector, an include rule
    with fields naming one kind of one group with valid fields, a valid
    suffix and priority, and an exclude rule that carries only a selector and
    selects no protected resource. In particular the answer does not depend
    on the order in which Go ranges over [protectedKinds]. *)
Theorem validateCollectorConfig_spec (cc : CollectorConfig) :
  validateCollectorConfig jsonpath_parses kindsOrder cc = None ↔
  Forall (valid_rule jsonpath_parses) (ccs_CollectionRules (cc_Spec cc)).
Proof. apply content_rules_valid. Qed.

Lemma exec_validateContent clientSet cc t :
  exec (validateContent jsonpath_parses kindsOrder clientSet cc) t (Done None) →
  Forall (valid_rule jsonpath_parses) (ccs_CollectionRules (cc_Spec cc)) ∧
  ∀ e items, e ∈ t → listed_ccs e = Some items → excludeConflicts cc items = [].
Proof.
  unfold validateContent. destruct (validateCollectorConfig _ _ cc) as [err|] eqn:Hv.
  { by intros [_ ?]%exec_Ret. }
  intros He. split; [by apply content_rules_valid|].
  apply exec_validateExclude in He as He'. destruct He' as [_ [_|(items & -> & Ho)]].
  - intros e items He' Hl.
    revert He. unfold validateExcludeAgainstIntegrationConfigs, call. cbn [bind].
    repeat case_match; try (intros [-> _]%exec_Ret; set_solver).
    intros (x & t' & -> & He)%exec_Op. destruct x as [l|err]; apply exec_Ret in He as [-> Ho].
    + apply list_elem_of_singleton in He' as ->. cbn in Hl. simplify_eq.
      apply aggregate_None. congruence.
    + by apply list_elem_of_singleton in He' as ->.
  - intros e l ->%list_elem_of_singleton [= <-]. apply aggregate_None. by injection Ho.
Qed.

(** An admission of [cc], created or updated from some old object. *)
Definition admits (clientSet : bool) (request : result AdmissionRequest) (cc : CollectorConfig)
    (t : list event) : Prop :=
  exec (ValidateCreate jsonpath_parses kindsOrder clientSet request (ObjectCC cc)) t (Done None) ∨
  ∃ old, exec (ValidateUpdate jsonpath_parses kindsOrder clientSet request old (ObjectCC cc)) t (Done None).

Lemma admits_content clientSet request cc t :
  admits clientSet request cc t →
  exec (validateContent jsonpath_parses kindsOrder clientSet cc) t (Done None).
Proof.
  intros [He|[old He]]; cbn in He.
  - destruct (rejectIfProtected _ _ _); [|done]. by apply exec_Ret in He as [_ ?].
  - destruct old as [oldCC|ty]; [|by apply exec_Ret in He as [_ ?]].
    destruct (rejectIfProtected _ _ _); [by apply exec_Ret in He as [_ ?]|].
    destruct (rejectIfProtected _ _ _); [by apply exec_Ret in He as [_ ?]|]. done.
Qed.

(** C23: whatever the API server answers, an admitted CollectorConfig has no
    exclude rule that selects a protected resource, and none that overlaps an
    include rule of the integration configs the webhook was shown. *)
Theorem admitted_exclude_rules_safe clientSet request cc t :
  admits clientSet request cc t →
  ∀ rule, rule ∈ ccs_CollectionRules (cc_Spec cc) → r_Action rule = ActionExclude →
  (∀ g k, selects (r_ResourceSelector rule) g k → ¬ protected_resource g k) ∧
  (∀ e items ic teamRule, e ∈ t → listed_ccs e = Some items → ic ∈ items →
     teamRule ∈ ccs_CollectionRules (cc_Spec ic) → r_Action teamRule = ActionInclude →
     ¬ overlap (r_ResourceSelector rule) (r_ResourceSelector teamRule)).
Proof.
  intros [Hall Hconf]%admits_content%exec_validateContent rule Hr Ha.
  rewrite Forall_forall in Hall. split.
  - destruct (Hall rule Hr) as (_ & _ & [[Hi _]|[_ Hex]]); [by rewrite Ha in Hi|]. apply Hex.
  - intros e items ic tr He Hl Hic Htr Hinc.
    by apply (proj1 (excludeConflicts_nil cc items) (Hconf e items He Hl) rule Hr Ha ic).
Qed.
End theorems.

(** C24: an operator-owned config can be changed only by a service account of
    its namespace. An update is refused when the old or the new object is owned
    and the caller is anybody else, so removing the owner reference does not
    help; a delete is accepted exactly when the config is not owned, or the
    caller is such a service account or the garbage collector. *)
Theorem operator_owned_protected jp order clientSet request old new cc t t' :
  (exec (ValidateUpdate jp order clientSet request (ObjectCC old) (ObjectCC new)) t (Done None) →
   isOperatorOwned old = true ∨ isOperatorOwned new = true →
   ∃ req, request = Ok req ∧
     HasPrefix (req_Username req) ("system:serviceaccount:" +:+ req_Namespace req +:+ ":") = true) ∧
  (exec (ValidateDelete request (ObjectCC cc)) t' (Done None) ↔
   t' = [] ∧
   (isOperatorOwned cc = true →
    ∃ req, request = Ok req ∧
     (HasPrefix (req_Username req) ("system:serviceaccount:" +:+ req_Namespace req +:+ ":") = true ∨
      req_Username req = garbageCollector))).
Proof.
  split.
  - cbn. destruct (rejectIfProtected request new _) eqn:Hn; [by intros [_ ?]%exec_Ret|].
    destruct (rejectIfProtected request old _) eqn:Ho; [by intros [_ ?]%exec_Ret|].
    intros _ [Hw|Hw];
      [destruct (rejectIfProtected_None _ _ _ Ho Hw) as (req & -> & [?|[_ ?]])
      |destruct (rejectIfProtected_None _ _ _ Hn Hw) as (req & -> & [?|[_ ?]])]; [eauto|done|eauto|done].
  - cbn. destruct (rejectIfProtected request cc _) as [err|] eqn:Hr; rewrite exec_Ret.
    + split; [by intros [_ ?]|]. intros [_ Hc]. unfold rejectIfProtected in Hr.
      destruct (isOperatorOwned cc); [|done]. destruct Hc as (req & -> & Hreq); [done|].
      cbn [negb] in Hr. destruct Hreq as [Hp|Hu].
      * rewrite Hp in Hr. by destruct (_ && _).
      * by rewrite Hu in Hr.
    + split; [|by intros [-> _]]. intros [-> _]. split; [done|]. intros Hw.
      destruct (rejectIfProtected_None _ _ _ Hr Hw) as (req & -> & [?|[? _]]); eauto.
Qed.

(** The braced and the unbraced form of a JSONPath get the same verdict,
    and an accepted path starts with a dot followed by at least one character
    and is accepted, in braced form, by the parser. *)
Theorem jsonpath_braces_optional (jp : string → bool) (p : string) :
  HasPrefix p "{" = false → HasSuffix p "}" = false →
  isValidJSONPath jp ("{" +:+ p +:+ "}") = isValidJSONPath jp p ∧
  (isValidJSONPath jp p = true →
   ∃ c rest, p = "." +:+ String c rest ∧ jp ("{" +:+ p +:+ "}") = true).
Proof.
  intros Hp Hs. split.
  - unfold isValidJSONPath. by rewrite (TrimPrefix_brace p Hp Hs).
  - intros (c & rest & Ht & Hj)%isValidJSONPath_true. exists c, rest.
    rewrite (TrimPrefix_no p _ Hp), (TrimSuffix_no p _ Hs) in Ht. by rewrite Ht.
Qed.

(** * The theorems at concrete inputs *)

Definition anyPath : string → bool := λ _, true.
Definition someOrder : list (string * string) :=
  [("Namespace", ""); ("ManagedCluster", "cluster.open-cluster-management.io")].

Lemma someOrder_perm : someOrder ≡ₚ map_to_list protectedKinds.
Proof. vm_compute. apply Permutation_swap || reflexivity. Qed.

Definition eventsRule : CollectionRule := excludeRule ["events.k8s.io"] ["Event"].

Lemma validateCollectorConfig_spec_witness :
  validateCollectorConfig anyPath someOrder (userConfig [eventsRule]) = None ∧
  Forall (valid_rule anyPath) [eventsRule] ∧
  ¬ Forall (valid_rule anyPath) [excludeRule ["*"] ["Namespace"]].
Proof.
  split; [vm_compute; reflexivity|]. split.
  - apply (validateCollectorConfig_spec anyPath someOrder someOrder_perm (userConfig [eventsRule])).
    vm_compute. reflexivity.
  - intros H.
    apply (validateCollectorConfig_spec anyPath someOrder someOrder_perm
             (userConfig [excludeRule ["*"] ["Namespace"]])) in H.
    vm_compute in H. discriminate H.
Defined.

Definition adminRequest : result AdmissionRequest := Ok (mkRequest "kube:admin" "ocm").
Definition operatorRequest : result AdmissionRequest :=
  Ok (mkRequest "system:serviceaccount:ocm:search-v2-operator" "ocm").

Definition eventsTrace : list event :=
  run_trace (ValidateCreate anyPath someOrder true adminRequest (ObjectCC (userConfig [eventsRule]))) ccServer.

Lemma admitted_exclude_rules_safe_witness :
  length eventsTrace = 1 ∧
  (∀ g k, selects (r_ResourceSelector eventsRule) g k → ¬ protected_resource g k).
Proof.
  split; [vm_compute; reflexivity|].
  apply (admitted_exclude_rules_safe anyPath someOrder someOrder_perm true adminRequest
           (userConfig [eventsRule]) eventsTrace).
  - left. apply run_exec_eq. vm_compute. reflexivity.
  - left.
  - reflexivity.
Defined.

Definition ownedConfig : CollectorConfig :=
  cc_set_Meta (set_OwnerReferences [mkOwnerRef GroupVersion "Search" "search-v2-operator" "uid-1" (Some true)]
                 (newMeta "merged-collector-config" "ocm")) (userConfig []).

Lemma operator_owned_protected_witness :
  (∃ req, operatorRequest = Ok req ∧
     HasPrefix (req_Username req) ("system:serviceaccount:" +:+ req_Namespace req +:+ ":") = true) ∧
  ¬ exec (ValidateDelete adminRequest (ObjectCC ownedConfig)) [] (Done None).
Proof.
  destruct (operator_owned_protected anyPath someOrder true operatorRequest ownedConfig ownedConfig
              ownedConfig (run_trace (ValidateUpdate anyPath someOrder true operatorRequest
                (ObjectCC ownedConfig) (ObjectCC ownedConfig)) ccServer) []) as [Hu _].
  destruct (operator_owned_protected anyPath someOrder true adminRequest ownedConfig ownedConfig
              ownedConfig [] []) as [_ Hd].
  split.
  - apply Hu; [|by left]. apply run_exec_eq. vm_compute. reflexivity.
  - intros [_ H]%Hd. destruct (H eq_refl) as (req & Hr & Hreq). injection Hr as <-.
    destruct Hreq as [Hreq|Hreq]; vm_compute in Hreq; discriminate Hreq.
Defined.

Lemma jsonpath_braces_optional_witness :
  isValidJSONPath anyPath "{.spec.x}" = isValidJSONPath anyPath ".spec.x" ∧
  isValidJSONPath anyPath ".spec.x" = true ∧ isValidJSONPath anyPath "spec.x" = false.
Proof.
  split; [|by vm_compute].
  exact (proj1 (jsonpath_braces_optional anyPath ".spec.x" eq_refl eq_refl)).
Defined.
