(* ===== verification/ImageValidation.v ===== *)
(** [src/internal/imagevalidation.go]: which container images may be deployed. *)
From S2P Require Import Prelude GoStrings K8s.

Definition TrustedImagePrefixes : list string :=
  [ "quay.io/stolostron/"; "quay.io/acm-d/"; "registry.redhat.io/" ].

(** [IsTrustedImage] *)
Definition IsTrustedImage (image : string) : bool :=
  existsb (HasPrefix image) TrustedImagePrefixes.

(** [ValidateImageRepo] *)
Definition ValidateImageRepo (image : string) : option error :=
  if String.eqb image "" then Some (Errorf "image reference must not be empty")
  else if negb (IsTrustedImage image) then
    Some (Errorf ("image " +:+ quoted image +:+
                  " is not from a trusted registry; allowed prefixes: " +:+
                  sprint_strings TrustedImagePrefixes))
  else None.

(** An image reference in one of the trusted repositories. *)
Definition trusted (image : string) : Prop :=
  ∃ prefix rest, prefix ∈ TrustedImagePrefixes ∧ image = prefix +:+ rest.

Lemma IsTrustedImage_spec image : IsTrustedImage image = true ↔ trusted image.
Proof.
  unfold IsTrustedImage, trusted. rewrite existsb_elem. setoid_rewrite HasPrefix_spec. naive_solver.
Qed.

Lemma ValidateImageRepo_None image : ValidateImageRepo image = None ↔ trusted image.
Proof.
  unfold ValidateImageRepo. destruct (String.eqb_spec image "") as [->|Hne].
  - rewrite <-IsTrustedImage_spec. by vm_compute.
  - rewrite <-IsTrustedImage_spec. by destruct (IsTrustedImage image).
Qed.
