(* ===== verification/Common.v ===== *)
(** [src/controllers/common.go] and [defaults.go]: the names, defaults and
    getters that turn the Search CR into container settings.

    Parameters: the process environment ([Getenv]) and whether a resource
    quantity is zero ([IsZero], of [k8s.io/apimachinery/pkg/api/resource]). *)
From S2P Require Import Prelude GoStrings K8s V1alpha1 Effects MemServer Fixtures ImageValidation.

Local Open Scope search_scope.

(** [os.Getenv]: an unset variable reads as the empty string. *)
Class Environ := Getenv : string → string.

Class Quantities := IsZero : Quantity → bool.

(** * Results of reconcile steps: a pointer to a [reconcile.Result] and an error *)

Record ReconcileResult := mkResult { res_Requeue : bool; res_RequeueAfter : Z }.
Definition emptyResult : ReconcileResult := mkResult false 0.
Abbreviation stepResult := (option ReconcileResult * option error)%type.

(** [return nil, nil] and [return &reconcile.Result{}, err] *)
Definition stepOk : stepResult := (None, None).
Definition stepErr (e : error) : stepResult := (Some emptyResult, Some e).

(** Finish an execution that ends in a step result. *)
Ltac step_done := exec_steps; unfold stepOk, stepErr in *; simplify_eq/=; try done.

(** * Names and constants *)

Definition backupLabel : string := "cluster.open-cluster-management.io/backup".

Definition apiDeploymentName : string := "search-api".
Definition collectorDeploymentName : string := "search-collector".
Definition indexerDeploymentName : string := "search-indexer".
Definition postgresDeploymentName : string := "search-postgres".

Definition indexerConfigmapName : string := "search-indexer".
Definition postgresConfigmapName : string := "search-postgres".
Definition caCertConfigmapName : string := "search-ca-crt".

Definition apiSecretName : string := "search-api-certs".
Definition indexerSecretName : string := "search-indexer-certs".
Definition postgresSecretName : string := "search-postgres-certs".
Definition apiReadonlySecretName : string := "search-postgres-api-readonly".
Definition mcpReadonlySecretName : string := "search-postgres-mcp-readonly".

Definition ResourceCPU : string := "cpu".
Definition ResourceMemory : string := "memory".
Definition ResourceHugePages2Mi : string := "hugepages-2Mi".
Definition ResourceHugePages1Gi : string := "hugepages-1Gi".

Definition defaultPrometheusAlertMaxAppsCount : string := "100".
Definition defaultPrometheusAlertMaxManagedClustersCount : string := "10".
Definition defaultPrometheusAlertMaxIndexerCountOver30m : string := "100".
Definition AnnotationPrometheusAlertMaxAppsCount : string :=
  "search.open-cluster-management.io/max-apps-count".
Definition AnnotationPrometheusAlertMaxManagedClustersCount : string :=
  "search.open-cluster-management.io/max-managed-clusters-count".
Definition AnnotationPrometheusAlertMaxIndexerCountOver30m : string :=
  "search.open-cluster-management.io/max-indexer-count-over-30m".
Definition AnnotationPrometheusAlertSearchPVCCriticalDisable : string :=
  "search.open-cluster-management.io/disable-pvc-critical-alert".

Definition certDefaultMode : Z := 416.
Definition AnnotationSearchPause : string := "search-pause".

Definition default_WORK_MEM : string := "64MB".
Definition default_POSTGRESQL_EFFECTIVE_CACHE_SIZE : string := "2GB".
Definition default_POSTGRESQL_SHARED_BUFFERS : string := "1GB".
Definition dbDefaultMap : smap := {[ "WORK_MEM" := default_WORK_MEM ]}.

(** [defaultResourceMap], [defaultReplicaMap] as [init] fills them. *)
Definition defaultResourceMap : gmap string smap :=
  {[ apiDeploymentName := {[ "CPURequest" := "10m"; "MemoryRequest" := "512Mi" ]};
     collectorDeploymentName := {[ "CPURequest" := "25m"; "MemoryRequest" := "128Mi" ]};
     indexerDeploymentName := {[ "CPURequest" := "10m"; "MemoryRequest" := "32Mi" ]};
     postgresDeploymentName :=
       {[ "CPURequest" := "25m"; "MemoryLimit" := "4Gi"; "MemoryRequest" := "1Gi" ]} ]}.

Definition defaultReplicaMap : gmap string Z :=
  {[ apiDeploymentName := 1%Z; collectorDeploymentName := 1%Z;
     indexerDeploymentName := 1%Z; postgresDeploymentName := 1%Z ]}.

Definition generateLabels (key val : string) : smap :=
  <[key := val]> {[ "component" := "search-v2-operator"; "app" := "search" ]}.

Definition getAPIServiceAccountName : string := "search-api-sa".
Definition getPostgresServiceAccountName : string := "search-postgres-sa".
Definition getIndexerServiceAccountName : string := "search-indexer-sa".
Definition getCollectorServiceAccountName : string := "search-collector-sa".
Definition getRoleName : string := "search".
Definition getRoleBindingName : string := "search".
Definition getAddonRoleName : string := "open-cluster-management:addons:search-collector".
Definition getSearchUserRoleName : string := "global-search-user".
Definition getPVCName (scName : string) : string := scName +:+ "-search".

Definition getDefaultDBConfig (varName : string) : string := default "" (dbDefaultMap !! varName).

(** [searchLabels] *)
Definition searchLabels (labels : option smap) : bool :=
  bool_decide (map_of labels !! "component" = Some "search-v2-operator").

(** [IsPaused] *)
Definition IsPaused (annotations : option smap) : bool :=
  let v := get_str annotations AnnotationSearchPause in
  negb (String.eqb v "") && EqualFold v "true".

(** * Environment variables *)

Definition newEnvVar (name value : string) : EnvVar := mkEnvVar name value None.
Definition newMetadataEnvVar (name key : string) : EnvVar :=
  mkEnvVar name "" (Some (mkEnvVarSource (Some key) None None)).
Definition newSecretEnvVar (name key secretName : string) : EnvVar :=
  mkEnvVar name "" (Some (mkEnvVarSource None (Some (mkSecretKeyRef secretName key)) None)).

(** * Settings of a deployment *)

(** [getDeploymentConfig] *)
Definition getDeploymentConfig (name : string) (instance : Search) : DeploymentConfig :=
  let d := sp_Deployments (s_Spec instance) in
  if String.eqb name apiDeploymentName then sd_QueryAPI d
  else if String.eqb name collectorDeploymentName then sd_Collector d
  else if String.eqb name indexerDeploymentName then sd_Indexer d
  else if String.eqb name postgresDeploymentName then sd_Database d
  else zeroDeploymentConfig.

Definition getNodeSelector (deploymentName : string) (instance : Search) : option smap :=
  sp_NodeSelector (s_Spec instance).

Definition getTolerations (deploymentName : string) (instance : Search) : list Toleration :=
  default [] (sp_Tolerations (s_Spec instance)).

Definition getPodSecurityContext : PodSecurityContext :=
  mkPodSecurityContext (Some true) "RuntimeDefault".

Definition getContainerSecurityContext : SecurityContext :=
  mkSecurityContext (Some false) (Some false) (Some true) (Some true) ["ALL"].

Definition getImagePullPolicy (deploymentName : string) (instance : Search) : string :=
  let p := sp_ImagePullPolicy (s_Spec instance) in
  if negb (String.eqb p "") then p else "IfNotPresent".

Definition getPostgresVolume (instance : Search) : Volume :=
  let storageClass := ss_StorageClassName (sp_DBStorage (s_Spec instance)) in
  if negb (String.eqb storageClass "")
  then mkVolume "postgresdb" (VSPersistentVolumeClaim (getPVCName storageClass))
  else mkVolume "postgresdb" (VSEmptyDir "").

(** [getContainerArgs]: only log verbosity passes. *)
Definition getContainerArgs (deploymentName : string) (instance : Search) : list string :=
  List.filter (λ arg, HasPrefix arg "-v=" || HasPrefix arg "--v=")
    (dc_Arguments (getDeploymentConfig deploymentName instance)).

Definition operatorManagedSecrets : gset string :=
  list_to_set [ "search-postgres"; apiReadonlySecretName; mcpReadonlySecretName ].

(** The test of the loop of [getContainerEnvVar]: the variable is kept. *)
Definition keepsEnvVar (deploymentName : string) (e : EnvVar) : bool :=
  if String.eqb deploymentName postgresDeploymentName && String.eqb (ev_Name e) "WORK_MEM" then false
  else match ev_ValueFrom e with
       | Some src => match evs_SecretKeyRef src with
                     | Some ref => bool_decide (sk_Name ref ∈ operatorManagedSecrets)
                     | None => true
                     end
       | None => true
       end.

Definition getContainerEnvVar (deploymentName : string) (instance : Search) : list EnvVar :=
  List.filter (keepsEnvVar deploymentName) (dc_Env (getDeploymentConfig deploymentName instance)).

Definition getReplicaCount (deploymentName : string) (instance : Search) : Z :=
  let count := default 1%Z (defaultReplicaMap !! deploymentName) in
  let replicas := dc_ReplicaCount (getDeploymentConfig deploymentName instance) in
  if (0 <? replicas)%Z then
    if String.eqb deploymentName collectorDeploymentName ||
       String.eqb deploymentName postgresDeploymentName
    then count else replicas
  else count.

(** [getDeployment]: name, selector and template labels; the rest is zero. *)
Definition getDeployment (deploymentName : string) (instance : Search) : Deployment :=
  let deploymentLabels := generateLabels "name" deploymentName in
  mkDeployment (newMeta deploymentName (s_Namespace instance))
    (mkDeploymentSpec None deploymentLabels deploymentLabels None
       (mkPodSpec [] [] "" None None [] None) "").

Section environ.
Context `{Environ}.

Definition getenv_default (var def : string) : string :=
  let v := Getenv var in if String.eqb v "" then def else v.

Definition getAPIClusterRoleName : string :=
  getenv_default "OPERATOR_ORG" "open-cluster-management" +:+ ":" +:+
  getenv_default "OPERATOR_CHART" "search-v2-operator" +:+ ":search-api".
Definition getCollectorClusterRoleName : string :=
  getenv_default "OPERATOR_ORG" "open-cluster-management" +:+ ":" +:+
  getenv_default "OPERATOR_CHART" "search-v2-operator" +:+ ":search-collector".

(** [trustedOverride] *)
Definition trustedOverride (override envImage : string) : string :=
  if String.eqb override "" then envImage
  else if IsTrustedImage override then override
  else envImage.

Definition getImageSha (deploymentName : string) (instance : Search) : string :=
  let d := sp_Deployments (s_Spec instance) in
  if String.eqb deploymentName apiDeploymentName
  then trustedOverride (dc_ImageOverride (sd_QueryAPI d)) (Getenv "API_IMAGE")
  else if String.eqb deploymentName collectorDeploymentName
  then trustedOverride (dc_ImageOverride (sd_Collector d)) (Getenv "COLLECTOR_IMAGE")
  else if String.eqb deploymentName indexerDeploymentName
  then trustedOverride (dc_ImageOverride (sd_Indexer d)) (Getenv "INDEXER_IMAGE")
  else if String.eqb deploymentName postgresDeploymentName
  then trustedOverride (dc_ImageOverride (sd_Database d)) (Getenv "POSTGRES_IMAGE")
  else "".

Definition isPrometheusAlertSearchPVCCriticalDisabled (instance : Search) : bool :=
  has_key (s_Annotations instance) AnnotationPrometheusAlertSearchPVCCriticalDisable.

(** The shape the three alert getters share: environment, then annotation, then
    the default for an empty value. *)
Definition alertSetting (var annotation def : string) (instance : Search) : string :=
  let v := default (Getenv var) (map_of (s_Annotations instance) !! annotation) in
  if String.eqb v "" then def else v.

Definition getPrometheusAlertMaxAppsCount : Search → string :=
  alertSetting "PROMETHEUS_ALERT_MAX_APPS_COUNT" AnnotationPrometheusAlertMaxAppsCount
    defaultPrometheusAlertMaxAppsCount.
Definition getPrometheusAlertMaxManagedClustersCount : Search → string :=
  alertSetting "PROMETHEUS_ALERT_MAX_MANAGED_CLUSTERS_COUNT"
    AnnotationPrometheusAlertMaxManagedClustersCount defaultPrometheusAlertMaxManagedClustersCount.
Definition getPrometheusAlertMaxIndexerCountOver30m : Search → string :=
  alertSetting "PROMETHEUS_ALERT_MAX_INDEXER_COUNT_OVER_30M"
    AnnotationPrometheusAlertMaxIndexerCountOver30m defaultPrometheusAlertMaxIndexerCountOver30m.
End environ.

(** * Resource requirements *)

Section resources.
Context `{Quantities}.

(** [q := *custom.Name(r); if !q.IsZero() { list[r] = q }], where a missing
    entry reads as a zero quantity. *)
Definition overrideResource (custom : ResourceList) (r : string) (rl : ResourceList) : ResourceList :=
  match custom !! r with
  | Some q => if negb (IsZero q) then <[r := q]> rl else rl
  | None => rl
  end.

Definition overrideResources (custom : option ResourceList) (rl : ResourceList) : ResourceList :=
  match custom with
  | None => rl
  | Some c =>
      overrideResource c ResourceHugePages1Gi (overrideResource c ResourceHugePages2Mi
        (overrideResource c ResourceMemory (overrideResource c ResourceCPU rl)))
  end.

(** [if v, exists := defaultResourceMap[deployment][key]; exists { list[r] = MustParse(v) }] *)
Definition defaultResource (deployment key r : string) (rl : ResourceList) : ResourceList :=
  match defaultResourceMap !! deployment ≫= lookup key with
  | Some v => <[r := MustParse v]> rl
  | None => rl
  end.

Definition getRequests (deployment : string) (instance : Search) : ResourceList :=
  overrideResources (dc_Resources (getDeploymentConfig deployment instance) ≫= rr_Requests)
    (defaultResource deployment "MemoryRequest" ResourceMemory
      (defaultResource deployment "CPURequest" ResourceCPU ∅)).

Definition getLimits (deployment : string) (instance : Search) : ResourceList :=
  overrideResources (dc_Resources (getDeploymentConfig deployment instance) ≫= rr_Limits)
    (defaultResource deployment "MemoryLimit" ResourceMemory ∅).

Definition knownDeployment (name : string) : bool :=
  String.eqb name apiDeploymentName || String.eqb name collectorDeploymentName ||
  String.eqb name indexerDeploymentName || String.eqb name postgresDeploymentName.

Definition getResourceRequirements (deploymentName : string) (instance : Search) :
    ResourceRequirements :=
  if knownDeployment deploymentName
  then mkResources (Some (getRequests deploymentName instance)) (Some (getLimits deploymentName instance))
  else mkResources None None.
End resources.

(** * Database settings *)

(** [^[0-9]+(kB|MB|GB|TB)?$] on the whole value ([$] without the m flag does
    not match before a final newline in Go). *)
Definition workMemPattern (value : string) : bool :=
  let '(digits, unit) := span is_digit value in
  negb (String.eqb digits "") && existsb (String.eqb unit) [""; "kB"; "MB"; "GB"; "TB"].

(** [sanitizeDBConfig] *)
Definition sanitizeDBConfig (configName value : string) : string :=
  if String.eqb configName "WORK_MEM" then
    if negb (workMemPattern value) then default_WORK_MEM else value
  else value.

(** [getDBConfigData]: an answer other than not-found leaves the zero ConfigMap. *)
Definition getDBConfigData (instance : Search) : prog (option smap) :=
  if String.eqb (sp_DBConfig (s_Spec instance)) "" then Ret None
  else
    r <- call (Get KConfigMap (mkNN (sp_DBConfig (s_Spec instance)) (s_Namespace instance))) ;;
    match r with
    | Err _ => Ret None
    | Ok found => Ret (cm_Data found)
    end.

(** [GetDBConfigFromSearchCR] *)
Definition GetDBConfigFromSearchCR (instance : Search) (configName : string) : prog string :=
  match find_first (λ e, String.eqb (ev_Name e) configName)
          (dc_Env (getDeploymentConfig postgresDeploymentName instance)) with
  | Some env => Ret (sanitizeDBConfig configName (ev_Value env))
  | None =>
      customMap <- getDBConfigData instance ;;
      match map_of customMap !! configName with
      | Some value => Ret (sanitizeDBConfig configName value)
      | None => Ret (getDefaultDBConfig configName)
      end
  end.

(** * Specifications *)

(** The environment variable that carries the default image of a deployment. *)
Definition imageVar (deploymentName : string) : string :=
  if String.eqb deploymentName apiDeploymentName then "API_IMAGE"
  else if String.eqb deploymentName collectorDeploymentName then "COLLECTOR_IMAGE"
  else if String.eqb deploymentName indexerDeploymentName then "INDEXER_IMAGE"
  else "POSTGRES_IMAGE".

(** The secret an environment variable reads, if any. *)
Definition env_secret (e : EnvVar) : option string :=
  sk_Name <$> (ev_ValueFrom e ≫= evs_SecretKeyRef).

(** A variable that reads no secret but those the operator creates. *)
Definition safe_env (e : EnvVar) : Prop := ∀ s, env_secret e = Some s → s ∈ operatorManagedSecrets.

(** A log-verbosity argument. *)
Definition verbosity_arg (arg : string) : Prop := ∃ v, arg = "-v=" +:+ v ∨ arg = "--v=" +:+ v.

(** A PostgreSQL memory size: digits and an optional unit. *)
Definition memory_size (v : string) : Prop :=
  ∃ digits unit, v = digits +:+ unit ∧ digits ≠ "" ∧ all_chars is_digit digits = true ∧
    unit ∈ [""; "kB"; "MB"; "GB"; "TB"].

(** The resources the CR can set. *)
Definition settable : list string :=
  [ResourceCPU; ResourceMemory; ResourceHugePages2Mi; ResourceHugePages1Gi].

(** What the CR sets for a resource: a present, non-zero quantity. *)
Definition customResource `{Quantities} (custom : option ResourceList) (r : string) : option Quantity :=
  if bool_decide (r ∈ settable) then
    match custom ≫= lookup r with
    | Some q => if IsZero q then None else Some q
    | None => None
    end
  else None.

Definition defaultRequest (deployment r : string) : option Quantity :=
  if String.eqb r ResourceCPU then MustParse <$> (defaultResourceMap !! deployment ≫= lookup "CPURequest")
  else if String.eqb r ResourceMemory
  then MustParse <$> (defaultResourceMap !! deployment ≫= lookup "MemoryRequest")
  else None.

Definition defaultLimit (deployment r : string) : option Quantity :=
  if String.eqb r ResourceMemory
  then MustParse <$> (defaultResourceMap !! deployment ≫= lookup "MemoryLimit")
  else None.

(** * Lemmas *)

Lemma elem_of_filter_bool {A} (p : A → bool) l x : x ∈ List.filter p l ↔ x ∈ l ∧ p x = true.
Proof. by rewrite !list_elem_of_In, filter_In. Qed.

Lemma verbosity_spec arg : (HasPrefix arg "-v=" || HasPrefix arg "--v=") = true ↔ verbosity_arg arg.
Proof.
  unfold verbosity_arg. rewrite orb_true_iff, !HasPrefix_spec. naive_solver.
Qed.

Lemma elem_of_getContainerArgs d i arg :
  arg ∈ getContainerArgs d i ↔ arg ∈ dc_Arguments (getDeploymentConfig d i) ∧ verbosity_arg arg.
Proof. unfold getContainerArgs. by rewrite elem_of_filter_bool, verbosity_spec. Qed.

Lemma keepsEnvVar_spec d e :
  keepsEnvVar d e = true ↔ ¬ (d = postgresDeploymentName ∧ ev_Name e = "WORK_MEM") ∧ safe_env e.
Proof.
  unfold keepsEnvVar.
  assert (Hs : (match ev_ValueFrom e with
                | Some src => match evs_SecretKeyRef src with
                              | Some ref => bool_decide (sk_Name ref ∈ operatorManagedSecrets)
                              | None => true
                              end
                | None => true
                end) = true ↔ safe_env e).
  { unfold safe_env, env_secret. destruct (ev_ValueFrom e) as [[f [ref|] c]|]; cbn; [|done..].
    rewrite bool_decide_eq_true. split; [by intros ? ? [= <-]|auto]. }
  destruct (String.eqb_spec d postgresDeploymentName), (String.eqb_spec (ev_Name e) "WORK_MEM");
    cbn [andb]; [by split; [|intros [[] _]]|rewrite Hs; split; [|by intros [_ ?]];
    (intros; split; [by intros [? ?]|done])..].
Qed.

Lemma elem_of_getContainerEnvVar d i e :
  e ∈ getContainerEnvVar d i ↔
  e ∈ dc_Env (getDeploymentConfig d i) ∧
  ¬ (d = postgresDeploymentName ∧ ev_Name e = "WORK_MEM") ∧ safe_env e.
Proof. unfold getContainerEnvVar. by rewrite elem_of_filter_bool, keepsEnvVar_spec. Qed.

Lemma trustedOverride_spec `{Environ} o env :
  (trustedOverride o env = o ∧ trusted o) ∨ (trustedOverride o env = env ∧ (o = "" ∨ ¬ trusted o)).
Proof.
  unfold trustedOverride. rewrite <-IsTrustedImage_spec.
  destruct (String.eqb_spec o ""); [auto|]. destruct (IsTrustedImage o); auto.
Qed.

Lemma knownDeployment_cases d :
  knownDeployment d = true →
  d = apiDeploymentName ∨ d = collectorDeploymentName ∨ d = indexerDeploymentName ∨
  d = postgresDeploymentName.
Proof. unfold knownDeployment. rewrite !orb_true_iff, !String.eqb_eq. naive_solver. Qed.

Lemma getImageSha_eq `{Environ} d i :
  knownDeployment d = true →
  getImageSha d i = trustedOverride (dc_ImageOverride (getDeploymentConfig d i)) (Getenv (imageVar d)).
Proof. by intros [->|[->|[->| ->]]]%knownDeployment_cases. Qed.

Lemma span_spec p s d u : span p s = (d, u) → s = d +:+ u ∧ all_chars p d = true.
Proof.
  revert d u. induction s as [|c s IH]; intros d u; cbn; [by intros [= <- <-]|].
  destruct (p c) eqn:Hc.
  - destruct (span p s) as [a b]. intros [= <- <-]. destruct (IH a b eq_refl) as [-> Ha].
    rewrite append_cons. cbn. by rewrite Hc.
  - by intros [= <- <-].
Qed.

Lemma workMemPattern_spec v : workMemPattern v = true → memory_size v.
Proof.
  unfold workMemPattern, memory_size. destruct (span is_digit v) as [d u] eqn:Hs.
  apply span_spec in Hs as [-> Hd]. rewrite andb_true_iff, negb_true_iff, String.eqb_neq, existsb_elem.
  intros [Hne (u' & Hu & Heq)]. apply String.eqb_eq in Heq as ->. eauto 10.
Qed.

Lemma sanitize_memory_size v : memory_size (sanitizeDBConfig "WORK_MEM" v).
Proof.
  unfold sanitizeDBConfig. cbn. destruct (workMemPattern v) eqn:Hv; cbn.
  - by apply workMemPattern_spec.
  - by apply workMemPattern_spec.
Qed.

(** The value of WORK_MEM is always a memory size. *)
Lemma exec_work_mem instance t o :
  exec (GetDBConfigFromSearchCR instance "WORK_MEM") t o →
  ∃ v, o = Done v ∧ memory_size v ∧ read_only t.
Proof.
  unfold GetDBConfigFromSearchCR, getDBConfigData, call.
  assert (Hd : memory_size (getDefaultDBConfig "WORK_MEM")) by by apply workMemPattern_spec.
  destruct (find_first _ _) as [env|].
  - intros [-> ->]%exec_Ret. eexists. split; [done|]. split; [apply sanitize_memory_size|constructor].
  - destruct (String.eqb _ ""); cbn [bind]; intros He.
    + apply exec_Ret in He as [-> ->]. eexists. split; [done|]. split; [done|constructor].
    + apply exec_Op in He as ([cm|e] & t' & -> & He); cbn [bind] in He;
        (destruct (map_of _ !! "WORK_MEM"); apply exec_Ret in He as [-> ->]);
        (eexists; split; [done|]; split; [|by repeat constructor]);
        by (apply sanitize_memory_size || apply Hd).
Qed.

Section resource_lemmas.
Context `{Quantities}.

Lemma lookup_overrideResource c r rl r' :
  overrideResource c r rl !! r' =
  if bool_decide (r' = r)
  then match c !! r with Some q => if IsZero q then rl !! r' else Some q | None => rl !! r' end
  else rl !! r'.
Proof.
  unfold overrideResource. case_bool_decide as Heq; [subst|].
  - destruct (c !! r) as [q|]; [|done]. destruct (IsZero q); cbn; [done|]. by rewrite lookup_insert_eq.
  - destruct (c !! r) as [q|]; [|done]. destruct (IsZero q); cbn; [done|]. by rewrite lookup_insert_ne.
Qed.

Lemma lookup_overrideResources custom rl r :
  overrideResources custom rl !! r =
  match customResource custom r with Some q => Some q | None => rl !! r end.
Proof.
  unfold overrideResources, customResource. destruct custom as [c|]; cbn; [|by case_bool_decide].
  rewrite !lookup_overrideResource.
  destruct (decide (r ∈ settable)) as [Hs|Hs];
    [rewrite (bool_decide_eq_true_2 (r ∈ settable)) by done
    |rewrite (bool_decide_eq_false_2 (r ∈ settable)) by done]; unfold settable in Hs.
  - rewrite !elem_of_cons in Hs. destruct Hs as [->|[->|[->|[->|Hs]]]]; [..|set_solver];
      eval_decides; (destruct (c !! _) as [q|]; cbn; [by destruct (IsZero q)|done]).
  - rewrite !elem_of_cons in Hs.
    by rewrite !bool_decide_eq_false_2 by naive_solver.
Qed.

Lemma lookup_defaultResource d key r rl r' :
  defaultResource d key r rl !! r' =
  if bool_decide (r' = r)
  then match defaultResourceMap !! d ≫= lookup key with Some v => Some (MustParse v) | None => rl !! r' end
  else rl !! r'.
Proof.
  unfold defaultResource. case_bool_decide as Heq; [subst|]; destruct (_ ≫= _) as [v|]; try done.
  - by rewrite lookup_insert_eq.
  - by rewrite lookup_insert_ne.
Qed.
End resource_lemmas.

(** * Theorems *)

(** The image of a component is the CR's override exactly when the override
    is in a trusted repository, and otherwise the image the operator was
    deployed with. *)
Theorem image_override_trusted `{Environ} deploymentName instance :
  knownDeployment deploymentName = true →
  let override := dc_ImageOverride (getDeploymentConfig deploymentName instance) in
  (trusted override → getImageSha deploymentName instance = override) ∧
  (¬ trusted override → getImageSha deploymentName instance = Getenv (imageVar deploymentName)).
Proof.
  intros Hk. rewrite getImageSha_eq by done. cbn zeta.
  destruct (trustedOverride_spec (dc_ImageOverride (getDeploymentConfig deploymentName instance))
              (Getenv (imageVar deploymentName))) as [[-> Ht]|[-> [He|Hn]]].
  - done.
  - split; [|done]. rewrite He. intros (p & rest & Hp & Heq).
    destruct p; [|by rewrite append_cons in Heq]. set_solver.
  - done.
Qed.

(** Resource requests and limits. For each resource the CR's value wins when
    it is present and not zero, then the built-in default applies; resources
    other than CPU, memory and huge pages cannot be set. *)
Theorem resource_requirements_spec `{Quantities} d instance r :
  knownDeployment d = true →
  let custom := dc_Resources (getDeploymentConfig d instance) in
  ∃ requests limits, getResourceRequirements d instance = mkResources (Some requests) (Some limits) ∧
    requests !! r = match customResource (custom ≫= rr_Requests) r with
                    | Some q => Some q | None => defaultRequest d r end ∧
    limits !! r = match customResource (custom ≫= rr_Limits) r with
                  | Some q => Some q | None => defaultLimit d r end.
Proof.
  intros Hk. cbn zeta. unfold getResourceRequirements. rewrite Hk.
  do 2 eexists. split; [done|]. unfold getRequests, getLimits.
  rewrite !lookup_overrideResources, !lookup_defaultResource, lookup_empty.
  unfold defaultRequest, defaultLimit. split.
  - destruct (customResource _ r); [done|].
    case_bool_decide as Hm; [subst r|]; [by destruct (_ ≫= _)|].
    rewrite (proj2 (String.eqb_neq r ResourceMemory)) by done.
    case_bool_decide as Hc; [subst r|]; [by destruct (_ ≫= _)|].
    by rewrite (proj2 (String.eqb_neq r ResourceCPU)) by done.
  - destruct (customResource _ r); [done|].
    case_bool_decide as Hm; [subst r|]; [by destruct (_ ≫= _)|].
    by rewrite (proj2 (String.eqb_neq r ResourceMemory)) by done.
Qed.

(** * The theorems at concrete inputs *)

Definition sampleEnviron : Environ := λ v, "quay.io/operator/" +:+ v.
Definition sampleQuantities : Quantities := λ q, String.eqb (q_text q) "0".

(** A CR that overrides the API image and memory and asks for extra access. *)
Definition customAPI : DeploymentConfig :=
  mkDeploymentConfig 3 (Some (mkResources (Some {[ ResourceMemory := MustParse "1Gi" ]}) None))
    "quay.io/stolostron/search-api:2" ["-v=3"; "--kubeconfig=/x"]
    [newSecretEnvVar "X" "password" "other-secret"; newEnvVar "Y" "1"].

Definition withDeployments (d : SearchDeployments) (s : Search) : Search :=
  let sp := s_Spec s in
  mkSearch (s_Meta s)
    (mkSearchSpec (sp_DBStorage sp) (sp_DBConfig sp) d (sp_AvailabilityConfig sp)
       (sp_ExternalDBInstance sp) (sp_ImagePullSecret sp) (sp_ImagePullPolicy sp)
       (sp_NodeSelector sp) (sp_Tolerations sp)) (s_Status s).

Definition injectedDB : DeploymentConfig :=
  mkDeploymentConfig 5 None "docker.io/evil/postgres" [] [newEnvVar "WORK_MEM" "1MB'; DROP TABLE x"].

Definition customSearch : Search :=
  withDeployments (mkSearchDeployments injectedDB zeroDeploymentConfig zeroDeploymentConfig customAPI)
    sampleSearch.

Lemma image_override_trusted_witness :
  @getImageSha sampleEnviron apiDeploymentName customSearch = "quay.io/stolostron/search-api:2" ∧
  @getImageSha sampleEnviron postgresDeploymentName customSearch = "quay.io/operator/POSTGRES_IMAGE".
Proof.
  split.
  - apply (@image_override_trusted sampleEnviron apiDeploymentName customSearch); [reflexivity|].
    apply IsTrustedImage_spec. vm_compute. reflexivity.
  - apply (@image_override_trusted sampleEnviron postgresDeploymentName customSearch); [reflexivity|].
    rewrite <-IsTrustedImage_spec. vm_compute. discriminate.
Defined.

Lemma resource_requirements_spec_witness :
  ∃ requests limits,
    @getResourceRequirements sampleQuantities apiDeploymentName customSearch =
      mkResources (Some requests) (Some limits) ∧
    requests !! ResourceMemory = Some (MustParse "1Gi").
Proof.
  destruct (@resource_requirements_spec sampleQuantities apiDeploymentName customSearch ResourceMemory)
    as (requests & limits & H & Hr & _); [reflexivity|].
  exists requests, limits. split; [exact H|]. rewrite Hr. vm_compute. reflexivity.
Defined.
