(* ===== verification/CollectorMerge.v ===== *)
(** [src/controllers/create_collectorconfig.go]: the merge of the integration
    team configs and the user config into merged-collector-config, and the CA
    injection annotation of the webhook configuration. *)
From S2P Require Import Prelude GoStrings K8s V1alpha1 Effects Interfaces Common Selectors Webhook MemServer Fixtures.

Local Open Scope search_scope.

(** * Names *)

Definition userCollectorConfigName : string := "user-collector-config".
Definition mergedCollectorConfigName : string := "merged-collector-config".
Definition webhookConfigName : string := "search-v2-operator-validating-webhook-configuration".
Definition caInjectionAnnotation : string := "service.beta.openshift.io/inject-cabundle".

(** * Backup label *)

(** [addBackupLabel]: the config as the caller holds it afterwards, and the error. *)
Definition addBackupLabel (cc : CollectorConfig) : prog (CollectorConfig * option error) :=
  if has_key (cc_Labels cc) backupLabel then Ret (cc, None)
  else
    let cc' := cc_set_Labels (Some (<[backupLabel := ""]> (map_of (cc_Labels cc)))) cc in
    r <- call (Patch KCollectorConfig cc') ;;
    match r with
    | Ok o => Ret (o, None)
    | Err e => Ret (cc', Some e)
    end.

(** * Webhook CA injection *)

(** [ensureWebhookCAInjection] *)
Definition ensureWebhookCAInjection : prog (option error) :=
  r <- call (Get KVWC (mkNN webhookConfigName "")) ;;
  match r with
  | Err e => if IsNotFound e then Ret None else Ret (Some e)
  | Ok vwc =>
      if String.eqb (get_str (om_Annotations (vwc_Meta vwc)) caInjectionAnnotation) "true" then Ret None
      else
        let annotations := <[caInjectionAnnotation := "true"]> (map_of (om_Annotations (vwc_Meta vwc))) in
        u <- call (Update KVWC (mkVWC (set_Annotations (Some annotations) (vwc_Meta vwc)))) ;;
        match u with Ok _ => Ret None | Err e => Ret (Some e) end
  end.

(** * Overlap of rules *)

(** [setsIntersect] *)
Definition setsIntersect (a b : list string) : bool := intersect_loop a b.

(** [rulesOverlap] *)
Definition rulesOverlap (a b : ResourceSelector) : bool :=
  if negb (setsIntersect (rs_APIGroups a) (rs_APIGroups b)) then false
  else setsIntersect (rs_Kinds a) (rs_Kinds b).

(** [excludeOverlapsIntegrationIncludes] *)
Definition excludeOverlapsIntegrationIncludes (excludeRule : CollectionRule)
    (teamConfigs : list CollectorConfig) : bool :=
  existsb (λ tc, existsb (λ teamRule,
    if negb (String.eqb (r_Action teamRule) ActionInclude) then false
    else rulesOverlap (r_ResourceSelector excludeRule) (r_ResourceSelector teamRule))
    (ccs_CollectionRules (cc_Spec tc))) teamConfigs.

(** The condition under which the merge loop drops a user rule. *)
Definition drops (teamConfigs : list CollectorConfig) (rule : CollectionRule) : bool :=
  String.eqb (r_Action rule) ActionExclude && excludeOverlapsIntegrationIncludes rule teamConfigs.

Definition droppedMessage (rule : CollectionRule) : string :=
  "exclude rule for kinds " +:+ sprint_strings (rs_Kinds (r_ResourceSelector rule)) +:+
  " (apiGroups " +:+ sprint_strings (rs_APIGroups (r_ResourceSelector rule)) +:+
  ") was not applied — resource is necessary for system functionality".

(** * The merge *)

(** The loop over the sorted team configs: the rules collected so far and the
    configs as they are after the backup label was added. *)
Fixpoint mergeTeams (items : list CollectorConfig) (rules : list CollectionRule)
    (seen : list CollectorConfig) :
    prog (result (list CollectionRule * list CollectorConfig)) :=
  match items with
  | [] => Ret (Ok (rules, seen))
  | tc :: rest =>
      r <- addBackupLabel tc ;;
      match r with
      | (_, Some e) => Ret (Err e)
      | (tc', None) => mergeTeams rest (rules ++ ccs_CollectionRules (cc_Spec tc)) (seen ++ [tc'])
      end
  end.

(** The loop over the user rules: the merged rules and the messages. *)
Fixpoint mergeUserRules (teamConfigs : list CollectorConfig) (userRules : list CollectionRule)
    (rules : list CollectionRule) (messages : list string) : list CollectionRule * list string :=
  match userRules with
  | [] => (rules, messages)
  | rule :: rest =>
      if drops teamConfigs rule
      then mergeUserRules teamConfigs rest rules (messages ++ [droppedMessage rule])
      else mergeUserRules teamConfigs rest (rules ++ [rule]) messages
  end.

Section merge.
Context `{ControllerUtil} `{StatusConditions} `{SemanticEquality CollectorConfigSpec}.

(** [updateUserCCStatus] *)
Definition updateUserCCStatus (userCC : CollectorConfig) (droppedMessages : list string) :
    prog (option error) :=
  let ok := (length droppedMessages =? 0)%nat in
  let status := if ok then ConditionTrue else ConditionFalse in
  let reason := if ok then CollectorConfigReasonApplied else CollectorConfigReasonRulesSkipped in
  let message := if ok then "Configuration merged successfully." else Join droppedMessages "; " in
  now <- call Now ;;
  let time := match FindStatusCondition (cc_Conditions userCC) CollectorConfigConditionApplied with
              | Some existing =>
                  if String.eqb (c_Status existing) status then c_LastTransitionTime existing else now
              | None => now
              end in
  let newCondition := mkCondition CollectorConfigConditionApplied status time reason message in
  r <- call (StatusUpdate KCollectorConfig
               (cc_set_Conditions (SetStatusCondition (cc_Conditions userCC) newCondition) userCC)) ;;
  match r with Ok _ => Ret None | Err e => Ret (Some e) end.

(** The user-config part of [createOrUpdateMergedCollectorConfig]: the merged
    spec, or the error to return. *)
Definition mergeUser (namespace : string) (teamRules : list CollectionRule)
    (teamConfigs : list CollectorConfig) : prog (result CollectorConfigSpec) :=
  r <- call (Get KCollectorConfig (mkNN userCollectorConfigName namespace)) ;;
  match r with
  | Err e => if IsNotFound e then Ret (Ok (mkCCSpec None teamRules)) else Ret (Err e)
  | Ok userCC =>
      let '(rules, messages) :=
        mergeUserRules teamConfigs (ccs_CollectionRules (cc_Spec userCC)) teamRules [] in
      let spec := mkCCSpec (ccs_CollectNamespaces (cc_Spec userCC)) rules in
      b <- addBackupLabel userCC ;;
      match b with
      | (_, Some e) => Ret (Err e)
      | (userCC', None) =>
          (* a status error is logged only *)
          _u <- updateUserCCStatus userCC' messages ;;
          Ret (Ok spec)
      end
  end.

(** The last part: create merged-collector-config or update a changed spec. *)
Definition writeMerged (instance : Search) (namespace : string) (mergedSpec : CollectorConfigSpec) :
    prog stepResult :=
  r <- call (Get KCollectorConfig (mkNN mergedCollectorConfigName namespace)) ;;
  match r with
  | Err e =>
      if IsNotFound e then
        match SetControllerReference instance (newMeta mergedCollectorConfigName namespace) with
        | Err errRef => Ret (stepErr errRef)
        | Ok meta =>
            c <- call (Create KCollectorConfig (mkCC meta mergedSpec [])) ;;
            match c with Ok _ => Ret stepOk | Err e => Ret (stepErr e) end
        end
      else Ret (stepErr e)
  | Ok found =>
      if DeepEqual (cc_Spec found) mergedSpec then Ret stepOk
      else
        u <- call (Update KCollectorConfig (cc_set_Spec mergedSpec found)) ;;
        match u with Ok _ => Ret stepOk | Err e => Ret (stepErr e) end
  end.

Definition teamListOptions (namespace : string) : ListOptions :=
  mkListOptions (Some namespace) {[ IntegrationTeamLabel := IntegrationTeamLabelValue ]}.

(** [createOrUpdateMergedCollectorConfig] *)
Definition createOrUpdateMergedCollectorConfig (instance : Search) : prog stepResult :=
  let namespace := s_Namespace instance in
  l <- call (List KCollectorConfig (teamListOptions namespace)) ;;
  match l with
  | Err e => Ret (stepErr e)
  | Ok items =>
      m <- mergeTeams (sort_by cc_Name items) [] [] ;;
      match m with
      | Err e => Ret (stepErr e)
      | Ok (teamRules, teamConfigs) =>
          s <- mergeUser namespace teamRules teamConfigs ;;
          match s with
          | Err e => Ret (stepErr e)
          | Ok mergedSpec => writeMerged instance namespace mergedSpec
          end
      end
  end.
End merge.

(** * Specification: the merge as a function of its sources *)

Definition is_exclude (r : CollectionRule) : Prop := r_Action r = ActionExclude.
Definition is_include (r : CollectionRule) : Prop := r_Action r = ActionInclude.

Definition teamRulesOf (teams : list CollectorConfig) : list CollectionRule :=
  concat (map (λ tc, ccs_CollectionRules (cc_Spec tc)) teams).

(** Team rules in name order, then the user rules the merge keeps; namespaces
    from the user config alone. *)
Definition user_spec (teams : list CollectorConfig) (user : option CollectorConfig) :
    CollectorConfigSpec :=
  match user with
  | None => mkCCSpec None (teamRulesOf teams)
  | Some u =>
      mkCCSpec (ccs_CollectNamespaces (cc_Spec u))
        (teamRulesOf teams ++
         List.filter (λ r, negb (drops teams r)) (ccs_CollectionRules (cc_Spec u)))
  end.

Definition mergedSpecOf (teams : list CollectorConfig) (user : option CollectorConfig) :
    CollectorConfigSpec := user_spec (sort_by cc_Name teams) user.

(** The messages of the rules the merge drops. *)
Definition droppedMessagesOf (teams : list CollectorConfig) (u : CollectorConfig) : list string :=
  map droppedMessage (List.filter (drops teams) (ccs_CollectionRules (cc_Spec u))).

(** The spec of merged-collector-config that the requests of a trace last
    showed or stored; the step creates and updates no other config
    ([merge_guarantee]). *)
Definition merged_after (namespace : string) (st : option CollectorConfigSpec) (e : event) :
    option CollectorConfigSpec :=
  match e with
  | Ev q a =>
      match q in Api R return R → option CollectorConfigSpec with
      | Get KCollectorConfig n => λ a,
          if bool_decide (n = mkNN mergedCollectorConfigName namespace)
          then match a with Ok o => Some (cc_Spec o) | Err _ => None end else st
      | Create KCollectorConfig o => λ a,
          match a with Ok _ => Some (cc_Spec o) | Err _ => st end
      | Update KCollectorConfig o => λ a,
          match a with Ok _ => Some (cc_Spec o) | Err _ => st end
      | _ => λ _, st
      end a
  end.

Definition merged_spec_after (namespace : string) (t : list event) : option CollectorConfigSpec :=
  fold_left (merged_after namespace) t None.

(** A patch of a CollectorConfig answered with the spec it was sent. *)
Definition patch_keeps_spec (e : event) : Prop :=
  match e with
  | Ev q a =>
      match q in Api R return R → Prop with
      | Patch KCollectorConfig o => λ a,
          match a with Ok o' => cc_Spec o' = cc_Spec o | Err _ => True end
      | _ => λ _, True
      end a
  end.

Definition patch_keeps_specb (e : event) : bool :=
  match e with
  | Ev q a =>
      match q in Api R return R → bool with
      | Patch KCollectorConfig o => λ a,
          match a with Ok o' => bool_decide (cc_Spec o' = cc_Spec o) | Err _ => true end
      | _ => λ _, true
      end a
  end.

(** * Lemmas *)

Lemma patch_keeps_specb_all t : forallb patch_keeps_specb t = true → Forall patch_keeps_spec t.
Proof.
  intros H. apply Forall_forall. intros [R q a] He.
  rewrite forallb_elem in H. specialize (H _ He). clear He. revert a H.
  destruct q as [| | | |k o| | | | | | | | |]; try done. destruct k; try done.
  intros [o'|e]; [|done]. apply bool_decide_eq_true.
Qed.

Lemma rulesOverlap_spec a b : rulesOverlap a b = true ↔ overlap a b.
Proof.
  rewrite overlap_intersect. unfold rulesOverlap, setsIntersect.
  destruct (intersect_loop (rs_APIGroups a) (rs_APIGroups b)); cbn; naive_solver.
Qed.

Lemma excludeOverlaps_spec rule teams :
  excludeOverlapsIntegrationIncludes rule teams = true ↔
  ∃ tc teamRule, tc ∈ teams ∧ teamRule ∈ ccs_CollectionRules (cc_Spec tc) ∧
    is_include teamRule ∧ overlap (r_ResourceSelector rule) (r_ResourceSelector teamRule).
Proof.
  unfold excludeOverlapsIntegrationIncludes, is_include. rewrite existsb_elem.
  setoid_rewrite existsb_elem. split.
  - intros (tc & Htc & tr & Htr & H). exists tc, tr.
    destruct (String.eqb_spec (r_Action tr) ActionInclude); [|done].
    cbn [negb] in H. by rewrite rulesOverlap_spec in H.
  - intros (tc & tr & Htc & Htr & Ha & Ho). exists tc. split; [done|]. exists tr. split; [done|].
    rewrite Ha, String.eqb_refl. cbn [negb]. by apply rulesOverlap_spec.
Qed.

Lemma drops_spec teams rule :
  drops teams rule = true ↔
  is_exclude rule ∧ ∃ tc teamRule, tc ∈ teams ∧ teamRule ∈ ccs_CollectionRules (cc_Spec tc) ∧
    is_include teamRule ∧ overlap (r_ResourceSelector rule) (r_ResourceSelector teamRule).
Proof.
  unfold drops. by rewrite andb_true_iff, String.eqb_eq, excludeOverlaps_spec.
Qed.

(** Only the specs of the team configs matter. *)
Lemma drops_specs teams teams' rule :
  map cc_Spec teams = map cc_Spec teams' → drops teams rule = drops teams' rule.
Proof.
  unfold drops, excludeOverlapsIntegrationIncludes. intros Heq. f_equal.
  revert teams' Heq. induction teams as [|tc teams IH]; intros [|tc' teams']; try done.
  cbn. intros [= -> Heq]. by rewrite (IH teams' Heq).
Qed.

Lemma mergeUserRules_spec teams us rules msgs :
  mergeUserRules teams us rules msgs =
  (rules ++ List.filter (λ r, negb (drops teams r)) us,
   msgs ++ map droppedMessage (List.filter (drops teams) us)).
Proof.
  revert rules msgs. induction us as [|r us IH]; intros rules msgs; cbn.
  - by rewrite !app_nil_r.
  - destruct (drops teams r); cbn; rewrite IH; by rewrite <-app_assoc.
Qed.

Lemma teamRulesOf_cons tc teams :
  teamRulesOf (tc :: teams) = ccs_CollectionRules (cc_Spec tc) ++ teamRulesOf teams.
Proof. done. Qed.

Lemma elem_of_teamRulesOf r teams :
  r ∈ teamRulesOf teams ↔ ∃ tc, tc ∈ teams ∧ r ∈ ccs_CollectionRules (cc_Spec tc).
Proof.
  induction teams as [|tc teams IH]; [set_solver|].
  rewrite teamRulesOf_cons, elem_of_app, IH. setoid_rewrite elem_of_cons. naive_solver.
Qed.

Lemma exec_addBackupLabel cc t cc' e :
  exec (addBackupLabel cc) t (Done (cc', e)) →
  (∀ ns st, fold_left (merged_after ns) t st = st) ∧
  (e = None → Forall patch_keeps_spec t → cc_Spec cc' = cc_Spec cc).
Proof.
  unfold addBackupLabel. cbn zeta. intros He. exec_steps; simplify_eq; cbn.
  - done.
  - split; [done|]. by intros _ [Hp _]%Forall_cons.
  - done.
Qed.

Lemma exec_mergeTeams items rules seen t rules' seen' :
  exec (mergeTeams items rules seen) t (Done (Ok (rules', seen'))) →
  (∀ ns st, fold_left (merged_after ns) t st = st) ∧
  rules' = rules ++ teamRulesOf items ∧
  (Forall patch_keeps_spec t → map cc_Spec seen' = map cc_Spec seen ++ map cc_Spec items).
Proof.
  revert rules seen t. induction items as [|tc items IH]; intros rules seen t He; cbn in He.
  - exec_steps. simplify_eq. cbn. by rewrite !app_nil_r.
  - apply exec_bind in He as [([tc' e] & t1 & t2 & -> & Ha & He)|(w & _ & ?)]; [|done].
    apply exec_addBackupLabel in Ha as [Hst Hspec].
    destruct e as [e|]; [by exec_steps|].
    destruct (IH _ _ _ He) as (Hst2 & -> & Hmap). split_and!.
    + intros ns st. by rewrite fold_left_app, Hst, Hst2.
    + by rewrite teamRulesOf_cons, app_assoc.
    + intros [H1 H2]%Forall_app. rewrite (Hmap H2), map_app. cbn.
      by rewrite (Hspec eq_refl H1), <-app_assoc.
Qed.

(** The status of [o] says which user rules [ms] were not applied. *)
Definition reports `{StatusConditions} (o : CollectorConfig) (ms : list string) : Prop :=
  ∃ c, FindStatusCondition (cc_Conditions o) CollectorConfigConditionApplied = Some c ∧
    (c_Status c = ConditionTrue ↔ ms = []) ∧
    (c_Reason c = CollectorConfigReasonRulesSkipped ↔ ms ≠ []) ∧
    (ms ≠ [] → c_Message c = Join ms "; ").

(** What the user config contributes. *)
Definition user_answer (ns : string) (t : list event) (user : option CollectorConfig) : Prop :=
  match user with
  | Some u => Ev (Get KCollectorConfig (mkNN userCollectorConfigName ns)) (Ok u) ∈ t
  | None => ∃ e, IsNotFound e = true ∧
      Ev (Get KCollectorConfig (mkNN userCollectorConfigName ns)) (Err e) ∈ t
  end.

(** The config of that name as the last status the server accepted for it left it,
    and the requests that are no such write. *)
Definition status_of (n : NamespacedName) (st : option CollectorConfig) (e : event) : option CollectorConfig :=
  match e with
  | Ev q a =>
      match q in Api R return R → option CollectorConfig with
      | StatusUpdate KCollectorConfig o => λ a,
          match a with Ok _ => if bool_decide (obj_key KCollectorConfig o = n) then Some o else st | Err _ => st end
      | _ => λ _, st
      end a
  end.

Definition status_after (n : NamespacedName) (t : list event) : option CollectorConfig :=
  fold_left (status_of n) t None.

Definition no_status R (q : Api R) : Prop := match q with StatusUpdate _ _ => False | _ => True end.

(** One status is sent, to the config [n], and it reports the messages [ms]; it is the
    last one accepted, unless the server refused it. *)
Definition reported `{StatusConditions} (n : NamespacedName) (t : list event) (ms : list string) : Prop :=
  ∃ t1 o a t2, t = t1 ++ Ev (StatusUpdate KCollectorConfig o) a :: t2 ∧
    Forall (ev_ok no_status) (t1 ++ t2) ∧ obj_key KCollectorConfig o = n ∧ reports o ms ∧
    match a with Ok _ => status_after n t = Some o | Err _ => True end.

Definition userKey (ns : string) : NamespacedName := mkNN userCollectorConfigName ns.

Section merge_lemmas.
Context `{ControllerUtil} `{StatusConditionsLaws} `{SemanticEquality CollectorConfigSpec}.

Lemma status_after_split n t1 o a t2 :
  Forall (ev_ok no_status) (t1 ++ t2) → obj_key KCollectorConfig o = n →
  status_after n (t1 ++ Ev (StatusUpdate KCollectorConfig o) (Ok a) :: t2) = Some o.
Proof.
  intros [Ht1 Ht2]%Forall_app Hn. unfold status_after.
  assert (Hno : ∀ t st, Forall (ev_ok no_status) t → fold_left (status_of n) t st = st).
  { clear. intros t. induction t as [|[R q x] t IH]; intros st; [done|]. intros [Hq Ht]%Forall_cons.
    cbn [fold_left]. rewrite IH by done. by destruct q. }
  rewrite fold_left_app. cbn [fold_left status_of]. by rewrite bool_decide_eq_true_2, Hno.
Qed.

(** What comes before and after, if it sends no status. *)
Lemma reported_around n t1 t t2 ms :
  reported n t ms → Forall (ev_ok no_status) t1 → Forall (ev_ok no_status) t2 → reported n (t1 ++ t ++ t2) ms.
Proof.
  intros (s1 & o & a & s2 & -> & Hs & Hn & Hr & _) Ht1 Ht2. rewrite Forall_app in Hs. destruct Hs as [Hs1 Hs2].
  assert (Heq : t1 ++ (s1 ++ Ev (StatusUpdate KCollectorConfig o) a :: s2) ++ t2 =
    (t1 ++ s1) ++ Ev (StatusUpdate KCollectorConfig o) a :: (s2 ++ t2)) by (by rewrite <-!app_assoc).
  assert (Hno : Forall (ev_ok no_status) ((t1 ++ s1) ++ s2 ++ t2)) by (by rewrite !Forall_app).
  exists (t1 ++ s1), o, a, (s2 ++ t2). split_and!; [done..|]. destruct a as [o'|]; [|done].
  rewrite Heq. by apply status_after_split.
Qed.

Lemma exec_updateUserCCStatus u msgs t o :
  exec (updateUserCCStatus u msgs) t o →
  (∀ ns st, fold_left (merged_after ns) t st = st) ∧ reported (obj_key KCollectorConfig u) t msgs.
Proof.
  unfold updateUserCCStatus, call. cbn [bind].
  set (ok := (length msgs =? 0)%nat). cbn zeta.
  intros (now & t1 & -> & (r & t2 & -> & He)%exec_Op)%exec_Op.
  assert (t2 = []) as -> by (destruct r; by apply exec_Ret in He as [-> _]).
  split; [done|]. eexists [_], _, r, []. split; [reflexivity|]. split; [by repeat constructor|]. split; [done|].
  split; [|destruct r; [cbn; by rewrite bool_decide_eq_true_2|done]]. unfold reports.
  match goal with |- context [SetStatusCondition _ ?c] => set (cond := c) end.
  destruct (Find_SetStatusCondition (cc_Conditions u) cond) as (c & Hc & Hs & Hr & Hm).
  exists c. split; [exact Hc|]. rewrite Hs, Hr, Hm. unfold cond. cbn. unfold ok.
  destruct msgs; by cbn.
Qed.

Lemma addBackupLabel_status cc t cc' e :
  exec (addBackupLabel cc) t (Done (cc', e)) →
  Forall (ev_ok no_status) t ∧
  (e = None → Forall honest t → obj_key KCollectorConfig cc' = obj_key KCollectorConfig cc).
Proof.
  unfold addBackupLabel. cbn zeta. intros He. exec_steps; simplify_eq; (split; [by repeat constructor|]); try done.
  by intros _ [Hh _]%Forall_cons.
Qed.

Lemma issues_status_mergeTeams items rules seen : issues no_status (mergeTeams items rules seen).
Proof.
  revert rules seen. induction items as [|tc items IH]; intros rules seen; cbn [mergeTeams]; [apply issues_Ret|].
  unfold addBackupLabel. by issue_steps.
Qed.

Lemma issues_status_writeMerged inst ns spec : issues no_status (writeMerged inst ns spec).
Proof. unfold writeMerged. by issue_steps. Qed.

Lemma exec_mergeUser ns teams teams' t spec :
  map cc_Spec teams = map cc_Spec teams' →
  exec (mergeUser ns (teamRulesOf teams) teams') t (Done (Ok spec)) →
  (∀ st, fold_left (merged_after ns) t st = st) ∧
  ∃ user, user_answer ns t user ∧ spec = user_spec teams user ∧
    (∀ u, user = Some u →
       Forall honest t →
       reported (userKey ns) t (map droppedMessage (List.filter (drops teams) (ccs_CollectionRules (cc_Spec u))))).
Proof.
  intros Hspecs He. unfold mergeUser, call in He. cbn [bind] in He.
  assert (Hd : ∀ r, drops teams' r = drops teams r) by (intros r; symmetry; by apply drops_specs).
  apply exec_Op in He as ([u|e] & t1 & -> & He).
  - rewrite mergeUserRules_spec in He.
    apply exec_bind in He as [([u' e] & t2 & t3 & -> & Ha & He)|(w & _ & ?)]; [|done].
    pose proof (addBackupLabel_status _ _ _ _ Ha) as [Hno Hkey]. apply exec_addBackupLabel in Ha as [Hst _].
    destruct e as [e|]; [by exec_steps|].
    apply exec_bind in He as [(e & t4 & t5 & -> & Hu & He)|(w & _ & ?)]; [|done].
    apply exec_updateUserCCStatus in Hu as [Hst2 Hrep].
    apply exec_Ret in He as [-> [= ->]]. split.
    + intros st. cbn. by rewrite app_nil_r, fold_left_app, Hst, Hst2.
    + exists (Some u). split; [by left|]. split.
      * unfold user_spec. do 2 f_equal. apply List.filter_ext. intros r. by rewrite Hd.
      * intros ? [= <-] [Hu [Ht _]%Forall_app]%Forall_cons. cbn in Hu.
        rewrite app_nil_l, (List.filter_ext (drops teams') (drops teams) Hd), (Hkey eq_refl Ht), Hu in Hrep.
        apply (reported_around _ (_ :: t2) t4 []); [exact Hrep|by constructor|by apply Forall_nil].
  - destruct (IsNotFound e) eqn:Hn; [|by exec_steps]. exec_steps. simplify_eq.
    split; [done|]. exists None. split; [|done]. exists e. split; [done|]. by left.
Qed.

Lemma exec_writeMerged inst ns spec t :
  exec (writeMerged inst ns spec) t (Done stepOk) →
  ∀ st, fold_left (merged_after ns) t st = Some spec.
Proof.
  unfold writeMerged, call. cbn [bind]. intros He st.
  apply exec_Op in He as ([found|e] & t1 & -> & He); cbn.
  - rewrite bool_decide_eq_true_2 by done. destruct (DeepEqual _ _) eqn:Hd.
    + apply DeepEqual_spec in Hd as <-. by apply exec_Ret in He as [-> _].
    + cbn [bind] in He. apply exec_Op in He as ([o|e] & t2 & -> & He); step_done.
  - destruct (IsNotFound e); [|step_done].
    destruct (SetControllerReference _ _) as [meta|e']; [|step_done].
    cbn [bind] in He. apply exec_Op in He as ([o|e'] & t2 & -> & He); step_done.
Qed.

(** The whole step, when it succeeds. *)
Lemma exec_createOrUpdateMerged inst t :
  exec (createOrUpdateMergedCollectorConfig inst) t (Done stepOk) →
  Forall patch_keeps_spec t →
  let ns := s_Namespace inst in
  ∃ items user, Ev (List KCollectorConfig (teamListOptions ns)) (Ok items) ∈ t ∧
    user_answer ns t user ∧
    merged_spec_after ns t = Some (user_spec (sort_by cc_Name items) user) ∧
    (∀ u, user = Some u → Forall honest t → reported (userKey ns) t (droppedMessagesOf (sort_by cc_Name items) u)).
Proof.
  unfold createOrUpdateMergedCollectorConfig, call. cbn zeta. cbn [bind]. intros He Hp.
  apply exec_Op in He as ([items|e] & t1 & -> & He); [|step_done].
  apply Forall_cons in Hp as [_ Hp].
  apply exec_bind in He as [(m & t2 & t3 & -> & Ht & He)|(w & _ & ?)]; [|done].
  destruct m as [[rules teams']|e]; [|step_done].
  pose proof (issues_status_mergeTeams _ _ _ _ _ Ht) as Hno. apply exec_mergeTeams in Ht as (Hst & -> & Hmap).
  apply Forall_app in Hp as [Hp _]. specialize (Hmap Hp). cbn in Hmap. rewrite app_nil_l in He.
  apply exec_bind in He as [(s & t4 & t5 & -> & Hu & He)|(w & _ & ?)]; [|done].
  destruct s as [spec|e]; [|step_done].
  apply exec_mergeUser in Hu as (Hst2 & user & Hua & -> & Hrep); [|done].
  pose proof (issues_status_writeMerged _ _ _ _ _ He) as Hno2. apply exec_writeMerged with (st := None) in He.
  exists items, user. split_and!.
  - by left.
  - destruct user as [u|]; [set_solver|]. destruct Hua as (e & He' & Hin). exists e. set_solver.
  - unfold merged_spec_after. cbn. by rewrite !fold_left_app, Hst, Hst2.
  - intros u Hu [_ [_ [Ht4 _]%Forall_app]%Forall_app]%Forall_cons.
    apply (reported_around _ (_ :: t2) t4 t5); [by apply Hrep|by constructor|done].
Qed.
End merge_lemmas.

(** * What the step may write *)

Section guarantee.
Context `{ControllerUtil} `{StatusConditions} `{SemanticEquality CollectorConfigSpec}.
Context (inst : Search).

Let ns := s_Namespace inst.
Let merged := mkNN mergedCollectorConfigName ns.

(** The writes the step is allowed to make, given the answers before them:
    labelling a config for backup, the status of a config, creating the merged
    config after a not-found answer, and replacing the spec of the merged
    config the server returned by a different one. *)
Definition merge_guarantee (h : list event) R (q : Api R) : Prop :=
  match q with
  | Patch KCollectorConfig o => has_key (cc_Labels o) backupLabel = true
  | StatusUpdate KCollectorConfig _ => True
  | Create KCollectorConfig o =>
      (∃ e, Ev (Get KCollectorConfig merged) (Err e) ∈ h ∧ IsNotFound e = true) ∧
      SetControllerReference inst (newMeta mergedCollectorConfigName ns) = Ok (cc_Meta o)
  | Update KCollectorConfig o =>
      ∃ found, Ev (Get KCollectorConfig merged) (Ok found) ∈ h ∧
        o = cc_set_Spec (cc_Spec o) found ∧ cc_Spec found ≠ cc_Spec o
  | q => is_write q = false
  end.

Lemma wp_addBackupLabel h cc : wp_from merge_guarantee h (addBackupLabel cc) returns.
Proof.
  unfold addBackupLabel. cbn zeta. destruct (has_key _ _); [auto with search|].
  apply wp_call; [apply has_key_insert|]. intros [o|e]; auto with search.
Qed.

Lemma wp_updateUserCCStatus h u msgs :
  wp_from merge_guarantee h (updateUserCCStatus u msgs) returns.
Proof.
  unfold updateUserCCStatus. apply wp_call; [done|]. intros now.
  apply wp_call; [done|]. intros [o|e]; auto with search.
Qed.

Lemma wp_mergeTeams h items rules seen :
  wp_from merge_guarantee h (mergeTeams items rules seen) returns.
Proof.
  revert h rules seen. induction items as [|tc items IH]; intros h rules seen; [apply wp_Ret_returns|].
  apply wp_returns; [apply wp_addBackupLabel|]. intros h' [tc' [e|]]; [apply wp_Ret_returns|apply IH].
Qed.

Lemma wp_mergeUser h rules teams :
  wp_from merge_guarantee h (mergeUser ns rules teams) returns.
Proof.
  unfold mergeUser. apply wp_call; [done|]. intros [u|e]; [|destruct (IsNotFound e); auto with search].
  destruct (mergeUserRules _ _ _ _). apply wp_returns; [apply wp_addBackupLabel|]. intros h' [u' [e|]]; [auto with search|].
  apply wp_returns; [apply wp_updateUserCCStatus|]. auto with search.
Qed.

Lemma wp_writeMerged h spec :
  wp_from merge_guarantee h (writeMerged inst ns spec) returns.
Proof.
  unfold writeMerged. apply wp_call; [done|]. intros [found|e].
  - destruct (DeepEqual _ _) eqn:Hd; [auto with search|]. apply DeepEqual_false in Hd.
    apply wp_call; [exists found; set_solver|]. intros [o|e]; auto with search.
  - destruct (IsNotFound e) eqn:Hn; [|auto with search].
    destruct (SetControllerReference _ _) as [meta|e'] eqn:Hm; [|auto with search].
    apply wp_call; [|intros [o|e']; auto with search].
    split; [exists e; set_solver|done].
Qed.

Lemma wp_createOrUpdateMerged :
  wp merge_guarantee (createOrUpdateMergedCollectorConfig inst) returns.
Proof.
  apply wp_call; [done|]. intros [items|e]; [|auto with search].
  apply wp_returns; [apply wp_mergeTeams|]. intros h [[rules teams]|e]; [|auto with search].
  apply wp_returns; [apply wp_mergeUser|]. intros h' [spec|e]; [|auto with search].
  apply wp_writeMerged.
Qed.
End guarantee.

(** * Theorems *)

Section merge_theorems.
Context `{ControllerUtil} `{StatusConditionsLaws} `{SemanticEquality CollectorConfigSpec}.

(** C1: refinement of the merge. When the step reports success, and the
    backup-label patches returned the specs they were sent, the last
    merged-collector-config the server showed or stored carries the merge of
    the configs it listed and of the user config it returned: the rules of the
    team configs in name order, then the user rules that are not dropped, and
    the namespaces of the user config. What it creates or updates is always that
    config ([merge_guarantee]). *)
Theorem merged_config_refines inst t :
  exec (createOrUpdateMergedCollectorConfig inst) t (Done stepOk) →
  Forall patch_keeps_spec t →
  let ns := s_Namespace inst in
  ∃ items user, Ev (List KCollectorConfig (teamListOptions ns)) (Ok items) ∈ t ∧
    user_answer ns t user ∧
    merged_spec_after ns t = Some (mergedSpecOf items user) ∧
    ∀ t1 R (q : Api R) x t2, t = t1 ++ Ev q x :: t2 → merge_guarantee inst t1 R q.
Proof.
  intros He Hp. destruct (exec_createOrUpdateMerged inst t He Hp) as (items & user & ? & ? & ? & _).
  exists items, user. split_and!; [done..|]. intros t1 R q x t2 Ht.
  by eapply (wp_guarantee _ _ _ _ _ _ _ _ _ _ (wp_createOrUpdateMerged inst)).
Qed.

(** C28: no user rule is dropped silently. When the step succeeds and the server shows
    a user config, exactly one status is sent, that of the user config, and its
    Applied condition is True exactly when no rule was dropped and otherwise lists
    every dropped rule. If the server accepts it, it is the status of that config
    afterwards; that the server refuses it is logged only. *)
Theorem dropped_rules_reported inst t :
  exec (createOrUpdateMergedCollectorConfig inst) t (Done stepOk) →
  Forall patch_keeps_spec t → Forall honest t →
  let ns := s_Namespace inst in
  (∃ e, IsNotFound e = true ∧ Ev (Get KCollectorConfig (userKey ns)) (Err e) ∈ t) ∨
  ∃ items u, Ev (List KCollectorConfig (teamListOptions ns)) (Ok items) ∈ t ∧
    Ev (Get KCollectorConfig (userKey ns)) (Ok u) ∈ t ∧
    reported (userKey ns) t (droppedMessagesOf (sort_by cc_Name items) u).
Proof.
  intros He Hp Hh. destruct (exec_createOrUpdateMerged inst t He Hp) as (items & [u|] & Hl & Hu & _ & Hr).
  - right. exists items, u. eauto.
  - by left.
Qed.

(** The step makes no other write, in any execution, successful or not: a
    Create of the merged config follows a not-found answer and makes the Search
    the controller; an Update changes nothing but the spec of the config the
    server returned, and only when that spec differs. It always returns. *)
Theorem merge_writes_only inst t o :
  exec (createOrUpdateMergedCollectorConfig inst) t o →
  (∃ r, o = Done r) ∧
  ∀ t1 R (q : Api R) x t2, t = t1 ++ Ev q x :: t2 → merge_guarantee inst t1 R q.
Proof.
  intros He. split.
  - by apply (wp_exec _ _ _ _ _ (wp_createOrUpdateMerged inst) He).
  - intros t1 R q x t2 Ht. by eapply (wp_guarantee _ _ _ _ _ _ _ _ _ _ (wp_createOrUpdateMerged inst)).
Qed.
End merge_theorems.

(** The order in which the server lists the team configs does not matter:
    configs of one namespace have distinct names, and the merge sorts by name. *)
Theorem merge_order_independent items items' user :
  items ≡ₚ items' → NoDup (cc_Name <$> items) →
  mergedSpecOf items user = mergedSpecOf items' user.
Proof. intros Hp Hnd. unfold mergedSpecOf. by rewrite (sort_by_unique cc_Name items items'). Qed.

(** The user rules the merge keeps. *)
Lemma elem_of_keptRules items u rule :
  rule ∈ List.filter (λ r, negb (drops (sort_by cc_Name items) r)) (ccs_CollectionRules (cc_Spec u)) ↔
  rule ∈ ccs_CollectionRules (cc_Spec u) ∧
  (is_exclude rule → ∀ tc teamRule, tc ∈ items → teamRule ∈ ccs_CollectionRules (cc_Spec tc) →
     is_include teamRule → ¬ overlap (r_ResourceSelector rule) (r_ResourceSelector teamRule)).
Proof.
  rewrite !list_elem_of_In, filter_In, negb_true_iff, <-!list_elem_of_In, <-not_true_iff_false, drops_spec.
  setoid_rewrite elem_of_sort_by. naive_solver.
Qed.

(** The rules of the teams, in whatever order the configs are merged. *)
Lemma elem_of_sortedTeamRules items rule :
  rule ∈ teamRulesOf (sort_by cc_Name items) ↔ ∃ tc, tc ∈ items ∧ rule ∈ ccs_CollectionRules (cc_Spec tc).
Proof. rewrite elem_of_teamRulesOf. by setoid_rewrite elem_of_sort_by. Qed.

(** C2: users can narrow what is collected only where no integration needs it,
    and lose nothing else: a merged rule comes from a team config, or is a user
    rule that, if it excludes, overlaps no include rule of any team config;
    conversely every team rule and every such user rule is in the merge. *)
Theorem merged_rules_safe items u rule :
  rule ∈ ccs_CollectionRules (mergedSpecOf items (Some u)) ↔
  (∃ tc, tc ∈ items ∧ rule ∈ ccs_CollectionRules (cc_Spec tc)) ∨
  (rule ∈ ccs_CollectionRules (cc_Spec u) ∧
   (is_exclude rule → ∀ tc teamRule, tc ∈ items → teamRule ∈ ccs_CollectionRules (cc_Spec tc) →
      is_include teamRule → ¬ overlap (r_ResourceSelector rule) (r_ResourceSelector teamRule))).
Proof.
  unfold mergedSpecOf, user_spec. cbn [ccs_CollectionRules].
  by rewrite elem_of_app, elem_of_sortedTeamRules, elem_of_keptRules.
Qed.

(** The webhook and the merge agree: the webhook finds no conflict between a
    config and a list of integration configs exactly when the merge over that
    list drops none of its rules. *)
Theorem webhook_agrees_with_merge cc items :
  excludeConflicts cc items = [] ↔ droppedMessagesOf (sort_by cc_Name items) cc = [].
Proof.
  rewrite excludeConflicts_nil. unfold droppedMessagesOf.
  assert (Hnil : map droppedMessage (List.filter (drops (sort_by cc_Name items))
                   (ccs_CollectionRules (cc_Spec cc))) = [] ↔
                 ∀ r, r ∈ ccs_CollectionRules (cc_Spec cc) → drops (sort_by cc_Name items) r = false).
  { induction (ccs_CollectionRules (cc_Spec cc)) as [|r l IH]; cbn; [set_solver|].
    setoid_rewrite elem_of_cons. destruct (drops _ r) eqn:Hd; cbn; [|naive_solver].
    split; [done|]. intros H. rewrite (H r) in Hd; [done|by left]. }
  rewrite Hnil. setoid_rewrite <-not_true_iff_false. setoid_rewrite drops_spec.
  setoid_rewrite elem_of_sort_by. unfold is_exclude, is_include. naive_solver.
Qed.

(** * The theorems at concrete inputs *)

Lemma merged_config_refines_witness :
  let p := createOrUpdateMergedCollectorConfig sampleSearch in
  ∃ items user, merged_spec_after "ocm" (run_trace p ccServer) = Some (mergedSpecOf items user).
Proof.
  destruct (merged_config_refines sampleSearch
    (run_trace (createOrUpdateMergedCollectorConfig sampleSearch) ccServer)) as (items & user & _ & _ & H & _).
  - apply run_exec_eq. vm_compute. reflexivity.
  - apply patch_keeps_specb_all. vm_compute. reflexivity.
  - exists items, user. exact H.
Defined.

Lemma dropped_rules_reported_witness :
  let t := run_trace (createOrUpdateMergedCollectorConfig sampleSearch) ccServer in
  (∃ e, IsNotFound e = true ∧ Ev (Get KCollectorConfig (userKey "ocm")) (Err e) ∈ t) ∨
  ∃ items u, Ev (List KCollectorConfig (teamListOptions "ocm")) (Ok items) ∈ t ∧
    Ev (Get KCollectorConfig (userKey "ocm")) (Ok u) ∈ t ∧
    reported (userKey "ocm") t (droppedMessagesOf (sort_by cc_Name items) u).
Proof.
  apply (dropped_rules_reported sampleSearch).
  - apply run_exec_eq. vm_compute. reflexivity.
  - apply patch_keeps_specb_all. vm_compute. reflexivity.
  - apply honestb_sound. vm_compute. reflexivity.
Defined.

Lemma merge_writes_only_witness :
  ∃ r, run_outcome (createOrUpdateMergedCollectorConfig sampleSearch) ccServer = Done r.
Proof.
  exact (proj1 (merge_writes_only sampleSearch _ _
    (run_exec (createOrUpdateMergedCollectorConfig sampleSearch) ccServer))).
Defined.

Lemma merge_order_independent_witness :
  mergedSpecOf [teamB; teamA] (Some userMixed) = mergedSpecOf [teamA; teamB] (Some userMixed).
Proof.
  apply (merge_order_independent [teamB; teamA] [teamA; teamB]).
  - apply Permutation_swap.
  - apply (bool_decide_unpack _). vm_compute. exact I.
Defined.
