(* ===== verification/PostgresConfig.v ===== *)
(** [src/controllers/create_pgconfigmap.go]: the search-postgres ConfigMap, the
    merge of the user's PostgreSQL settings into it, and the hash that makes a
    change roll the database out.

    The scripts are the source's, with a backquote for every double quote
    ([ticks] puts them back). Parameter: the SHA-256 digest ([crypto/sha256]) as
    the list of its bytes. *)
From S2P Require Import Prelude GoStrings K8s V1alpha1 Effects Interfaces MemServer Fixtures Common.
From Stdlib Require Import Ascii NArith.

Local Open Scope search_scope.

(** * Texts *)

Definition defaultCustomConf : string := ticks "# Customizations appended to postgresql.conf.
".

(** [PostgresTLSConfig] (tlsconfig.go) *)
Record PostgresTLSConfig := mkPGTLS { SSLMinProtocolVersion : string; SSLCiphers : string }.

Definition postgresqlConf (pgTLS : PostgresTLSConfig) : string :=
  ticks "ssl = 'on'
ssl_cert_file = '/sslcert/tls.crt'
ssl_key_file = '/sslcert/tls.key'
ssl_min_protocol_version = '" +:+ SSLMinProtocolVersion pgTLS +:+ ticks "'
ssl_ciphers = '" +:+ SSLCiphers pgTLS +:+ ticks "'
max_parallel_workers_per_gather = '8'
statement_timeout = '60000'
logging_collector = 'false'".

Definition preStartScript : string := ticks "#!/bin/bash
set -euo pipefail
DATA_DIR=`/var/lib/pgsql/data`
echo `[INFO] Running before-start.sh pre-check...`
# Check if PG_VERSION exists
PG_VERSION_FILE=`$DATA_DIR/userdata/PG_VERSION`
if [[ -f `$PG_VERSION_FILE` ]]; then
   CURRENT_VERSION=$(cat `$PG_VERSION_FILE`)
   echo `[INFO] Detected existing PostgreSQL version: $CURRENT_VERSION`
else
   echo `[INFO] No existing PG_VERSION file found. Assuming fresh install.`
   CURRENT_VERSION=``
fi
# Determine version of Postgres in this container
INSTALL_VERSION=$(postgres -V | awk '{print $3}' | cut -d. -f1)
echo `[INFO] Container PostgreSQL version: $INSTALL_VERSION`
# Only clear data if versions mismatch
if [[ `$CURRENT_VERSION` != `` && `$CURRENT_VERSION` != `$INSTALL_VERSION` ]]; then
   echo `[INFO] PG_VERSION mismatch ($CURRENT_VERSION vs $INSTALL_VERSION). Clearing data directory...`
   # Remove all files including hidden ones
   # It's okay to delete this data because it will repopulate with fresh data from the collectors.
   rm -rf `$DATA_DIR`/* `$DATA_DIR`/.[!.]*
else
   echo `[INFO] PG_VERSION is up-to-date or no previous data. Keeping existing data.`
fi
echo `[INFO] Pre-check complete. Handing off to Postgres...`
".

Definition startScriptHead : string := ticks "psql -d search -U searchuser -c `CREATE SCHEMA IF NOT EXISTS search`
psql -d search -U searchuser -c `CREATE TABLE IF NOT EXISTS search.resources (uid TEXT PRIMARY KEY, cluster TEXT, data JSONB)`
psql -d search -U searchuser -c `CREATE TABLE IF NOT EXISTS search.edges (sourceId TEXT, sourceKind TEXT,destId TEXT,destKind TEXT,edgeType TEXT,cluster TEXT, PRIMARY KEY(sourceId, destId, edgeType))`
psql -d search -U searchuser -c `CREATE INDEX IF NOT EXISTS data_kind_idx ON search.resources USING GIN ((data -> 'kind'))`
psql -d search -U searchuser -c `CREATE INDEX IF NOT EXISTS data_namespace_idx ON search.resources USING GIN ((data -> 'namespace'))`
psql -d search -U searchuser -c `CREATE INDEX IF NOT EXISTS data_name_idx ON search.resources USING GIN ((data ->  'name'))`
psql -d search -U searchuser -c `CREATE INDEX IF NOT EXISTS data_cluster_idx ON search.resources USING btree (cluster)`
psql -d search -U searchuser -c `CREATE INDEX IF NOT EXISTS data_composite_idx ON search.resources USING GIN ((data -> '_hubClusterResource'::text), (data -> 'namespace'::text), (data -> 'apigroup'::text), (data -> 'kind_plural'::text))`
psql -d search -U searchuser -c `CREATE INDEX IF NOT EXISTS data_hubCluster_idx ON search.resources USING GIN ((data ->  '_hubClusterResource')) WHERE data ? '_hubClusterResource'`
psql -d search -U searchuser -c `CREATE INDEX IF NOT EXISTS edges_sourceid_idx ON search.edges USING btree (sourceid)`
psql -d search -U searchuser -c `CREATE INDEX IF NOT EXISTS edges_destid_idx ON search.edges USING btree (destid)`
psql -d search -U searchuser -c `CREATE INDEX IF NOT EXISTS edges_cluster_idx ON search.edges USING btree (cluster)`
psql -d search -U searchuser -f /opt/app-root/src/postgresql-start/postgresql.sql
".

Definition workMemQuery (work_mem : string) : string :=
  ticks "psql -d search -U searchuser -c `ALTER ROLE searchuser set work_mem='" +:+ work_mem +:+ ticks "'`".

Definition startScriptRoles : string := ticks "
psql -d search -U postgres \
  -v `READONLY_API_PASSWORD=$READONLY_API_PASSWORD` \
  -v `READONLY_MCP_PASSWORD=$READONLY_MCP_PASSWORD` << 'EOSQL'
SELECT NOT EXISTS (SELECT FROM pg_roles WHERE rolname = 'search_api_ro') AS create_api_role \gset
\if :create_api_role
  CREATE ROLE search_api_ro WITH LOGIN PASSWORD :'READONLY_API_PASSWORD';
\else
  ALTER ROLE search_api_ro WITH PASSWORD :'READONLY_API_PASSWORD';
\endif
SELECT NOT EXISTS (SELECT FROM pg_roles WHERE rolname = 'search_mcp_ro') AS create_mcp_role \gset
\if :create_mcp_role
  CREATE ROLE search_mcp_ro WITH LOGIN PASSWORD :'READONLY_MCP_PASSWORD';
\else
  ALTER ROLE search_mcp_ro WITH PASSWORD :'READONLY_MCP_PASSWORD';
\endif
GRANT USAGE ON SCHEMA search TO search_api_ro, search_mcp_ro;
GRANT SELECT ON search.resources TO search_api_ro, search_mcp_ro;
DO $$
BEGIN
  IF EXISTS (
    SELECT FROM information_schema.tables
    WHERE table_schema = 'search' AND table_name = 'edges'
  ) THEN
    EXECUTE 'GRANT SELECT ON search.edges TO search_api_ro, search_mcp_ro';
  END IF;
END $$;
ALTER DEFAULT PRIVILEGES IN SCHEMA search GRANT SELECT ON TABLES TO search_api_ro, search_mcp_ro;
EOSQL
".

Definition postgresqlSql : string := ticks "CREATE OR REPLACE FUNCTION search.intercluster_edges()
  RETURNS TRIGGER AS
$BODY$
BEGIN
IF (TG_OP = 'UPDATE')
THEN
  IF coalesce(NEW.data->>'_hostingSubscription','') <> coalesce(OLD.data->>'_hostingSubscription','')
  THEN
    DELETE FROM search.edges WHERE sourceid=OLD.uid OR destid=OLD.uid AND edgetype='interCluster';
  ELSE
    RETURN NEW;
  END IF;
END IF;
IF (TG_OP = 'INSERT') OR (TG_OP = 'UPDATE')
THEN
  IF NEW.data->>'_hostingSubscription' is not null
  THEN
    INSERT INTO search.edges(sourceid ,sourcekind,destid ,destkind ,edgetype ,cluster)
    SELECT NEW.uid AS sourceid, NEW.data ->> 'kind'::text AS sourcekind, res.uid AS destid,
      res.data ->> 'kind'::text AS destkind,'interCluster'::text AS edgetype, NEW.cluster
    FROM search.resources res
    WHERE data->>'kind' = 'Subscription' AND NEW.data->>'_hostingSubscription' is not null
    AND split_part(NEW.data ->> '_hostingSubscription'::text, '/'::text, 1) = res.data->>'namespace'
    AND split_part(NEW.data ->> '_hostingSubscription'::text, '/'::text, 2) = res.data->>'name'
    AND res.uid <> NEW.uid AND res.cluster <> NEW.cluster AND res.data ->> '_hostingSubscription' IS NULL
    ON CONFLICT (sourceid, destid, edgetype) DO NOTHING;
  ELSEIF NEW.data->>'_hostingSubscription' is null
  THEN
    INSERT INTO search.edges(sourceid ,sourcekind,destid ,destkind ,edgetype ,cluster)
    SELECT res.uid AS sourceid, res.data ->> 'kind'::text AS sourcekind, NEW.uid AS destid,
      NEW.data ->> 'kind'::text AS destkind, 'interCluster'::text AS edgetype, res.cluster
    FROM search.resources res
    WHERE res.data->>'kind' = 'Subscription'
    AND split_part(res.data ->> '_hostingSubscription'::text, '/'::text, 1) = NEW.data->>'namespace'
    AND split_part(res.data ->> '_hostingSubscription'::text, '/'::text, 2) = NEW.data->>'name'
    AND res.uid <> NEW.uid AND res.cluster <> NEW.cluster
    ON CONFLICT (sourceid, destid, edgetype) DO NOTHING;
  END IF;
  RETURN NEW;
ELSEIF (TG_OP = 'DELETE')
THEN
  DELETE FROM search.edges WHERE sourceid=OLD.uid OR destid=OLD.uid AND edgetype='interCluster';
  RETURN OLD;
END IF;
END;
$BODY$
language plpgsql;
DROP TRIGGER IF EXISTS resources_upsert on search.resources;
CREATE TRIGGER resources_upsert AFTER INSERT OR UPDATE ON search.resources FOR EACH ROW WHEN (NEW.data->>'kind' = 'Subscription') EXECUTE PROCEDURE search.intercluster_edges();
DROP TRIGGER IF EXISTS resources_delete on search.resources;
CREATE TRIGGER resources_delete AFTER DELETE ON search.resources FOR EACH ROW WHEN (OLD.data->>'kind' = 'Subscription') EXECUTE PROCEDURE search.intercluster_edges();
-- LISTEN/NOTIFY trigger for search-v2-api WebSocket subscription support.
-- Provisioned here so search-v2-api can connect with a read-only role (search_api_ro)
-- and does not require CREATE TRIGGER privilege on search.resources.
DROP TRIGGER IF EXISTS search_resources_notify_trigger ON search.resources;
DROP FUNCTION IF EXISTS search.notify_resources_change();
CREATE OR REPLACE FUNCTION search.notify_resources_change()
RETURNS trigger AS $$
DECLARE
    notification_payload json;
    new_data_json json;
    old_data_json json;
    new_data_size integer;
    old_data_size integer;
BEGIN
    -- NEW is NULL for DELETE and OLD is NULL for INSERT; OCTET_LENGTH(NULL) returns NULL,
    -- which is safe here because each branch only uses the size variable valid for its operation.
    new_data_size := OCTET_LENGTH(NEW.data::text);
    old_data_size := OCTET_LENGTH(OLD.data::text);
    IF TG_OP = 'DELETE' THEN
        new_data_json := NULL;
        IF old_data_size < 7000 THEN
            old_data_json := OLD.data;
        ELSE
            old_data_json := NULL;
        END IF;
    ELSEIF TG_OP = 'INSERT' THEN
        IF new_data_size < 7000 THEN
            new_data_json := NEW.data;
        ELSE
            new_data_json := NULL;
        END IF;
        old_data_json := NULL;
    ELSEIF TG_OP = 'UPDATE' THEN
        IF (new_data_size + old_data_size) < 7000 THEN
            new_data_json := NEW.data;
            old_data_json := OLD.data;
        ELSEIF old_data_size < 7000 THEN
            new_data_json := NULL;
            old_data_json := OLD.data;
        ELSE
            new_data_json := NULL;
            old_data_json := NULL;
        END IF;
    END IF;
    notification_payload := json_build_object(
        'operation', TG_OP,
        'uid', COALESCE(NEW.uid, OLD.uid),
        'cluster', COALESCE(NEW.cluster, OLD.cluster),
        'newData', new_data_json,
        'oldData', old_data_json,
        'timestamp', NOW()
    );
    IF OCTET_LENGTH(notification_payload::text) < 7500 THEN
        PERFORM pg_notify('search_resources_notify', notification_payload::text);
    END IF;
    IF TG_OP = 'DELETE' THEN
        RETURN OLD;
    ELSE
        RETURN NEW;
    END IF;
END;
$$ LANGUAGE plpgsql;
CREATE TRIGGER search_resources_notify_trigger
    AFTER INSERT OR UPDATE OR DELETE ON search.resources
    FOR EACH ROW
    EXECUTE FUNCTION search.notify_resources_change();
".

(** * The ConfigMap *)

Section postgres.
Context `{ControllerUtil}.

Definition postgresData (pgTLS : PostgresTLSConfig) (work_mem : string) : smap :=
  {[ "custom-postgresql.conf" := defaultCustomConf;
     "postgresql.conf" := postgresqlConf pgTLS;
     "postgresql-pre-start.sh" := preStartScript;
     "postgresql-start.sh" := startScriptHead +:+ workMemQuery work_mem +:+ startScriptRoles;
     "postgresql.sql" := postgresqlSql ]}.

(** [PostgresConfigmap] *)
Definition PostgresConfigmap (instance : Search) (pgTLS : PostgresTLSConfig) : prog ConfigMap :=
  let meta := set_Labels (Some {[ backupLabel := "" ]})
                (newMeta postgresConfigmapName (s_Namespace instance)) in
  work_mem <- GetDBConfigFromSearchCR instance "WORK_MEM" ;;
  Ret (mkConfigMap (withOwner instance meta) (Some (postgresData pgTLS work_mem))).
End postgres.

(** * Merging the existing ConfigMap *)

Definition confKey : string := "postgresql.conf".
Definition customKey : string := "custom-postgresql.conf".

(** The migrated customizations: the lines of the current file that the default
    file does not contain. *)
Definition migratedConf (current def : string) : string :=
  fold_left (λ acc line, if negb (Contains def line) then acc +:+ newline +:+ line else acc)
    (Split current nl) "# Customizations appended to postgresql.conf".

(** The assignments to [new.Data] that [UpdatePostgresConfigmap] makes, in order. *)
Definition postgresAssignments (existing new : option smap) : list (string * string) :=
  let currentPostgresConfig := get_str existing confKey in
  let customPostgresConfig := get_str existing customKey in
  let defaultPostgresConfig := get_str new confKey in
  if String.eqb customPostgresConfig "" &&
     negb (String.eqb currentPostgresConfig defaultPostgresConfig)
  then [(customKey, migratedConf currentPostgresConfig defaultPostgresConfig)]
  else
    (if negb (Contains defaultPostgresConfig customPostgresConfig)
     then [(confKey, defaultPostgresConfig +:+ newline +:+ customPostgresConfig)] else []) ++
    (if negb (String.eqb customPostgresConfig "")
     then [(customKey, customPostgresConfig)] else []).

(** [UpdatePostgresConfigmap]: the data of [new] afterwards; assigning to a nil
    map panics. *)
Definition UpdatePostgresConfigmap (existing new : option smap) : prog (option smap) :=
  match postgresAssignments existing new, new with
  | [], _ => Ret new
  | _ :: _, None => Panic "assignment to entry in nil map"
  | l, Some m => Ret (Some (fold_left (λ m kv, <[kv.1 := kv.2]> m) l m))
  end.

(** * The hash *)

(** [fmt.Sprintf("%x", bytes)] *)
Definition hexDigit (n : N) : ascii :=
  ascii_of_N (if (n <? 10)%N then 48 + n else 87 + n).
Fixpoint hexOf (bytes : list Byte.byte) : string :=
  match bytes with
  | [] => ""
  | b :: bs =>
      let n := Byte.to_N b in
      String (hexDigit (n / 16)) (String (hexDigit (n mod 16)) (hexOf bs))
  end.

(** [postgresConfigHash] *)
Definition postgresConfigHash (sha256 : string → list Byte.byte) (data : option smap) : string :=
  hexOf (take 8 (sha256 (get_str data confKey))).

(** * Specification: the data after one reconciliation *)

(** The data the reconciler stores for the default data [new], given the data
    the server holds. *)
Definition nextData (new : smap) (existing : option smap) : smap :=
  fold_left (λ m kv, <[kv.1 := kv.2]> m) (postgresAssignments existing (Some new)) new.

(** The lines of [s] are all lines of [t]. *)
Definition has_line (line s : string) : Prop := line ∈ Split s nl.

(** * Lemmas *)

Lemma UpdatePostgresConfigmap_Some existing new :
  UpdatePostgresConfigmap existing (Some new) = Ret (Some (nextData new existing)).
Proof. unfold UpdatePostgresConfigmap, nextData. by destruct (postgresAssignments _ _). Qed.

Section update.
Context (new : smap) (D c0 : string).
Hypothesis new_conf : new !! confKey = Some D.
Hypothesis new_custom : new !! customKey = Some c0.

Lemma get_conf_new : get_str (Some new) confKey = D.
Proof. unfold get_str. cbn. by rewrite new_conf. Qed.

(** The effective configuration for custom settings [c]. *)
Definition mergedConf (c : string) : string :=
  if Contains D c then D else D +:+ newline +:+ c.

Lemma nextData_migrate e :
  get_str e customKey = "" → get_str e confKey ≠ D →
  nextData new e = <[customKey := migratedConf (get_str e confKey) D]> new.
Proof.
  intros Hc Hn. unfold nextData, postgresAssignments. rewrite get_conf_new, Hc.
  by rewrite (proj2 (String.eqb_neq _ _) Hn).
Qed.

Lemma nextData_custom e c :
  get_str e customKey = c → c ≠ "" →
  nextData new e = <[customKey := c]> (<[confKey := mergedConf c]> new).
Proof.
  intros Hc Hn. unfold nextData, postgresAssignments, mergedConf. rewrite get_conf_new, Hc.
  rewrite (proj2 (String.eqb_neq _ _) Hn). cbn [andb negb].
  destruct (Contains D c); cbn; [|done]. by rewrite (insert_id new confKey D).
Qed.

Lemma nextData_fresh e :
  get_str e customKey = "" → get_str e confKey = D → nextData new e = new.
Proof.
  intros Hc Hn. unfold nextData, postgresAssignments. rewrite get_conf_new, Hc, Hn, !String.eqb_refl.
  cbn [andb negb]. by rewrite Contains_nil.
Qed.

Lemma get_custom_insert c m : get_str (Some (<[customKey := c]> m)) customKey = c.
Proof. unfold get_str. cbn. by rewrite lookup_insert_eq. Qed.

(** Custom settings, once there, are reproduced by every reconciliation. *)
Lemma nextData_stable c e :
  get_str e customKey = c → c ≠ "" → nextData new (Some (nextData new e)) = nextData new e.
Proof.
  intros Hc Hn. rewrite (nextData_custom e c Hc Hn). apply nextData_custom; [|done].
  apply get_custom_insert.
Qed.
End update.

Lemma migratedConf_nonempty cur def : migratedConf cur def ≠ "".
Proof.
  unfold migratedConf.
  assert (∀ l acc, acc ≠ "" → fold_left (λ acc line, if negb (Contains def line)
            then acc +:+ newline +:+ line else acc) l acc ≠ "") as H.
  { induction l as [|x l IH]; intros acc Ha; [done|]. cbn. apply IH.
    destruct (negb _); [|done]. by destruct acc. }
  by apply H.
Qed.

Lemma migratedConf_lines cur def line :
  line ∈ Split cur nl → Contains def line = false → Contains (migratedConf cur def) line = true.
Proof.
  unfold migratedConf. generalize "# Customizations appended to postgresql.conf".
  intros acc Hin Hd. revert acc. induction (Split cur nl) as [|x l IH]; [set_solver|]. cbn.
  apply elem_of_cons in Hin as [<-|Hin]; intros acc.
  - rewrite Hd. cbn [negb]. clear IH.
    assert (Ha : Contains (acc +:+ newline +:+ line) line = true).
    { apply Contains_spec. exists (acc +:+ newline), "". by rewrite append_nil_r, append_assoc. }
    revert Ha. generalize (acc +:+ newline +:+ line). induction l as [|y l IH]; intros a Ha; cbn; [done|].
    apply IH. destruct (negb _); [|done]. by apply Contains_append_l.
  - by apply IH.
Qed.

(** What is stored depends on the data the server holds only through its entries. *)
Lemma nextData_map_of new e e' : map_of e = map_of e' → nextData new e = nextData new e'.
Proof. unfold nextData, postgresAssignments, get_str. by intros ->. Qed.

Section rounds.
Context (new : smap) (D c0 : string).
Hypothesis new_conf : new !! confKey = Some D.
Hypothesis new_custom : new !! customKey = Some c0.
Hypothesis c0_nonempty : c0 ≠ "".

(** After one round there are custom settings. *)
Lemma nextData_has_custom existing : get_str (Some (nextData new existing)) customKey ≠ "".
Proof.
  destruct (decide (get_str existing customKey = "")) as [He|He].
  - destruct (decide (get_str existing confKey = D)) as [Hd|Hd].
    + rewrite (nextData_fresh new D new_conf existing) by done. unfold get_str. cbn. by rewrite new_custom.
    + rewrite (nextData_migrate new D new_conf existing) by done. rewrite get_custom_insert.
      apply migratedConf_nonempty.
  - rewrite (nextData_custom new D new_conf existing _ eq_refl He). by rewrite get_custom_insert.
Qed.

(** From then on the data is a fixpoint. *)
Lemma nextData_fixed e : get_str e customKey ≠ "" → nextData new (Some (nextData new e)) = nextData new e.
Proof. intros He. by apply (nextData_stable new D new_conf (get_str e customKey)). Qed.
End rounds.

(** * Theorems *)

(** C34: whatever the CR, the dbconfig ConfigMap or the API server say, the only
    part of the generated start script that depends on them is WORK_MEM, and it
    is a number with an optional unit, so no shell or SQL text can be smuggled
    into the script; building the ConfigMap changes nothing on the server. *)
Theorem start_script_sanitized `{ControllerUtil} instance tls t o :
  exec (PostgresConfigmap instance tls) t o →
  ∃ cm workMem, o = Done cm ∧ memory_size workMem ∧ read_only t ∧
    map_of (cm_Data cm) !! "postgresql-start.sh" =
      Some (startScriptHead +:+ workMemQuery workMem +:+ startScriptRoles).
Proof.
  unfold PostgresConfigmap. cbn zeta.
  intros [(v & t1 & t2 & -> & Hv & [-> ->]%exec_Ret)|(w & Hv & _)]%exec_bind.
  - apply exec_work_mem in Hv as (v' & [= ->] & Hm & Hr). eexists _, v'.
    rewrite app_nil_r. split_and!; [done..|]. cbn. unfold postgresData. by simplify_map_eq.
  - exfalso. by eapply exec_work_mem in Hv as (v' & ? & _).
Qed.

(** C32: whatever ConfigMap the server holds, reconciling its data against the
    same defaults reaches a fixpoint after at most two rounds, so the operator
    does not rewrite the ConfigMap (and roll the database out) for ever. *)
Theorem postgres_config_converges new D c0 existing :
  new !! confKey = Some D → new !! customKey = Some c0 → c0 ≠ "" →
  ∃ d1 d2, UpdatePostgresConfigmap existing (Some new) = Ret (Some d1) ∧
    UpdatePostgresConfigmap (Some d1) (Some new) = Ret (Some d2) ∧
    UpdatePostgresConfigmap (Some d2) (Some new) = Ret (Some d2).
Proof.
  intros HD Hc0 Hne. exists (nextData new existing), (nextData new (Some (nextData new existing))).
  rewrite !UpdatePostgresConfigmap_Some. split_and!; [done..|]. do 2 f_equal.
  apply (nextData_fixed new D HD). by apply (nextData_has_custom new D c0).
Qed.

(** C33: user settings survive. Non-empty custom settings are kept verbatim and
    the effective postgresql.conf is the default with them appended, unless it
    already contains them; a ConfigMap from before custom settings existed has
    every line the default does not contain moved to the custom settings. Every
    other entry is the operator's. *)
Theorem postgres_custom_preserved new D existing :
  new !! confKey = Some D →
  let cur := get_str existing confKey in
  let c := get_str existing customKey in
  ∃ d, UpdatePostgresConfigmap existing (Some new) = Ret (Some d) ∧
  (c ≠ "" → d !! customKey = Some c ∧ d !! confKey = Some (mergedConf D c)) ∧
  (c = "" → cur ≠ D → ∃ c', d !! customKey = Some c' ∧
     ∀ line, has_line line cur → Contains D line = false → Contains c' line = true) ∧
  (∀ k, k ≠ customKey → k ≠ confKey → d !! k = new !! k).
Proof.
  intros HD. cbn zeta. exists (nextData new existing).
  split; [apply UpdatePostgresConfigmap_Some|].
  assert (Hk : customKey ≠ confKey) by done.
  destruct (decide (get_str existing customKey = "")) as [He|He].
  - split; [done|]. destruct (decide (get_str existing confKey = D)) as [Hd|Hd].
    + split; [done|]. intros k _ _. by rewrite (nextData_fresh new D HD existing).
    + rewrite (nextData_migrate new D HD existing) by done. split.
      * intros _ _. rewrite lookup_insert_eq. eexists. split; [done|]. intros line. apply migratedConf_lines.
      * intros k Hk1 _. by rewrite lookup_insert_ne.
  - rewrite (nextData_custom new D HD existing _ eq_refl He). split_and!.
    + intros _. rewrite lookup_insert_eq, lookup_insert_ne by done. by rewrite lookup_insert_eq.
    + done.
    + intros k Hk1 Hk2. by rewrite !lookup_insert_ne.
Qed.

(** Emptying custom-postgresql.conf does not take the settings out: when the
    effective file still carries a line the default does not contain, the next
    reconciliation puts that line back into custom-postgresql.conf, and the one
    after makes it effective again. *)
Theorem emptied_custom_conf_returns new D existing line :
  new !! confKey = Some D →
  get_str existing customKey = "" →
  has_line line (get_str existing confKey) → Contains D line = false →
  ∃ d1 d2, UpdatePostgresConfigmap existing (Some new) = Ret (Some d1) ∧
    UpdatePostgresConfigmap (Some d1) (Some new) = Ret (Some d2) ∧
    Contains (get_str (Some d1) customKey) line = true ∧
    Contains (get_str (Some d2) confKey) line = true.
Proof.
  intros HD He Hl Hc. exists (nextData new existing), (nextData new (Some (nextData new existing))).
  rewrite !UpdatePostgresConfigmap_Some. split; [done|]. split; [done|].
  destruct (decide (get_str existing confKey = D)) as [Hd|Hd].
  { rewrite Hd in Hl. by rewrite (elem_of_Split_Contains D nl line Hl) in Hc. }
  rewrite (nextData_migrate new D HD existing) by done. rewrite get_custom_insert.
  set (c := migratedConf _ _).
  assert (Hcl : Contains c line = true) by by apply migratedConf_lines. split; [done|].
  rewrite (nextData_custom new D HD _ c); [|apply get_custom_insert|apply migratedConf_nonempty].
  unfold get_str. cbn. rewrite lookup_insert_ne, lookup_insert_eq by done. cbn.
  unfold mergedConf. destruct (Contains D c) eqn:Hdc.
  - by rewrite (Contains_trans D c line Hdc Hcl) in Hc.
  - apply Contains_spec in Hcl as (a' & b' & ->). apply Contains_spec.
    exists (D +:+ newline +:+ a'), b'. by rewrite !append_assoc.
Qed.

(** * The theorems at concrete inputs *)

Definition sampleTLS : PostgresTLSConfig := mkPGTLS "TLSv1.2" "HIGH".
Definition sampleConf : smap := postgresData sampleTLS "64MB".
(** What a cluster upgraded from a release without custom settings holds. *)
Definition oldData : option smap :=
  Some {[ confKey := postgresqlConf sampleTLS +:+ newline +:+ "max_connections = '400'" ]}.

Lemma start_script_sanitized_witness :
  ∃ cm workMem, run_outcome (PostgresConfigmap customSearch sampleTLS) ccServer = Done cm ∧
    memory_size workMem.
Proof.
  destruct (start_script_sanitized customSearch sampleTLS _ _
    (run_exec (PostgresConfigmap customSearch sampleTLS) ccServer)) as (cm & v & Hcm & Hm & _).
  exists cm, v. split; [exact Hcm|exact Hm].
Defined.

Lemma postgres_config_converges_witness :
  ∃ d1 d2, UpdatePostgresConfigmap oldData (Some sampleConf) = Ret (Some d1) ∧
    UpdatePostgresConfigmap (Some d1) (Some sampleConf) = Ret (Some d2) ∧
    UpdatePostgresConfigmap (Some d2) (Some sampleConf) = Ret (Some d2).
Proof.
  apply (postgres_config_converges sampleConf (postgresqlConf sampleTLS) defaultCustomConf).
  - vm_compute. reflexivity.
  - vm_compute. reflexivity.
  - vm_compute. discriminate.
Defined.

Lemma postgres_custom_preserved_witness :
  ∃ d, UpdatePostgresConfigmap oldData (Some sampleConf) = Ret (Some d) ∧
    d !! "postgresql.sql" = Some postgresqlSql.
Proof.
  destruct (postgres_custom_preserved sampleConf (postgresqlConf sampleTLS) oldData)
    as (d & Hd & _ & _ & Hk).
  - vm_compute. reflexivity.
  - exists d. split; [exact Hd|]. rewrite Hk by (vm_compute; discriminate). vm_compute. reflexivity.
Defined.

Lemma emptied_custom_conf_returns_witness :
  ∃ d1 d2, UpdatePostgresConfigmap oldData (Some sampleConf) = Ret (Some d1) ∧
    UpdatePostgresConfigmap (Some d1) (Some sampleConf) = Ret (Some d2) ∧
    Contains (get_str (Some d1) customKey) "max_connections = '400'" = true ∧
    Contains (get_str (Some d2) confKey) "max_connections = '400'" = true.
Proof.
  apply (emptied_custom_conf_returns sampleConf (postgresqlConf sampleTLS)).
  - vm_compute. reflexivity.
  - vm_compute. reflexivity.
  - unfold has_line. apply (bool_decide_unpack _). vm_compute. exact I.
  - vm_compute. reflexivity.
Defined.
