(* ===== verification/Seeder.v ===== *)
(** [src/controllers/create_integration_collectorconfigs.go] and
    [integration_collectorconfig_seeder.go]: applying the embedded integration
    CollectorConfigs once per operator process.

    Parameters: the embedded file system ([ReadDir], [ReadFile]), the YAML decoder
    ([Unmarshal]), whether a scheme was given ([schemeSet]), and the polling of
    [k8s.io/apimachinery/pkg/util/wait] ([Polling]). *)
From S2P Require Import Prelude GoStrings K8s V1alpha1 Effects Interfaces Common MemServer Fixtures.

Local Open Scope search_scope.

Definition OperatorName : string := "search-v2-operator".

Record DirEntry := mkEntry { de_Name : string; de_IsDir : bool }.

(** [hasControllerOwnerRef] (the owner is never nil here) *)
Definition hasControllerOwnerRef (m : ObjectMeta) (owner : Search) : bool :=
  if String.eqb (om_UID (s_Meta owner)) "" then true
  else existsb (λ ref, String.eqb (or_UID ref) (om_UID (s_Meta owner))) (om_OwnerReferences m).

(** [hasDesiredLabels]: a missing label of [found] reads as the empty string. *)
Definition hasDesiredLabels (found desired : CollectorConfig) : bool :=
  match cc_Labels found with
  | None => bool_decide (map_of (cc_Labels desired) = ∅)
  | Some _ =>
      forallb (λ '(k, v), String.eqb (get_str (cc_Labels found) k) v)
        (map_to_list (map_of (cc_Labels desired))) &&
      String.eqb (get_str (cc_Labels found) IntegrationTeamLabel) IntegrationTeamLabelValue
  end.

(** [wait.PollUntilContextCancel] with [immediate], for a condition function that
    answers no error. *)
Class Polling := { PollUntilContextCancel : prog bool → prog (option error) }.

(** Its documented behaviour: it runs the condition, again after each [false], until
    it answers [true], when there is no error, or the context ends, when there is;
    a panic of the condition is its own. *)
Inductive polled (condition : prog bool) : list event → outcome (option error) → Prop :=
| polled_cancelled err : polled condition [] (Done (Some err))
| polled_done t : exec condition t (Done true) → polled condition t (Done None)
| polled_panic t w : exec condition t (Crashed w) → polled condition t (Crashed w)
| polled_again t t' o :
    exec condition t (Done false) → polled condition t' o → polled condition (t ++ t') o.

Class PollingLaws `{Polling} := {
  PollUntilContextCancel_polled condition t o :
    exec (PollUntilContextCancel condition) t o → polled condition t o
}.

(** For the examples: the context ends after [n] attempts. *)
Fixpoint pollTimes (n : nat) (condition : prog bool) : prog (option error) :=
  match n with
  | 0 => Ret (Some (Errorf "context canceled"))
  | S n => done <- condition ;; if done then Ret None else pollTimes n condition
  end.

Lemma pollTimes_polled n condition t o : exec (pollTimes n condition) t o → polled condition t o.
Proof.
  revert t. induction n as [|n IH]; intros t; cbn [pollTimes]; [by intros [-> ->]%exec_Ret; constructor|].
  intros [(b & t1 & t2 & -> & Hc & He)|(w & Hc & ->)]%exec_bind; [|by constructor].
  destruct b; [|by eapply polled_again; [|apply IH]].
  apply exec_Ret in He as [-> ->]. rewrite app_nil_r. by constructor.
Qed.

Section seeder.
Context `{ControllerUtil} `{SemanticEquality CollectorConfigSpec}.
Context (schemeSet : bool).
Context (ReadDir : result (list DirEntry)) (ReadFile : string → result string).
Context (Unmarshal : string → result CollectorConfig).

(** The labels both branches give a config: those of the manifest over those it
    has, and the integration label. *)
Definition seededLabels (found : option smap) (desired : CollectorConfig) : smap :=
  <[IntegrationTeamLabel := IntegrationTeamLabelValue]> (map_of (cc_Labels desired) ∪ map_of found).

(** Set the owner reference when there is a scheme and the owner has a UID. *)
Definition seedOwner (owner : Search) (m : ObjectMeta) : result ObjectMeta :=
  if schemeSet && negb (String.eqb (om_UID (s_Meta owner)) "")
  then SetControllerReference owner m else Ok m.

(** The part of [applyOneIntegrationCollectorConfig] for a config that does not exist. *)
Definition createIntegrationConfig (owner : Search) (namespace : string) (desired : CollectorConfig) :
    prog (option error) :=
  let meta := set_Labels (Some (seededLabels None desired)) (newMeta (cc_Name desired) namespace) in
  match seedOwner owner meta with
  | Err e => Ret (Some e)
  | Ok meta =>
      c <- call (Create KCollectorConfig (mkCC meta (cc_Spec desired) [])) ;;
      match c with Ok _ => Ret None | Err e => Ret (Some e) end
  end.

(** The part for a config that exists. *)
Definition overwriteIntegrationConfig (owner : Search) (found desired : CollectorConfig) :
    prog (option error) :=
  if has_key (om_Annotations (cc_Meta found)) AnnotationManualOverride then Ret None
  else
    let hasAllLabels := hasDesiredLabels found desired in
    let hasOwnerRef := hasControllerOwnerRef (cc_Meta found) owner in
    if hasAllLabels && hasOwnerRef && DeepEqual (cc_Spec found) (cc_Spec desired) then Ret None
    else
      let meta := set_Labels (Some (seededLabels (cc_Labels found) desired)) (cc_Meta found) in
      match (if negb hasOwnerRef then seedOwner owner meta else Ok meta) with
      | Err e => Ret (Some e)
      | Ok meta =>
          u <- call (Update KCollectorConfig (mkCC meta (cc_Spec desired) (cc_Conditions found))) ;;
          match u with Ok _ => Ret None | Err e => Ret (Some e) end
      end.

(** [applyOneIntegrationCollectorConfig] *)
Definition applyOneIntegrationCollectorConfig (owner : Search) (namespace filename : string) :
    prog (option error) :=
  match ReadFile filename with
  | Err e => Ret (Some e)
  | Ok raw =>
      match Unmarshal raw with
      | Err e => Ret (Some e)
      | Ok desired =>
          if String.eqb (cc_Name desired) "" then Ret None
          else
            r <- call (Get KCollectorConfig (mkNN (cc_Name desired) namespace)) ;;
            match r with
            | Err e =>
                if IsNotFound e then createIntegrationConfig owner namespace desired else Ret (Some e)
            | Ok found => overwriteIntegrationConfig owner found desired
            end
      end
  end.

(** The loop over the entries, keeping the first error. *)
Fixpoint applyEntries (owner : Search) (namespace : string) (entries : list DirEntry)
    (firstErr : option error) : prog (option error) :=
  match entries with
  | [] => Ret firstErr
  | entry :: rest =>
      if de_IsDir entry then applyEntries owner namespace rest firstErr
      else
        e <- applyOneIntegrationCollectorConfig owner namespace (de_Name entry) ;;
        applyEntries owner namespace rest
          (match firstErr with Some _ => firstErr | None => e end)
  end.

(** [applyIntegrationCollectorConfigsFrom] *)
Definition applyIntegrationCollectorConfigsFrom (owner : Search) : prog (option error) :=
  match ReadDir with
  | Err e => Ret (Some e)
  | Ok entries => applyEntries owner (s_Namespace owner) (sort_by de_Name entries) None
  end.

(** * The seeder *)

Definition zeroSearch : Search :=
  mkSearch zeroMeta zeroSearchSpec (mkSearchStatus "" "" []).

(** The loop of [resolveSearch] over the listed CRs. *)
Fixpoint findSearch (items : list Search) (match_ : option Search) : result (option Search) :=
  match items with
  | [] => Ok match_
  | s :: rest =>
      if String.eqb (s_Name s) OperatorName then
        match match_ with
        | Some m =>
            Err (Errorf ("found multiple search CRs named " +:+ quoted OperatorName +:+
              " (namespaces " +:+ quoted (s_Namespace m) +:+ " and " +:+ quoted (s_Namespace s) +:+
              ") — refusing to guess which one to use"))
        | None => findSearch rest (Some s)
        end
      else findSearch rest match_
  end.

(** [resolveSearch]; [ns] is the seeder's [Namespace] field. *)
Definition resolveSearch (ns : string) : prog (result (Search * bool)) :=
  if negb (String.eqb ns "") then
    Ret (Ok (s_set_Meta (newMeta "" ns) zeroSearch, false))
  else
    r <- call (List KSearch (mkListOptions None ∅)) ;;
    match r with
    | Err e => Ret (Err e)
    | Ok items =>
        match findSearch items None with
        | Err e => Ret (Err e)
        | Ok None =>
            Ret (Err (Errorf ("search CR " +:+ quoted OperatorName +:+ " not found in any namespace")))
        | Ok (Some m) => Ret (Ok (m, IsPaused (s_Annotations m)))
        end
    end.

(** The condition function [Start] polls: whether seeding is done. *)
Definition attempt (ns : string) : prog bool :=
  r <- resolveSearch ns ;;
  match r with
  | Err _ => Ret false
  | Ok (searchCR, paused) =>
      if paused then Ret false
      else
        e <- applyIntegrationCollectorConfigsFrom searchCR ;;
        match e with Some _ => Ret false | None => Ret true end
  end.

End seeder.

(** * Specification *)

(** The config [o] has the spec and the labels of the shipped manifest [desired], the
    integration label, and the owner. *)
Definition as_shipped (owner : Search) (desired o : CollectorConfig) : Prop :=
  cc_Spec o = cc_Spec desired ∧
  (∀ k v, map_of (cc_Labels desired) !! k = Some v → k ≠ IntegrationTeamLabel →
     map_of (cc_Labels o) !! k = Some v) ∧
  map_of (cc_Labels o) !! IntegrationTeamLabel = Some IntegrationTeamLabelValue ∧
  hasControllerOwnerRef (cc_Meta o) owner = true.

(** The config [found] passes for the shipped manifest: it has the spec and the owner,
    and the labels but for those that are shipped with an empty value, which may be
    missing; a config without any label passes for a manifest without any. *)
Definition taken_as_shipped (owner : Search) (desired found : CollectorConfig) : Prop :=
  cc_Spec found = cc_Spec desired ∧ hasControllerOwnerRef (cc_Meta found) owner = true ∧
  match cc_Labels found with
  | None => map_of (cc_Labels desired) = ∅
  | Some m =>
      (∀ k v, map_of (cc_Labels desired) !! k = Some v → m !! k = Some v ∨ v = "" ∧ m !! k = None) ∧
      m !! IntegrationTeamLabel = Some IntegrationTeamLabelValue
  end.

(** The CollectorConfig a Get was answered with. *)
Definition got_cc (e : event) : option CollectorConfig :=
  match e with
  | Ev q a =>
      match q in Api R return R → option CollectorConfig with
      | Get KCollectorConfig _ => λ a, match a with Ok o => Some o | Err _ => None end
      | _ => λ _, None
      end a
  end.

(** The CollectorConfig an event writes. *)
Definition wrote_cc (e : event) : option CollectorConfig :=
  match e with
  | Ev q _ =>
      match q with
      | Create KCollectorConfig o | Update KCollectorConfig o => Some o
      | _ => None
      end
  end.

(** What the trace shows about the config of a manifest in a namespace: the server
    accepted it as shipped, or it was found under manual override or to pass. *)
Definition applied (owner : Search) (namespace : string) (desired : CollectorConfig) (t : list event) : Prop :=
  (∃ o o', Ev (Create KCollectorConfig o) (Ok o') ∈ t ∧ as_shipped owner desired o ∧
     obj_key KCollectorConfig o = mkNN (cc_Name desired) namespace) ∨
  ∃ found, Ev (Get KCollectorConfig (mkNN (cc_Name desired) namespace)) (Ok found) ∈ t ∧
    (has_key (om_Annotations (cc_Meta found)) AnnotationManualOverride = true ∨
     taken_as_shipped owner desired found ∨
     ∃ o o', Ev (Update KCollectorConfig o) (Ok o') ∈ t ∧ as_shipped owner desired o ∧
       obj_key KCollectorConfig o = obj_key KCollectorConfig found).

(** The manifests of the directory: regular files whose content parses to a named config. *)
Definition manifest (ReadDir : result (list DirEntry)) (ReadFile : string → result string)
    (Unmarshal : string → result CollectorConfig) (desired : CollectorConfig) : Prop :=
  ∃ entries entry raw, ReadDir = Ok entries ∧ entry ∈ entries ∧ de_IsDir entry = false ∧
    ReadFile (de_Name entry) = Ok raw ∧ Unmarshal raw = Ok desired ∧ cc_Name desired ≠ "".

(** * Lemmas *)

Lemma applied_mono owner ns d t1 t2 : applied owner ns d t1 → t1 ⊆ t2 → applied owner ns d t2.
Proof.
  intros Ha Ht. destruct Ha as [(o & o' & H & ?)|(f & H & Hf)].
  - left. exists o, o'. split; [by apply Ht|done].
  - right. exists f. split; [by apply Ht|]. destruct Hf as [?|[?|(o & o' & Ho & ?)]]; [by eauto..|].
    right; right. exists o, o'. split; [by apply Ht|done].
Qed.

(** What the seeder writes is as shipped. *)
Lemma seededLabels_shipped owner found desired m spec conds :
  om_Labels m = Some (seededLabels found desired) → spec = cc_Spec desired →
  hasControllerOwnerRef m owner = true → as_shipped owner desired (mkCC m spec conds).
Proof.
  intros Hm -> Ho. unfold as_shipped, cc_Labels. cbn [cc_Meta cc_Spec]. rewrite Hm. unfold seededLabels. cbn.
  split_and!; [done| |by rewrite lookup_insert_eq|done].
  intros k v Hk Hne. rewrite lookup_insert_ne by done. by rewrite (lookup_union_Some_l _ _ _ _ Hk).
Qed.

Lemma hasDesiredLabels_true found desired :
  hasDesiredLabels found desired = true ↔
  match cc_Labels found with
  | None => map_of (cc_Labels desired) = ∅
  | Some _ =>
      (∀ k v, map_of (cc_Labels desired) !! k = Some v → get_str (cc_Labels found) k = v) ∧
      get_str (cc_Labels found) IntegrationTeamLabel = IntegrationTeamLabelValue
  end.
Proof.
  unfold hasDesiredLabels. destruct (cc_Labels found) as [m|]; [|apply bool_decide_eq_true].
  rewrite andb_true_iff, String.eqb_eq, forallb_elem.
  assert (Heq : (∀ x, x ∈ map_to_list (map_of (cc_Labels desired)) →
                   (let '(k, v) := x in String.eqb (get_str (Some m) k) v) = true) ↔
                ∀ k v, map_of (cc_Labels desired) !! k = Some v → get_str (Some m) k = v).
  { split.
    - intros Hx k v Hk. apply String.eqb_eq. by apply (Hx (k, v)), elem_of_map_to_list.
    - intros Hx [k v] Hk%elem_of_map_to_list. apply String.eqb_eq. auto. }
  by rewrite Heq.
Qed.

(** A label read as the empty string may be missing. *)
Lemma get_str_value (m : smap) k v : get_str (Some m) k = v ↔ m !! k = Some v ∨ v = "" ∧ m !! k = None.
Proof. unfold get_str. cbn. destruct (m !! k); cbn; naive_solver. Qed.

(** The test of the code is exactly that. *)
Lemma taken_as_shipped_spec `{SemanticEquality CollectorConfigSpec} owner found desired :
  hasDesiredLabels found desired && hasControllerOwnerRef (cc_Meta found) owner &&
    DeepEqual (cc_Spec found) (cc_Spec desired) = true ↔ taken_as_shipped owner desired found.
Proof.
  rewrite !andb_true_iff, hasDesiredLabels_true, DeepEqual_spec. unfold taken_as_shipped.
  destruct (cc_Labels found) as [m|]; [|tauto]. setoid_rewrite get_str_value.
  assert (Hv : IntegrationTeamLabelValue ≠ "") by done. naive_solver.
Qed.

Section seeder_lemmas.
Context `{ControllerUtilLaws} `{SemanticEquality CollectorConfigSpec}.
Context (schemeSet : bool).
Context (ReadDir : result (list DirEntry)) (ReadFile : string → result string).
Context (Unmarshal : string → result CollectorConfig).

(** The owner reference changes nothing else of an object. *)
Lemma seedOwner_Ok owner m m' :
  seedOwner schemeSet owner m = Ok m' →
  om_Labels m' = om_Labels m ∧ om_Annotations m' = om_Annotations m ∧
  om_Name m' = om_Name m ∧ om_Namespace m' = om_Namespace m.
Proof.
  unfold seedOwner. destruct (schemeSet && _); [|by intros [= ->]].
  intros [-> _]%SetControllerReference_ok. done.
Qed.

Lemma seedOwner_ref owner m m' :
  schemeSet = true → seedOwner schemeSet owner m = Ok m' → hasControllerOwnerRef m' owner = true.
Proof.
  unfold seedOwner, hasControllerOwnerRef. intros ->.
  destruct (String.eqb _ ""); [done|]. cbn [andb negb].
  intros [_ Hex]%SetControllerReference_ok. apply existsb_elem.
  apply Exists_exists in Hex as (ref & Hr & Hu & _). exists ref. split; [done|]. by apply String.eqb_eq.
Qed.

Lemma exec_createIntegration owner ns desired t :
  schemeSet = true →
  exec (createIntegrationConfig schemeSet owner ns desired) t (Done None) → applied owner ns desired t.
Proof.
  unfold createIntegrationConfig. cbn zeta. intros Hsch.
  destruct (seedOwner _ _ _) as [m|e] eqn:Hm; [|by intros [_ ?]%exec_Ret].
  pose proof (seedOwner_ref _ _ _ Hsch Hm) as Ho. apply seedOwner_Ok in Hm as (Hl & _ & Hn & Hns).
  unfold call. cbn [bind]. intros (x & t' & -> & He)%exec_Op.
  destruct x as [o'|e]; apply exec_Ret in He as [-> ?]; [|done].
  left. eexists _, o'. split; [by left|]. split; [by apply (seededLabels_shipped owner None)|].
  unfold obj_key. cbn. by rewrite Hn, Hns.
Qed.

Lemma exec_overwriteIntegration owner ns found desired t :
  schemeSet = true →
  exec (overwriteIntegrationConfig schemeSet owner found desired) t (Done None) →
  applied owner ns desired (Ev (Get KCollectorConfig (mkNN (cc_Name desired) ns)) (Ok found) :: t).
Proof.
  unfold overwriteIntegrationConfig. intros Hsch He. right. exists found. split; [by left|].
  destruct (has_key _ _); [by left|]. right. cbn zeta in He.
  destruct (hasDesiredLabels found desired && _ && _) eqn:Hsame; [by left; apply taken_as_shipped_spec|].
  right. destruct (if negb _ then _ else _) as [m|e] eqn:Hm; [|by apply exec_Ret in He as [_ ?]].
  assert (Hfields : om_Labels m = Some (seededLabels (cc_Labels found) desired) ∧
                    om_Name m = om_Name (cc_Meta found) ∧ om_Namespace m = om_Namespace (cc_Meta found) ∧
                    hasControllerOwnerRef m owner = true).
  { destruct (hasControllerOwnerRef (cc_Meta found) owner) eqn:Ho; cbn [negb] in Hm; [by injection Hm as <-|].
    pose proof (seedOwner_ref _ _ _ Hsch Hm). by apply seedOwner_Ok in Hm as (? & _ & ? & ?). }
  destruct Hfields as (Hl & Hn & Hns & Ho).
  unfold call in He. cbn [bind] in He. apply exec_Op in He as (x & t' & -> & He).
  destruct x as [o'|e]; apply exec_Ret in He as [-> ?]; [|done].
  eexists _, o'. split; [right; by left|]. split; [by apply (seededLabels_shipped owner (cc_Labels found))|].
  unfold obj_key. cbn. by rewrite Hn, Hns.
Qed.

(** A manifest is looked up whatever happens, and applied when no error is returned. *)
Lemma exec_applyOne owner ns filename raw desired t o :
  schemeSet = true → ReadFile filename = Ok raw → Unmarshal raw = Ok desired → cc_Name desired ≠ "" →
  exec (applyOneIntegrationCollectorConfig schemeSet ReadFile Unmarshal owner ns filename) t o →
  (∃ a, Ev (Get KCollectorConfig (mkNN (cc_Name desired) ns)) a ∈ t) ∧
  (o = Done None → applied owner ns desired t).
Proof.
  unfold applyOneIntegrationCollectorConfig. intros Hsch -> -> Hn.
  rewrite (proj2 (String.eqb_neq _ _) Hn). unfold call. cbn [bind].
  intros (x & t' & -> & He)%exec_Op. split; [exists x; by left|]. intros ->.
  destruct x as [found|e].
  - by eapply exec_overwriteIntegration.
  - destruct (IsNotFound e); [|by apply exec_Ret in He as [_ ?]].
    apply exec_createIntegration in He; [|done]. eapply applied_mono; [exact He|]. set_solver.
Qed.

Lemma exec_applyEntries owner ns entries firstErr t o :
  schemeSet = true → exec (applyEntries schemeSet ReadFile Unmarshal owner ns entries firstErr) t o →
  ∀ entry raw desired, entry ∈ entries → de_IsDir entry = false →
    ReadFile (de_Name entry) = Ok raw → Unmarshal raw = Ok desired → cc_Name desired ≠ "" →
    (∃ e, o = Done e) →
    (∃ a, Ev (Get KCollectorConfig (mkNN (cc_Name desired) ns)) a ∈ t) ∧
    (o = Done None → applied owner ns desired t).
Proof.
  intros Hsch. revert firstErr t. induction entries as [|x entries IH]; intros firstErr t He entry raw desired Hin; [set_solver|].
  intros Hdir Hraw Hd Hn Ho. cbn in He. apply elem_of_cons in Hin as [<-|Hin].
  - rewrite Hdir in He.
    apply exec_bind in He as [(e & t1 & t2 & -> & Ha1 & Ha2)|(w & _ & ->)]; [|by destruct Ho].
    destruct (exec_applyOne owner ns _ raw desired t1 _ Hsch Hraw Hd Hn Ha1) as [[a Ha] Happ]. split.
    + exists a. set_solver.
    + intros ->. destruct e as [e|]; [|eapply applied_mono; [by apply Happ|by apply list_subseteq_app_l]].
      exfalso. clear -Ha2. assert (H3 : ∃ e', (match firstErr with Some _ => firstErr | None => Some e end) = Some e')
        by (destruct firstErr; eauto). destruct H3 as [e' He']. rewrite He' in Ha2. clear He'.
      revert t2 Ha2. induction entries as [|y l IH]; cbn; intros t2; [by intros [_ ?]%exec_Ret|].
      destruct (de_IsDir y); [apply IH|].
      intros [(e2 & t3 & t4 & -> & _ & H4)|(w & _ & ?)]%exec_bind; [by apply IH in H4|done].
  - destruct (de_IsDir x); [by eapply IH|].
    apply exec_bind in He as [(e & t1 & t2 & -> & _ & Ha2)|(w & _ & ->)]; [|by destruct Ho].
    destruct (IH _ _ Ha2 entry raw desired Hin Hdir Hraw Hd Hn Ho) as [[a Ha] Happ]. split.
    + exists a. set_solver.
    + intros Hnone. eapply applied_mono; [by apply Happ|by apply list_subseteq_app_r].
Qed.

Lemma findSearch_spec items m r :
  findSearch items m = Ok r →
  (m = None ∧ r = None ∧ List.filter (λ s, String.eqb (s_Name s) OperatorName) items = []) ∨
  (∃ s, r = Some s ∧
     (m = Some s ∧ List.filter (λ s, String.eqb (s_Name s) OperatorName) items = [] ∨
      m = None ∧ List.filter (λ s, String.eqb (s_Name s) OperatorName) items = [s])).
Proof.
  revert m. induction items as [|s items IH]; intros m; cbn.
  - intros [= <-]. destruct m as [s|]; [right; exists s; auto|by left].
  - destruct (String.eqb (s_Name s) OperatorName).
    + destruct m as [m|]; [done|]. intros [(? & _)|(s' & -> & [[[= <-] ->]|[? _]])]%IH; [done| |done].
      right. exists s. auto.
    + apply IH.
Qed.

(** The CR an attempt works for: the only Search of that name in the cluster,
    and not paused. *)
Definition sole_search (t : list event) (s : Search) : Prop :=
  ∃ o items, Ev (List KSearch o) (Ok items) ∈ t ∧
    List.filter (λ s, String.eqb (s_Name s) OperatorName) items = [s] ∧
    IsPaused (s_Annotations s) = false.

Lemma exec_attempt t o :
  exec (attempt schemeSet ReadDir ReadFile Unmarshal "") t o →
  (read_only t ∧ o = Done false) ∨
  ∃ s t1 t2, t = t1 ++ t2 ∧ read_only t1 ∧ sole_search t1 s ∧
    exec (e <- applyIntegrationCollectorConfigsFrom schemeSet ReadDir ReadFile Unmarshal s ;;
          match e with Some _ => Ret false | None => Ret true end) t2 o.
Proof.
  unfold attempt, resolveSearch, call. cbn [bind String.eqb negb].
  intros (x & t' & -> & He)%exec_Op.
  assert (Hro : ∀ R (q : Api R) a, is_write q = false → read_only [Ev q a]) by by repeat constructor.
  destruct x as [items|e]; cbn [bind] in He; [|left; apply exec_Ret in He as [-> ->]; by auto].
  destruct (findSearch items None) as [[s|]|e] eqn:Hf; cbn [bind] in He;
    [|left; apply exec_Ret in He as [-> ->]; by auto..].
  destruct (IsPaused _) eqn:Hp; [left; apply exec_Ret in He as [-> ->]; by auto|].
  apply findSearch_spec in Hf as [(_ & ? & _)|(s' & [= <-] & [[? _]|[_ Hf]])]; [done..|].
  right. exists s, [Ev (List KSearch (mkListOptions None ∅)) (Ok items)], t'. split_and!; [done|by auto| |done].
  eexists _, items. split; [by left|]. done.
Qed.

Lemma exec_apply owner t o :
  schemeSet = true →
  exec (applyIntegrationCollectorConfigsFrom schemeSet ReadDir ReadFile Unmarshal owner) t o →
  (∃ e, o = Done e) →
  ∀ desired, manifest ReadDir ReadFile Unmarshal desired →
    (∃ a, Ev (Get KCollectorConfig (mkNN (cc_Name desired) (s_Namespace owner))) a ∈ t) ∧
    (o = Done None → applied owner (s_Namespace owner) desired t).
Proof.
  intros Hsch He Ho desired (entries & entry & raw & Hdir & Hin & Hf & Hr & Hu & Hn).
  unfold applyIntegrationCollectorConfigsFrom in He. rewrite Hdir in He.
  eapply exec_applyEntries; [exact Hsch|exact He|by apply elem_of_sort_by|done..].
Qed.
End seeder_lemmas.

(** * Theorems *)

Section seeder_one.
Context `{ControllerUtilLaws} `{SemanticEquality CollectorConfigSpec}.
Context (schemeSet : bool) (ReadFile : string → result string).
Context (Unmarshal : string → result CollectorConfig).

Let applyOne := applyOneIntegrationCollectorConfig schemeSet ReadFile Unmarshal.

Lemma applyOne_returns owner ns f : wp no_guarantee (applyOne owner ns f) returns.
Proof.
  unfold applyOne, applyOneIntegrationCollectorConfig, wp.
  destruct (ReadFile f) as [raw|]; [|auto with search].
  destruct (Unmarshal raw) as [d|]; [|auto with search].
  destruct (String.eqb _ _); [auto with search|]. apply wp_call; [done|]. intros [found|e].
  - unfold overwriteIntegrationConfig. destruct (has_key _ _); [auto with search|]. cbn zeta.
    destruct (hasDesiredLabels _ _ && _ && _); [auto with search|].
    destruct (if negb _ then _ else _); [|auto with search].
    apply wp_call; [done|]. intros []; auto with search.
  - destruct (IsNotFound e); [|auto with search]. unfold createIntegrationConfig. cbn zeta.
    destruct (seedOwner _ _ _); [|auto with search].
    apply wp_call; [done|]. intros []; auto with search.
Qed.

(** After its first request, [applyOne] asks for no object. *)
Lemma exec_overwrite_no_get owner found d t o e :
  exec (overwriteIntegrationConfig schemeSet owner found d) t o → e ∈ t → got_cc e = None.
Proof.
  unfold overwriteIntegrationConfig. cbn zeta. intros He Hin.
  exec_steps; try set_solver; by apply list_elem_of_singleton in Hin as ->.
Qed.

Lemma exec_create_no_get owner ns d t o e :
  exec (createIntegrationConfig schemeSet owner ns d) t o → e ∈ t → got_cc e = None.
Proof.
  unfold createIntegrationConfig. cbn zeta. intros He Hin.
  exec_steps; try set_solver; by apply list_elem_of_singleton in Hin as ->.
Qed.

(** What [applyOne] does when it is shown a config. *)
Lemma exec_applyOne_found owner ns filename t o found e :
  exec (applyOne owner ns filename) t o → e ∈ t → got_cc e = Some found →
  ∃ raw d t', ReadFile filename = Ok raw ∧ Unmarshal raw = Ok d ∧
    t = Ev (Get KCollectorConfig (mkNN (cc_Name d) ns)) (Ok found) :: t' ∧
    exec (overwriteIntegrationConfig schemeSet owner found d) t' o.
Proof.
  unfold applyOne, applyOneIntegrationCollectorConfig. intros He Hin Hg.
  destruct (ReadFile filename) as [raw|]; [|apply exec_Ret in He as [-> _]; set_solver].
  destruct (Unmarshal raw) as [d|] eqn:Hd; [|apply exec_Ret in He as [-> _]; set_solver].
  destruct (String.eqb _ _); [apply exec_Ret in He as [-> _]; set_solver|].
  unfold call in He. cbn [bind] in He. apply exec_Op in He as (x & t' & -> & He).
  apply elem_of_cons in Hin as [->|Hin].
  - cbn in Hg. destruct x as [f|]; [injection Hg as ->|done]. by exists raw, d, t'.
  - destruct x as [f|err].
    + by rewrite (exec_overwrite_no_get _ _ _ _ _ _ He Hin) in Hg.
    + destruct (IsNotFound err); [|apply exec_Ret in He as [-> _]; set_solver].
      by rewrite (exec_create_no_get _ _ _ _ _ _ He Hin) in Hg.
Qed.

(** A config annotated for manual override is left alone, whatever else
    differs from the shipped manifest. *)
Theorem manual_override_respected owner ns filename t o n found :
  exec (applyOne owner ns filename) t o →
  Ev (Get KCollectorConfig n) (Ok found) ∈ t →
  has_key (om_Annotations (cc_Meta found)) AnnotationManualOverride = true →
  read_only t ∧ o = Done None.
Proof.
  intros He Hin Hov.
  destruct (exec_applyOne_found _ _ _ _ _ _ _ He Hin eq_refl) as (raw & d & t' & _ & _ & -> & Ho).
  unfold overwriteIntegrationConfig in Ho. rewrite Hov in Ho. apply exec_Ret in Ho as [-> ->].
  split; [by repeat constructor|done].
Qed.

(** The config a run writes satisfies every test of the next run. *)
Lemma written_passes owner found d m spec conds :
  schemeSet = true →
  (∀ v, map_of (cc_Labels d) !! IntegrationTeamLabel = Some v → v = IntegrationTeamLabelValue) →
  om_Labels m = Some (seededLabels found d) → spec = cc_Spec d →
  hasControllerOwnerRef m owner = true →
  exec (overwriteIntegrationConfig schemeSet owner (mkCC m spec conds) d) [] (Done None).
Proof.
  intros Hs Hi Hl -> Ho. unfold overwriteIntegrationConfig. destruct (has_key _ _); [constructor|].
  cbn zeta. cbn [cc_Meta cc_Spec]. rewrite Ho, DeepEqual_refl.
  assert (hasDesiredLabels (mkCC m (cc_Spec d) conds) d = true) as ->; [|constructor].
  apply hasDesiredLabels_true. unfold cc_Labels at 1. cbn [cc_Meta]. rewrite Hl.
  unfold cc_Labels at 2 3. cbn [cc_Meta]. rewrite Hl. unfold get_str, seededLabels. cbn. split.
  - intros k v Hk. destruct (decide (k = IntegrationTeamLabel)) as [->|Hne].
    + rewrite lookup_insert_eq. cbn. symmetry. by apply Hi.
    + rewrite lookup_insert_ne by done. by rewrite (lookup_union_Some_l _ _ _ _ Hk).
  - by rewrite lookup_insert_eq.
Qed.

(** What a run writes for the manifest [d]. *)
Lemma exec_applyOne_wrote owner ns filename raw d t o e written :
  schemeSet = true → ReadFile filename = Ok raw → Unmarshal raw = Ok d →
  exec (applyOne owner ns filename) t o → e ∈ t → wrote_cc e = Some written →
  ∃ m found conds, written = mkCC m (cc_Spec d) conds ∧ om_Labels m = Some (seededLabels found d) ∧
    hasControllerOwnerRef m owner = true.
Proof.
  unfold applyOne, applyOneIntegrationCollectorConfig. intros Hs -> -> He Hin Hw.
  destruct (String.eqb _ _); [apply exec_Ret in He as [-> _]; set_solver|].
  unfold call in He. cbn [bind] in He. apply exec_Op in He as (x & t' & -> & He).
  apply elem_of_cons in Hin as [->|Hin]; [done|]. destruct x as [found|err].
  - unfold overwriteIntegrationConfig in He. cbn zeta in He.
    destruct (has_key _ _); [apply exec_Ret in He as [-> _]; set_solver|].
    destruct (_ && _ && _); [apply exec_Ret in He as [-> _]; set_solver|].
    destruct (if negb _ then _ else _) as [m|] eqn:Hm; [|apply exec_Ret in He as [-> _]; set_solver].
    exists m, (cc_Labels found), (cc_Conditions found).
    assert (om_Labels m = Some (seededLabels (cc_Labels found) d) ∧
            hasControllerOwnerRef m owner = true) as Hm'.
    { destruct (hasControllerOwnerRef (cc_Meta found) owner) eqn:Ho; cbn [negb] in Hm;
        [by injection Hm as <-|].
      split; [by apply seedOwner_Ok in Hm as (-> & _)|by eapply seedOwner_ref]. }
    split; [|exact Hm']. clear Hs. exec_steps; apply list_elem_of_singleton in Hin as ->; by injection Hw as <-.
  - destruct (IsNotFound err); [|apply exec_Ret in He as [-> _]; set_solver].
    unfold createIntegrationConfig in He. cbn zeta in He.
    destruct (seedOwner _ _ _) as [m|] eqn:Hm; [|apply exec_Ret in He as [-> _]; set_solver].
    exists m, None, [].
    assert (om_Labels m = Some (seededLabels None d) ∧ hasControllerOwnerRef m owner = true) as Hm'.
    { split; [by apply seedOwner_Ok in Hm as (-> & _)|by eapply seedOwner_ref]. }
    split; [|exact Hm']. clear Hs. exec_steps; apply list_elem_of_singleton in Hin as ->; by injection Hw as <-.
Qed.

(** Seeding is idempotent: when the server shows the very config an earlier
    run wrote for a manifest, the next run writes nothing and succeeds. *)
Theorem seeding_idempotent owner ns filename raw d t1 o1 e1 written t2 o2 e2 :
  schemeSet = true → ReadFile filename = Ok raw → Unmarshal raw = Ok d →
  (∀ v, map_of (cc_Labels d) !! IntegrationTeamLabel = Some v → v = IntegrationTeamLabelValue) →
  exec (applyOne owner ns filename) t1 o1 → e1 ∈ t1 → wrote_cc e1 = Some written →
  exec (applyOne owner ns filename) t2 o2 → e2 ∈ t2 → got_cc e2 = Some written →
  read_only t2 ∧ o2 = Done None.
Proof.
  intros Hs Hr Hu Hi Ha1 Hin1 Hw Ha2 Hin2 Hg.
  destruct (exec_applyOne_wrote _ _ _ _ _ _ _ _ _ Hs Hr Hu Ha1 Hin1 Hw)
    as (m & found & conds & -> & Hl & Ho).
  destruct (exec_applyOne_found _ _ _ _ _ _ _ Ha2 Hin2 Hg) as (raw' & d' & t' & Hr' & Hu' & -> & He).
  rewrite Hr in Hr'. injection Hr' as <-. rewrite Hu in Hu'. injection Hu' as <-.
  assert (Hp := written_passes owner found d m (cc_Spec d) conds Hs Hi Hl eq_refl Ho).
  assert (t' = [] ∧ o2 = Done None) as [-> ->].
  { revert He Hp. unfold overwriteIntegrationConfig. cbn zeta.
    destruct (has_key _ _); [by intros [-> ->]%exec_Ret|].
    destruct (_ && _ && _); [by intros [-> ->]%exec_Ret|].
    destruct (if negb _ then _ else _); [|by intros _ [_ ?]%exec_Ret].
    unfold call. cbn [bind]. by intros _ (? & ? & ? & _)%exec_Op. }
  split; [by repeat constructor|done].
Qed.

(** A label the manifest ships with an empty value (such as the backup label
    of every shipped config) is not restored when it is removed from the live
    config: if nothing else differs the config counts as up to date, because a
    missing label reads as the empty string. *)
Theorem removed_empty_label_not_restored owner ns filename raw d t o e found k :
  ReadFile filename = Ok raw → Unmarshal raw = Ok d →
  map_of (cc_Labels d) !! k = Some "" → k ≠ IntegrationTeamLabel →
  cc_Labels found = Some (delete k (seededLabels None d)) →
  (∀ v, map_of (cc_Labels d) !! IntegrationTeamLabel = Some v → v = IntegrationTeamLabelValue) →
  cc_Spec found = cc_Spec d → hasControllerOwnerRef (cc_Meta found) owner = true →
  exec (applyOne owner ns filename) t o → e ∈ t → got_cc e = Some found →
  has_key (cc_Labels found) k = false ∧ read_only t ∧ o = Done None.
Proof.
  intros Hr Hu Hk Hne Hl Hi Hs Ho He Hin Hg.
  split; [rewrite Hl; apply has_key_false; cbn; by rewrite lookup_delete_eq|].
  destruct (exec_applyOne_found _ _ _ _ _ _ _ He Hin Hg) as (raw' & d' & t' & Hr' & Hu' & -> & He').
  rewrite Hr in Hr'. injection Hr' as <-. rewrite Hu in Hu'. injection Hu' as <-.
  assert (hasDesiredLabels found d = true) as Hh.
  { apply hasDesiredLabels_true. rewrite Hl. unfold get_str, seededLabels. cbn. split.
    - intros k' v Hk'. destruct (decide (k = k')) as [<-|Hkk].
      + rewrite lookup_delete_eq. cbn. congruence.
      + rewrite lookup_delete_ne by done. destruct (decide (k' = IntegrationTeamLabel)) as [->|Hk2].
        * rewrite lookup_insert_eq. cbn. symmetry. by apply Hi.
        * rewrite lookup_insert_ne by done. by rewrite (lookup_union_Some_l _ _ _ _ Hk').
    - rewrite lookup_delete_ne by done. by rewrite lookup_insert_eq. }
  unfold overwriteIntegrationConfig in He'. rewrite Hh, Ho, Hs, DeepEqual_refl in He'.
  cbn [andb] in He'.
  destruct (has_key _ _); apply exec_Ret in He' as [-> ->]; (split; [by repeat constructor|done]).
Qed.

End seeder_one.

Section seeder_theorems.
Context `{ControllerUtilLaws} `{SemanticEquality CollectorConfigSpec}.
Context (schemeSet : bool).
Context (ReadDir : result (list DirEntry)) (ReadFile : string → result string).
Context (Unmarshal : string → result CollectorConfig).

Let applyAll := applyIntegrationCollectorConfigsFrom schemeSet ReadDir ReadFile Unmarshal.
Let attempt' := attempt schemeSet ReadDir ReadFile Unmarshal "".

Lemma applyAll_returns owner : wp no_guarantee (applyAll owner) returns.
Proof.
  unfold applyAll, applyIntegrationCollectorConfigsFrom.
  destruct ReadDir as [entries|e]; [|apply wp_Ret_returns].
  assert (Hl : ∀ l h fe, wp_from no_guarantee h
    (applyEntries schemeSet ReadFile Unmarshal owner (s_Namespace owner) l fe) returns).
  { induction l as [|x l IH]; intros h fe; cbn; [by exists fe|].
    destruct (de_IsDir x); [apply IH|]. apply wp_returns; [|intros; apply IH].
    eapply wp_history; [done|apply applyOne_returns]. }
  apply Hl.
Qed.

(** C30: nothing is written unless the cluster has exactly one Search CR of the
    operator's name and it is not paused: every write of a seeding attempt
    follows a listing that shows this; otherwise the attempt only reads and asks
    to be retried. *)
Theorem seeder_guarded t o :
  exec attempt' t o →
  (read_only t ∧ o = Done false) ∨
  ∃ s t1 t2, t = t1 ++ t2 ∧ read_only t1 ∧ sole_search t1 s.
Proof.
  intros He. destruct (exec_attempt _ _ _ _ t o He) as [?|(s & t1 & t2 & -> & ? & ? & _)]; [by left|].
  right. by exists s, t1, t2.
Qed.

(** C29: applying the embedded configs always returns, and every named manifest
    is looked up on the server even when other files cannot be read, parsed or
    written. When no error is reported each of them was accepted by the server with
    the spec, the labels and the owner that are shipped, or was found under manual
    override, or was found with the shipped spec and owner and with the shipped
    labels, of which those with an empty value may be missing: of them the seeder
    does not notice that they are gone. *)
Theorem seeder_applies_all owner t o :
  schemeSet = true → exec (applyAll owner) t o →
  ∃ e, o = Done e ∧
    ∀ desired, manifest ReadDir ReadFile Unmarshal desired →
      (∃ a, Ev (Get KCollectorConfig (mkNN (cc_Name desired) (s_Namespace owner))) a ∈ t) ∧
      (e = None → applied owner (s_Namespace owner) desired t).
Proof.
  intros Hsch He. destruct (wp_exec _ _ _ _ _ (applyAll_returns owner) He) as [e ->].
  exists e. split; [done|]. intros desired Hm.
  destruct (exec_apply schemeSet _ _ _ owner t _ Hsch He (ex_intro _ e eq_refl) desired Hm) as [? Ha].
  split; [done|]. intros ->. by apply Ha.
Qed.






End seeder_theorems.

(** * The theorems at concrete inputs *)

Definition shippedLabels : option smap :=
  Some {[ IntegrationTeamLabel := IntegrationTeamLabelValue; backupLabel := "" ]}.
Definition argoManifest : CollectorConfig :=
  mkCC (set_Labels shippedLabels (newMeta "argo-integration" ""))
    (mkCCSpec None [includeRule ["argoproj.io"] ["Application"]]) [].

(** A directory with an unreadable file, a manifest and a subdirectory. *)
Definition sampleDir : result (list DirEntry) :=
  Ok [mkEntry "sub" true; mkEntry "argo.yaml" false; mkEntry "aa.yaml" false].
Definition sampleRead (f : string) : result string :=
  if String.eqb f "argo.yaml" then Ok "argo" else Err (Errorf "corrupt").
Definition sampleYaml (raw : string) : result CollectorConfig :=
  if String.eqb raw "argo" then Ok argoManifest else Err (Errorf "yaml").

Definition searchServer : MemServer := serverWith (store_put KSearch sampleSearch emptyStore).
Definition sampleAttempt : prog bool := attempt true sampleDir sampleRead sampleYaml "".
Definition sampleOne : prog (option error) :=
  applyOneIntegrationCollectorConfig true sampleRead sampleYaml sampleSearch "ocm" "argo.yaml".
Definition sampleAll : prog (option error) :=
  applyIntegrationCollectorConfigsFrom true sampleDir sampleRead sampleYaml sampleSearch.

Lemma seeder_guarded_witness :
  let t := run_trace sampleAttempt searchServer in
  (read_only t ∧ run_outcome sampleAttempt searchServer = Done false) ∨
  ∃ s t1 t2, t = t1 ++ t2 ∧ read_only t1 ∧ sole_search t1 s.
Proof. exact (seeder_guarded true sampleDir sampleRead sampleYaml _ _ (run_exec sampleAttempt searchServer)). Defined.

Lemma argo_is_manifest : manifest sampleDir sampleRead sampleYaml argoManifest.
Proof.
  exists [mkEntry "sub" true; mkEntry "argo.yaml" false; mkEntry "aa.yaml" false], (mkEntry "argo.yaml" false), "argo".
  split_and!; try reflexivity; [right; by left|by vm_compute].
Qed.

Lemma seeder_applies_all_witness :
  ∃ e a, run_outcome sampleAll searchServer = Done (Some e) ∧
    Ev (Get KCollectorConfig (mkNN "argo-integration" "ocm")) a ∈ run_trace sampleAll searchServer.
Proof.
  destruct (seeder_applies_all true sampleDir sampleRead sampleYaml sampleSearch _ _ eq_refl
              (run_exec sampleAll searchServer)) as (e & He & Hall).
  destruct (Hall argoManifest argo_is_manifest) as [[a Ha] _].
  exists (Errorf "corrupt"), a. split; [vm_compute; reflexivity|exact Ha].
Defined.

(** The shipped config as the operator stores it, with local changes. *)
Definition storedArgo (annotations labels : option smap) (rules : list CollectionRule) : CollectorConfig :=
  mkCC (mkMeta "argo-integration" "ocm" labels annotations [refToSearch sampleSearch] [] None "")
    (mkCCSpec None rules) [].
Definition argoServer (cc : CollectorConfig) : MemServer :=
  serverWith (store_put KCollectorConfig cc emptyStore).

Definition overriddenArgo : CollectorConfig :=
  storedArgo (Some {[ AnnotationManualOverride := "" ]}) None [].

Lemma manual_override_respected_witness :
  read_only (run_trace sampleOne (argoServer overriddenArgo)) ∧
  run_outcome sampleOne (argoServer overriddenArgo) = Done None.
Proof.
  apply (manual_override_respected true sampleRead sampleYaml sampleSearch "ocm" "argo.yaml" _ _
           (mkNN "argo-integration" "ocm") overriddenArgo).
  - apply run_exec.
  - vm_compute. left.
  - vm_compute. reflexivity.
Defined.

(** The config after a first run that created it, with a second run against it. *)
Definition createdArgo : CollectorConfig :=
  storedArgo None shippedLabels [includeRule ["argoproj.io"] ["Application"]].

Lemma seeding_idempotent_witness :
  read_only (run_trace sampleOne (argoServer createdArgo)) ∧
  run_outcome sampleOne (argoServer createdArgo) = Done None.
Proof.
  apply (seeding_idempotent true sampleRead sampleYaml sampleSearch "ocm" "argo.yaml" "argo" argoManifest
           (run_trace sampleOne searchServer) (run_outcome sampleOne searchServer)
           (Ev (Create KCollectorConfig createdArgo) (Ok createdArgo)) createdArgo _ _
           (Ev (Get KCollectorConfig (mkNN "argo-integration" "ocm")) (Ok createdArgo))).
  - reflexivity.
  - reflexivity.
  - reflexivity.
  - intros v. vm_compute. congruence.
  - apply run_exec.
  - vm_compute. right. left.
  - reflexivity.
  - apply run_exec.
  - vm_compute. left.
  - reflexivity.
Defined.

Definition strippedArgo : CollectorConfig :=
  storedArgo None integrationLabels [includeRule ["argoproj.io"] ["Application"]].

Lemma removed_empty_label_not_restored_witness :
  has_key (cc_Labels strippedArgo) backupLabel = false ∧
  read_only (run_trace sampleOne (argoServer strippedArgo)) ∧
  run_outcome sampleOne (argoServer strippedArgo) = Done None.
Proof.
  apply (removed_empty_label_not_restored true sampleRead sampleYaml sampleSearch "ocm" "argo.yaml" "argo"
           argoManifest _ _ (Ev (Get KCollectorConfig (mkNN "argo-integration" "ocm")) (Ok strippedArgo))).
  - reflexivity.
  - reflexivity.
  - vm_compute. reflexivity.
  - vm_compute. discriminate.
  - vm_compute. reflexivity.
  - intros v. vm_compute. congruence.
  - reflexivity.
  - vm_compute. reflexivity.
  - apply run_exec.
  - vm_compute. left.
  - reflexivity.
Defined.

(** Seeding at a start where the first listing of the CRs fails: the second attempt
    seeds. *)
#[local] Instance threeTimes : Polling := {| PollUntilContextCancel := pollTimes 3 |}.
#[local] Instance threeTimes_laws : PollingLaws.
Proof. split. intros condition t o. apply pollTimes_polled. Qed.


