(* ===== verification/Deployments.v ===== *)
(** The four component deployments: [src/controllers/create_apideployment.go],
    [create_indexerdeployment.go], [create_collectordeployment.go] and
    [create_pgdeployment.go]. *)
From S2P Require Import Prelude GoStrings K8s V1alpha1 Effects Interfaces MemServer Fixtures ImageValidation Common.

Local Open Scope search_scope.

Section deployments.
Context `{Environ} `{Quantities} `{ControllerUtil}.

(** The last assignments every builder makes to the pod template, and the owner. *)
Definition finishDeployment (deploymentName serviceAccount : string) (instance : Search)
    (container : Container) (volumes : list Volume) (annotations : option smap)
    (strategy : string) (grace : option Z) : Deployment :=
  let d := getDeployment deploymentName instance in
  let podSpec := mkPodSpec [container] volumes serviceAccount (Some getPodSecurityContext)
                   (getNodeSelector deploymentName instance) (getTolerations deploymentName instance) grace in
  mkDeployment (withOwner instance (dep_Meta d))
    (mkDeploymentSpec (Some (getReplicaCount deploymentName instance))
       (ds_Selector (dep_Spec d)) (ds_TemplateLabels (dep_Spec d)) annotations podSpec strategy).

Definition httpProbe (delay timeout port : Z) (path scheme : string) : Probe :=
  mkProbe delay timeout (HTTPGet port path scheme).

Definition dbHost (instance : Search) : string :=
  "search-postgres." +:+ s_Namespace instance +:+ ".svc".

(** [APIDeployment] *)
Definition APIDeployment (instance : Search) (tlsEnvVars : list EnvVar) : Deployment :=
  let deploymentName := apiDeploymentName in
  let apiContainer := mkContainer deploymentName (getImageSha deploymentName instance)
    (getContainerArgs deploymentName instance) []
    ([ newSecretEnvVar "DB_USER" "database-user" apiReadonlySecretName;
       newSecretEnvVar "DB_PASS" "database-password" apiReadonlySecretName;
       newSecretEnvVar "DB_NAME" "database-name" apiReadonlySecretName;
       newEnvVar "DB_HOST" (dbHost instance);
       newEnvVar "POD_NAMESPACE" (s_Namespace instance) ] ++
     tlsEnvVars ++ getContainerEnvVar deploymentName instance)
    (getResourceRequirements apiDeploymentName instance)
    [ mkMount "search-api-certs" "/sslcert" "" ]
    (Some (httpProbe 30 1 4010 "/liveness" "HTTPS"))
    (Some (httpProbe 5 1 4010 "/readiness" "HTTPS"))
    None
    (getImagePullPolicy deploymentName instance) (Some getContainerSecurityContext) in
  finishDeployment deploymentName getAPIServiceAccountName instance apiContainer
    [ mkVolume "search-api-certs" (VSSecret apiSecretName None) ] None "" None.

(** [IndexerDeployment] *)
Definition IndexerDeployment (instance : Search) (tlsEnvVars : list EnvVar) : Deployment :=
  let deploymentName := indexerDeploymentName in
  let indexerContainer := mkContainer deploymentName (getImageSha deploymentName instance)
    (getContainerArgs deploymentName instance) []
    ([ newSecretEnvVar "DB_USER" "database-user" "search-postgres";
       newSecretEnvVar "DB_PASS" "database-password" "search-postgres";
       newSecretEnvVar "DB_NAME" "database-name" "search-postgres";
       newEnvVar "DB_HOST" (dbHost instance);
       newEnvVar "POD_NAMESPACE" (s_Namespace instance);
       newMetadataEnvVar "POD_NAME" "metadata.name" ] ++
     tlsEnvVars ++ getContainerEnvVar deploymentName instance)
    (getResourceRequirements deploymentName instance)
    [ mkMount "search-indexer-certs" "/sslcert" "" ]
    (Some (httpProbe 20 30 3010 "/liveness" "HTTPS"))
    (Some (httpProbe 15 30 3010 "/readiness" "HTTPS"))
    None
    (getImagePullPolicy deploymentName instance) (Some getContainerSecurityContext) in
  finishDeployment deploymentName getIndexerServiceAccountName instance indexerContainer
    [ mkVolume "search-indexer-certs" (VSSecret indexerSecretName None) ] None "" None.

Definition multiclusterhubs : GroupVersionResource :=
  mkGVR "operator.open-cluster-management.io" "v1" "multiclusterhubs".

(** [getClusterNameFromMCH] *)
Definition getClusterNameFromMCH : prog string :=
  r <- call (DynList multiclusterhubs) ;;
  match r with
  | Ok (mch :: _) =>
      match jlookup "spec" (u_Object mch) with
      | Some (JMap spec) =>
          match jlookup "localClusterName" spec with
          | Some (JStr name) =>
              if negb (String.eqb name "") then Ret name else Ret "local-cluster"
          | _ => Ret "local-cluster"
          end
      | _ => Ret "local-cluster"
      end
  | _ => Ret "local-cluster"
  end.

(** The collector deployment for a cluster name. *)
Definition collectorDeploymentOf (clusterName : string) (instance : Search)
    (tlsEnvVars : list EnvVar) : Deployment :=
  let deploymentName := collectorDeploymentName in
  let collectorContainer := mkContainer deploymentName (getImageSha deploymentName instance)
    (getContainerArgs deploymentName instance) []
    ([ newEnvVar "DEPLOYED_IN_HUB" "true";
       newEnvVar "CLUSTER_NAME" clusterName;
       newEnvVar "AGGREGATOR_URL" ("https://search-indexer." +:+ s_Namespace instance +:+ ".svc:3010");
       newEnvVar "POD_NAMESPACE" (s_Namespace instance) ] ++
     getContainerEnvVar deploymentName instance ++ tlsEnvVars)
    (getResourceRequirements deploymentName instance)
    [ mkMount "search-indexer-certs" "/sslcert" "" ]
    (Some (httpProbe 20 1 5010 "/liveness" "HTTP"))
    (Some (httpProbe 15 1 5010 "/readiness" "HTTP"))
    None
    (getImagePullPolicy deploymentName instance) (Some getContainerSecurityContext) in
  finishDeployment deploymentName getCollectorServiceAccountName instance collectorContainer
    [ mkVolume "search-indexer-certs" (VSSecret indexerSecretName None) ] None "" None.

(** [CollectorDeployment] *)
Definition CollectorDeployment (instance : Search) (tlsEnvVars : list EnvVar) : prog Deployment :=
  clusterName <- getClusterNameFromMCH ;;
  Ret (collectorDeploymentOf clusterName instance tlsEnvVars).

(** The environment of the postgres container after its secrets: the CR's
    variables, then each default the CR does not name. *)
Definition postgresEnv (instance : Search) (workMem : string) : list EnvVar :=
  let env := getContainerEnvVar postgresDeploymentName instance in
  env ++ List.filter (λ d, negb (existsb (λ e, String.eqb (ev_Name e) (ev_Name d)) env))
           [ newEnvVar "WORK_MEM" workMem ].

Definition postgresVolumes (instance : Search) : list Volume :=
  [ mkVolume "postgresql-cfg" (VSConfigMap postgresConfigmapName);
    mkVolume "postgresql-pre-start" (VSConfigMap postgresConfigmapName);
    mkVolume "postgresql-start" (VSConfigMap postgresConfigmapName);
    mkVolume "search-postgres-certs" (VSSecret postgresSecretName (Some certDefaultMode));
    getPostgresVolume instance;
    mkVolume "postgres-run" (VSEmptyDir "Memory");
    mkVolume "postgres-tmp" (VSEmptyDir "Memory");
    mkVolume "postgres-log" (VSEmptyDir "Memory");
    mkVolume "postgres-home" (VSEmptyDir "Memory") ].

(** The postgres deployment for a WORK_MEM value. *)
(** Its container. *)
Definition postgresContainer (workMem : string) (instance : Search) : Container :=
  let deploymentName := postgresDeploymentName in
  mkContainer deploymentName (getImageSha deploymentName instance)
    (getContainerArgs deploymentName instance)
    [ mkContainerPort "search-postgres" 5432 "TCP" ]
    ([ newSecretEnvVar "POSTGRESQL_USER" "database-user" "search-postgres";
       newSecretEnvVar "POSTGRESQL_PASSWORD" "database-password" "search-postgres";
       newSecretEnvVar "POSTGRESQL_DATABASE" "database-name" "search-postgres";
       newSecretEnvVar "READONLY_API_PASSWORD" "database-password" apiReadonlySecretName;
       newSecretEnvVar "READONLY_MCP_PASSWORD" "database-password" mcpReadonlySecretName ] ++
     postgresEnv instance workMem)
    (getResourceRequirements deploymentName instance)
    [ mkMount "postgresdb" "/var/lib/pgsql/data" "";
      mkMount "postgresql-cfg" "/opt/app-root/src/postgresql-cfg" "";
      mkMount "postgresql-pre-start"
        "/opt/app-root/src/postgresql-pre-start/postgresql-pre-start.sh" "postgresql-pre-start.sh";
      mkMount "postgresql-start" "/opt/app-root/src/postgresql-start" "";
      mkMount "search-postgres-certs" "/sslcert" "";
      mkMount "postgres-run" "/var/run/postgresql" "";
      mkMount "postgres-tmp" "/tmp" "";
      mkMount "postgres-log" "/var/log" "";
      mkMount "postgres-home" "/var/lib/pgsql" "" ]
    (Some (mkProbe 120 10 (ExecProbe ["/usr/libexec/check-container"; "--live"])))
    (Some (mkProbe 5 1 (ExecProbe ["/usr/libexec/check-container"])))
    (Some ["/bin/sh"; "-c"; "pg_ctl stop -D /var/lib/pgsql/data/userdata -m fast -w -t 55"])
    (getImagePullPolicy deploymentName instance) (Some getContainerSecurityContext).

Definition pgDeploymentOf (workMem : string) (instance : Search) (configHash : string) : Deployment :=
  finishDeployment postgresDeploymentName getPostgresServiceAccountName instance (postgresContainer workMem instance)
    (postgresVolumes instance)
    (Some {[ "search.open-cluster-management.io/postgres-config-hash" := configHash ]})
    "Recreate" (Some 60%Z).

(** [PGDeployment] *)
Definition PGDeployment (instance : Search) (configHash : string) : prog Deployment :=
  postgresqlWorkMem <- GetDBConfigFromSearchCR instance "WORK_MEM" ;;
  Ret (pgDeploymentOf postgresqlWorkMem instance configHash).
End deployments.

(** * Specification *)

(** What the hardening of the components requires of a container. *)
Definition hardened (c : Container) : Prop :=
  ct_SecurityContext c = Some (mkSecurityContext (Some false) (Some false) (Some true) (Some true) ["ALL"]).

(** A deployment the operator may run for a component of a Search CR: one
    container whose image is the operator's or in a trusted repository, with
    log-verbosity arguments only, reading no secret but the operator's, without
    privileges, as the component's own service account. *)
Definition safe_deployment `{Environ} (component serviceAccount : string) (instance : Search)
    (d : Deployment) : Prop :=
  om_Name (dep_Meta d) = component ∧ om_Namespace (dep_Meta d) = s_Namespace instance ∧
  ps_ServiceAccountName (ds_PodSpec (dep_Spec d)) = serviceAccount ∧
  ps_SecurityContext (ds_PodSpec (dep_Spec d)) = Some (mkPodSecurityContext (Some true) "RuntimeDefault") ∧
  ds_Selector (dep_Spec d) = ds_TemplateLabels (dep_Spec d) ∧
  ∃ c, ps_Containers (ds_PodSpec (dep_Spec d)) = [c] ∧ hardened c ∧
    (ct_Image c = Getenv (imageVar component) ∨ trusted (ct_Image c)) ∧
    Forall verbosity_arg (ct_Args c) ∧
    Forall safe_env (ct_Env c).

(** * Lemmas *)

Lemma safe_secret name key secret :
  secret ∈ operatorManagedSecrets → safe_env (newSecretEnvVar name key secret).
Proof. intros Hs s. unfold env_secret. cbn. by intros [= <-]. Qed.

Lemma safe_value name v : safe_env (newEnvVar name v).
Proof. done. Qed.

Lemma safe_metadata name key : safe_env (newMetadataEnvVar name key).
Proof. done. Qed.

#[export] Hint Resolve safe_secret safe_value safe_metadata : search.

Lemma getContainerArgs_safe d i : Forall verbosity_arg (getContainerArgs d i).
Proof. apply Forall_forall. by intros x [_ ?]%elem_of_getContainerArgs. Qed.

Lemma getContainerEnvVar_safe d i : Forall safe_env (getContainerEnvVar d i).
Proof. apply Forall_forall. by intros x (_ & _ & ?)%elem_of_getContainerEnvVar. Qed.

Lemma managed_api : apiReadonlySecretName ∈ operatorManagedSecrets.
Proof. apply (bool_decide_unpack _). by vm_compute. Qed.
Lemma managed_mcp : mcpReadonlySecretName ∈ operatorManagedSecrets.
Proof. apply (bool_decide_unpack _). by vm_compute. Qed.
Lemma managed_pg : "search-postgres" ∈ operatorManagedSecrets.
Proof. apply (bool_decide_unpack _). by vm_compute. Qed.

#[export] Hint Resolve getContainerArgs_safe getContainerEnvVar_safe
  managed_api managed_mcp managed_pg : search.

Lemma exec_getClusterName t o : exec getClusterNameFromMCH t o → ∃ n, o = Done n.
Proof.
  unfold getClusterNameFromMCH, call. cbn [bind]. intros (x & t' & _ & He)%exec_Op.
  repeat match type of He with
  | exec (match ?y with _ => _ end) _ _ => destruct y
  end; apply exec_Ret in He as [_ ->]; eauto.
Qed.

Section deployment_lemmas.
Context `{Environ} `{Quantities} `{ControllerUtilLaws}.

Lemma image_safe d i :
  knownDeployment d = true → getImageSha d i = Getenv (imageVar d) ∨ trusted (getImageSha d i).
Proof.
  intros Hk. rewrite getImageSha_eq by done.
  destruct (trustedOverride_spec (dc_ImageOverride (getDeploymentConfig d i)) (Getenv (imageVar d)))
    as [[-> ?]|[-> _]]; auto.
Qed.

Lemma finishDeployment_safe name sa i c vols ann strat grace :
  knownDeployment name = true → hardened c → ct_Image c = getImageSha name i →
  Forall verbosity_arg (ct_Args c) → Forall safe_env (ct_Env c) →
  safe_deployment name sa i (finishDeployment name sa i c vols ann strat grace).
Proof.
  intros Hk Hh Hi Ha He. unfold safe_deployment, finishDeployment. cbn.
  destruct (withOwner_name i (newMeta name (s_Namespace i))) as (-> & -> & _).
  split_and!; [done..|]. exists c. rewrite Hi. split_and!; [done..|by apply image_safe|done|done].
Qed.

Lemma api_safe i tls :
  Forall safe_env tls →
  safe_deployment apiDeploymentName getAPIServiceAccountName i (APIDeployment i tls).
Proof.
  intros Ht. apply finishDeployment_safe; [done..|cbn; auto with search|]. cbn.
  repeat (apply Forall_cons; split; [auto with search|]). apply Forall_app; auto with search.
Qed.

Lemma indexer_safe i tls :
  Forall safe_env tls →
  safe_deployment indexerDeploymentName getIndexerServiceAccountName i (IndexerDeployment i tls).
Proof.
  intros Ht. apply finishDeployment_safe; [done..|cbn; auto with search|]. cbn.
  repeat (apply Forall_cons; split; [auto with search|]). apply Forall_app; auto with search.
Qed.

Lemma collector_safe name i tls :
  Forall safe_env tls →
  safe_deployment collectorDeploymentName getCollectorServiceAccountName i (collectorDeploymentOf name i tls).
Proof.
  intros Ht. apply finishDeployment_safe; [done..|cbn; auto with search|]. cbn.
  repeat (apply Forall_cons; split; [auto with search|]). apply Forall_app; auto with search.
Qed.

(** The CR cannot name WORK_MEM for postgres itself, so the sanitized value is
    always there, once. *)
Lemma postgresEnv_eq i wm :
  postgresEnv i wm = getContainerEnvVar postgresDeploymentName i ++ [newEnvVar "WORK_MEM" wm].
Proof.
  unfold postgresEnv. f_equal. cbn.
  destruct (existsb _ _) eqn:Hx; [|done]. exfalso.
  apply existsb_elem in Hx as (e & (_ & Hn & _)%elem_of_getContainerEnvVar & Heq%String.eqb_eq). by apply Hn.
Qed.

Lemma pg_safe wm i hash :
  safe_deployment postgresDeploymentName getPostgresServiceAccountName i (pgDeploymentOf wm i hash).
Proof.
  apply finishDeployment_safe; [done..|cbn; auto with search|]. cbn -[postgresEnv]. rewrite postgresEnv_eq.
  repeat (apply Forall_cons; split; [auto with search|]). apply Forall_app.
  split; [auto with search|]. repeat constructor. apply safe_value.
Qed.

(** * Theorems *)

(** C16: no setting of the Search CR can make the operator deploy an untrusted
    image, pass a container argument other than log verbosity, mount a secret
    the operator does not manage, or weaken the security context or the service
    account of a component: each of the four deployments the builders produce is
    safe, for every CR, TLS profile and API server. *)
Theorem deployments_safe instance tls configHash t1 t2 o1 o2 :
  Forall safe_env tls →
  exec (CollectorDeployment instance tls) t1 o1 →
  exec (PGDeployment instance configHash) t2 o2 →
  safe_deployment apiDeploymentName getAPIServiceAccountName instance (APIDeployment instance tls) ∧
  safe_deployment indexerDeploymentName getIndexerServiceAccountName instance
    (IndexerDeployment instance tls) ∧
  (∃ d, o1 = Done d ∧
     safe_deployment collectorDeploymentName getCollectorServiceAccountName instance d) ∧
  (∃ d, o2 = Done d ∧
     safe_deployment postgresDeploymentName getPostgresServiceAccountName instance d).
Proof.
  intros Ht H1' H2'. split_and!; [by apply api_safe|by apply indexer_safe| |].
  - apply exec_bind in H1' as [(n & t & t' & _ & _ & [_ ->]%exec_Ret)|(w & Hw & _)].
    + eexists. split; [done|]. by apply collector_safe.
    + by apply exec_getClusterName in Hw as [? ?].
  - apply exec_bind in H2' as [(v & t & t' & _ & _ & [_ ->]%exec_Ret)|(w & Hw & _)].
    + eexists. split; [done|]. by apply pg_safe.
    + by apply exec_work_mem in Hw as (? & ? & _).
Qed.

(** The database and the collector always run as single instances, and the
    database is replaced, never run twice: its replicas do not depend on the CR,
    its strategy is Recreate, and the configuration hash is on its pod template;
    the API and the indexer take a positive replica count from the CR and
    default to one. *)
Theorem replicas_pinned instance workMem clusterName tls configHash :
  let pg := dep_Spec (pgDeploymentOf workMem instance configHash) in
  ds_Replicas pg = Some 1%Z ∧ ds_Strategy pg = "Recreate" ∧
  get_str (ds_TemplateAnnotations pg) "search.open-cluster-management.io/postgres-config-hash" = configHash ∧
  ds_Replicas (dep_Spec (collectorDeploymentOf clusterName instance tls)) = Some 1%Z ∧
  (∀ d name, (d = APIDeployment instance tls ∧ name = apiDeploymentName) ∨
             (d = IndexerDeployment instance tls ∧ name = indexerDeploymentName) →
     ds_Replicas (dep_Spec d) =
     Some (let n := dc_ReplicaCount (getDeploymentConfig name instance) in
           if (0 <? n)%Z then n else 1%Z)).
Proof.
  cbn zeta. split_and!.
  - cbn. unfold getReplicaCount. cbn. by destruct (0 <? _)%Z.
  - done.
  - unfold get_str. cbn. by rewrite lookup_singleton_eq.
  - cbn. unfold getReplicaCount. cbn. by destruct (0 <? _)%Z.
  - intros d name [[-> ->]|[-> ->]]; cbn; unfold getReplicaCount; cbn; by destruct (0 <? _)%Z.
Qed.

(** The database container gets exactly one WORK_MEM, and it is the
    sanitized value, whatever the CR's environment says. *)
Theorem postgres_work_mem_unique instance t o configHash :
  exec (PGDeployment instance configHash) t o →
  ∃ d c v, o = Done d ∧ ps_Containers (ds_PodSpec (dep_Spec d)) = [c] ∧ memory_size v ∧
    List.filter (λ e, String.eqb (ev_Name e) "WORK_MEM") (ct_Env c) = [newEnvVar "WORK_MEM" v].
Proof.
  unfold PGDeployment. intros [(v & t1 & t2 & -> & Hv & [_ ->]%exec_Ret)|(w & Hv & ->)]%exec_bind.
  - eexists _, _, v. split; [done|]. split; [done|]. split.
    + eapply exec_work_mem in Hv as (v' & [= ->] & Hm & _). exact Hm.
    + cbn -[postgresEnv]. rewrite postgresEnv_eq, List.filter_app. cbn [List.filter ev_Name newEnvVar String.eqb].
      assert (List.filter (λ e, String.eqb (ev_Name e) "WORK_MEM")
                (getContainerEnvVar postgresDeploymentName instance) = []) as ->; [|done].
      apply filter_nil_elem. intros e (_ & Hn & _)%elem_of_getContainerEnvVar.
      apply String.eqb_neq. naive_solver.
  - exfalso. by eapply exec_work_mem in Hv as (v' & ? & _).
Qed.
End deployment_lemmas.

(** * The theorems at concrete inputs *)

Definition sampleTLSEnv : list EnvVar := [newEnvVar "TLS_MIN_VERSION" "771"].

Lemma deployments_safe_witness :
  safe_deployment (H := sampleEnviron) apiDeploymentName getAPIServiceAccountName customSearch
    (APIDeployment (H := sampleEnviron) (H0 := sampleQuantities) customSearch sampleTLSEnv).
Proof.
  refine (proj1 (@deployments_safe sampleEnviron sampleQuantities _ _ customSearch sampleTLSEnv "hash" _ _ _ _ _
    (run_exec (@CollectorDeployment sampleEnviron sampleQuantities _ customSearch sampleTLSEnv) ccServer)
    (run_exec (@PGDeployment sampleEnviron sampleQuantities _ customSearch "hash") ccServer))).
  repeat constructor. apply safe_value.
Defined.

Lemma postgres_work_mem_unique_witness :
  ∃ d c v, run_outcome (@PGDeployment sampleEnviron sampleQuantities _ customSearch "hash") ccServer = Done d ∧
    ps_Containers (ds_PodSpec (dep_Spec d)) = [c] ∧ memory_size v ∧
    List.filter (λ e, String.eqb (ev_Name e) "WORK_MEM") (ct_Env c) = [newEnvVar "WORK_MEM" v].
Proof.
  apply (@postgres_work_mem_unique sampleEnviron sampleQuantities _ customSearch
    (run_trace (@PGDeployment sampleEnviron sampleQuantities _ customSearch "hash") ccServer) _ "hash").
  apply run_exec.
Defined.
