(* ===== verification/Objects.v ===== *)
(** The remaining objects the reconciler maintains, as functions of the Search CR:
    services ([create_*service.go]), service accounts ([create_serviceaccount.go]),
    secrets ([create_pgsecret.go]), the volume claim ([create_pvc.go]), RBAC
    ([create_rolesbindings.go]), monitors ([create_metrics_monitor.go]), the alert
    rule ([create_prometheus_alerts.go]) and two ConfigMaps
    ([create_indexerconfigmap.go], [create_cacert.go]), all under [src/controllers]. *)
From S2P Require Import Prelude GoStrings K8s V1alpha1 Effects Interfaces MemServer Fixtures ImageValidation Common Deployments.
From Stdlib Require Import Ascii.

Local Open Scope search_scope.

(** * Secrets *)

Definition DBNAME : string := "search".

Definition passChars : string :=
  "ABCDEFGHIJKLMNOPQRSTUVWXYZ" +:+ "abcdefghijklmnopqrstuvwxyz" +:+ "0123456789".

(** [generatePass]: one random index per character; an index out of range panics. *)
Fixpoint generatePass (length : nat) : prog string :=
  match length with
  | 0 => Ret ""
  | S n =>
      nBig <- call (RandInt (String.length passChars)) ;;
      match String.get nBig passChars with
      | None => Panic "index out of range"
      | Some c => rest <- generatePass n ;; Ret (String c rest)
      end
  end.

Section objects.
Context `{Environ} `{ControllerUtil}.

(** The shape the three database secrets share. *)
Definition dbSecret (name user : string) (instance : Search) : prog Secret :=
  password <- generatePass 16 ;;
  Ret (mkSecret (withOwner instance (newMeta name (s_Namespace instance))) "Opaque"
         {[ "database-user" := user; "database-password" := password; "database-name" := DBNAME ]}).

Definition PGSecret : Search → prog Secret := dbSecret "search-postgres" "searchuser".
Definition APIReadonlySecret : Search → prog Secret := dbSecret apiReadonlySecretName "search_api_ro".
Definition MCPReadonlySecret : Search → prog Secret := dbSecret mcpReadonlySecretName "search_mcp_ro".

(** * Services *)

Definition servingCert (secret : string) : option smap :=
  Some {[ "service.beta.openshift.io/serving-cert-secret-name" := secret ]}.
Definition monitorLabel (v : string) : option smap := Some {[ "search-monitor" := v ]}.

Definition componentService (name portName selector : string) (port : Z)
    (annotations labels : option smap) (instance : Search) : Service :=
  mkService (withOwner instance
      (set_Annotations annotations (set_Labels labels (newMeta name (s_Namespace instance)))))
    [mkServicePort portName port port "TCP"] {[ "name" := selector ]}.

Definition PGService : Search → Service :=
  componentService "search-postgres" "search-postgres" "search-postgres" 5432
    (servingCert postgresSecretName) None.
Definition IndexerService : Search → Service :=
  componentService "search-indexer" "search-indexer" "search-indexer" 3010
    (servingCert "search-indexer-certs") (monitorLabel "search-indexer").
Definition SearchApi : string := "search-api".
Definition APIService : Search → Service :=
  componentService "search-search-api" SearchApi SearchApi 4010
    (servingCert "search-api-certs") (monitorLabel SearchApi).
Definition SearchCollector : string := "search-collector".
Definition CollectorService : Search → Service :=
  componentService "search-collector" SearchCollector SearchCollector 5010
    None (monitorLabel SearchCollector).

(** * Service accounts *)

(** The API and collector accounts are kept when the owner cannot be set. *)
Definition SearchAPIServiceAccount (instance : Search) : ServiceAccount :=
  mkServiceAccount (withOwner instance (newMeta getAPIServiceAccountName (s_Namespace instance))) [].
Definition SearchCollectorServiceAccount (instance : Search) : ServiceAccount :=
  mkServiceAccount (withOwner instance (newMeta getCollectorServiceAccountName (s_Namespace instance))) [].

(** The postgres and indexer accounts fail with it. *)
Definition ownedServiceAccount (name : string) (instance : Search) : result ServiceAccount :=
  match SetControllerReference instance (newMeta name (s_Namespace instance)) with
  | Ok meta => Ok (mkServiceAccount meta [])
  | Err e => Err e
  end.
Definition SearchPostgresServiceAccount : Search → result ServiceAccount :=
  ownedServiceAccount getPostgresServiceAccountName.
Definition SearchIndexerServiceAccount : Search → result ServiceAccount :=
  ownedServiceAccount getIndexerServiceAccountName.

(** * Volume claim *)

Definition NewPVC (pvcName namespace storageClass : string) (storageSize : Quantity) :
    PersistentVolumeClaim :=
  mkPVC (newMeta pvcName namespace) ["ReadWriteOnce"] {[ "storage" := storageSize ]} (Some storageClass).

(** * RBAC *)

Definition rbacGroup : string := "rbac.authorization.k8s.io".

Definition getMetricsRules : list PolicyRule :=
  [ mkPolicyRule [""] ["pods"; "services"; "endpoints"] ["get"; "list"; "watch"] ].

Definition getAddonRules : list PolicyRule :=
  [ mkPolicyRule ["proxy.open-cluster-management.io"] ["clusterstatuses/aggregator"] ["create"];
    mkPolicyRule ["coordination.k8s.io"] ["leases"]
      ["create"; "get"; "list"; "watch"; "patch"; "update"] ].

Definition getGlobalSearchUserRules : list PolicyRule :=
  [ mkPolicyRule ["search.open-cluster-management.io"] ["searches"; "searches/allManagedData"] ["get"] ].

Definition getIndexerRules : list PolicyRule :=
  [ mkPolicyRule ["authentication.k8s.io"] ["tokenreviews"] ["create"];
    mkPolicyRule ["coordination.k8s.io"] ["leases"] ["get"; "create"; "update"];
    mkPolicyRule ["cluster.open-cluster-management.io"] ["managedclusters"] ["get"; "list"; "watch"];
    mkPolicyRule ["internal.open-cluster-management.io"] ["managedclusterinfos"] ["get"; "list"; "watch"];
    mkPolicyRule ["addon.open-cluster-management.io"] ["managedclusteraddons"] ["get"; "list"; "watch"] ].

Definition serviceAccountSubject (name namespace : string) : Subject :=
  mkSubject "ServiceAccount" "" name namespace.

(** A cluster role binding of a service account of the CR's namespace. *)
Definition clusterRoleBinding (suffix role account : string) (instance : Search) : ClusterRoleBinding :=
  mkClusterRoleBinding (newMeta (getRoleBindingName +:+ suffix) "")
    (mkRoleRef rbacGroup "ClusterRole" role)
    [serviceAccountSubject account (s_Namespace instance)].

Definition APIClusterRoleBinding (instance : Search) : ClusterRoleBinding :=
  clusterRoleBinding "-api" getAPIClusterRoleName getAPIServiceAccountName instance.
Definition IndexerClusterRole (instance : Search) : ClusterRole :=
  mkClusterRole (newMeta (getRoleName +:+ "-indexer") "") getIndexerRules.
Definition IndexerClusterRoleBinding (instance : Search) : ClusterRoleBinding :=
  clusterRoleBinding "-indexer" (getRoleName +:+ "-indexer") getIndexerServiceAccountName instance.
Definition CollectorClusterRoleBinding (instance : Search) : ClusterRoleBinding :=
  clusterRoleBinding "-collector" getCollectorClusterRoleName getCollectorServiceAccountName instance.
Definition AddonClusterRole (instance : Search) : ClusterRole :=
  mkClusterRole (newMeta getAddonRoleName (s_Namespace instance)) getAddonRules.
Definition GlobalSearchUserClusterRole (instance : Search) : ClusterRole :=
  mkClusterRole (newMeta getSearchUserRoleName (s_Namespace instance)) getGlobalSearchUserRules.

(** * Monitors *)

Definition SearchMetricsMonitor : string := "search-metrics-monitor".

Definition MetricsRole (instance : Search) : ClusterRole :=
  mkClusterRole (withOwner instance (newMeta SearchMetricsMonitor (s_Namespace instance))) getMetricsRules.
Definition MetricsRoleBinding (instance : Search) : ClusterRoleBinding :=
  mkClusterRoleBinding (withOwner instance (newMeta SearchMetricsMonitor (s_Namespace instance)))
    (mkRoleRef rbacGroup "Role" SearchMetricsMonitor)
    [serviceAccountSubject "prometheus-k8s" "openshift-monitoring"].

Definition monitorOf (scheme : string) (tls : option bool) (instance : Search)
    (deployment namespace : string) : ServiceMonitor :=
  mkServiceMonitor (newMeta (deployment +:+ "-monitor") namespace) deployment [s_Namespace instance]
    [mkEndpoint deployment scheme "10s" "60s" "/var/run/secrets/kubernetes.io/serviceaccount/token" tls]
    {[ "search-monitor" := deployment ]}.

(** [TLSConfig] is [InsecureSkipVerify: true] or absent. *)
Definition MonitorOfService : Search → string → string → ServiceMonitor := monitorOf "https" (Some true).
Definition CollectorServiceMonitor : Search → string → string → ServiceMonitor := monitorOf "http" None.

(** * Alerts *)

Definition SearchPVCAlertRuleName : string := "search-pvc-info-alert".

Definition pvcAbsentExpr (instance : Search) : string :=
  ticks "absent(kube_persistentvolumeclaim_info{namespace=`" +:+ s_Namespace instance +:+ ticks "`, persistentvolumeclaim=~`.*-search`}) == 1".
Definition manyManagedClustersExpr (instance : Search) : string :=
  ticks "acm_managed_cluster_count > " +:+ getPrometheusAlertMaxManagedClustersCount instance.
Definition manyAppsExpr (instance : Search) : string :=
  ticks "( max(apiserver_storage_objects{resource=`subscriptions.apps.open-cluster-management.io`}) +
		max(apiserver_storage_objects{resource=`applicationsets.argoproj.io`}) ) > " +:+ getPrometheusAlertMaxAppsCount instance.
Definition searchPostgresOOMExpr (instance : Search) : string :=
  ticks "
		kube_pod_container_status_last_terminated_reason{
			namespace=`" +:+ s_Namespace instance +:+ ticks "`,
			pod=~`search-postgres.*`,
			reason=`OOMKilled`
		} == 1
	".
Definition searchIndexerOOMExpr (instance : Search) : string :=
  ticks "
		kube_pod_container_status_last_terminated_reason{
			namespace=`" +:+ s_Namespace instance +:+ ticks "`,
			pod=~`search-indexer.*`,
			reason=`OOMKilled`
		} == 1
	".
Definition searchIndexerRequestSizeExpr (instance : Search) : string :=
  ticks "increase(search_indexer_request_size_count[30m]) > " +:+ getPrometheusAlertMaxIndexerCountOver30m instance.
Definition searchPVCCriticalExpr (instance : Search) : string :=
  ticks "
		( " +:+ pvcAbsentExpr instance +:+ ticks " )
		and on()
		(
			(" +:+ manyManagedClustersExpr instance +:+ ticks ") or (" +:+ manyAppsExpr instance +:+ ticks ") or (" +:+ searchPostgresOOMExpr instance +:+ ticks ") or (" +:+ searchIndexerOOMExpr instance +:+ ticks ") or (" +:+ searchIndexerRequestSizeExpr instance +:+ ticks ")
		)
	".

Definition pvcNotPresentAlert (instance : Search) : AlertRule :=
  mkAlertRule "SearchPVCNotPresent" (pvcAbsentExpr instance) "5m"
    {[ "severity" := "info"; "component" := "search" ]}
    {[ "summary" := "Search Persistent Volume Claim is not present";
       "description" := "Search PVC is not present in namespace " +:+ s_Namespace instance +:+ ". You should configure persistent storage for RHACM Search in production environments. See docs.redhat.com for more information about RHACM Search with persistent storage.";
       "message" := "Search is currently running without persistent storage. Consider configuring a PVC by setting spec.dbStorage.storageClassName in the RHACM Search CR for better performance." ]}.

Definition pvcNotPresentCriticalAlert (instance : Search) : AlertRule :=
  mkAlertRule "SearchPVCNotPresentCritical" (searchPVCCriticalExpr instance) "5m"
    {[ "severity" := "critical"; "component" := "search" ]}
    {[ "summary" := "Search Persistent Volume Claim is not present and critical conditions are met";
       "description" := "The alert fires when [The Search PVC is missing in namespace " +:+ s_Namespace instance +:+ "] AND [Your environment is under heavy load OR a core search pod has crashed due to memory limits].

" +:+ ticks "The underlying `Load` or `Crash` condition:
" +:+ "- Scale: You are managing more than " +:+ getPrometheusAlertMaxManagedClustersCount instance +:+ " clusters.
" +:+ "- App Load: You have a combined total of more than " +:+ getPrometheusAlertMaxAppsCount instance +:+ " Subscriptions and Argo ApplicationSets in your API server.
" +:+ "- Database Failure: The search-postgres pod was recently killed because it ran out of memory (OOMKilled).
" +:+ "- Indexer Failure: The search-indexer pod was recently killed because it ran out of memory (OOMKilled).
" +:+ "- Traffic Spike: The search indexer has seen a surge in requests (more than " +:+ getPrometheusAlertMaxIndexerCountOver30m instance +:+ " new requests in the last 30 minutes).

" +:+ "When is the Alert Reset?
" +:+ "The alert will stop firing (reset) when either of these two things happens:
" +:+ "- The PVC is created/restored: As soon as kube_persistentvolumeclaim_info appears in Prometheus for the " +:+ s_Namespace instance +:+ " namespace
" +:+ "OR
" +:+ ticks "- The underlying `Load` or `Crash` clears";
       "message" := "Search is currently running without persistent storage. System usage is high enough that persistent storage is needed to avoid performance issues. Consider configuring a PVC by setting spec.dbStorage.storageClassName in the RHACM Search CR for better performance." ]}.

(** [SearchPVCPrometheusRule] *)
Definition SearchPVCPrometheusRule (instance : Search) : PrometheusRule :=
  mkPrometheusRule (withOwner instance (newMeta SearchPVCAlertRuleName (s_Namespace instance)))
    [ mkRuleGroup "search-pvc-alerts"
        (pvcNotPresentAlert instance ::
         if negb (isPrometheusAlertSearchPVCCriticalDisabled instance)
         then [pvcNotPresentCriticalAlert instance] else []) ].

(** * ConfigMaps *)

Definition IndexerConfigmap (instance : Search) : ConfigMap :=
  let ns := s_Namespace instance in
  mkConfigMap
    (withOwner instance
       (set_Labels (Some (generateLabels "config" "acm-proxyserver")) (newMeta indexerConfigmapName ns)))
    (Some {[ "service" := ns +:+ "/search-indexer"; "port" := "3010";
             "path" := "/aggregator/clusters/"; "sub-resource" := "/sync"; "use-id" := "true";
             "secret" := ns +:+ "/search-indexer-certs"; "caConfigMap" := caCertConfigmapName ]}).

Definition SearchCACert (instance : Search) : ConfigMap :=
  mkConfigMap
    (withOwner instance
       (set_Annotations (Some {[ "service.beta.openshift.io/inject-cabundle" := "true" ]})
          (newMeta caCertConfigmapName (s_Namespace instance))))
    None.
End objects.

(** * Passwords *)

(** The random source answers below the bound it is given. *)
Definition draw_in_range (e : event) : Prop :=
  match e with
  | Ev q a => match q in Api R return R → Prop with RandInt b => λ n, n < b | _ => λ _, True end a
  end.

Lemma get_in_range n s : n < String.length s → ∃ c, String.get n s = Some c.
Proof. revert n. induction s as [|c s IH]; intros [|n]; cbn; [lia..|eauto|]. intros. apply IH. lia. Qed.

Lemma get_In n s c : String.get n s = Some c → c ∈ String.list_ascii_of_string s.
Proof. revert n. induction s as [|d s IH]; intros [|n]; cbn; intros; simplify_eq; [left|right; eauto]. Qed.

(** A generated database password always has the length asked for and only
    the 62 letters and digits, which stand unquoted in connection strings; each
    character costs one draw, and no draw in range panics. *)
Theorem generated_password_shape n t o :
  exec (generatePass n) t o → Forall draw_in_range t →
  ∃ p, o = Done p ∧ String.length p = n ∧ length t = n ∧
    ∀ c, c ∈ String.list_ascii_of_string p → c ∈ String.list_ascii_of_string passChars.
Proof.
  revert t o. induction n as [|n IH]; intros t o He Ht.
  - apply exec_Ret in He as [-> ->]. exists "". split_and!; try done. set_solver.
  - cbn [generatePass] in He. unfold call in He. cbn [bind] in He.
    apply exec_Op in He as (x & t1 & -> & He). apply Forall_cons in Ht as [Hx Ht].
    cbn [draw_in_range] in Hx. destruct (get_in_range x passChars Hx) as [c Hc]. rewrite Hc in He.
    apply exec_bind in He as [(p & t2 & t3 & -> & Hp & He)|(w & Hp & ->)].
    + apply Forall_app in Ht as [Ht _]. destruct (IH _ _ Hp Ht) as (p' & [= <-] & Hl & Hn & Hin).
      apply exec_Ret in He as [-> ->]. exists (String c p). rewrite app_nil_r. cbn.
      split_and!; [done|lia|lia|]. intros d [->|Hd]%elem_of_cons; [by eapply get_In|by apply Hin].
    + by destruct (IH _ _ Hp Ht) as (p' & ? & _).
Qed.

Lemma generated_password_shape_witness :
  ∃ p, run_outcome (generatePass 16) (serverWith emptyStore) = Done p ∧ String.length p = 16.
Proof.
  destruct (generated_password_shape 16 _ _ (run_exec (generatePass 16) (serverWith emptyStore)))
    as (p & Hp & Hl & _).
  - vm_compute. repeat constructor.
  - exists p. split; [exact Hp|exact Hl].
Defined.
