(* ===== verification/Networks.v ===== *)
(** [src/controllers/create_networkpolicies.go]: the NetworkPolicies of the five
    components, and what they let through.

    Parameter: [NestedString] of [k8s.io/apimachinery/.../unstructured] (the
    namespace of the multicluster engine is read from a custom resource), in the
    class [NestedFields]; whether a dynamic client is configured. *)
From S2P Require Import Prelude GoStrings K8s V1alpha1 Effects Interfaces MemServer Fixtures Common.

Local Open Scope search_scope.

(** * The namespace of the multicluster engine (global_search_setup.go) *)

(** [unstructured.NestedString(obj, path...)]: the value, whether it was found, or
    an error when the path leads to something that is not a string. *)
Class NestedFields :=
  NestedString : list (string * json) → list string → result (option string).

Definition multiclusterengineResourceGvr : GroupVersionResource :=
  mkGVR "multicluster.openshift.io" "v1" "multiclusterengines".

(** [getMCETargetNamespace] *)
Definition getMCETargetNamespace `{NestedFields} : prog (result string) :=
  r <- call (DynList multiclusterengineResourceGvr) ;;
  match r with
  | Err _ => Ret (Err (Errorf "failed to get the mce resources"))
  | Ok [] => Ret (Err (Errorf "failed to get the mce resources"))
  | Ok (mce :: _) =>
      match NestedString (u_Object mce) ["spec"; "targetNamespace"] with
      | Err e => Ret (Err e)
      | Ok None => Ret (Err (Errorf "failed to get the mce target namespace in spec"))
      | Ok (Some targetNS) => Ret (Ok targetNS)
      end
  end.

(** * Building blocks *)

Definition nsLabelKey : string := "kubernetes.io/metadata.name".
Definition openshiftMonitoring : string := "openshift-monitoring".
Definition multiclusterEngine : string := "multicluster-engine".

Definition postgresPort : Z := 5432.
Definition indexerPort : Z := 3010.
Definition apiPort : Z := 4010.
Definition collectorPort : Z := 5010.
Definition operatorWebhookPort : Z := 9443.
Definition operatorMetricsPort : Z := 8080.

Definition PolicyTypeIngress : string := "Ingress".
Definition PolicyTypeEgress : string := "Egress".

Definition networkPolicyName (component : string) : string := component +:+ "-network-policy".

Definition namespaceSelectorPeer (namespaceName : string) : PolicyPeer :=
  mkPeer (Some {[ nsLabelKey := namespaceName ]}) None.

Definition podSelectorPeer (labels : smap) : PolicyPeer := mkPeer None (Some labels).

Definition tcpPort (port : Z) : list PolicyPort := [mkPolicyPort "TCP" port].

Definition monitoringIngressRule (port : Z) : IngressRule :=
  mkIngressRule [namespaceSelectorPeer openshiftMonitoring] (tcpPort port).

(** [newNetworkPolicy] with the ingress rules assigned afterwards. *)
Definition newNetworkPolicy (instance : Search) (component : string) (podLabels : smap)
    (ingress : list IngressRule) : NetworkPolicy :=
  mkNetworkPolicy
    (set_Labels (Some (generateLabels "network-policy" component))
       (newMeta (networkPolicyName component) (s_Namespace instance)))
    (mkNetworkPolicySpec podLabels [PolicyTypeIngress] ingress []).

(** [withEgress] *)
Definition withEgress (np : NetworkPolicy) : NetworkPolicy :=
  let s := np_Spec np in
  mkNetworkPolicy (np_Meta np)
    (mkNetworkPolicySpec (nps_PodSelector s) (nps_PolicyTypes s ++ [PolicyTypeEgress])
       (nps_Ingress s) (nps_Egress s)).

Section policies.
Context `{ControllerUtil}.

(** [setNPControllerRef] *)
Definition setNPControllerRef (instance : Search) (np : NetworkPolicy) : NetworkPolicy :=
  mkNetworkPolicy (withOwner instance (np_Meta np)) (np_Spec np).

Definition componentLabels (name : string) : smap := generateLabels "name" name.

(** [PostgresNetworkPolicy]: the egress list stays empty, which denies all. *)
Definition PostgresNetworkPolicy (instance : Search) : NetworkPolicy :=
  setNPControllerRef instance (withEgress
    (newNetworkPolicy instance postgresDeploymentName (componentLabels postgresDeploymentName)
       [ mkIngressRule
           [ podSelectorPeer (componentLabels indexerDeploymentName);
             podSelectorPeer (componentLabels apiDeploymentName);
             podSelectorPeer {[ "app.kubernetes.io/name" := "acm-mcp-server" ]} ]
           (tcpPort postgresPort) ])).

(** Pods with a label in the namespace of the multicluster engine. *)
Definition mcePeer (mceNamespace key value : string) : PolicyPeer :=
  mkPeer (Some {[ nsLabelKey := mceNamespace ]}) (Some {[ key := value ]}).

Definition IndexerNetworkPolicy (instance : Search) (mceNamespace : string) : NetworkPolicy :=
  setNPControllerRef instance
    (newNetworkPolicy instance indexerDeploymentName (componentLabels indexerDeploymentName)
       [ mkIngressRule [mcePeer mceNamespace "control-plane" "ocm-proxyserver"] (tcpPort indexerPort);
         mkIngressRule [podSelectorPeer (componentLabels collectorDeploymentName)] (tcpPort indexerPort);
         monitoringIngressRule indexerPort ]).

Definition APINetworkPolicy (instance : Search) (mceNamespace : string) : NetworkPolicy :=
  setNPControllerRef instance
    (newNetworkPolicy instance apiDeploymentName (componentLabels apiDeploymentName)
       [ mkIngressRule [podSelectorPeer ∅] (tcpPort apiPort);
         mkIngressRule [mcePeer mceNamespace "app" "console-mce"] (tcpPort apiPort);
         monitoringIngressRule apiPort ]).

Definition CollectorNetworkPolicy (instance : Search) : NetworkPolicy :=
  setNPControllerRef instance
    (newNetworkPolicy instance collectorDeploymentName (componentLabels collectorDeploymentName)
       [ monitoringIngressRule collectorPort ]).

Definition OperatorNetworkPolicy (instance : Search) : NetworkPolicy :=
  setNPControllerRef instance
    (newNetworkPolicy instance "search-operator"
       {[ "app" := "search"; "control-plane" := "controller-manager" ]}
       [ mkIngressRule [] (tcpPort operatorWebhookPort); monitoringIngressRule operatorMetricsPort ]).

(** The policies for a multicluster engine in [mceNamespace]. *)
Definition policiesFor (instance : Search) (mceNamespace : string) : list NetworkPolicy :=
  [ PostgresNetworkPolicy instance; IndexerNetworkPolicy instance mceNamespace;
    APINetworkPolicy instance mceNamespace; CollectorNetworkPolicy instance;
    OperatorNetworkPolicy instance ].

(** [NetworkPolicies] *)
Definition NetworkPolicies `{NestedFields} (dynamicClientSet : bool) (instance : Search) :
    prog (list NetworkPolicy) :=
  if dynamicClientSet then
    r <- getMCETargetNamespace ;;
    Ret (policiesFor instance (match r with Ok ns => ns | Err _ => multiclusterEngine end))
  else Ret (policiesFor instance multiclusterEngine).
End policies.

(** * Specification: the traffic NetworkPolicies let through

    The semantics of [networking.k8s.io/v1]: a pod no policy selects is open;
    otherwise a connection needs a rule of some policy selecting the pod. A
    namespace is known by its labels, of which the name label is one. *)

Record endpoint := mkEnd { e_ns : string; e_nsLabels : smap; e_labels : smap }.

Definition peer_matches (policyNs : string) (p : PolicyPeer) (e : endpoint) : Prop :=
  match peer_NamespaceSelector p, peer_PodSelector p with
  | Some n, Some s => n ⊆ e_nsLabels e ∧ s ⊆ e_labels e
  | Some n, None => n ⊆ e_nsLabels e
  | None, Some s => e_ns e = policyNs ∧ s ⊆ e_labels e
  | None, None => False
  end.

Definition port_matches (ports : list PolicyPort) (port : Z) : Prop :=
  ports = [] ∨ mkPolicyPort "TCP" port ∈ ports.

Definition rule_allows (policyNs : string) (r : IngressRule) (src : endpoint) (port : Z) : Prop :=
  (ing_From r = [] ∨ Exists (λ p, peer_matches policyNs p src) (ing_From r)) ∧
  port_matches (ing_Ports r) port.

(** The policy applies to a pod in a direction. *)
Definition applies (direction : string) (np : NetworkPolicy) (ns : string) (labels : smap) : Prop :=
  om_Namespace (np_Meta np) = ns ∧ nps_PodSelector (np_Spec np) ⊆ labels ∧
  direction ∈ nps_PolicyTypes (np_Spec np).

(** TCP connections into a pod. *)
Definition ingress_allowed (nps : list NetworkPolicy) (src : endpoint) (ns : string) (labels : smap)
    (port : Z) : Prop :=
  (∀ np, np ∈ nps → ¬ applies PolicyTypeIngress np ns labels) ∨
  ∃ np rule, np ∈ nps ∧ applies PolicyTypeIngress np ns labels ∧ rule ∈ nps_Ingress (np_Spec np) ∧
    rule_allows ns rule src port.

(** Connections out of a pod. *)
Definition egress_allowed (nps : list NetworkPolicy) (ns : string) (labels : smap) : Prop :=
  (∀ np, np ∈ nps → ¬ applies PolicyTypeEgress np ns labels) ∨
  ∃ np rule, np ∈ nps ∧ applies PolicyTypeEgress np ns labels ∧ rule ∈ nps_Egress (np_Spec np).

(** Who may connect to a component, as the design says. *)
Definition allowed_peer (ns mce component : string) (src : endpoint) : Prop :=
  if String.eqb component postgresDeploymentName then
    e_ns src = ns ∧
    (componentLabels indexerDeploymentName ⊆ e_labels src ∨
     componentLabels apiDeploymentName ⊆ e_labels src ∨
     {[ "app.kubernetes.io/name" := "acm-mcp-server" ]} ⊆ e_labels src)
  else if String.eqb component indexerDeploymentName then
    ({[ nsLabelKey := mce ]} ⊆ e_nsLabels src ∧ {[ "control-plane" := "ocm-proxyserver" ]} ⊆ e_labels src) ∨
    (e_ns src = ns ∧ componentLabels collectorDeploymentName ⊆ e_labels src) ∨
    {[ nsLabelKey := openshiftMonitoring ]} ⊆ e_nsLabels src
  else if String.eqb component apiDeploymentName then
    e_ns src = ns ∨
    ({[ nsLabelKey := mce ]} ⊆ e_nsLabels src ∧ {[ "app" := "console-mce" ]} ⊆ e_labels src) ∨
    {[ nsLabelKey := openshiftMonitoring ]} ⊆ e_nsLabels src
  else {[ nsLabelKey := openshiftMonitoring ]} ⊆ e_nsLabels src.

Definition component_port (component : string) : Z :=
  if String.eqb component postgresDeploymentName then 5432
  else if String.eqb component indexerDeploymentName then 3010
  else if String.eqb component apiDeploymentName then 4010
  else 5010.

(** * Lemmas *)

Section network_lemmas.
Context `{ControllerUtilLaws}.

Lemma np_namespace instance np :
  om_Namespace (np_Meta (setNPControllerRef instance np)) = om_Namespace (np_Meta np).
Proof. cbn. apply withOwner_name. Qed.

(** Of the five policies exactly the component's own applies to its pods. *)
Lemma applies_own instance mce component np :
  knownDeployment component = true → np ∈ policiesFor instance mce →
  applies PolicyTypeIngress np (s_Namespace instance) (componentLabels component) ↔
  nps_PodSelector (np_Spec np) = componentLabels component.
Proof.
  intros Hc Hnp. unfold applies.
  assert (om_Namespace (np_Meta np) = s_Namespace instance) as Hns.
  { unfold policiesFor in Hnp. rewrite !elem_of_cons in Hnp.
    destruct Hnp as [->|[->|[->|[->|[->|Hnp]]]]]; [..|set_solver]; apply np_namespace. }
  assert (PolicyTypeIngress ∈ nps_PolicyTypes (np_Spec np)) as Hty.
  { unfold policiesFor in Hnp. rewrite !elem_of_cons in Hnp.
    destruct Hnp as [->|[->|[->|[->|[->|Hnp]]]]]; [..|set_solver]; cbn; left. }
  assert (nps_PodSelector (np_Spec np) ⊆ componentLabels component ↔
          nps_PodSelector (np_Spec np) = componentLabels component) as ->; [|naive_solver].
  split; [|by intros ->]. unfold policiesFor in Hnp. rewrite !elem_of_cons in Hnp.
  apply knownDeployment_cases in Hc.
  destruct Hnp as [->|[->|[->|[->|[->|Hnp]]]]]; [..|set_solver]; cbn;
    destruct Hc as [->|[->|[->| ->]]]; intros Hsub; try done;
    exfalso; revert Hsub; apply (bool_decide_unpack _); by vm_compute.
Qed.

Definition ownPolicy (instance : Search) (mce component : string) : NetworkPolicy :=
  if String.eqb component postgresDeploymentName then PostgresNetworkPolicy instance
  else if String.eqb component indexerDeploymentName then IndexerNetworkPolicy instance mce
  else if String.eqb component apiDeploymentName then APINetworkPolicy instance mce
  else CollectorNetworkPolicy instance.

Lemma ownPolicy_elem instance mce component : ownPolicy instance mce component ∈ policiesFor instance mce.
Proof. unfold ownPolicy, policiesFor. repeat case_match; set_solver. Qed.

(** The only policy with the selector of a component is its own. *)
Lemma selector_own instance mce component np :
  knownDeployment component = true → np ∈ policiesFor instance mce →
  nps_PodSelector (np_Spec np) = componentLabels component ↔ np = ownPolicy instance mce component.
Proof.
  intros Hc Hnp. apply knownDeployment_cases in Hc. unfold policiesFor in Hnp.
  rewrite !elem_of_cons in Hnp.
  destruct Hnp as [->|[->|[->|[->|[->|Hnp]]]]]; [..|set_solver];
    destruct Hc as [->|[->|[->| ->]]]; cbn; split; try done;
    try (intros Heq; exfalso; revert Heq; apply (bool_decide_unpack _); by vm_compute);
    intros Heq; exfalso; apply (f_equal (λ p, nps_PodSelector (np_Spec p))) in Heq; cbn in Heq; revert Heq;
    apply (bool_decide_unpack _); by vm_compute.
Qed.

Lemma ingress_own instance mce component src port :
  knownDeployment component = true →
  ingress_allowed (policiesFor instance mce) src (s_Namespace instance) (componentLabels component) port ↔
  Exists (λ rule, rule_allows (s_Namespace instance) rule src port)
    (nps_Ingress (np_Spec (ownPolicy instance mce component))).
Proof.
  intros Hc. unfold ingress_allowed. rewrite Exists_exists.
  assert (Hown : ∀ np, np ∈ policiesFor instance mce →
    applies PolicyTypeIngress np (s_Namespace instance) (componentLabels component) ↔
    np = ownPolicy instance mce component).
  { intros np Hnp. rewrite (applies_own instance mce component np Hc Hnp). by apply selector_own. }
  assert (Hel := ownPolicy_elem instance mce component). split.
  - intros [Hno|(np & rule & Hnp & Ha & Hr & Hal)].
    + exfalso. by apply (Hno _ Hel), (Hown _ Hel).
    + apply (Hown _ Hnp) in Ha as ->. eauto.
  - intros (rule & Hr & Hal). right. exists (ownPolicy instance mce component), rule.
    split_and!; [done|by apply Hown|done|done].
Qed.

Lemma port_tcp p q : port_matches (tcpPort p) q ↔ q = p.
Proof.
  unfold port_matches, tcpPort. rewrite list_elem_of_singleton. split; [by intros [?|[= ->]]|].
  intros ->. by right.
Qed.

Lemma from_cons (p : PolicyPeer) l (P : Prop) : p :: l = [] ∨ P ↔ P.
Proof. naive_solver. Qed.

(** * Theorems *)

(** C17: the policies admit exactly the designed traffic: a TCP connection from
    any pod in the cluster to a pod of a component is let through if and only if
    it goes to the component's port and comes from one of the component's
    intended peers; in particular the database is reachable only from the
    indexer, the API and the MCP server of its namespace. *)
Theorem component_traffic instance mce component src port :
  knownDeployment component = true →
  ingress_allowed (policiesFor instance mce) src (s_Namespace instance) (componentLabels component) port ↔
  port = component_port component ∧ allowed_peer (s_Namespace instance) mce component src.
Proof.
  intros Hc. rewrite ingress_own by done.
  apply knownDeployment_cases in Hc as [->|[->|[->| ->]]];
    unfold ownPolicy, component_port, allowed_peer; eval_decides;
    unfold PostgresNetworkPolicy, IndexerNetworkPolicy, APINetworkPolicy, CollectorNetworkPolicy, monitoringIngressRule;
    cbn [setNPControllerRef newNetworkPolicy withEgress np_Spec nps_Ingress];
    rewrite ?Exists_cons, Exists_nil; unfold rule_allows; cbn [ing_From ing_Ports];
    rewrite !port_tcp, ?Exists_cons, ?Exists_nil;
    unfold peer_matches, mcePeer, podSelectorPeer, namespaceSelectorPeer;
    cbn [peer_NamespaceSelector peer_PodSelector].
  all: unfold postgresPort, indexerPort, apiPort, collectorPort; rewrite ?from_cons.
  all: pose proof (map_empty_subseteq (e_labels src)); tauto.
Qed.

(** The database pod opens no connection: its policy denies all egress. *)
Theorem postgres_no_egress instance mce :
  ¬ egress_allowed (policiesFor instance mce) (s_Namespace instance)
      (componentLabels postgresDeploymentName).
Proof.
  intros [Hno|(np & rule & Hnp & (_ & Hsel & Hty) & Hr)].
  - apply (Hno (PostgresNetworkPolicy instance)); [by left|].
    split; [apply np_namespace|]. split; [done|]. cbn. set_solver.
  - unfold policiesFor in Hnp. rewrite !elem_of_cons in Hnp.
    destruct Hnp as [->|[->|[->|[->|[->|Hnp]]]]]; cbn in Hty, Hr; set_solver.
Qed.
End network_lemmas.

(** * The theorems at concrete inputs *)

(** A lookup along object fields. *)
Definition ref_NestedString : NestedFields := fix walk obj path :=
  match path with
  | [] => Err (Errorf "empty path")
  | [k] =>
      match find_first (λ kv, String.eqb kv.1 k) obj with
      | Some (_, JStr s) => Ok (Some s)
      | Some _ => Err (Errorf "not a string")
      | None => Ok None
      end
  | k :: path =>
      match find_first (λ kv, String.eqb kv.1 k) obj with
      | Some (_, JMap fields) => walk fields path
      | Some _ => Err (Errorf "not an object")
      | None => Ok None
      end
  end.

Definition apiPod : endpoint :=
  mkEnd "ocm" {[ nsLabelKey := "ocm" ]} (<["pod-template-hash" := "x"]> (componentLabels apiDeploymentName)).
Definition strangerPod : endpoint :=
  mkEnd "other" {[ nsLabelKey := "other" ]} (componentLabels apiDeploymentName).

Lemma component_traffic_witness :
  ingress_allowed (policiesFor sampleSearch "mce") apiPod "ocm" (componentLabels postgresDeploymentName) 5432 ∧
  ¬ ingress_allowed (policiesFor sampleSearch "mce") strangerPod "ocm"
      (componentLabels postgresDeploymentName) 5432.
Proof.
  split.
  - apply (component_traffic sampleSearch "mce" postgresDeploymentName); [reflexivity|].
    split; [reflexivity|]. split; [reflexivity|]. right. left.
    apply (bool_decide_unpack _). vm_compute. exact I.
  - intros [_ [Hns _]]%(component_traffic sampleSearch "mce" postgresDeploymentName strangerPod 5432 eq_refl).
    vm_compute in Hns. discriminate Hns.
Defined.
