(* ===== verification/TLS.v ===== *)
(** [src/controllers/tlsconfig.go]: the TLS settings of the components and of the
    database, from the cluster's APIServer profile.

    Parameters: [encoding/json] on the profile, the profile resolution of
    [openshift/controller-runtime-common/pkg/tls] and the cipher suites of the Go
    toolchain the operator is built with (class [TLSLibrary]). *)
From stdpp Require Import pretty.
From S2P Require Import Prelude GoStrings K8s V1alpha1 Effects MemServer Fixtures Common PostgresConfig.
From Stdlib Require Import Ascii.

Local Open Scope search_scope.

(** [configv1.TLSProfileSpec] *)
Record TLSProfileSpec := mkProfileSpec { tps_Ciphers : list string; tps_MinTLSVersion : string }.

(** The fields of [tls.Config] that are read back. *)
Record tlsConfig := mkTLSConfig { tc_MinVersion : Z; tc_CipherSuites : list Z }.

Record CipherSuite := mkCipherSuite { cs_ID : Z; cs_Name : string }.

Class TLSLibrary := {
  TLSSecurityProfile : Type;
  Marshal : json → result string;
  UnmarshalProfile : string → result TLSSecurityProfile;
  GetTLSProfileSpec : TLSSecurityProfile → result TLSProfileSpec;
  TLSProfileIntermediate : TLSProfileSpec;
  NewTLSConfigFromProfile : TLSProfileSpec → tlsConfig;
  CipherSuites : list CipherSuite;
  InsecureCipherSuites : list CipherSuite
}.

Definition apiServerGVR : GroupVersionResource := mkGVR "config.openshift.io" "v1" "apiservers".

Definition VersionTLS10 : string := "VersionTLS10".
Definition VersionTLS11 : string := "VersionTLS11".
Definition VersionTLS12 : string := "VersionTLS12".
Definition VersionTLS13 : string := "VersionTLS13".

Section tls.
Context `{TLSLibrary}.

Definition defaultProfileSpec : TLSProfileSpec := TLSProfileIntermediate.

(** [fetchTLSProfileSpec] *)
Definition fetchTLSProfileSpec : prog (result TLSProfileSpec) :=
  r <- call (DynGet apiServerGVR (mkNN "cluster" "")) ;;
  match r with
  | Err _ => Ret (Err (Errorf "failed to get APIServer resource"))
  | Ok obj =>
      match jlookup "spec" (u_Object obj) with
      | Some (JMap spec) =>
          match jlookup "tlsSecurityProfile" spec with
          | None | Some JNull => Ret (Ok defaultProfileSpec)
          | Some profileRaw =>
              match Marshal profileRaw with
              | Err _ => Ret (Err (Errorf "failed to marshal TLS profile"))
              | Ok profileBytes =>
                  match UnmarshalProfile profileBytes with
                  | Err _ => Ret (Err (Errorf "failed to unmarshal TLS profile"))
                  | Ok profile =>
                      match GetTLSProfileSpec profile with
                      | Err _ => Ret (Err (Errorf "failed to resolve TLS profile"))
                      | Ok resolved => Ret (Ok resolved)
                      end
                  end
              end
          end
      | _ => Ret (Ok defaultProfileSpec)
      end
  end.

(** The lookup map of [cipherIDsToIANA]: later suites replace earlier ones. *)
Definition cipherLookup : gmap Z string :=
  fold_left (λ m cs, <[cs_ID cs := cs_Name cs]> m) (CipherSuites ++ InsecureCipherSuites) ∅.

(** [cipherIDsToIANA] *)
Definition cipherIDsToIANA (ids : list Z) : list string :=
  fold_left (λ names id, match cipherLookup !! id with Some name => names ++ [name] | None => names end)
    ids [].

(** [getTLSEnvVars] *)
Definition getTLSEnvVars : prog (list EnvVar) :=
  r <- fetchTLSProfileSpec ;;
  match r with
  | Err _ => Ret []
  | Ok profileSpec =>
      let cfg := NewTLSConfigFromProfile profileSpec in
      let cipherNames := cipherIDsToIANA (tc_CipherSuites cfg) in
      Ret [newEnvVar "TLS_MIN_VERSION" (pretty (Z.to_N (tc_MinVersion cfg)));
           newEnvVar "TLS_CIPHERS" (Join cipherNames ",")]
  end.

Definition tlsVersionToPostgres (v : string) : string :=
  if String.eqb v VersionTLS10 then "TLSv1"
  else if String.eqb v VersionTLS11 then "TLSv1.1"
  else if String.eqb v VersionTLS12 then "TLSv1.2"
  else if String.eqb v VersionTLS13 then "TLSv1.3"
  else "TLSv1.2".

Definition opensslCiphersFromProfile (ciphers : list string) : string :=
  let filtered := List.filter (λ c, negb (HasPrefix c "TLS_")) ciphers in
  match filtered with [] => "HIGH:!aNULL" | _ => Join filtered ":" end.

(** [getPostgresTLSConfig] *)
Definition getPostgresTLSConfig : prog PostgresTLSConfig :=
  r <- fetchTLSProfileSpec ;;
  let profileSpec := match r with Ok s => s | Err _ => defaultProfileSpec end in
  Ret (mkPGTLS (tlsVersionToPostgres (tps_MinTLSVersion profileSpec))
         (opensslCiphersFromProfile (tps_Ciphers profileSpec))).
End tls.

(** * Specification *)

(** The names PostgreSQL has for the protocol versions of a profile. *)
Definition postgresVersions : list (string * string) :=
  [(VersionTLS10, "TLSv1"); (VersionTLS11, "TLSv1.1"); (VersionTLS12, "TLSv1.2"); (VersionTLS13, "TLSv1.3")].

(** What the database is given for a profile: its protocol version, TLS 1.2 for one
    PostgreSQL does not know, and the ciphers of the profile that are not TLS 1.3
    ones, in order. *)
Definition postgres_settings (p : TLSProfileSpec) (c : PostgresTLSConfig) : Prop :=
  ((tps_MinTLSVersion p, SSLMinProtocolVersion c) ∈ postgresVersions ∨
   tps_MinTLSVersion p ∉ map fst postgresVersions ∧ SSLMinProtocolVersion c = "TLSv1.2") ∧
  let kept := List.filter (λ x, negb (HasPrefix x "TLS_")) (tps_Ciphers p) in
  Split (SSLCiphers c) ":"%char = match kept with [] => ["HIGH"; "!aNULL"] | _ => kept end.

Definition answered {A} (r : result A) : option A := match r with Ok x => Some x | Err _ => None end.

(** The profile the APIServer resource asks for, if it names one that resolves. *)
Definition requestedProfile `{TLSLibrary} (obj : Unstructured) : option TLSProfileSpec :=
  spec ← jlookup "spec" (u_Object obj);
  raw ← match spec with JMap m => jlookup "tlsSecurityProfile" m | _ => None end;
  raw ← match raw with JNull => None | _ => Some raw end;
  bytes ← answered (Marshal raw); profile ← answered (UnmarshalProfile bytes); answered (GetTLSProfileSpec profile).

(** The profile of the cluster, by what the server answers: the Intermediate one
    unless another is asked for. *)
Definition clusterProfile `{TLSLibrary} (a : result Unstructured) : TLSProfileSpec :=
  default TLSProfileIntermediate (match a with Ok obj => requestedProfile obj | Err _ => None end).

(** A cipher table in which an identifier has one name and a name one identifier. *)
Definition cipher_table (t : list CipherSuite) : Prop :=
  NoDup (map cs_ID t) ∧ NoDup (map cs_Name t).

(** The identifier of a cipher name in a table: what a component does with the
    names it is handed. *)
Definition cipherID (t : list CipherSuite) (name : string) : option Z :=
  option_map cs_ID (find_first (λ cs, String.eqb (cs_Name cs) name) t).

(** The test data: a two-suite toolchain. *)
Definition sampleSuites : list CipherSuite :=
  [mkCipherSuite 4865%Z "TLS_AES_128_GCM_SHA256"; mkCipherSuite 49195%Z "TLS_ECDHE_ECDSA_WITH_AES_128_GCM_SHA256"].
Definition sampleProfile : TLSProfileSpec :=
  mkProfileSpec ["TLS_AES_128_GCM_SHA256"; "ECDHE-ECDSA-AES128-GCM-SHA256"] VersionTLS12.
Definition sampleTLSLibrary : TLSLibrary := {|
  TLSSecurityProfile := string;
  Marshal _ := Ok "{}";
  UnmarshalProfile s := Ok s;
  GetTLSProfileSpec _ := Err (Errorf "unknown profile");
  TLSProfileIntermediate := sampleProfile;
  NewTLSConfigFromProfile _ := mkTLSConfig 771 [49195; 4865; 7]%Z;
  CipherSuites := sampleSuites;
  InsecureCipherSuites := []
|}.

(** * Lemmas *)

Section tls_lemmas.
Context `{TLSLibrary}.

(** One read, and its answer determines the profile. *)
Lemma fetch_exec t o :
  exec fetchTLSProfileSpec t o →
  ∃ a r, t = [Ev (DynGet apiServerGVR (mkNN "cluster" "")) a] ∧ o = Done r ∧
    match r with Ok p => p | Err _ => defaultProfileSpec end = clusterProfile a.
Proof.
  unfold fetchTLSProfileSpec, call. cbn [bind]. intros (a & t1 & -> & He)%exec_Op. exists a.
  unfold clusterProfile, requestedProfile, defaultProfileSpec in *.
  assert (Hret : ∀ r x, exec (Ret r) t1 o → match r with Ok p => p | Err _ => TLSProfileIntermediate end = x →
    ∃ r0, Ev (DynGet apiServerGVR (mkNN "cluster" "")) a :: t1 = [Ev (DynGet apiServerGVR (mkNN "cluster" "")) a] ∧
      o = Done r0 ∧ match r0 with Ok p => p | Err _ => TLSProfileIntermediate end = x).
  { intros r x [-> ->]%exec_Ret Hx. by exists r. }
  destruct a as [obj|e]; [|by eapply Hret].
  destruct (jlookup "spec" (u_Object obj)) as [spec|]; cbn; [|by eapply Hret].
  destruct spec as [| | | | |m]; cbn; try by eapply Hret.
  destruct (jlookup "tlsSecurityProfile" m) as [raw|]; cbn; [|by eapply Hret].
  destruct (match raw with JNull => None | _ => Some raw end) as [raw'|] eqn:Hraw; cbn;
    [|destruct raw; try discriminate Hraw; by eapply Hret].
  assert (raw' = raw) as -> by (destruct raw; by simplify_eq).
  assert (Hexec : exec (match Marshal raw with
    | Err _ => Ret (Err (Errorf "failed to marshal TLS profile"))
    | Ok profileBytes => match UnmarshalProfile profileBytes with
        | Err _ => Ret (Err (Errorf "failed to unmarshal TLS profile"))
        | Ok profile => match GetTLSProfileSpec profile with
            | Err _ => Ret (Err (Errorf "failed to resolve TLS profile")) | Ok resolved => Ret (Ok resolved) end end end) t1 o)
    by (destruct raw; [discriminate Hraw|exact He..]).
  destruct (Marshal raw); cbn in *; [|by eapply Hret].
  destruct (UnmarshalProfile _); cbn in *; [|by eapply Hret].
  destruct (GetTLSProfileSpec _); cbn in *; by eapply Hret.
Qed.

(** The answer of the single dynamic read of a trace. *)
Definition dyn_answer (t : list event) : option (result Unstructured) :=
  match t with
  | [Ev q a] => match q in Api R return R → option (result Unstructured) with
                | DynGet _ _ => λ a, Some a | _ => λ _, None end a
  | _ => None
  end.

Lemma settings_of p :
  (∀ c, c ∈ tps_Ciphers p → free_of ":" c = true) →
  postgres_settings p (mkPGTLS (tlsVersionToPostgres (tps_MinTLSVersion p))
                         (opensslCiphersFromProfile (tps_Ciphers p))).
Proof.
  intros Hfree. split; cbn.
  - unfold tlsVersionToPostgres, postgresVersions.
    repeat (match goal with |- context [String.eqb ?x ?y] => destruct (String.eqb_spec x y) as [->|] end;
      [left; set_solver|]). right. set_solver.
  - unfold opensslCiphersFromProfile. destruct (List.filter _ _) as [|c l] eqn:Hf; [done|].
    rewrite <-Hf. apply Split_Join; [by rewrite Hf|].
    apply Forall_forall. intros x Hx. apply Hfree.
    by apply list_elem_of_In, filter_In in Hx as [Hx%list_elem_of_In _].
Qed.

Lemma cipherID_found t id name :
  NoDup (map cs_Name t) → mkCipherSuite id name ∈ t → cipherID t name = Some id.
Proof.
  unfold cipherID. induction t as [|cs t IH]; cbn; [by intros _ ?%elem_of_nil|].
  intros [Hni Hnd]%NoDup_cons [<-|Hin]%elem_of_cons; [by rewrite String.eqb_refl|].
  destruct (String.eqb_spec (cs_Name cs) name) as [Heq|_]; [|by apply IH].
  exfalso. apply Hni. rewrite Heq. by apply (list_elem_of_fmap_2 cs_Name) in Hin.
Qed.

Lemma cipherIDsToIANA_omap ids : cipherIDsToIANA ids = omap (λ id, cipherLookup !! id) ids.
Proof.
  unfold cipherIDsToIANA.
  assert (Hgen : ∀ acc, fold_left (λ names id, match cipherLookup !! id with
    Some name => names ++ [name] | None => names end) ids acc =
    acc ++ omap (λ id, cipherLookup !! id) ids); [|by rewrite Hgen].
  induction ids as [|i ids IH]; intros acc; cbn; [by rewrite app_nil_r|].
  rewrite IH. destruct (cipherLookup !! i); [by rewrite <-app_assoc|done].
Qed.

Lemma cipherLookup_Some id name :
  NoDup (map cs_ID (CipherSuites ++ InsecureCipherSuites)) →
  cipherLookup !! id = Some name ↔ mkCipherSuite id name ∈ CipherSuites ++ InsecureCipherSuites.
Proof.
  unfold cipherLookup. intros Hnd.
  assert (Hgen : ∀ l (m : gmap Z string), NoDup (map cs_ID l) → (∀ cs, cs ∈ l → m !! cs_ID cs = None) →
    fold_left (λ m cs, <[cs_ID cs := cs_Name cs]> m) l m !! id = Some name ↔
    mkCipherSuite id name ∈ l ∨ m !! id = Some name); [|].
  { clear. induction l as [|cs l IH]; intros m Hnd Hm; cbn; [set_solver|].
    cbn in Hnd. apply NoDup_cons in Hnd as [Hni Hnd]. rewrite IH; [|done|].
    - rewrite elem_of_cons. destruct (decide (id = cs_ID cs)) as [->|Hne].
      + rewrite lookup_insert_eq, (Hm cs) by (by left). destruct cs as [i n]; cbn in *.
        split; [intros [?|[= ->]]; eauto|]. intros [[[= ->]|?]|?]; eauto; done.
      + rewrite lookup_insert_ne by done. split; [intros [?|?]; eauto|].
        intros [[Hc|?]|?]; eauto. by rewrite <-Hc in Hne.
    - intros cs' Hcs'. rewrite lookup_insert_ne; [apply Hm; by right|].
      intros Heq. apply Hni. rewrite Heq. by apply list_elem_of_fmap_2. }
  rewrite Hgen by (done || intros; apply lookup_empty). rewrite lookup_empty.
  split; [by intros [?|?]|by left].
Qed.

(** * Theorems *)

(** C39: the database follows the TLS profile of the cluster. The APIServer resource
    is read once, and nothing is written; the database gets the protocol version of
    the profile that resource asks for, and its ciphers without the TLS 1.3 ones
    (PostgreSQL manages these), or a safe cipher string when none is left. When the
    resource cannot be read, asks for no profile or for one that does not resolve,
    the profile is the Intermediate one. *)
Theorem postgres_tls_settings t o :
  exec getPostgresTLSConfig t o →
  ∃ a c, t = [Ev (DynGet apiServerGVR (mkNN "cluster" "")) a] ∧ o = Done c ∧
    (Forall (λ x, free_of ":" x = true) (tps_Ciphers (clusterProfile a)) → postgres_settings (clusterProfile a) c).
Proof.
  unfold getPostgresTLSConfig. intros [(r & t1 & t2 & -> & Hf & [-> ->]%exec_Ret)|(w & Hf & ->)]%exec_bind;
    apply fetch_exec in Hf as (a & r' & -> & Ho & Hp); [|done]. injection Ho as <-.
  exists a. eexists. split; [by rewrite app_nil_r|]. split; [done|]. rewrite <-Hp. intros Hfree.
  apply settings_of. by apply Forall_forall.
Qed.

(** The components are handed exactly the cluster's cipher suites: for a
    toolchain whose suites have distinct identifiers and names, looking each name
    of TLS_CIPHERS up again gives back the suites of the profile that the
    toolchain knows, in order; unknown ones are left out. *)
Theorem cipher_names_roundtrip ids :
  cipher_table (CipherSuites ++ InsecureCipherSuites) →
  Forall (λ cs, free_of "," (cs_Name cs) = true) (CipherSuites ++ InsecureCipherSuites) →
  let known := List.filter (λ id, existsb (λ cs, Z.eqb (cs_ID cs) id) (CipherSuites ++ InsecureCipherSuites)) ids in
  known ≠ [] →
  omap (cipherID (CipherSuites ++ InsecureCipherSuites))
    (Split (Join (cipherIDsToIANA ids) ",") ","%char) = known.
Proof.
  cbv zeta. intros [Hids Hnames] Hfree Hk.
  assert (Hmap : omap (cipherID (CipherSuites ++ InsecureCipherSuites)) (cipherIDsToIANA ids) =
    List.filter (λ id, existsb (λ cs, Z.eqb (cs_ID cs) id) (CipherSuites ++ InsecureCipherSuites)) ids).
  { rewrite cipherIDsToIANA_omap. clear Hk. induction ids as [|id ids IH]; [done|]. cbn.
    destruct (cipherLookup !! id) as [name|] eqn:Hl; cbn.
    - apply cipherLookup_Some in Hl; [|done]. rewrite (cipherID_found _ id name) by done.
      rewrite (proj2 (existsb_elem _ _)); [by rewrite IH|].
      eexists. split; [exact Hl|]. apply Z.eqb_refl.
    - rewrite IH. destruct (existsb _ _) eqn:He; [|done]. exfalso.
      apply existsb_elem in He as ([i n] & Hin & Hi). apply Z.eqb_eq in Hi. cbn in Hi. subst i.
      apply cipherLookup_Some in Hin; [|done]. congruence. }
  rewrite Split_Join; [done| |].
  - intros Hn. by rewrite <-Hmap, Hn in Hk.
  - apply Forall_forall. intros name Hin. rewrite cipherIDsToIANA_omap in Hin.
    apply list_elem_of_omap in Hin as (id & _ & Hl%cipherLookup_Some); [|done].
    by apply (proj1 (Forall_forall _ _) Hfree (mkCipherSuite id name)).
Qed.
End tls_lemmas.

(** * The theorems at concrete inputs *)

#[local] Existing Instance sampleTLSLibrary.

(** A cluster whose profile resolves to one of the tests' own. *)
Definition modernProfile : TLSProfileSpec := mkProfileSpec ["TLS_AES_128_GCM_SHA256"] VersionTLS13.
Definition modernLibrary : TLSLibrary := {|
  TLSSecurityProfile := string;
  Marshal _ := Ok "{}";
  UnmarshalProfile s := Ok s;
  GetTLSProfileSpec _ := Ok modernProfile;
  TLSProfileIntermediate := sampleProfile;
  NewTLSConfigFromProfile _ := mkTLSConfig 772 [4865]%Z;
  CipherSuites := sampleSuites;
  InsecureCipherSuites := []
|}.
Definition modernServer : MemServer :=
  mkServer emptyStore [mkDyn apiServerGVR (mkNN "cluster" "") (mkUnstructured "cluster" None
    [("spec", JMap [("tlsSecurityProfile", JMap [("type", JStr "Modern")])])])] 1 [].
Definition modernSettings : prog PostgresTLSConfig := @getPostgresTLSConfig modernLibrary.

Lemma postgres_tls_settings_witness :
  ∃ c, run_outcome modernSettings modernServer = Done c ∧ postgres_settings modernProfile c ∧
    SSLMinProtocolVersion c = "TLSv1.3".
Proof.
  destruct (@postgres_tls_settings modernLibrary _ _ (run_exec modernSettings modernServer)) as (a & c & Ht & Ho & Hs).
  assert (Ha : @clusterProfile modernLibrary a = modernProfile).
  { apply (f_equal dyn_answer) in Ht. vm_compute in Ht. injection Ht as <-. vm_compute. reflexivity. }
  rewrite Ha in Hs. exists c. split; [exact Ho|]. split.
  - apply Hs. apply (bool_decide_unpack _). vm_compute. exact I.
  - assert (Hc : run_outcome modernSettings modernServer = Done (mkPGTLS "TLSv1.3" "HIGH:!aNULL")) by (vm_compute; reflexivity).
    rewrite Hc in Ho. injection Ho as <-. reflexivity.
Defined.

Lemma cipher_names_roundtrip_witness :
  omap (cipherID (sampleSuites ++ [])) (Split (Join (cipherIDsToIANA [49195; 7; 4865]%Z) ",") ","%char) = [49195; 4865]%Z.
Proof.
  etransitivity; [apply (@cipher_names_roundtrip sampleTLSLibrary [49195; 7; 4865]%Z)|vm_compute; reflexivity].
  - apply (bool_decide_unpack _). vm_compute. exact I.
  - apply (bool_decide_unpack _). vm_compute. exact I.
  - vm_compute. discriminate.
Defined.
