(* ===== verification/SearchCR.v ===== *)
(** How the operator edits its own Search CR: the environment of the search API in
    the spec ([searchAPIEnvVar], [updateSearchApiDeployment],
    [addEnvToSearchAPI]) and the conditions of the status
    ([updateGlobalSearchStatus], [updateStatusCondition],
    [removeStatusCondition], [commitSearchCRInstanceState]); files
    [global_search_setup.go], [fine_grained_rbac.go], [virtual_machines_setup.go]
    and [common.go] under [src/controllers].

    The reconciler passes a pointer to one Search object through all of these.
    Here the object is threaded: each function returns it as it leaves it, which
    after an accepted write is what the server answered. *)
From S2P Require Import Prelude K8s V1alpha1 Effects MemServer Fixtures Common.

Local Open Scope search_scope.

(** * The status *)

(** [commitSearchCRInstanceState] *)
Definition commitSearchCRInstanceState (instance : Search) : prog (option error * Search) :=
  r <- call (StatusUpdate KSearch instance) ;;
  match r with Ok o => Ret (None, o) | Err e => Ret (Some e, instance) end.

(** The conditions with [status] added or put over the first one of type [ty];
    [None] when nothing would change. *)
Definition putCondition (ty : string) (cs : list Condition) (status : Condition) : option (list Condition) :=
  match find_index (λ c, String.eqb (c_Type c) ty) cs with
  | None => Some (cs ++ [status])
  | Some i =>
      match cs !! i with
      | Some c =>
          if negb (String.eqb (c_Status c) (c_Status status)) ||
             negb (String.eqb (c_Reason c) (c_Reason status)) ||
             negb (String.eqb (c_Message c) (c_Message status))
          then Some (<[i := status]> cs) else None
      | None => None
      end
  end.

Definition CONDITION_GLOBAL_SEARCH : string := "GlobalSearchReady".

(** [updateGlobalSearchStatus] *)
Definition updateGlobalSearchStatus (instance : Search) (status : Condition) : prog (option error * Search) :=
  match putCondition CONDITION_GLOBAL_SEARCH (s_Conditions instance) status with
  | None => Ret (None, instance)
  | Some cs => commitSearchCRInstanceState (s_set_Conditions cs instance)
  end.

(** [updateStatusCondition] (virtual_machines_setup.go): the error is logged. *)
Definition updateStatusConditionCR (instance : Search) (status : Condition) : prog Search :=
  match putCondition (c_Type status) (s_Conditions instance) status with
  | None => Ret instance
  | Some cs =>
      r <- commitSearchCRInstanceState (s_set_Conditions cs instance) ;; Ret r.2
  end.

(** [removeStatusCondition] *)
Definition removeStatusCondition (instance : Search) (conditionType : string) : prog (option error * Search) :=
  match find_index (λ c, String.eqb (c_Type c) conditionType) (s_Conditions instance) with
  | Some i => commitSearchCRInstanceState (s_set_Conditions (delete_at i (s_Conditions instance)) instance)
  | None => Ret (None, instance)
  end.

(** [instance.Status.Conditions = append(conds[:i], conds[i+1:]...)] for an index
    computed earlier: out of range it panics. *)
Definition dropCondition (i : nat) (instance : Search) : prog Search :=
  if (i <? length (s_Conditions instance))%nat
  then Ret (s_set_Conditions (delete_at i (s_Conditions instance)) instance)
  else Panic "slice bounds out of range".

(** * The environment of the search API *)

(** [searchAPIEnvVar]: whether no update is needed, and the edited object. *)
Definition searchAPIEnvVar (instance : Search) (inputEnv : EnvVar) : bool * Search :=
  let env := s_QueryAPIEnv instance in
  let enabled := negb (String.eqb (ev_Value inputEnv) "") in
  let existingIndex := find_index (λ e, String.eqb (ev_Name e) (ev_Name inputEnv)) env in
  if enabled then
    match existingIndex with
    | None => (false, s_set_QueryAPIEnv (env ++ [inputEnv]) instance)
    | Some i =>
        match env !! i with
        | Some existingEnv =>
            if negb (String.eqb (ev_Value existingEnv) (ev_Value inputEnv))
            then (false, s_set_QueryAPIEnv
                           (<[i := mkEnvVar (ev_Name existingEnv) (ev_Value inputEnv)
                                     (ev_ValueFrom existingEnv)]> env) instance)
            else (true, instance)
        | None => (true, instance)
        end
    end
  else
    match existingIndex with
    | None => (true, instance)
    | Some i => (false, s_set_QueryAPIEnv (delete_at i env) instance)
    end.

(** [updateSearchApiDeployment] *)
Definition updateSearchApiDeployment (instance : Search) (env : EnvVar) : prog (option error * Search) :=
  let '(needNoUpdate, instance) := searchAPIEnvVar instance env in
  if needNoUpdate then Ret (None, instance)
  else
    r <- call (Update KSearch instance) ;;
    match r with Ok o => Ret (None, o) | Err e => Ret (Some e, instance) end.

Definition SEARCH_GLOBAL_CONFIG : string := "search-global-config".

(** [addEnvToSearchAPI] *)
Definition addEnvToSearchAPI (instance : Search) : prog (stepResult * Search) :=
  r <- call (Get KConfigMap (mkNN SEARCH_GLOBAL_CONFIG (s_Namespace instance))) ;;
  match r with
  | Err e => if IsNotFound e then Ret (stepOk, instance) else Ret (stepErr e, instance)
  | Ok found =>
      u <- updateSearchApiDeployment instance
             (newEnvVar "HUB_NAME" (get_str (cm_Data found) "hubName")) ;;
      match u with
      | (Some e, instance) => Ret (stepErr e, instance)
      | (None, instance) => Ret (stepOk, instance)
      end
  end.

(** * Specification *)

(** The environment with the variable [n] set to [v], or gone when [v] is empty;
    every other variable as it was, in its place. *)
Definition env_set (n v : string) (before after : list EnvVar) : Prop :=
  List.filter (λ e, negb (String.eqb (ev_Name e) n)) after =
    List.filter (λ e, negb (String.eqb (ev_Name e) n)) before ∧
  map ev_Value (List.filter (λ e, String.eqb (ev_Name e) n) after) =
    if String.eqb v "" then [] else [v].

(** The object without the two parts the feature switches edit. *)
Definition rest_of (s : Search) : Search := s_set_Conditions [] (s_set_QueryAPIEnv [] s).

(** Every condition but those of one type. *)
Definition other_conditions (ty : string) (cs : list Condition) : list Condition :=
  List.filter (λ c, negb (String.eqb (c_Type c) ty)) cs.

(** The server stores the Search CR it is sent, and answers with it. *)
Definition stores (e : event) : Prop :=
  match e with
  | Ev q a =>
      match q in Api R return R → Prop with
      | Update k o | StatusUpdate k o => λ a, match a with Ok o' => o' = o | Err _ => True end
      | _ => λ _, True
      end a
  end.

(** The first condition of a type. *)
Definition condition_of (ty : string) (cs : list Condition) : option Condition :=
  find_first (λ c, String.eqb (c_Type c) ty) cs.

(** * Lemmas *)

Lemma find_index_split {A} (p : A → bool) l i :
  find_index p l = Some i →
  ∃ l1 x l2, l = l1 ++ x :: l2 ∧ length l1 = i ∧ p x = true ∧ List.filter p l1 = [].
Proof.
  revert i. induction l as [|x l IH]; intros i; cbn; [done|].
  destruct (p x) eqn:Hx; [intros [= <-]; by exists [], x, l|].
  destruct (find_index p l) as [j|] eqn:Hj; [|done]. intros [= <-].
  destruct (IH j eq_refl) as (l1 & y & l2 & -> & <- & Hy & Hf).
  exists (x :: l1), y, l2. cbn. by rewrite Hx.
Qed.

Lemma filter_none {A} (p : A → bool) l : find_index p l = None → List.filter p l = [].
Proof.
  induction l as [|x l IH]; cbn; [done|]. destruct (p x); [done|].
  destruct (find_index p l); [done|]. auto.
Qed.

Lemma s_QueryAPIEnv_set e s : s_QueryAPIEnv (s_set_QueryAPIEnv e s) = e.
Proof. by destruct s as [m [st c [? ? ? []] ????? ?] ?]. Qed.

Lemma s_Conditions_set cs s : s_Conditions (s_set_Conditions cs s) = cs.
Proof. done. Qed.

Lemma insert_middle {A} (l1 : list A) x y l2 : <[length l1 := y]> (l1 ++ x :: l2) = l1 ++ y :: l2.
Proof. rewrite insert_app_r_alt by lia. by rewrite Nat.sub_diag. Qed.

Lemma lookup_middle {A} (l1 : list A) x l2 : (l1 ++ x :: l2) !! length l1 = Some x.
Proof. by apply list_lookup_middle. Qed.

Section env.
Implicit Types (l : list EnvVar) (n v : string).

Let named n (e : EnvVar) : bool := String.eqb (ev_Name e) n.
Let unnamed n (e : EnvVar) : bool := negb (String.eqb (ev_Name e) n).

Lemma unnamed_all n l : List.filter (named n) l = [] → List.filter (unnamed n) l = l.
Proof.
  unfold named, unnamed. induction l as [|e l IH]; cbn; [done|].
  destruct (String.eqb (ev_Name e) n); cbn; [done|]. intros Hl. by rewrite IH.
Qed.

(** A list in which the variable occurs once, around that occurrence. *)
Lemma env_split n l i :
  find_index (named n) l = Some i → length (List.filter (named n) l) ≤ 1 →
  ∃ l1 e l2, l = l1 ++ e :: l2 ∧ length l1 = i ∧ ev_Name e = n ∧
    List.filter (named n) l1 = [] ∧ List.filter (named n) l2 = [].
Proof.
  intros (l1 & e & l2 & -> & Hi & He & Hl1)%find_index_split Hone. exists l1, e, l2.
  rewrite List.filter_app, Hl1 in Hone. cbn in Hone. rewrite He in Hone. cbn in Hone.
  split_and!; [done..| |done|].
  - unfold named in He. by apply String.eqb_eq in He.
  - by destruct (List.filter (named n) l2); [|cbn in Hone; lia].
Qed.

(** The edits of [searchAPIEnvVar] on the list alone. *)
Lemma env_set_append n v l e :
  List.filter (named n) l = [] → named n e = true → ev_Value e = v → v ≠ "" → env_set n v l (l ++ [e]).
Proof.
  intros Hl He Hv Hne. unfold env_set. rewrite !List.filter_app. cbn.
  change (String.eqb (ev_Name e) n) with (named n e). rewrite He. cbn. rewrite app_nil_r.
  split; [done|]. change (λ e, String.eqb (ev_Name e) n) with (named n). rewrite Hl. cbn.
  by rewrite (proj2 (String.eqb_neq v "") Hne), Hv.
Qed.

Lemma env_set_middle n v l1 e e' l2 :
  List.filter (named n) l1 = [] → List.filter (named n) l2 = [] → named n e = true → named n e' = true →
  ev_Value e' = v → v ≠ "" → env_set n v (l1 ++ e :: l2) (l1 ++ e' :: l2).
Proof.
  intros Hl1 Hl2 He He' Hv Hne. unfold env_set. rewrite !List.filter_app. cbn.
  change (String.eqb (ev_Name e) n) with (named n e). rewrite He.
  change (String.eqb (ev_Name e') n) with (named n e'). rewrite He'. cbn.
  split; [done|]. change (λ e, String.eqb (ev_Name e) n) with (named n). rewrite Hl1, Hl2. cbn.
  by rewrite (proj2 (String.eqb_neq v "") Hne), Hv.
Qed.

Lemma env_set_remove n l1 e l2 :
  List.filter (named n) l1 = [] → List.filter (named n) l2 = [] → named n e = true →
  env_set n "" (l1 ++ e :: l2) (l1 ++ l2).
Proof.
  intros Hl1 Hl2 He. unfold env_set. rewrite !List.filter_app. cbn.
  change (String.eqb (ev_Name e) n) with (named n e). rewrite He. cbn.
  split; [done|]. change (λ e, String.eqb (ev_Name e) n) with (named n). by rewrite Hl1, Hl2.
Qed.
End env.

(** What [searchAPIEnvVar] does, on the environment. *)
Lemma searchAPIEnvVar_env s ev no s' :
  searchAPIEnvVar s ev = (no, s') →
  length (List.filter (λ e, String.eqb (ev_Name e) (ev_Name ev)) (s_QueryAPIEnv s)) ≤ 1 →
  env_set (ev_Name ev) (ev_Value ev) (s_QueryAPIEnv s) (s_QueryAPIEnv s') ∧
  (if no then s' = s else
     s' = s_set_QueryAPIEnv (s_QueryAPIEnv s') s ∧ s_QueryAPIEnv s' ≠ s_QueryAPIEnv s).
Proof.
  unfold searchAPIEnvVar. intros Hs Hone.
  assert (Hn : String.eqb (ev_Name ev) (ev_Name ev) = true) by apply String.eqb_refl.
  destruct (find_index _ _) as [i|] eqn:Hi.
  - destruct (env_split _ _ _ Hi Hone) as (l1 & e & l2 & Hl & <- & He & Hl1 & Hl2).
    assert (Hne : String.eqb (ev_Name e) (ev_Name ev) = true) by by rewrite He.
    rewrite Hl, lookup_middle in Hs. destruct (String.eqb_spec (ev_Value ev) "") as [Hv|Hv]; cbn in Hs.
    + injection Hs as <- <-. rewrite !s_QueryAPIEnv_set, Hl, delete_at_app, Hv.
      split; [by apply env_set_remove|]. split; [done|].
      intros Heq%(f_equal length). rewrite !length_app in Heq. cbn in Heq. lia.
    + rewrite insert_middle in Hs. destruct (String.eqb_spec (ev_Value e) (ev_Value ev)) as [Hve|Hve]; cbn in Hs;
        injection Hs as <- <-.
      * rewrite Hl. split; [|done]. by apply env_set_middle.
      * rewrite !s_QueryAPIEnv_set, Hl. split; [by apply env_set_middle|]. split; [done|].
        intros [_ [= Heq]]%app_inj_1; [|done]. by rewrite <-Heq in Hve.
  - apply filter_none in Hi. destruct (String.eqb_spec (ev_Value ev) "") as [Hv|Hv]; cbn in Hs;
      injection Hs as <- <-.
    + split; [|done]. split; [done|]. by rewrite Hi, Hv.
    + rewrite !s_QueryAPIEnv_set. split; [by apply env_set_append|]. split; [done|].
      intros Heq%(f_equal length). rewrite length_app in Heq. cbn in Heq. lia.
Qed.

(** Nothing is left to do where the variable already is as asked. *)
Lemma searchAPIEnvVar_done s ev l :
  env_set (ev_Name ev) (ev_Value ev) l (s_QueryAPIEnv s) → searchAPIEnvVar s ev = (true, s).
Proof.
  intros [_ Hv]. unfold searchAPIEnvVar.
  destruct (find_index _ _) as [i|] eqn:Hi; [|destruct (String.eqb_spec (ev_Value ev) "") as [Hz|Hz]; [done|]].
  - apply find_index_split in Hi as (l1 & e & l2 & Hl & <- & He & Hl1).
    rewrite Hl, lookup_middle. rewrite Hl, List.filter_app, Hl1 in Hv. cbn in Hv. rewrite He in Hv.
    destruct (String.eqb_spec (ev_Value ev) "") as [Hz|Hz]; cbn in *; [done|].
    injection Hv as -> _. by rewrite String.eqb_refl.
  - apply filter_none in Hi. by rewrite Hi in Hv.
Qed.

Lemma search_api_env_spec_aux s ev no s' :
  searchAPIEnvVar s ev = (no, s') →
  length (List.filter (λ e, String.eqb (ev_Name e) (ev_Name ev)) (s_QueryAPIEnv s)) ≤ 1 →
  env_set (ev_Name ev) (ev_Value ev) (s_QueryAPIEnv s) (s_QueryAPIEnv s') ∧
  s' = s_set_QueryAPIEnv (s_QueryAPIEnv s') s.
Proof.
  intros Hs Hone. destruct (searchAPIEnvVar_env _ _ _ _ Hs Hone) as [Henv Hno]. split; [done|].
  destruct no; [subst s'|by destruct Hno]. by destruct s as [m [st c [? ? ? []] ????? ?] ?].
Qed.

(** Setting one type's first condition, or adding it, keeps the others. *)
Lemma place_condition ty cs status :
  c_Type status = ty →
  let cs' := match find_index (λ c, String.eqb (c_Type c) ty) cs with
             | Some i => <[i := status]> cs | None => cs ++ [status] end in
  other_conditions ty cs' = other_conditions ty cs ∧ condition_of ty cs' = Some status.
Proof.
  intros Hty. assert (Hs : String.eqb (c_Type status) ty = true) by by apply String.eqb_eq.
  unfold other_conditions, condition_of. destruct (find_index _ cs) as [i|] eqn:Hi.
  - apply find_index_split in Hi as (l1 & c & l2 & -> & <- & Hc & Hl1). rewrite insert_middle. split.
    + rewrite !List.filter_app. cbn. by rewrite Hs, Hc.
    + clear -Hl1 Hs. induction l1 as [|y l1 IH]; cbn in *; [by rewrite Hs|].
      destruct (String.eqb (c_Type y) ty); [done|auto].
  - apply filter_none in Hi. rewrite List.filter_app. cbn. rewrite Hs. cbn. rewrite app_nil_r.
    split; [done|]. induction cs as [|c cs IH]; cbn in *; [by rewrite Hs|].
    destruct (String.eqb (c_Type c) ty); [done|auto].
Qed.

(** What [putCondition] leaves: one type's first condition set, the others kept. *)
Lemma putCondition_spec ty cs status :
  c_Type status = ty →
  match putCondition ty cs status with
  | Some cs' => other_conditions ty cs' = other_conditions ty cs ∧ condition_of ty cs' = Some status
  | None => ∃ c, condition_of ty cs = Some c ∧
      c_Status c = c_Status status ∧ c_Reason c = c_Reason status ∧ c_Message c = c_Message status
  end.
Proof.
  intros Hty. assert (Hp := place_condition ty cs status Hty). unfold putCondition.
  destruct (find_index _ cs) as [i|] eqn:Hi; [|done].
  destruct (find_index_split _ _ _ Hi) as (l1 & c & l2 & Hl & Hi1 & Hc & Hl1).
  assert (Hlook : cs !! i = Some c) by by rewrite Hl, <-Hi1, lookup_middle.
  rewrite Hlook. destruct (_ || _ || _) eqn:Hch; [done|]. exists c. split.
  - unfold condition_of. rewrite Hl. clear -Hl1 Hc. induction l1 as [|y l1 IH]; cbn in *; [by rewrite Hc|].
    destruct (String.eqb (c_Type y) ty); [done|auto].
  - split_hyps. by repeat match goal with H : String.eqb _ _ = true |- _ => apply String.eqb_eq in H end.
Qed.

(** The writes of the Search CR, by what a successful execution leaves. *)
Lemma exec_updateSearchApiDeployment s ev t s' :
  exec (updateSearchApiDeployment s ev) t (Done (None, s')) → Forall stores t →
  length (List.filter (λ e, String.eqb (ev_Name e) (ev_Name ev)) (s_QueryAPIEnv s)) ≤ 1 →
  env_set (ev_Name ev) (ev_Value ev) (s_QueryAPIEnv s) (s_QueryAPIEnv s') ∧
  s' = s_set_QueryAPIEnv (s_QueryAPIEnv s') s.
Proof.
  unfold updateSearchApiDeployment. destruct (searchAPIEnvVar s ev) as [no s1] eqn:Hs. intros He Ht Hone.
  enough (s' = s1) as -> by by eapply search_api_env_spec_aux.
  destruct no; [by apply exec_Ret in He as [_ [= ->]]|].
  unfold call in He. cbn [bind] in He. apply exec_Op in He as ([o|e] & t1 & -> & He);
    apply exec_Ret in He as [_ [= ->]]. by apply Forall_cons in Ht as [Ht _].
Qed.

(** Whether or not the write succeeds, the object in memory has the condition. *)
Lemma exec_updateStatusConditionCR s status t s' :
  exec (updateStatusConditionCR s status) t (Done s') → Forall stores t →
  ∃ cs c, s' = s_set_Conditions cs s ∧
    other_conditions (c_Type status) cs = other_conditions (c_Type status) (s_Conditions s) ∧
    condition_of (c_Type status) cs = Some c ∧ c_Status c = c_Status status.
Proof.
  unfold updateStatusConditionCR. intros He Ht.
  assert (Hp := putCondition_spec _ (s_Conditions s) status eq_refl).
  destruct (putCondition _ _ _) as [cs|].
  - destruct Hp as [Ho Hc]. exists cs, status. split_and!; try done.
    unfold commitSearchCRInstanceState, call in He. cbn [bind] in He.
    apply exec_Op in He as ([o|e] & t1 & -> & He); cbn [bind] in He; apply exec_Ret in He as [_ [= ->]];
      [|done]. by apply Forall_cons in Ht as [Ht _].
  - apply exec_Ret in He as [_ [= ->]]. destruct Hp as (c & Hc & Hst & _).
    exists (s_Conditions s), c. split_and!; try done. by destruct s as [? ? []].
Qed.

Lemma exec_removeStatusCondition s ty t s' :
  exec (removeStatusCondition s ty) t (Done (None, s')) → Forall stores t →
  length (List.filter (λ c, String.eqb (c_Type c) ty) (s_Conditions s)) ≤ 1 →
  ∃ cs, s' = s_set_Conditions cs s ∧ other_conditions ty cs = other_conditions ty (s_Conditions s) ∧
    condition_of ty cs = None.
Proof.
  unfold removeStatusCondition. intros He Ht Hone. destruct (find_index _ _) as [i|] eqn:Hi.
  - exists (delete_at i (s_Conditions s)). split.
    + unfold commitSearchCRInstanceState, call in He. cbn [bind] in He.
      apply exec_Op in He as ([o|e] & t1 & -> & He); apply exec_Ret in He as [_ [= ->]].
      by apply Forall_cons in Ht as [Ht _].
    + apply find_index_split in Hi as (l1 & c & l2 & Hl & <- & Hc & Hl1).
      rewrite Hl in Hone |- *. rewrite delete_at_app. unfold other_conditions.
      rewrite !List.filter_app in *. cbn in *. rewrite Hc in *. cbn in *. split; [done|].
      rewrite length_app in Hone. cbn in Hone. apply find_first_is_None.
      intros x [Hx|Hx]%elem_of_app; apply not_true_iff_false; intros Hty.
      * assert (x ∈ List.filter (λ c, String.eqb (c_Type c) ty) l1) as Hin
          by by rewrite list_elem_of_In, filter_In, <-list_elem_of_In.
        rewrite Hl1 in Hin. by apply elem_of_nil in Hin.
      * assert (x ∈ List.filter (λ c, String.eqb (c_Type c) ty) l2) as Hin
          by by rewrite list_elem_of_In, filter_In, <-list_elem_of_In.
        destruct (List.filter _ l2); [by apply elem_of_nil in Hin|cbn in Hone; lia].
  - apply exec_Ret in He as [_ [= ->]]. exists (s_Conditions s). split; [by destruct s as [? ? []]|].
    split; [done|]. clear -Hi. unfold condition_of. induction (s_Conditions s) as [|c cs IH]; [done|].
    cbn in *. destruct (String.eqb (c_Type c) ty); [done|]. destruct (find_index _ cs); [done|auto].
Qed.

(** * Theorems *)

(** Switching a feature of the search API on or off edits the one environment
    variable of the feature and nothing else of the Search CR: the others keep
    their place and value. The answer says whether an update is needed, truly,
    and once the edit is made no further update is needed, so the operator does
    not update its own CR for ever. *)
Theorem search_api_env_spec s ev no s' :
  searchAPIEnvVar s ev = (no, s') →
  length (List.filter (λ e, String.eqb (ev_Name e) (ev_Name ev)) (s_QueryAPIEnv s)) ≤ 1 →
  env_set (ev_Name ev) (ev_Value ev) (s_QueryAPIEnv s) (s_QueryAPIEnv s') ∧
  s' = s_set_QueryAPIEnv (s_QueryAPIEnv s') s ∧
  (no = true ↔ s' = s) ∧
  searchAPIEnvVar s' ev = (true, s').
Proof.
  intros Hs Hone. destruct (searchAPIEnvVar_env _ _ _ _ Hs Hone) as [Henv Hno].
  assert (Hdone := searchAPIEnvVar_done s' ev _ Henv). split; [done|]. destruct no.
  - subst s'. split; [|by split]. by destruct s as [m [st c [? ? ? []] ????? ?] ?].
  - destruct Hno as [Hset Hne]. split; [done|]. split; [|done].
    split; [done|]. intros Heq. by rewrite Heq in Hne.
Qed.

(** The configured hub name reaches the search API: on success, when the
    ConfigMap exists and the server stores what it is sent, the CR the reconciler
    goes on with has HUB_NAME set to the name of the ConfigMap (or no HUB_NAME
    for an empty name), and at most one write was made. *)
Theorem hub_name_propagated {W} `{Server W} (w w1 : W) s cm :
  serve (Get KConfigMap (mkNN SEARCH_GLOBAL_CONFIG (s_Namespace s))) w = (Ok cm, w1) →
  (∀ o, s_Meta o = s_Meta s → ∃ w2, serve (Update KSearch o) w1 = (Ok o, w2)) →
  length (List.filter (λ e, String.eqb (ev_Name e) "HUB_NAME") (s_QueryAPIEnv s)) ≤ 1 →
  ∃ s', run_outcome (addEnvToSearchAPI s) w = Done (stepOk, s') ∧
    env_set "HUB_NAME" (get_str (cm_Data cm) "hubName") (s_QueryAPIEnv s) (s_QueryAPIEnv s') ∧
    s' = s_set_QueryAPIEnv (s_QueryAPIEnv s') s ∧
    length (List.filter ev_write (run_trace (addEnvToSearchAPI s) w)) ≤ 1.
Proof.
  intros Hget Hup Hone. unfold run_outcome, run_trace, addEnvToSearchAPI, updateSearchApiDeployment, call.
  cbn [run bind]. rewrite Hget.
  destruct (searchAPIEnvVar s _) as [no s'] eqn:Hs.
  destruct (search_api_env_spec_aux _ _ _ _ Hs Hone) as [Henv Hset].
  exists s'. destruct no; cbn [run bind]; [cbn; auto|].
  destruct (Hup s') as [w2 Hw]; [by rewrite Hset|]. rewrite Hw. cbn. auto.
Qed.

(** Reporting a condition never loses another one, and a condition that is
    already reported as it should be costs no write. *)
Theorem condition_report_spec s status t o :
  exec (updateGlobalSearchStatus s status) t o → c_Type status = CONDITION_GLOBAL_SEARCH →
  (t = [] ∧ o = Done (None, s) ∧
     ∃ c, condition_of CONDITION_GLOBAL_SEARCH (s_Conditions s) = Some c ∧
       c_Status c = c_Status status ∧ c_Reason c = c_Reason status ∧ c_Message c = c_Message status) ∨
  ∃ cs a, t = [Ev (StatusUpdate KSearch (s_set_Conditions cs s)) a] ∧
    other_conditions CONDITION_GLOBAL_SEARCH cs = other_conditions CONDITION_GLOBAL_SEARCH (s_Conditions s) ∧
    condition_of CONDITION_GLOBAL_SEARCH cs = Some status ∧
    o = Done (match a with Ok o => (None, o) | Err e => (Some e, s_set_Conditions cs s) end).
Proof.
  unfold updateGlobalSearchStatus. intros He Hty.
  assert (Hp := putCondition_spec _ (s_Conditions s) _ Hty). destruct (putCondition _ _ _) as [cs|].
  - right. unfold commitSearchCRInstanceState, call in He. cbn [bind] in He.
    apply exec_Op in He as (a & t1 & -> & He). exists cs, a. destruct Hp.
    destruct a; by apply exec_Ret in He as [-> ->].
  - apply exec_Ret in He as [-> ->]. by left.
Qed.

(** * The theorems at concrete inputs *)

Definition sampleEnv : list EnvVar := [newEnvVar "LOG_LEVEL" "2"; newEnvVar "HUB_NAME" "old"].
Definition sampleWithEnv : Search := s_set_QueryAPIEnv sampleEnv sampleSearch.
Definition hubConfig : ConfigMap := mkConfigMap (newMeta SEARCH_GLOBAL_CONFIG "ocm") (Some {[ "hubName" := "hub1" ]}).

Lemma search_api_env_spec_witness :
  ∃ s', searchAPIEnvVar sampleWithEnv (newEnvVar "HUB_NAME" "hub1") = (false, s') ∧
    env_set "HUB_NAME" "hub1" sampleEnv (s_QueryAPIEnv s').
Proof.
  eexists. split; [reflexivity|].
  apply (search_api_env_spec sampleWithEnv (newEnvVar "HUB_NAME" "hub1") false); [reflexivity|cbn; lia].
Defined.

Definition hubServer : MemServer :=
  serverWith (store_put KSearch sampleWithEnv (store_put KConfigMap hubConfig emptyStore)).

Lemma hub_name_propagated_witness :
  ∃ s', run_outcome (addEnvToSearchAPI sampleWithEnv) hubServer = Done (stepOk, s') ∧
    env_set "HUB_NAME" "hub1" sampleEnv (s_QueryAPIEnv s').
Proof.
  destruct (hub_name_propagated hubServer hubServer sampleWithEnv hubConfig) as (s' & Ho & He & _).
  - reflexivity.
  - intros o Ho. eexists. cbn. unfold mem_put, obj_key. cbn [obj_meta]. rewrite Ho. reflexivity.
  - cbn. lia.
  - exists s'. split; [exact Ho|exact He].
Defined.

Lemma condition_report_spec_witness :
  let c := mkCondition CONDITION_GLOBAL_SEARCH "True" 1 "None" "None" in
  ∃ cs a, run_trace (updateGlobalSearchStatus sampleSearch c) (serverWith emptyStore) =
    [Ev (StatusUpdate KSearch (s_set_Conditions cs sampleSearch)) a].
Proof.
  destruct (condition_report_spec sampleSearch (mkCondition CONDITION_GLOBAL_SEARCH "True" 1 "None" "None") _ _
    (run_exec _ (serverWith emptyStore)) eq_refl) as [[Ht _]|(cs & a & Ht & _)].
  - vm_compute in Ht. discriminate Ht.
  - exists cs, a. exact Ht.
Defined.
