(* ===== verification/Features.v ===== *)
(** The optional features an annotation of the Search CR switches on and off:
    global search ([global_search_setup.go]), virtual machine actions
    ([virtual_machines_setup.go]) and fine-grained RBAC ([fine_grained_rbac.go])
    under [src/controllers].

    Custom resources are read through the dynamic client as decoded JSON; a type
    assertion without [ok] that fails, and a use of the nil list that a failed
    listing leaves, panic. *)
From S2P Require Import Prelude GoStrings K8s V1alpha1 Effects MemServer Fixtures Common Networks SearchCR.

Local Open Scope search_scope.

(** * JSON access *)

(** [m[k]] compared with [nil]: missing and null alike. *)
Definition field (k : string) (m : list (string * json)) : json := default JNull (jlookup k m).

(** [v.(map[string]interface{})] and [v.([]interface{})] *)
Definition as_map (v : json) : prog (list (string * json)) :=
  match v with JMap m => Ret m | _ => Panic "interface conversion" end.
Definition as_list (v : json) : prog (list json) :=
  match v with JList l => Ret l | _ => Panic "interface conversion" end.

(** [v == "s"] on interface values. *)
Definition is_str (s : string) (v : json) : bool :=
  match v with JStr s' => String.eqb s' s | _ => false end.
Definition is_true (v : json) : bool := match v with JBool b => b | _ => false end.
Definition is_nil (v : json) : bool := match v with JNull => true | _ => false end.

(** * Resources *)

Definition SEARCH_GLOBAL : string := "search-global".
Definition MANAGED_SERVICE_ACCOUNT_ADDON_NAME : string := "managed-serviceaccount".
Definition CONDITION_VM_ACTIONS : string := "VirtualMachineActionsReady".
Definition CONDITION_FINE_GRAINED_RBAC : string := "FineGrainedRBACReady".
Definition clusterPermissionName : string := "virtual-machine-actions".
Definition managedSAName : string := "vm-actor".

Definition multiclusterGlobalHubGvr : GroupVersionResource :=
  mkGVR "operator.open-cluster-management.io" "v1alpha4" "multiclusterglobalhubs".
Definition managedClusterResourceGvr : GroupVersionResource :=
  mkGVR "cluster.open-cluster-management.io" "v1" "managedclusters".
Definition managedServiceAccountGvr : GroupVersionResource :=
  mkGVR "authentication.open-cluster-management.io" "v1beta1" "managedserviceaccounts".
Definition manifestWorkGvr : GroupVersionResource :=
  mkGVR "work.open-cluster-management.io" "v1" "manifestworks".
Definition managedClustrAddonGvr : GroupVersionResource :=
  mkGVR "addon.open-cluster-management.io" "v1alpha1" "managedclusteraddons".
Definition clusterPermissionGvr : GroupVersionResource :=
  mkGVR "rbac.open-cluster-management.io" "v1alpha1" "clusterpermissions".
Definition configmapsGvr : GroupVersionResource := mkGVR "" "v1" "configmaps".

Definition appSearchLabels : smap := {[ "app" := "search"; "feature" := "global-search" ]}.
Definition appSearchVMLabels : smap := {[ "app" := "search"; "feature" := "virtual-machine" ]}.

(** A label map as a JSON value. *)
Definition labels_json (l : list (string * string)) : json := JMap (map (λ kv, (kv.1, JStr kv.2)) l).
Definition appSearchLabels_json : json := labels_json [("app", "search"); ("feature", "global-search")].

(** * Errors collected on the way *)

(** [logAndTrackError] *)
Definition logAndTrackError (errorList : list error) (err : option error) : list error :=
  match err with Some e => errorList ++ [e] | None => errorList end.

(** [if len(errList) > 0 { return fmt.Errorf(msg + "%v", errList) }] *)
Definition combineErrors (msg : string) (errList : list error) : option error :=
  match errList with
  | [] => None
  | _ => Some (Errorf (msg +:+ sprint_strings (map err_msg errList)))
  end.

(** * Add-ons of the multicluster engine *)

(** The loop over the components of the engine: whether the two add-ons are on. *)
Fixpoint scanComponents (components : list json) (acc : bool * bool) : prog (bool * bool) :=
  match components with
  | [] => Ret acc
  | component :: rest =>
      m <- as_map component ;;
      let on (name : string) := is_str name (field "name" m) && is_true (field "enabled" m) in
      scanComponents rest (acc.1 || on "managedserviceaccount", acc.2 || on "cluster-proxy-addon")
  end.

(** The part the two validations share: the engine exists and has both add-ons
    enabled; the names they give the add-ons in errors differ. *)
Definition validateEngine (msaName proxyName : string) : prog (option error) :=
  mces <- call (DynList multiclusterengineResourceGvr) ;;
  match mces with
  | Err _ | Ok [] => Ret (Some (Errorf "failed to validate dependency MulticlusterEngine operator"))
  | Ok (mce :: _) =>
      spec <- as_map (field "spec" (u_Object mce)) ;;
      overrides <- as_map (field "overrides" spec) ;;
      components <- as_list (field "components" overrides) ;;
      en <- scanComponents components (false, false) ;;
      let '(managedServiceAccountEnabled, clusterProxyEnabled) := en in
      if negb managedServiceAccountEnabled then
        Ret (Some (Errorf ("the " +:+ msaName +:+ " is not enabled in MulticlusterEngine")))
      else if negb clusterProxyEnabled then
        Ret (Some (Errorf ("the " +:+ proxyName +:+ " is not enabled in MulticlusterEngine")))
      else Ret None
  end.

(** [validateGlobalSearchDependencies]: only a failing listing of the global hubs
    is an error, an empty one is not. *)
Definition validateGlobalSearchDependencies : prog (option error) :=
  r <- call (DynList multiclusterGlobalHubGvr) ;;
  match r with
  | Err _ => Ret (Some (Errorf "failed to validate dependency MulticlusterGlobalHub operator"))
  | Ok _ => validateEngine "managedserviceaccount add-on" "cluster-proxy-addon"
  end.

(** [validateVirtualMachineDependencies] *)
Definition validateVirtualMachineDependencies : prog (option error) :=
  validateEngine "Managed Service Account add-on" "Cluster Proxy add-on".

(** * Console flags *)

(** The common body of [updateConsoleConfig] and [updateConsoleConfigVM]. *)
Definition setConsoleFlag (key : string) (enabled : bool) (namespace name : string) : prog (option error) :=
  r <- call (DynGet configmapsGvr (mkNN name namespace)) ;;
  match r with
  | Err _ => Ret (Some (Errorf ("error getting configmap " +:+ name +:+ " in namespace " +:+ namespace)))
  | Ok consoleConfig =>
      data <- as_map (field "data" (u_Object consoleConfig)) ;;
      let existingEnabled := is_str "enabled" (field key data) in
      let write (data : list (string * json)) :=
        call (DynUpdate configmapsGvr namespace
                (mkUnstructured (u_Name consoleConfig) (u_Labels consoleConfig)
                   (jset "data" (JMap data) (u_Object consoleConfig)))) in
      if enabled && negb existingEnabled then write (jset key (JStr "enabled") data)
      else if negb enabled && existingEnabled then write (jdelete key data)
      else Ret None
  end.

(** [updateConsoleConfig] *)
Definition updateConsoleConfig (enabled : bool) (namespace name : string) : prog (option error) :=
  setConsoleFlag "globalSearchFeatureFlag" enabled namespace name.

Section features.
Context `{NestedFields}.

(** The engine's namespace, or the default when it cannot be told. *)
Definition mceNamespaceOr (r : result string) : string :=
  match r with Ok ns => ns | Err _ => "multicluster-engine" end.
Definition err_of {A} (r : result A) : option error := match r with Ok _ => None | Err e => Some e end.

(** [updateConsoleConfigVM] *)
Definition updateConsoleConfigVM (enabled : bool) : prog (option error) :=
  r <- getMCETargetNamespace ;;
  setConsoleFlag "VIRTUAL_MACHINE_ACTIONS" enabled (mceNamespaceOr r) "console-mce-config".

(** * Per-cluster resources *)

(** Create, taking an existing object for a success. *)
Definition createUnlessExists (gvr : GroupVersionResource) (ns : string) (u : Unstructured) : prog (option error) :=
  r <- call (DynCreate gvr ns u) ;;
  match r with
  | Some e => if IsAlreadyExists e then Ret None else Ret (Some e)
  | None => Ret None
  end.

Definition managedServiceAccount (name : string) (labels : smap) : Unstructured :=
  mkUnstructured name (Some labels)
    [("apiVersion", JStr "authentication.open-cluster-management.io/v1beta1");
     ("kind", JStr "ManagedServiceAccount");
     ("spec", JMap [("rotation", JMap [])])].

(** [createManagedServiceAccount] *)
Definition createManagedServiceAccount (cluster : string) : prog (option error) :=
  createUnlessExists managedServiceAccountGvr cluster (managedServiceAccount SEARCH_GLOBAL appSearchLabels).

Definition globalManifestWork (cluster namespace : string) (msaInstallNamespace : json) : Unstructured :=
  mkUnstructured SEARCH_GLOBAL_CONFIG (Some appSearchLabels)
    [("apiVersion", JStr "work.open-cluster-management.io/v1");
     ("kind", JStr "ManifestWork");
     ("spec", JMap [("workload", JMap [("manifests", JList [
        JMap [("apiVersion", JStr "rbac.authorization.k8s.io/v1");
              ("kind", JStr "ClusterRoleBinding");
              ("metadata", JMap [("name", JStr "search-global-binding"); ("labels", appSearchLabels_json)]);
              ("roleRef", JMap [("apiGroup", JStr "rbac.authorization.k8s.io");
                                ("kind", JStr "ClusterRole"); ("name", JStr "global-search-user")]);
              ("subjects", JList [JMap [("kind", JStr "ServiceAccount"); ("name", JStr SEARCH_GLOBAL);
                                        ("namespace", msaInstallNamespace)]])];
        JMap [("apiVersion", JStr "v1"); ("kind", JStr "ConfigMap");
              ("metadata", JMap [("name", JStr SEARCH_GLOBAL_CONFIG); ("labels", appSearchLabels_json);
                                 ("namespace", JStr namespace)]);
              ("data", JMap [("hubName", JStr cluster)])]])])])].

(** [createManifestWork] *)
Definition createManifestWork (cluster namespace : string) : prog (option error) :=
  r <- call (DynGet managedClustrAddonGvr (mkNN MANAGED_SERVICE_ACCOUNT_ADDON_NAME cluster)) ;;
  let where_ := cluster +:+ "/" +:+ MANAGED_SERVICE_ACCOUNT_ADDON_NAME in
  match r with
  | Err e => Ret (Some (Errorf ("failed to get the managedserviceaccount " +:+ where_ +:+ ": " +:+ err_msg e)))
  | Ok msa =>
      let unset := Ret (Some (Errorf ("the status.namespace of managedserviceaccount " +:+ where_ +:+ " is not set"))) in
      if is_nil (field "status" (u_Object msa)) then unset
      else
        status <- as_map (field "status" (u_Object msa)) ;;
        if is_nil (field "namespace" status) then unset
        else createUnlessExists manifestWorkGvr cluster
               (globalManifestWork cluster namespace (field "namespace" status))
  end.

(** The scan of the cluster claims, which stops at the first that tells a hub. *)
Fixpoint anyHubClaim (claims : list json) : prog bool :=
  match claims with
  | [] => Ret false
  | claim :: rest =>
      m <- as_map claim ;;
      if is_str "hub.open-cluster-management.io" (field "name" m) && negb (is_str "NotInstalled" (field "value" m))
      then Ret true else anyHubClaim rest
  end.

(** Whether a listed cluster is a remote managed hub. *)
Definition clusterIsHub (cluster : Unstructured) : prog bool :=
  if String.eqb (get_str (u_Labels cluster) "local-cluster") "true" then Ret false
  else if is_nil (field "status" (u_Object cluster)) then Ret false
  else
    status <- as_map (field "status" (u_Object cluster)) ;;
    if is_nil (field "clusterClaims" status) then Ret false
    else claims <- as_list (field "clusterClaims" status) ;; anyHubClaim claims.

(** One iteration of the loop of [enableGlobalSearch]. *)
Definition configureHub (namespace : string) (errList : list error) (cluster : Unstructured) : prog (list error) :=
  isManagedHub <- clusterIsHub cluster ;;
  if negb isManagedHub then Ret errList
  else
    e1 <- createManagedServiceAccount (u_Name cluster) ;;
    e2 <- createManifestWork (u_Name cluster) namespace ;;
    Ret (logAndTrackError (logAndTrackError errList e1) e2).

(** Steps 1 and 2 of enabling and of disabling: the console flags and the search
    API, errors collected. *)
Definition switchGlobalSearch (enabled : bool) (instance : Search) : prog (list error * Search) :=
  mce <- getMCETargetNamespace ;;
  let errs := logAndTrackError [] (err_of mce) in
  e1 <- updateConsoleConfig enabled (mceNamespaceOr mce) "console-mce-config" ;;
  let errs := logAndTrackError errs e1 in
  e2 <- updateConsoleConfig enabled (s_Namespace instance) "console-config" ;;
  let errs := logAndTrackError errs e2 in
  r <- updateSearchApiDeployment instance
         (newEnvVar "FEATURE_FEDERATED_SEARCH" (if enabled then "true" else "")) ;;
  Ret (logAndTrackError errs r.1, r.2).

(** [enableGlobalSearch] *)
Definition enableGlobalSearch (instance : Search) : prog (option error * Search) :=
  s <- switchGlobalSearch true instance ;;
  let '(errs, instance) := s in
  clusterList <- call (DynList managedClusterResourceGvr) ;;
  let errs := logAndTrackError errs (err_of clusterList) in
  errs <- match clusterList with
          | Ok items => foldM (configureHub (s_Namespace instance)) errs items
          | Err _ => Ret errs
          end ;;
  Ret (combineErrors "failed to enable global search. Errors: " errs, instance).

(** Delete, taking a missing object for a success. *)
Definition deleteIfExists (gvr : GroupVersionResource) (n : NamespacedName) : prog (option error) :=
  r <- call (DynDelete gvr n) ;;
  match r with
  | Some e => if negb (IsNotFound e) then Ret (Some e) else Ret None
  | None => Ret None
  end.

(** The loop of the two disabling functions: in the namespace of every cluster the
    two resources are deleted. *)
Definition deletePair (gvr1 : GroupVersionResource) (name1 : string) (gvr2 : GroupVersionResource)
    (name2 : string) (errList : list error) (cluster : Unstructured) : prog (list error) :=
  e1 <- deleteIfExists gvr1 (mkNN name1 (u_Name cluster)) ;;
  e2 <- deleteIfExists gvr2 (mkNN name2 (u_Name cluster)) ;;
  Ret (logAndTrackError (logAndTrackError errList e1) e2).

(** Ranging over the items of the listing; a failed listing answers nil, whose
    items cannot be read. *)
Definition forClusters (clusterList : result (list Unstructured)) (errs : list error)
    (body : list error → Unstructured → prog (list error)) : prog (list error) :=
  match clusterList with
  | Err _ => Panic "invalid memory address or nil pointer dereference"
  | Ok items => foldM body errs items
  end.

(** [disableGlobalSearch] *)
Definition disableGlobalSearch (instance : Search) : prog (option error * Search) :=
  s <- switchGlobalSearch false instance ;;
  let '(errs, instance) := s in
  clusterList <- call (DynList managedClusterResourceGvr) ;;
  errs <- forClusters clusterList (logAndTrackError errs (err_of clusterList))
            (deletePair managedServiceAccountGvr SEARCH_GLOBAL manifestWorkGvr SEARCH_GLOBAL_CONFIG) ;;
  Ret (combineErrors "failed to disable global search. Errors: " errs, instance).

(** A condition stamped with the time of the call. *)
Definition newCondition (ty status reason message : string) : prog Condition :=
  now <- call Now ;; Ret (mkCondition ty status now reason message).

(** [reconcileGlobalSearch] *)
Definition reconcileGlobalSearch (instance : Search) : prog (stepResult * Search) :=
  if String.eqb (get_str (s_Annotations instance) "global-search-preview") "true" then
    v <- validateGlobalSearchDependencies ;;
    match v with
    | Some err => Ret (stepErr err, instance)
    | None =>
        r <- enableGlobalSearch instance ;;
        let '(err, instance) := r in
        c <- match err with
             | Some e => newCondition CONDITION_GLOBAL_SEARCH "False" "GlobalSearchSetupFailed"
                           ("Failed to enable global search. " +:+ err_msg e)
             | None => newCondition CONDITION_GLOBAL_SEARCH "True" "None" "None"
             end ;;
        u <- updateGlobalSearchStatus instance c ;;
        Ret ((Some emptyResult, None), u.2)
    end
  else
    match find_index (λ c, String.eqb (c_Type c) CONDITION_GLOBAL_SEARCH) (s_Conditions instance) with
    | None => Ret ((Some emptyResult, None), instance)
    | Some globalSearchConditionIndex =>
        r <- disableGlobalSearch instance ;;
        let '(err, instance) := r in
        match err with
        | Some e =>
            c <- newCondition CONDITION_GLOBAL_SEARCH "False" "GlobalSearchCleanupFailed"
                   ("Failed to disable global search. " +:+ err_msg e) ;;
            u <- updateGlobalSearchStatus instance c ;;
            Ret (stepErr e, u.2)
        | None =>
            instance <- dropCondition globalSearchConditionIndex instance ;;
            u <- commitSearchCRInstanceState instance ;;
            match u with
            | (Some e, instance) => Ret (stepErr e, instance)
            | (None, instance) => Ret ((Some emptyResult, None), instance)
            end
        end
    end.

(** * Virtual machine actions *)

(** [createVMManagedServiceAccount] *)
Definition createVMManagedServiceAccount (cluster : string) : prog (option error) :=
  createUnlessExists managedServiceAccountGvr cluster (managedServiceAccount managedSAName appSearchVMLabels).

Definition json_strings (l : list string) : json := JList (map JStr l).
Definition permissionRule (group : string) (resources verbs : list string) : json :=
  JMap [("apiGroups", json_strings [group]); ("resources", json_strings resources); ("verbs", json_strings verbs)].

Definition vmClusterPermission : Unstructured :=
  mkUnstructured clusterPermissionName (Some appSearchVMLabels)
    [("apiVersion", JStr "rbac.open-cluster-management.io/v1alpha1");
     ("kind", JStr "ClusterPermission");
     ("spec", JMap [
        ("clusterRole", JMap [("rules", JList [
           permissionRule "subresources.kubevirt.io"
             ["virtualmachines/start"; "virtualmachines/stop"; "virtualmachines/restart";
              "virtualmachineinstances/pause"; "virtualmachineinstances/unpause"] ["update"];
           permissionRule "snapshot.kubevirt.io" ["virtualmachinesnapshots"] ["create"; "delete"];
           permissionRule "snapshot.kubevirt.io" ["virtualmachinerestores"] ["create"; "delete"]])]);
        ("clusterRoleBinding", JMap [("subject", JMap [
           ("kind", JStr "ServiceAccount"); ("name", JStr managedSAName);
           ("namespace", JStr "open-cluster-management-agent-addon")])])])].

(** [createVMClusterPermission] *)
Definition createVMClusterPermission (cluster : string) : prog (option error) :=
  createUnlessExists clusterPermissionGvr cluster vmClusterPermission.

(** One iteration of the loop of [configureVirtualMachineActions]. *)
Definition configureVMCluster (errList : list error) (cluster : Unstructured) : prog (list error) :=
  e1 <- createVMManagedServiceAccount (u_Name cluster) ;;
  e2 <- createVMClusterPermission (u_Name cluster) ;;
  Ret (logAndTrackError (logAndTrackError errList e1) e2).

(** [configureVirtualMachineActions] *)
Definition configureVirtualMachineActions : prog (option error) :=
  e <- updateConsoleConfigVM true ;;
  clusterList <- call (DynList managedClusterResourceGvr) ;;
  let errs := logAndTrackError (logAndTrackError [] e) (err_of clusterList) in
  errs <- match clusterList with
          | Ok items => foldM configureVMCluster errs items
          | Err _ => Ret errs
          end ;;
  Ret (combineErrors "failed to configure virtual machine actions. Errors: " errs).

(** [disableVirtualMachineActions] *)
Definition disableVirtualMachineActions : prog (option error) :=
  e <- updateConsoleConfigVM false ;;
  clusterList <- call (DynList managedClusterResourceGvr) ;;
  errs <- forClusters clusterList (logAndTrackError (logAndTrackError [] e) (err_of clusterList))
            (deletePair managedServiceAccountGvr managedSAName clusterPermissionGvr clusterPermissionName) ;;
  Ret (combineErrors "failed to disable virtual machine actions. Errors: " errs).

(** [reconcileVirtualMachineConfiguration] *)
Definition reconcileVirtualMachineConfiguration (instance : Search) : prog (stepResult * Search) :=
  if String.eqb (get_str (s_Annotations instance) "virtual-machine-preview") "true" then
    v <- validateVirtualMachineDependencies ;;
    match v with
    | Some err => Ret (stepErr err, instance)
    | None =>
        err <- configureVirtualMachineActions ;;
        match err with
        | Some e =>
            c <- newCondition CONDITION_VM_ACTIONS "False" "ConfigurationError"
                   "Failed to configure virtual machine actions." ;;
            instance <- updateStatusConditionCR instance c ;;
            Ret (stepErr e, instance)
        | None =>
            c <- newCondition CONDITION_VM_ACTIONS "True" "None" "Virtual machine actions are enabled." ;;
            instance <- updateStatusConditionCR instance c ;;
            Ret ((Some emptyResult, None), instance)
        end
    end
  else
    match find_index (λ c, String.eqb (c_Type c) CONDITION_VM_ACTIONS) (s_Conditions instance) with
    | None => Ret ((Some emptyResult, None), instance)
    | Some vmActionsConditionIndex =>
        err <- disableVirtualMachineActions ;;
        match err with
        | Some e =>
            c <- newCondition CONDITION_VM_ACTIONS "False" "ConfigurationError"
                   "Failed to remove configuration for virtual machine actions." ;;
            instance <- updateStatusConditionCR instance c ;;
            Ret (stepErr e, instance)
        | None =>
            instance <- dropCondition vmActionsConditionIndex instance ;;
            u <- commitSearchCRInstanceState instance ;;
            match u with
            | (Some e, instance) => Ret (stepErr e, instance)
            | (None, instance) => Ret ((Some emptyResult, None), instance)
            end
        end
    end.

(** * Fine-grained RBAC *)

(** [reconcileFineGrainedRBACConfiguration] *)
Definition reconcileFineGrainedRBACConfiguration (instance : Search) : prog (stepResult * Search) :=
  if String.eqb (get_str (s_Annotations instance) "fine-grained-rbac") "true" then
    r <- updateSearchApiDeployment instance (newEnvVar "FEATURE_FINE_GRAINED_RBAC" "true") ;;
    let '(err, instance) := r in
    match err with
    | Some e =>
        c <- newCondition CONDITION_FINE_GRAINED_RBAC "False" "ConfigurationError"
               "Failed to enable fine-grained RBAC." ;;
        instance <- updateStatusConditionCR instance c ;;
        Ret (stepErr e, instance)
    | None =>
        c <- newCondition CONDITION_FINE_GRAINED_RBAC "True" "None" "Fine-grained RBAC enabled." ;;
        instance <- updateStatusConditionCR instance c ;;
        Ret ((Some emptyResult, None), instance)
    end
  else
    r <- updateSearchApiDeployment instance (newEnvVar "FEATURE_FINE_GRAINED_RBAC" "") ;;
    let '(err, instance) := r in
    match err with
    | Some e => Ret (stepErr e, instance)
    | None =>
        u <- removeStatusCondition instance CONDITION_FINE_GRAINED_RBAC ;;
        match u with
        | (Some e, instance) => Ret (stepErr e, instance)
        | (None, instance) => Ret ((Some emptyResult, None), instance)
        end
    end.
End features.

(** * Specification *)

(** The answer of a creation or deletion that leaves things as wanted. *)
Definition created (a : option error) : Prop :=
  match a with None => True | Some e => IsAlreadyExists e = true end.
Definition deleted (a : option error) : Prop :=
  match a with None => True | Some e => IsNotFound e = true end.

(** In the namespace of the hub [c] the service account was requested, and when no
    error is reported both it and the manifest work are there. *)
Definition hub_configured (namespace : string) (clean : Prop) (t : list event) (c : Unstructured) : Prop :=
  (∃ a, Ev (DynCreate managedServiceAccountGvr (u_Name c) (managedServiceAccount SEARCH_GLOBAL appSearchLabels)) a ∈ t ∧
        (clean → created a)) ∧
  (clean → ∃ msa a, Ev (DynCreate manifestWorkGvr (u_Name c) (globalManifestWork (u_Name c) namespace msa)) a ∈ t ∧
                    created a).

(** In the namespace of the cluster [c] both resources were deleted. *)
Definition pair_deleted (gvr1 : GroupVersionResource) (name1 : string) (gvr2 : GroupVersionResource)
    (name2 : string) (clean : Prop) (t : list event) (c : Unstructured) : Prop :=
  (∃ a, Ev (DynDelete gvr1 (mkNN name1 (u_Name c))) a ∈ t ∧ (clean → deleted a)) ∧
  (∃ a, Ev (DynDelete gvr2 (mkNN name2 (u_Name c))) a ∈ t ∧ (clean → deleted a)).

(** An engine whose two add-ons are enabled. *)
Definition addon_on (name : string) (c : json) : Prop :=
  ∃ m, c = JMap m ∧ field "name" m = JStr name ∧ field "enabled" m = JBool true.
Definition engine_ready (mce : Unstructured) : Prop :=
  ∃ spec overrides components, field "spec" (u_Object mce) = JMap spec ∧
    field "overrides" spec = JMap overrides ∧ field "components" overrides = JList components ∧
    Exists (addon_on "managedserviceaccount") components ∧ Exists (addon_on "cluster-proxy-addon") components.

(** A trace that has shown a ready engine. *)
Definition shown_ready (t : list event) : Prop :=
  ∃ mce rest, Ev (DynList multiclusterengineResourceGvr) (Ok (mce :: rest)) ∈ t ∧ engine_ready mce.

(** The listing of the clusters failed. *)
Definition failed_listing (e : event) : bool :=
  match e with
  | Ev q a =>
      match q in Api R return R → bool with
      | DynList r => λ a, bool_decide (r = managedClusterResourceGvr) &&
                          match a with Ok _ => false | Err _ => true end
      | _ => λ _, false
      end a
  end.

(** * Lemmas *)

#[export] Instance hub_configured_proper ns : Proper (iff ==> eq ==> eq ==> iff) (hub_configured ns).
Proof. intros P P' HP t ? <- c ? <-. unfold hub_configured. by setoid_rewrite HP. Qed.

#[export] Instance pair_deleted_proper g1 n1 g2 n2 :
  Proper (iff ==> eq ==> eq ==> iff) (pair_deleted g1 n1 g2 n2).
Proof. intros P P' HP t ? <- c ? <-. unfold pair_deleted. by setoid_rewrite HP. Qed.

(** What a body that processes one element establishes, a loop establishes for
    all of them; [P] must not be lost by later requests. *)
Lemma exec_foldM_all {S A} (body : S → A → prog S) (Q : S → A → list event → S → Prop)
    (P : S → A → list event → Prop) s l t s' :
  exec (foldM body s l) t (Done s') →
  (∀ s x t s', exec (body s x) t (Done s') → Q s x t s') →
  (∀ s x t1 t t2 s1 s', Q s x t s1 → (∃ l', exec (foldM body s1 l') t2 (Done s')) → P s' x (t1 ++ t ++ t2)) →
  ∀ x, x ∈ l → P s' x t.
Proof.
  intros He HQ HP. enough (Hgen : ∀ t0 x, x ∈ l → P s' x (t0 ++ t)) by (intros x Hx; by apply (Hgen [])).
  revert s t He. induction l as [|y l IH]; intros s t He t0 x Hx; [by apply elem_of_nil in Hx|].
  cbn [foldM] in He. apply exec_bind in He as [(s1 & t1 & t2 & -> & Hy & Hl)|(w & _ & ?)]; [|done].
  apply elem_of_cons in Hx as [->|Hx].
  - apply (HP s y t0 t1 t2 s1 s'); [by apply HQ|by exists l].
  - specialize (IH s1 t2 Hl (t0 ++ t1) x Hx). by rewrite <-app_assoc in IH.
Qed.

Lemma combineErrors_None msg errs : combineErrors msg errs = None ↔ errs = [].
Proof. by destruct errs. Qed.

Lemma logAndTrackError_nil errs e : logAndTrackError errs e = [] ↔ errs = [] ∧ e = None.
Proof. destruct e, errs; cbn; split; intros; split_hyps; done. Qed.

Section features_lemmas.
Context `{NestedFields}.

(** A step that only adds errors. *)
Lemma exec_createUnlessExists gvr ns u t r :
  exec (createUnlessExists gvr ns u) t (Done r) →
  ∃ a, t = [Ev (DynCreate gvr ns u) a] ∧ (r = None → created a).
Proof.
  unfold createUnlessExists, call. cbn [bind]. intros (a & t1 & -> & He)%exec_Op. exists a.
  destruct a as [e|]; [destruct (IsAlreadyExists e) eqn:Ha|]; apply exec_Ret in He as [-> [= ->]]; done.
Qed.

Lemma exec_deleteIfExists gvr n t r :
  exec (deleteIfExists gvr n) t (Done r) →
  ∃ a, t = [Ev (DynDelete gvr n) a] ∧ (r = None → deleted a).
Proof.
  unfold deleteIfExists, call. cbn [bind]. intros (a & t1 & -> & He)%exec_Op. exists a.
  destruct a as [e|]; [destruct (IsNotFound e) eqn:Ha; cbn [negb] in He|];
    apply exec_Ret in He as [-> [= ->]]; done.
Qed.

Lemma exec_createManifestWork cluster ns t :
  exec (createManifestWork cluster ns) t (Done None) →
  ∃ msa a, Ev (DynCreate manifestWorkGvr cluster (globalManifestWork cluster ns msa)) a ∈ t ∧ created a.
Proof.
  unfold createManifestWork, call. cbn [bind]. intros ([msa|e] & t1 & -> & He)%exec_Op;
    [|by apply exec_Ret in He as [_ ?]].
  destruct (is_nil (field "status" (u_Object msa))); [by apply exec_Ret in He as [_ ?]|].
  destruct (field "status" (u_Object msa)); cbn [as_map bind] in He;
    try by apply exec_Panic in He as [_ ?].
  destruct (is_nil (field "namespace" m)); [by apply exec_Ret in He as [_ ?]|].
  apply exec_createUnlessExists in He as (a & -> & Ha). exists (field "namespace" m), a.
  split; [right; left|by apply Ha].
Qed.

Lemma exec_configureHub ns errs c t errs' :
  exec (configureHub ns errs c) t (Done errs') →
  (errs' = [] → errs = []) ∧ (clusterIsHub c = Ret true → hub_configured ns (errs' = []) t c).
Proof.
  unfold configureHub. intros He. apply exec_bind in He as [(hub & t0 & t1 & -> & Hhub & He)|(w & _ & ?)]; [|done].
  destruct hub; cbn [negb] in He.
  2: { apply exec_Ret in He as [-> [= ->]]. split; [done|]. intros Ht. rewrite Ht in Hhub.
       by apply exec_Ret in Hhub as [_ ?]. }
  apply exec_bind in He as [(e1 & t2 & t3 & -> & H1 & He)|(w & _ & ?)]; [|done].
  apply exec_bind in He as [(e2 & t4 & t5 & -> & H2 & He)|(w & _ & ?)]; [|done].
  apply exec_Ret in He as [-> [= ->]]. rewrite !logAndTrackError_nil. split; [tauto|].
  intros _. apply exec_createUnlessExists in H1 as (a & -> & Ha). split.
  - exists a. split; [apply elem_of_app; right; left|]. intros [[_ ?] _]. by apply Ha.
  - intros [_ ->]. apply exec_createManifestWork in H2 as (msa & a' & Hin & Ha'). exists msa, a'.
    split; [|done]. rewrite !elem_of_app. tauto.
Qed.

Lemma exec_deletePair g1 n1 g2 n2 errs c t errs' :
  exec (deletePair g1 n1 g2 n2 errs c) t (Done errs') →
  (errs' = [] → errs = []) ∧ pair_deleted g1 n1 g2 n2 (errs' = []) t c.
Proof.
  unfold deletePair. intros [(e1 & t1 & t2 & -> & H1 & He)|(w & _ & ?)]%exec_bind; [|done].
  apply exec_bind in He as [(e2 & t3 & t4 & -> & H2 & He)|(w & _ & ?)]; [|done].
  apply exec_Ret in He as [-> [= ->]]. rewrite !logAndTrackError_nil. split; [tauto|].
  apply exec_deleteIfExists in H1 as (a1 & -> & Ha1). apply exec_deleteIfExists in H2 as (a2 & -> & Ha2).
  split; [exists a1|exists a2]; (split; [rewrite !elem_of_app, !list_elem_of_singleton; tauto|tauto]).
Qed.

(** Errors are never dropped by a loop. *)
Lemma exec_foldM_errors {A} (body : list error → A → prog (list error)) l errs t errs' :
  (∀ errs x t errs', exec (body errs x) t (Done errs') → errs' = [] → errs = []) →
  exec (foldM body errs l) t (Done errs') → errs' = [] → errs = [].
Proof.
  intros Hb. revert errs t. induction l as [|x l IH]; intros errs t He Hn; cbn [foldM] in He.
  - apply exec_Ret in He as [_ [= ->]]. done.
  - apply exec_bind in He as [(s1 & t1 & t2 & _ & Hx & Hl)|(w & _ & ?)]; [|done]. eapply Hb; [exact Hx|by eapply IH].
Qed.

Lemma hub_configured_mono ns (P P' : Prop) t1 t t2 c :
  (P' → P) → hub_configured ns P t c → hub_configured ns P' (t1 ++ t ++ t2) c.
Proof.
  intros HP [(a & Hin & Ha) Hw]. split.
  - exists a. split; [rewrite !elem_of_app; tauto|tauto].
  - intros (msa & a' & Hin' & Ha')%HP%Hw. exists msa, a'. split; [rewrite !elem_of_app; tauto|done].
Qed.

Lemma pair_deleted_mono g1 n1 g2 n2 (P P' : Prop) t1 t t2 c :
  (P' → P) → pair_deleted g1 n1 g2 n2 P t c → pair_deleted g1 n1 g2 n2 P' (t1 ++ t ++ t2) c.
Proof.
  intros HP [(a & Hin & Ha) (a' & Hin' & Ha')].
  split; [exists a|exists a']; (split; [rewrite !elem_of_app; tauto|tauto]).
Qed.

Lemma exec_hubs ns errs items t errs' :
  exec (foldM (configureHub ns) errs items) t (Done errs') →
  ∀ c, c ∈ items → clusterIsHub c = Ret true → hub_configured ns (errs' = []) t c.
Proof.
  intros He. apply (exec_foldM_all _ (λ errs c t errs', (errs' = [] → errs = []) ∧
    (clusterIsHub c = Ret true → hub_configured ns (errs' = []) t c))
    (λ errs' c t, clusterIsHub c = Ret true → hub_configured ns (errs' = []) t c) _ _ _ _ He).
  - intros. by apply exec_configureHub.
  - intros s x t1 t0 t2 s1 s' [_ Hc] [l' Hl] Hhub. eapply hub_configured_mono; [|by apply Hc].
    eapply exec_foldM_errors; [|exact Hl]. intros ? ? ? ? Hb. by apply exec_configureHub in Hb as [? _].
Qed.

Lemma exec_deletions g1 n1 g2 n2 errs items t errs' :
  exec (foldM (deletePair g1 n1 g2 n2) errs items) t (Done errs') →
  ∀ c, c ∈ items → pair_deleted g1 n1 g2 n2 (errs' = []) t c.
Proof.
  intros He. apply (exec_foldM_all _ (λ errs c t errs', (errs' = [] → errs = []) ∧
    pair_deleted g1 n1 g2 n2 (errs' = []) t c) (λ errs' c t, pair_deleted g1 n1 g2 n2 (errs' = []) t c) _ _ _ _ He).
  - intros. by apply exec_deletePair.
  - intros s x t1 t0 t2 s1 s' [_ Hc] [l' Hl]. eapply pair_deleted_mono; [|exact Hc].
    eapply exec_foldM_errors; [|exact Hl]. intros ? ? ? ? Hb. by apply exec_deletePair in Hb as [? _].
Qed.

(** What the tail of the two disabling functions does with the listing. *)
Lemma exec_forClusters g1 n1 g2 n2 errs a t errs' :
  exec (forClusters a errs (deletePair g1 n1 g2 n2)) t (Done errs') →
  ∃ items, a = Ok items ∧ (errs' = [] → errs = []) ∧
    ∀ c, c ∈ items → pair_deleted g1 n1 g2 n2 (errs' = []) t c.
Proof.
  destruct a as [items|e]; cbn [forClusters]; [|by intros [_ ?]%exec_Panic]. intros He.
  exists items. split_and!; [done| |by eapply exec_deletions].
  eapply exec_foldM_errors; [|exact He]. intros ? ? ? ? Hb. by apply exec_deletePair in Hb as [? _].
Qed.

Lemma wp_deleteIfExists g n h : wp_from no_guarantee h (deleteIfExists g n) returns.
Proof.
  unfold deleteIfExists. apply wp_call; [done|].
  intros [e|]; [destruct (negb (IsNotFound e))|]; auto with search.
Qed.

Lemma wp_deletePair g1 n1 g2 n2 errs c h : wp_from no_guarantee h (deletePair g1 n1 g2 n2 errs c) returns.
Proof. unfold deletePair. do 2 (apply wp_returns; [apply wp_deleteIfExists|intros ? ?]). auto with search. Qed.

Lemma deletePair_loop_no_crash g1 n1 g2 n2 errs items t w :
  exec (foldM (deletePair g1 n1 g2 n2) errs items) t (Crashed w) → False.
Proof.
  revert errs t. induction items as [|c items IH]; intros errs t; cbn [foldM]; [by intros [_ ?]%exec_Ret|].
  intros [(s1 & t1 & t2 & -> & _ & Hl)|(w' & Hb & [= <-])]%exec_bind; [by eapply IH|].
  assert (Hw := wp_exec _ _ _ _ _ (wp_deletePair g1 n1 g2 n2 errs c []) Hb). by destruct Hw.
Qed.

(** Reading the components of an engine. *)
Lemma exec_scanComponents components acc t o :
  exec (scanComponents components acc) t o →
  t = [] ∧ ∀ r, o = Done r →
    (r.1 = true → acc.1 = true ∨ Exists (addon_on "managedserviceaccount") components) ∧
    (r.2 = true → acc.2 = true ∨ Exists (addon_on "cluster-proxy-addon") components).
Proof.
  assert (Hon : ∀ n m, is_str n (field "name" m) && is_true (field "enabled" m) = true → addon_on n (JMap m)).
  { intros n m [Hn He]%andb_true_iff. exists m. split; [done|].
    destruct (field "name" m); cbn in Hn; try done. apply String.eqb_eq in Hn. subst.
    destruct (field "enabled" m) as [|b| | | |]; cbn in He; try done. by destruct b. }
  revert acc t. induction components as [|c components IH]; intros acc t; cbn [scanComponents].
  - intros [-> ->]%exec_Ret. split; [done|]. intros r [= <-]. tauto.
  - destruct c as [| | | | |m]; cbn [as_map bind];
      try by (intros [-> ->]%exec_Panic; split; [done|intros ? ?]).
    intros He. apply IH in He as [-> Hr]. split; [done|]. intros r Ho.
    destruct (Hr r Ho) as [H1 H2]. cbn [fst snd] in *. rewrite !Exists_cons.
    rewrite !orb_true_iff in H1, H2. split; intros Hx;
      [destruct (H1 Hx) as [[?|?]|?]|destruct (H2 Hx) as [[?|?]|?]]; auto.
Qed.

Lemma exec_validateEngine n1 n2 t o :
  exec (validateEngine n1 n2) t o →
  read_only t ∧ (o = Done None → shown_ready t).
Proof.
  unfold validateEngine, call. cbn [bind]. intros (a & t1 & -> & He)%exec_Op.
  destruct a as [[|mce rest]|e];
    [apply exec_Ret in He as [-> ->]; split; [by repeat constructor|done]| |
     apply exec_Ret in He as [-> ->]; split; [by repeat constructor|done]].
  assert (t1 = [] ∧ (o = Done None → engine_ready mce)) as [-> Ho].
  { destruct (field "spec" (u_Object mce)) as [| | | | |spec] eqn:Hs; cbn [as_map bind] in He;
      try by (apply exec_Panic in He as [-> ->]).
    destruct (field "overrides" spec) as [| | | | |overrides] eqn:Hov; cbn [as_map bind] in He;
      try by (apply exec_Panic in He as [-> ->]).
    destruct (field "components" overrides) as [| | | |components|] eqn:Hc; cbn [as_list bind] in He;
      try by (apply exec_Panic in He as [-> ->]).
    apply exec_bind in He as [(r & t2 & t3 & -> & Hsc & He)|(w & Hsc & ->)];
      apply exec_scanComponents in Hsc as [-> Hr]; [|done].
    destruct (Hr r eq_refl) as [H1 H2]. destruct r as [msa proxy]. cbn [fst snd] in *.
    destruct msa; cbn [negb] in He; [|by apply exec_Ret in He as [-> ->]].
    destruct proxy; cbn [negb] in He; apply exec_Ret in He as [-> ->]; [|done].
    split; [done|]. intros _. exists spec, overrides, components.
    destruct (H1 eq_refl), (H2 eq_refl); done. }
  split; [by repeat constructor|]. intros Hd. exists mce, rest. split; [left|by apply Ho].
Qed.

Lemma exec_validateGlobal t o :
  exec validateGlobalSearchDependencies t o → read_only t ∧ (o = Done None → shown_ready t).
Proof.
  unfold validateGlobalSearchDependencies, call. cbn [bind]. intros ([x|e] & t1 & -> & He)%exec_Op.
  - apply exec_validateEngine in He as [Hr Ho]. split; [by constructor|].
    intros (mce & rest & Hin & Hm)%Ho. exists mce, rest. split; [by right|done].
  - apply exec_Ret in He as [-> ->]. split; [by repeat constructor|done].
Qed.

(** After a validation that reads only, a write comes with a ready engine. *)
Lemma guarded_after (v : prog (option error)) (g : option error → prog (stepResult * Search)) t o :
  (∀ t o, exec v t o → read_only t ∧ (o = Done None → shown_ready t)) →
  (∀ e t o, exec (g (Some e)) t o → t = []) →
  exec (bind v g) t o → read_only t ∨ ∃ t1 t2, t = t1 ++ t2 ∧ read_only t1 ∧ shown_ready t1.
Proof.
  intros Hv Hg [(r & t1 & t2 & -> & Hr & He)|(w & Hr & ->)]%exec_bind; apply Hv in Hr as [Hro Hs]; [|by left].
  destruct r as [e|]; [apply Hg in He as ->; left; by rewrite app_nil_r|].
  right. exists t1, t2. auto.
Qed.

(** * Theorems *)

(** C36: enabling global search reaches every managed hub: the clusters are listed,
    and in the namespace of each that is a remote hub the service account is
    requested, whatever failed at the others; when no error is reported, the
    service account and the manifest work are there for every hub, and the
    listing itself succeeded. *)
Theorem managed_hubs_configured s t err s' :
  exec (enableGlobalSearch s) t (Done (err, s')) →
  ∃ t1 a t2, t = t1 ++ Ev (DynList managedClusterResourceGvr) a :: t2 ∧
    match a with
    | Err _ => err ≠ None
    | Ok items => ∀ c, c ∈ items → clusterIsHub c = Ret true →
        hub_configured (s_Namespace s') (err = None) t2 c
    end.
Proof.
  unfold enableGlobalSearch. intros [([errs s1] & t1 & t2 & -> & _ & He)|(w & _ & ?)]%exec_bind; [|done].
  unfold call in He. cbn [bind] in He. apply exec_Op in He as (a & t3 & -> & He).
  apply exec_bind in He as [(errs' & t4 & t5 & -> & Hl & He)|(w & _ & ?)]; [|done].
  apply exec_Ret in He as [-> [= -> ->]]. exists t1, a, t4. rewrite app_nil_r. split; [done|].
  destruct a as [items|e].
  - intros c Hc Hhub. rewrite combineErrors_None. by eapply exec_hubs.
  - apply exec_Ret in Hl as [-> [= ->]]. cbn [err_of logAndTrackError].
    intros Hn%combineErrors_None. by destruct errs.
Qed.

(** Disabling global search cleans up after it: when it returns, the clusters
    were listed and both resources were deleted in the namespace of each, and when
    no error is reported every deletion succeeded or found nothing. *)
Theorem global_search_cleaned_up s t err s' :
  exec (disableGlobalSearch s) t (Done (err, s')) →
  ∃ t1 items t2, t = t1 ++ Ev (DynList managedClusterResourceGvr) (Ok items) :: t2 ∧
    ∀ c, c ∈ items →
      pair_deleted managedServiceAccountGvr SEARCH_GLOBAL manifestWorkGvr SEARCH_GLOBAL_CONFIG (err = None) t2 c.
Proof.
  unfold disableGlobalSearch. intros [([errs s1] & t1 & t2 & -> & _ & He)|(w & _ & ?)]%exec_bind; [|done].
  unfold call in He. cbn [bind] in He. apply exec_Op in He as (a & t3 & -> & He).
  apply exec_bind in He as [(errs' & t4 & t5 & -> & Hl & He)|(w & _ & ?)]; [|done].
  apply exec_Ret in He as [-> [= -> ->]]. apply exec_forClusters in Hl as (items & -> & _ & Hall).
  exists t1, items, t4. rewrite app_nil_r. split; [done|]. intros c Hc.
  rewrite combineErrors_None. by apply Hall.
Qed.

(** C37: the same for virtual machine actions, and a failed listing is never
    reported: the function does not return from it at all, it crashes the
    operator, though the code means to collect the error. *)
Theorem vm_cleanup_or_crash t o :
  exec disableVirtualMachineActions t o →
  ∃ t1 t2, t = t1 ++ t2 ∧
    ((∃ items t3 err, t2 = Ev (DynList managedClusterResourceGvr) (Ok items) :: t3 ∧ o = Done err ∧
       ∀ c, c ∈ items →
         pair_deleted managedServiceAccountGvr managedSAName clusterPermissionGvr clusterPermissionName (err = None) t3 c) ∨
     (∃ e w, t2 = [Ev (DynList managedClusterResourceGvr) (Err e)] ∧ o = Crashed w) ∨
     (∃ w, t2 = [] ∧ o = Crashed w)).
Proof.
  unfold disableVirtualMachineActions.
  intros [(e & t1 & t2 & -> & _ & He)|(w & _ & ->)]%exec_bind;
    [|exists t, []; rewrite app_nil_r; eauto 10].
  exists t1, t2. split; [done|].
  unfold call in He. cbn [bind] in He. apply exec_Op in He as (a & t3 & -> & He).
  apply exec_bind in He as [(errs' & t4 & t5 & -> & Hl & He)|(w & Hl & ->)].
  - apply exec_Ret in He as [-> ->]. apply exec_forClusters in Hl as (items & -> & _ & Hall). left.
    eexists items, t4, _. rewrite app_nil_r. split_and!; [done..|]. intros c Hc.
    rewrite combineErrors_None. by apply Hall.
  - destruct a as [items|e']; cbn [forClusters] in Hl.
    + exfalso. by eapply deletePair_loop_no_crash.
    + apply exec_Panic in Hl as [-> _]. right. left. eauto.
Qed.

(** C38: global search and virtual machine actions touch the cluster only on a hub
    that can carry them: in every execution of the reconcilers with the feature
    asked for, either nothing is written, or all writes come after a reading of a
    multicluster engine whose two add-ons are both enabled. *)
Theorem features_guarded s t o :
  (String.eqb (get_str (s_Annotations s) "global-search-preview") "true" = true ∧
   exec (reconcileGlobalSearch s) t o) ∨
  (String.eqb (get_str (s_Annotations s) "virtual-machine-preview") "true" = true ∧
   exec (reconcileVirtualMachineConfiguration s) t o) →
  read_only t ∨ ∃ t1 t2, t = t1 ++ t2 ∧ read_only t1 ∧ shown_ready t1.
Proof.
  unfold reconcileGlobalSearch, reconcileVirtualMachineConfiguration.
  intros [[Ha He]|[Ha He]]; rewrite Ha in He; (eapply guarded_after; [| |exact He]).
  - apply exec_validateGlobal.
  - by intros e t' o' [-> _]%exec_Ret.
  - apply exec_validateEngine.
  - by intros e t' o' [-> _]%exec_Ret.
Qed.

(** Fine-grained RBAC follows its annotation. When the reconciler reports
    success and the server stores what it accepts, the search API's variable is
    set to true under the annotation and gone without it, every other variable is
    as it was, the condition of the feature reads True or is gone, and the other
    conditions are untouched. *)
Theorem fine_grained_rbac_spec s t res s' :
  exec (reconcileFineGrainedRBACConfiguration s) t (Done ((res, None), s')) → Forall stores t →
  length (List.filter (λ e, String.eqb (ev_Name e) "FEATURE_FINE_GRAINED_RBAC") (s_QueryAPIEnv s)) ≤ 1 →
  length (List.filter (λ c, String.eqb (c_Type c) CONDITION_FINE_GRAINED_RBAC) (s_Conditions s)) ≤ 1 →
  let on := String.eqb (get_str (s_Annotations s) "fine-grained-rbac") "true" in
  env_set "FEATURE_FINE_GRAINED_RBAC" (if on then "true" else "") (s_QueryAPIEnv s) (s_QueryAPIEnv s') ∧
  other_conditions CONDITION_FINE_GRAINED_RBAC (s_Conditions s') =
    other_conditions CONDITION_FINE_GRAINED_RBAC (s_Conditions s) ∧
  (if on then c_Status <$> condition_of CONDITION_FINE_GRAINED_RBAC (s_Conditions s') = Some "True"
   else condition_of CONDITION_FINE_GRAINED_RBAC (s_Conditions s') = None).
Proof.
  cbv zeta. unfold reconcileFineGrainedRBACConfiguration. intros He Ht Henv Hcs.
  destruct (String.eqb (get_str (s_Annotations s) "fine-grained-rbac") "true");
    apply exec_bind in He as [([err s1] & t1 & t2 & -> & Hu & He)|(w & _ & ?)]; try done;
    apply Forall_app in Ht as [Ht1 Ht2]; destruct err as [e|].
  - exfalso. apply exec_bind in He as [(c & t3 & t4 & -> & _ & He)|(w & _ & ?)]; [|done].
    apply exec_bind in He as [(s2 & t5 & t6 & -> & _ & [_ He]%exec_Ret)|(w & _ & ?)]; done.
  - apply exec_updateSearchApiDeployment in Hu as [Hset Hs1]; [|done..].
    unfold newCondition, call in He. cbn [bind] in He. apply exec_Op in He as (now & t3 & -> & He).
    cbn [bind] in He. apply exec_bind in He as [(s2 & t5 & t6 & -> & Hc & [_ [= _ <-]]%exec_Ret)|(w & _ & ?)]; [|done].
    apply Forall_cons in Ht2 as [_ [Ht2 _]%Forall_app].
    apply exec_updateStatusConditionCR in Hc as (cs & c & -> & Ho & Hf & Hst); [|done].
    rewrite Hs1 in Ho. split; [done|]. split; [done|].
    rewrite s_Conditions_set. cbn [c_Type] in Hf. rewrite Hf. cbn. by rewrite Hst.
  - by apply exec_Ret in He as [_ ?].
  - apply exec_updateSearchApiDeployment in Hu as [Hset Hs1]; [|done..].
    apply exec_bind in He as [([err s2] & t5 & t6 & -> & Hc & He)|(w & _ & ?)]; [|done].
    apply Forall_app in Ht2 as [Ht2 _].
    destruct err; apply exec_Ret in He as [_ [= _ <-]].
    apply exec_removeStatusCondition in Hc as (cs & -> & Ho & Hf); [|done|by rewrite Hs1].
    rewrite Hs1 in Ho. done.
Qed.
End features_lemmas.

(** * The theorems at concrete inputs *)

#[local] Existing Instance ref_NestedString.

Definition addonJson (name : string) : json := JMap [("name", JStr name); ("enabled", JBool true)].
Definition sampleEngine : Unstructured :=
  mkUnstructured "engine" None
    [("spec", JMap [("targetNamespace", JStr "mce");
                    ("overrides", JMap [("components",
                       JList [addonJson "managedserviceaccount"; addonJson "cluster-proxy-addon"])])])].
Definition sampleHub : Unstructured :=
  mkUnstructured "hub1" None
    [("status", JMap [("clusterClaims",
       JList [JMap [("name", JStr "hub.open-cluster-management.io"); ("value", JStr "Installed")]])])].
Definition sampleAddon : Unstructured :=
  mkUnstructured MANAGED_SERVICE_ACCOUNT_ADDON_NAME None [("status", JMap [("namespace", JStr "agents")])].
Definition consoleConfig (name : string) : Unstructured := mkUnstructured name None [("data", JMap [])].

Definition hubObjects : list DynObj :=
  [mkDyn multiclusterengineResourceGvr (mkNN "engine" "") sampleEngine;
   mkDyn managedClusterResourceGvr (mkNN "hub1" "") sampleHub;
   mkDyn managedClustrAddonGvr (mkNN MANAGED_SERVICE_ACCOUNT_ADDON_NAME "hub1") sampleAddon;
   mkDyn configmapsGvr (mkNN "console-mce-config" "mce") (consoleConfig "console-mce-config");
   mkDyn configmapsGvr (mkNN "console-config" "ocm") (consoleConfig "console-config")].

Definition annotated (annotations : smap) : Search :=
  s_set_Meta (set_Annotations (Some annotations) sampleMeta) sampleSearch.
Definition globalSearchCR : Search := annotated {[ "global-search-preview" := "true" ]}.
Definition fineGrainedCR : Search := annotated {[ "fine-grained-rbac" := "true" ]}.
Definition hubClusterServer (s : Search) : MemServer :=
  mkServer (store_put KSearch s emptyStore) hubObjects 1 [].

Lemma managed_hubs_configured_witness :
  clusterIsHub sampleHub = Ret true ∧
  ∃ s' t1 a t2, run_trace (enableGlobalSearch globalSearchCR) (hubClusterServer globalSearchCR) =
      t1 ++ Ev (DynList managedClusterResourceGvr) a :: t2 ∧
    match a with
    | Err _ => None (A := error) ≠ None
    | Ok items => ∀ c, c ∈ items → clusterIsHub c = Ret true → hub_configured (s_Namespace s') (None (A := error) = None) t2 c
    end.
Proof.
  split; [reflexivity|]. eexists. apply (managed_hubs_configured globalSearchCR _ None).
  apply run_exec_eq. vm_compute. reflexivity.
Defined.

Lemma global_search_cleaned_up_witness :
  ∃ t1 items t2, run_trace (disableGlobalSearch sampleSearch) (hubClusterServer sampleSearch) =
      t1 ++ Ev (DynList managedClusterResourceGvr) (Ok items) :: t2 ∧
    ∀ c, c ∈ items → pair_deleted managedServiceAccountGvr SEARCH_GLOBAL manifestWorkGvr SEARCH_GLOBAL_CONFIG
      (None (A := error) = None) t2 c.
Proof.
  apply (global_search_cleaned_up sampleSearch _ None sampleSearch).
  apply run_exec_eq. vm_compute. reflexivity.
Defined.

(** The third request, the listing of the clusters, fails. *)
Lemma vm_cleanup_or_crash_witness :
  let w := faulty [None; None; Some serverDown] (hubClusterServer sampleSearch) in
  run_outcome disableVirtualMachineActions w = Crashed "invalid memory address or nil pointer dereference" ∧
  ∃ t1 t2, run_trace disableVirtualMachineActions w = t1 ++ t2 ∧ length t2 ≤ 1.
Proof.
  cbv zeta. split; [vm_compute; reflexivity|].
  destruct (vm_cleanup_or_crash _ _ (run_exec disableVirtualMachineActions
    (faulty [None; None; Some serverDown] (hubClusterServer sampleSearch))))
    as (t1 & t2 & Ht & [(items & t3 & err & _ & Ho & _)|[(e & w & -> & _)|(w & -> & _)]]).
  - exfalso. vm_compute in Ho. discriminate Ho.
  - exists t1, [Ev (DynList managedClusterResourceGvr) (Err e)]. split; [exact Ht|cbn; lia].
  - exists t1, []. split; [exact Ht|cbn; lia].
Defined.

Lemma features_guarded_witness :
  let t := run_trace (reconcileGlobalSearch globalSearchCR) (hubClusterServer globalSearchCR) in
  read_only t ∨ ∃ t1 t2, t = t1 ++ t2 ∧ read_only t1 ∧ shown_ready t1.
Proof.
  cbv zeta. eapply (features_guarded globalSearchCR). left. split; [reflexivity|apply run_exec].
Defined.

Lemma fine_grained_rbac_spec_witness :
  ∃ s', run_outcome (reconcileFineGrainedRBACConfiguration fineGrainedCR) (hubClusterServer fineGrainedCR) =
      Done ((Some emptyResult, None), s') ∧
    env_set "FEATURE_FINE_GRAINED_RBAC" "true" [] (s_QueryAPIEnv s').
Proof.
  destruct (run_outcome (reconcileFineGrainedRBACConfiguration fineGrainedCR) (hubClusterServer fineGrainedCR))
    as [[[res [e|]] s']|w] eqn:Ho; [vm_compute in Ho; discriminate Ho| |vm_compute in Ho; discriminate Ho].
  exists s'. assert (res = Some emptyResult) as -> by (vm_compute in Ho; by injection Ho as <- _). split; [reflexivity|].
  apply (fine_grained_rbac_spec fineGrainedCR _ _ _ (run_exec_eq _ _ _ Ho)); [|cbn; lia|cbn; lia].
  vm_compute. repeat constructor.
Defined.
