(* ===== verification/Status.v ===== *)
(** The status of the Search CR as the pods have it: [updateStatus] of
    [src/controllers/search_controller.go] and [updateStatusCondition] of
    [src/controllers/common.go].

    A pod name is cut at its dashes to name its deployment; a name without a dash
    makes the slice expression panic. *)
From S2P Require Import Prelude GoStrings K8s V1alpha1 Effects MemServer Fixtures Common Objects SearchCR.
From Stdlib Require Import Ascii.

Local Open Scope search_scope.

(** [strings.Join(strings.Split(podName, "-")[:2], "-")] *)
Definition deploymentNameOf (podName : string) : option string :=
  match Split podName "-"%char with
  | a :: b :: _ => Some (a +:+ "-" +:+ b)
  | _ => None
  end.

(** The condition a pod's Ready condition becomes. *)
Definition podConditionOf (readyType : string) (condition : PodCondition) : Condition :=
  mkCondition readyType (pc_Status condition) (pc_LastTransitionTime condition)
    (if (0 <? String.length (pc_Reason condition))%nat then pc_Reason condition else "None")
    (if (0 <? String.length (pc_Message condition))%nat then pc_Message condition else "None").

(** The inner loop: the first Ready condition that is to replace [podCondition]. *)
Definition scanPod (readyType : string) (podCondition : Condition) (p : Pod) : Condition :=
  match find_first (λ c, String.eqb (pc_Type c) "Ready" &&
                         (bool_decide (podCondition = zeroCondition) ||
                          (bool_decide (podCondition ≠ zeroCondition) &&
                           negb (String.eqb (pc_Status c) "True")))) (pod_Conditions p) with
  | Some c => podConditionOf readyType c
  | None => podCondition
  end.

(** The outer loop, with the type of the last pod seen. *)
Definition scanPods (pods : list Pod) : prog (string * Condition) :=
  foldM (λ acc p, match deploymentNameOf (om_Name (pod_Meta p)) with
                  | None => Panic "slice bounds out of range"
                  | Some d => Ret ("Ready--" +:+ d, scanPod ("Ready--" +:+ d) acc.2 p)
                  end) ("", zeroCondition) pods.

(** [updateStatusCondition] (common.go) *)
Definition updateStatusCondition (instance : Search) (podList : list Pod) : prog Search :=
  r <- scanPods podList ;;
  let '(readyType, podCondition) := r in
  if bool_decide (podCondition = zeroCondition) then Ret instance
  else
    let cs := s_Conditions instance in
    Ret (s_set_Conditions
           (match find_index (λ c, String.eqb (c_Type c) readyType) cs with
            | Some i => <[i := podCondition]> cs
            | None => cs ++ [podCondition]
            end) instance).

(** The pod that stands in for a deployment without pods. *)
Definition missingPod (podName deploymentName : string) (now : Time) : Pod :=
  mkPod (newMeta podName "") "Running"
    [mkPodCondition "Ready" "False" now "NoPodsFound" ("Check status of deployment: " +:+ deploymentName)].

(** [updateStatus] *)
Definition updateStatus (instance : Search) (podName : string) : prog (option error) :=
  match deploymentNameOf podName with
  | None => Panic "slice bounds out of range"
  | Some deploymentName =>
      r <- call (List KPod (mkListOptions None {[ "app" := "search"; "name" := deploymentName ]})) ;;
      match r with
      | Err e => Ret (Some e)
      | Ok pods =>
          pods <- match pods with
                  | [] => now <- call Now ;;
                          Ret [missingPod podName deploymentName now]
                  | _ => Ret pods
                  end ;;
          instance <- updateStatusCondition instance pods ;;
          let instance := s_set_Status (mkSearchStatus DBNAME
                            (ss_StorageClassName (sp_DBStorage (s_Spec instance)))
                            (s_Conditions instance)) instance in
          u <- call (StatusUpdate KSearch instance) ;;
          match u with Ok _ => Ret None | Err e => Ret (Some e) end
      end
  end.

(** * Specification *)




(** * Lemmas *)






(** The pods an event shows. *)
Definition pods_answer (e : event) : option (result (list Pod)) :=
  match e with
  | Ev q a =>
      match q in Api R return R → option (result (list Pod)) with
      | List KPod _ => λ a, Some a | _ => λ _, None end a
  end.



(** * Theorem *)


(** * The theorem at a concrete input *)

Definition samplePod (name ready : string) : Pod :=
  mkPod (set_Labels (Some {[ "app" := "search"; "name" := "search-api" ]}) (newMeta name "ocm")) "Running"
    [mkPodCondition "Initialized" "True" 1 "" ""; mkPodCondition "Ready" ready 1 "" ""].


(** A replica that is not scheduled has no Ready condition: the status calls the
    component ready because its other pod is. *)
Definition pendingPod : Pod :=
  mkPod (set_Labels (Some {[ "app" := "search"; "name" := "search-api" ]}) (newMeta "search-api-1" "ocm")) "Pending"
    [mkPodCondition "PodScheduled" "False" 1 "Unschedulable" ""].
Definition pendingServer : MemServer :=
  serverWith (store_put KSearch sampleSearch
    (store_put KPod (samplePod "search-api-0" "True") (store_put KPod pendingPod emptyStore))).

Lemma pending_replica_passed_over :
  c_Status <$> (ms_store (run_state (updateStatus sampleSearch "search-api-1") pendingServer) KSearch
                  !! obj_key KSearch sampleSearch ≫= λ s, condition_of "Ready--search-api" (s_Conditions s)) = Some "True".
Proof. vm_compute. reflexivity. Qed.
