(* ===== verification/Addon.v ===== *)
(** [src/addon/addon.go]: the values handed to the collector's Helm chart on a
    managed cluster, the role binding of the add-on, and the choice of the
    collector image.

    Parameters (class [AddonFramework]): the group names, the conversion of a
    struct to chart values and the merging of values, of
    [open-cluster-management.io/addon-framework]. Regular expression matching and
    [strconv.Atoi] are modelled, for the one pattern and base used. *)
From S2P Require Import Prelude GoStrings K8s V1alpha1 Effects MemServer Fixtures ImageValidation Common.
From Stdlib Require Import Ascii NArith.

Local Open Scope search_scope.

Definition SearchAddonName : string := "search-collector".
Definition clusterRoleName : string := "open-cluster-management:addons:search-collector".
Definition roleBindingName : string := "open-cluster-management:addons:search-collector".
Definition GroupName : string := "rbac.authorization.k8s.io".

(** * Values *)

Record GlobalValues := mkGlobalValues {
  gv_ImagePullPolicy : string; gv_ImagePullSecret : string;
  gv_ImageOverrides : smap; gv_ProxyConfig : smap
}.
Record UserArgs := mkUserArgs {
  ua_ContainerArgs : string; ua_LimitMemory : string; ua_RequestMemory : string;
  ua_RediscoverRate : Z; ua_HeartBeat : Z; ua_ReportRate : Z
}.
Record Values := mkValues {
  va_GlobalValues : GlobalValues; va_KubernetesDistribution : string;
  va_PrometheusEnabled : bool; va_UserArgs : UserArgs
}.

Class AddonFramework := {
  DefaultGroups : string → string → list string;
  JsonStructToValues : Values → result json;
  MergeValues : json → json → json
}.

(** * [resourceRegex] and [strconv.Atoi] *)

Definition is_sign (c : ascii) : bool := is_one_of "+-" c.
Definition dropSign (s : string) : string :=
  match s with String c r => if is_sign c then r else s | _ => s end.

(** The number of the pattern, digits with an optional fraction or a fraction
    alone: what follows it. *)
Definition matchNumber (s : string) : option string :=
  let '(ds, rest) := span is_digit s in
  if negb (String.eqb ds "") then
    match rest with
    | String c r => if Ascii.eqb c "."%char then Some (span is_digit r).2 else Some rest
    | _ => Some rest
    end
  else
    match s with
    | String c r =>
        if Ascii.eqb c "."%char then
          let '(ds, rest) := span is_digit r in
          if negb (String.eqb ds "") then Some rest else None
        else None
    | _ => None
    end.

(** The suffix of the pattern and the end of the text: nothing, a binary unit, a
    decimal unit, or an exponent. *)
Definition matchSuffix (s : string) : bool :=
  match s with
  | EmptyString => true
  | String c EmptyString => is_one_of "numkMGTPE" c
  | String c r =>
      (is_one_of "KMGTPE" c && String.eqb r "i") ||
      (is_one_of "eE" c && match matchNumber (dropSign r) with Some "" => true | _ => false end)
  end.

(** [regexp.MatchString(resourceRegex, s)] *)
Definition matchResource (s : string) : bool :=
  match matchNumber (dropSign s) with Some rest => matchSuffix rest | None => false end.

Fixpoint digitsValue (s : string) (acc : Z) : Z :=
  match s with
  | EmptyString => acc
  | String c s => digitsValue s (10 * acc + (Z.of_N (N_of_ascii c) - 48))
  end.

Definition min_int : Z := - 2 ^ 63.
Definition max_int : Z := 2 ^ 63 - 1.

(** [strconv.Atoi] on a 64-bit platform; [None] is an error. *)
Definition Atoi (s : string) : option Z :=
  let ds := dropSign s in
  if String.eqb ds "" || negb (all_chars is_digit ds) then None
  else
    let v := if HasPrefix s "-" then (- digitsValue ds 0)%Z else digitsValue ds 0 in
    if ((min_int <=? v) && (v <=? max_int))%Z then Some v else None.

(** * The values of a cluster *)

(** What the managed cluster and the ManagedClusterAddOn contribute. *)
Section values.
Context `{AddonFramework}.

Definition memoryArg (annotations : option smap) (key : string) : string :=
  match map_of annotations !! key with
  | Some val => if matchResource val then val else ""
  | None => ""
  end.

Definition intArg (annotations : option smap) (key : string) : Z :=
  match map_of annotations !! key with Some val => default 0%Z (Atoi val) | None => 0%Z end.

(** The struct [getValue] fills. *)
Definition addonValues (SearchCollectorImage : string) (cluster : ManagedCluster) (annotations : option smap) : Values :=
  let distribution :=
    match find_first (λ cc, String.eqb (cl_Name cc) "product.open-cluster-management.io") (mcl_ClusterClaims cluster) with
    | Some cc => cl_Value cc
    | None => ""
    end in
  mkValues
    (mkGlobalValues "IfNotPresent" "open-cluster-management-image-pull-credentials"
       {[ "search_collector" := SearchCollectorImage ]}
       {[ "HTTP_PROXY" := ""; "HTTPS_PROXY" := ""; "NO_PROXY" := "" ]})
    distribution (String.eqb distribution "OpenShift")
    (mkUserArgs (get_str annotations "addon.open-cluster-management.io/search_args")
       (memoryArg annotations "addon.open-cluster-management.io/search_memory_limit")
       (memoryArg annotations "addon.open-cluster-management.io/search_memory_request")
       (intArg annotations "addon.open-cluster-management.io/search_rediscover_rate")
       (intArg annotations "addon.open-cluster-management.io/search_heartbeat")
       (intArg annotations "addon.open-cluster-management.io/search_report_rate")).

(** [getValue] *)
Definition getValue (image : string) (cluster : ManagedCluster) (annotations : option smap) : result json :=
  JsonStructToValues (addonValues image cluster annotations).

(** [validateImageOverride] *)
Definition validateImageOverride (image : string) : json :=
  JMap [("global", JMap [("imageOverrides", JMap [("search_collector", JStr image)])])].

(** * The role binding *)

(** [newRoleBindingForClusterRole]: no group is an index out of range. *)
Definition newRoleBindingForClusterRole (name clusterRoleName clusterName addonName : string) :
    prog ClusterRoleBinding :=
  match DefaultGroups clusterName addonName with
  | [] => Panic "index out of range"
  | g :: _ =>
      Ret (mkClusterRoleBinding (newMeta name clusterName) (mkRoleRef GroupName "ClusterRole" clusterRoleName)
             [mkSubject "Group" GroupName g ""])
  end.

(** [createOrUpdateRoleBinding] *)
Definition createOrUpdateRoleBinding (addonName clusterName : string) : prog (option error) :=
  acmRoleBinding <- newRoleBindingForClusterRole roleBindingName clusterRoleName clusterName addonName ;;
  r <- call (Get KRoleBinding (mkNN roleBindingName clusterName)) ;;
  match r with
  | Err e =>
      if IsNotFound e then
        c <- call (Create KRoleBinding acmRoleBinding) ;;
        match c with Ok _ => Ret None | Err e => Ret (Some e) end
      else Ret (Some e)
  | Ok binding =>
      let needUpdate := negb (bool_decide (crb_RoleRef acmRoleBinding = crb_RoleRef binding)) ||
                        negb (bool_decide (crb_Subjects acmRoleBinding = crb_Subjects binding)) in
      if needUpdate then
        u <- call (Update KRoleBinding (mkClusterRoleBinding (crb_Meta binding)
               (crb_RoleRef acmRoleBinding) (crb_Subjects acmRoleBinding))) ;;
        match u with Ok _ => Ret None | Err e => Ret (Some e) end
      else Ret None
  end.
End values.

(** * The collector image *)

(** [CreateAddonOnce]: the image the add-on hands out from then on, given the one
    of the COLLECTOR_IMAGE variable; the manager is started in the background. *)
Definition CreateAddonOnce (SearchCollectorImage : string) (instance : Search) : string :=
  let override := dc_ImageOverride (sd_Collector (sp_Deployments (s_Spec instance))) in
  if negb (String.eqb override "") then
    match ValidateImageRepo override with
    | Some _ => SearchCollectorImage
    | None => override
    end
  else SearchCollectorImage.

(** * Specification *)

(** The resource quantities of Kubernetes, as the pattern means them. *)
Definition digits (d : string) : Prop := d ≠ "" ∧ all_chars is_digit d = true.

Inductive number : string → Prop :=
| number_int d : digits d → number d
| number_frac d f : digits d → all_chars is_digit f = true → number (d +:+ "." +:+ f)
| number_dot f : digits f → number ("." +:+ f).

Inductive unit_suffix : string → Prop :=
| suffix_none : unit_suffix ""
| suffix_binary c : is_one_of "KMGTPE" c = true → unit_suffix (String c "i")
| suffix_decimal c : is_one_of "numkMGTPE" c = true → unit_suffix (String c "")
| suffix_exponent e sg n : is_one_of "eE" e = true → sg ∈ [""; "+"; "-"] → number n →
    unit_suffix (String e (sg +:+ n)).

Definition quantity (s : string) : Prop :=
  ∃ sg n u, s = sg +:+ n +:+ u ∧ sg ∈ [""; "+"; "-"] ∧ number n ∧ unit_suffix u.

(** The value at [global.imageOverrides.search_collector] of chart values. *)
Definition collectorImage (values : json) : option string :=
  match values with
  | JMap m =>
      match jlookup "global" m with
      | Some (JMap g) =>
          match jlookup "imageOverrides" g with
          | Some (JMap o) => match jlookup "search_collector" o with Some (JStr s) => Some s | _ => None end
          | _ => None
          end
      | _ => None
      end
  | _ => None
  end.

(** * Lemmas *)

(** A text that a number does not extend into. *)
Definition stops (s : string) : Prop :=
  match s with String c _ => is_digit c = false ∧ Ascii.eqb c "."%char = false | _ => True end.

Lemma digit_chars c :
  is_digit c = true → is_sign c = false ∧ Ascii.eqb c "."%char = false.
Proof. destruct c as [[][][][][][][][]]; by vm_compute. Qed.

Lemma suffix_chars c :
  is_one_of "KMGTPE" c = true ∨ is_one_of "numkMGTPE" c = true ∨ is_one_of "eE" c = true →
  is_digit c = false ∧ Ascii.eqb c "."%char = false.
Proof. destruct c as [[][][][][][][][]]; vm_compute; naive_solver. Qed.

Lemma sign_chars c : is_sign c = true ↔ String c "" = "+" ∨ String c "" = "-".
Proof. destruct c as [[][][][][][][][]]; vm_compute; naive_solver. Qed.

Lemma span_stop p d s :
  all_chars p d = true → match s with String c _ => p c = false | _ => True end →
  span p (d +:+ s) = (d, s).
Proof.
  intros Hd Hs. induction d as [|c d IH].
  - rewrite append_nil_l. destruct s as [|c s]; [done|]. cbn. by rewrite Hs.
  - cbn in Hd. apply andb_true_iff in Hd as [Hc Hd]. rewrite append_cons. cbn. by rewrite Hc, IH.
Qed.

Lemma span_parts p s : s = (span p s).1 +:+ (span p s).2 ∧ all_chars p (span p s).1 = true.
Proof. split; [by rewrite span_append|apply span_all]. Qed.

Lemma matchNumber_sound s rest : matchNumber s = Some rest → ∃ n, number n ∧ s = n +:+ rest.
Proof.
  unfold matchNumber. destruct (span_parts is_digit s) as [Hs Hd].
  destruct (span is_digit s) as [ds r]; cbn [fst snd] in *.
  destruct (String.eqb_spec ds "") as [->|Hne]; cbn [negb].
  - destruct s as [|c s']; [done|]. destruct (Ascii.eqb_spec c "."%char) as [->|]; [|done].
    destruct (span_parts is_digit s') as [Hs' Hd'].
    destruct (span is_digit s') as [ds' r']; cbn [fst snd] in *.
    destruct (String.eqb_spec ds' "") as [|Hne']; [done|]. intros [= <-].
    exists ("." +:+ ds'). split; [by constructor|]. by rewrite Hs' at 1.
  - destruct r as [|c r]; [intros [= <-]; exists ds; by split; [constructor|]|].
    destruct (Ascii.eqb_spec c "."%char) as [->|]; intros [= <-].
    + destruct (span_parts is_digit r) as [Hr Hdr]. exists (ds +:+ "." +:+ (span is_digit r).1).
      split; [by constructor|]. rewrite Hs, Hr at 1. by autorewrite with gostr.
    + exists ds. by split; [constructor|].
Qed.

Lemma span_digits d s : all_chars is_digit d = true → stops s → span is_digit (d +:+ s) = (d, s).
Proof. intros Hd Hs. apply span_stop; [done|]. destruct s; [done|by destruct Hs]. Qed.

Lemma matchNumber_complete n rest : number n → stops rest → matchNumber (n +:+ rest) = Some rest.
Proof.
  intros Hn Hr. unfold matchNumber. destruct Hn as [d [Hne Hd]|d f [Hne Hd] Hf|f [Hne Hf]].
  - rewrite span_digits by done. rewrite (proj2 (String.eqb_neq d "") Hne). cbn.
    destruct rest as [|c r]; [done|]. by destruct Hr as [_ ->].
  - rewrite !append_assoc, (append_cons "."), append_nil_l, span_stop by done.
    rewrite (proj2 (String.eqb_neq d "") Hne). cbn. by rewrite span_digits.
  - rewrite append_assoc, (append_cons "."), append_nil_l.
    replace (span is_digit (String "." (f +:+ rest))) with ("", String "." (f +:+ rest)) by done. cbn.
    rewrite span_digits by done. by rewrite (proj2 (String.eqb_neq f "") Hne).
Qed.

(** A number starts with no sign. *)
Lemma dropSign_number sg n u : sg ∈ [""; "+"; "-"] → number n → dropSign (sg +:+ n +:+ u) = n +:+ u.
Proof.
  intros Hsg Hn.
  assert (Hfirst : dropSign (n +:+ u) = n +:+ u).
  { assert (∃ c r, n = String c r ∧ is_sign c = false) as (c & r & -> & Hc).
    { destruct Hn as [d [Hne Hd]|d f [Hne Hd] _|f _]; [| |by exists "."%char, f];
        (destruct d as [|c d]; [done|]; cbn in Hd; apply andb_true_iff in Hd as [Hc _];
         apply digit_chars in Hc as [Hc _]; rewrite ?append_cons; eauto). }
    rewrite append_cons. unfold dropSign. by rewrite Hc. }
  rewrite !elem_of_cons in Hsg. destruct Hsg as [->|[->|[->|Hsg]]]; [done..|by apply elem_of_nil in Hsg].
Qed.

Lemma dropSign_parts s : ∃ sg, sg ∈ [""; "+"; "-"] ∧ s = sg +:+ dropSign s.
Proof.
  destruct s as [|c s]; [exists ""; split; [set_solver|done]|]. unfold dropSign.
  destruct (is_sign c) eqn:Hc; [|exists ""; split; [set_solver|done]].
  apply sign_chars in Hc. exists (String c ""). rewrite append_cons, append_nil_l. split; [set_solver|done].
Qed.

Lemma matchSuffix_spec s : matchSuffix s = true ↔ unit_suffix s.
Proof.
  split.
  - destruct s as [|c [|d r]]; [constructor|by constructor|]. unfold matchSuffix.
    intros [[Hc Hi]%andb_true_iff|[Hc Hn]%andb_true_iff]%orb_true_iff.
    + apply String.eqb_eq in Hi. rewrite Hi. by constructor.
    + destruct (matchNumber _) as [[|]|] eqn:Hm; try done. apply matchNumber_sound in Hm as (n & Hnum & Hd).
      destruct (dropSign_parts (String d r)) as (sg & Hsg & Heq).
      rewrite append_nil_r in Hd. rewrite Heq, Hd. by constructor.
  - intros Hs. destruct Hs as [|c Hc|c Hc|e sg n He Hsg Hn]; [done|unfold matchSuffix; by rewrite Hc|done|].
    assert (Hnum : matchNumber (dropSign (sg +:+ n)) = Some "").
    { rewrite <-(append_nil_r n), dropSign_number, append_nil_r, <-(append_nil_r n) by done.
      by apply matchNumber_complete. }
    unfold matchSuffix. destruct (sg +:+ n) as [|c r] eqn:Heq; [done|].
    by rewrite He, Hnum, orb_true_r.
Qed.

Lemma suffix_stops u : unit_suffix u → stops u.
Proof. intros Hu. destruct Hu; [done|apply suffix_chars; auto..]. Qed.

Lemma matchResource_quantity s : matchResource s = true ↔ quantity s.
Proof.
  unfold matchResource. split.
  - destruct (matchNumber _) as [u|] eqn:Hm; [|done]. intros Hu%matchSuffix_spec.
    apply matchNumber_sound in Hm as (n & Hn & Hd). destruct (dropSign_parts s) as (sg & Hsg & Heq).
    exists sg, n, u. rewrite <-Hd. done.
  - intros (sg & n & u & -> & Hsg & Hn & Hu). rewrite dropSign_number by done.
    rewrite matchNumber_complete by (done || by apply suffix_stops). by apply matchSuffix_spec.
Qed.

Lemma Atoi_bounds s z : Atoi s = Some z → (min_int ≤ z ≤ max_int)%Z.
Proof.
  unfold Atoi. destruct (_ || _); [done|]. cbv zeta.
  destruct (_ && _)%bool eqn:Hb; [|done]. intros [= <-].
  apply andb_true_iff in Hb as [?%Z.leb_le ?%Z.leb_le]. done.
Qed.

(** * Theorems *)

(** C40: the memory annotations of an add-on pass exactly the Kubernetes
    quantities: the matcher accepts a text if and only if it is an optional sign,
    a number and one of the unit or exponent suffixes; nothing else reaches the
    chart. The other numeric annotations reach it only as 64-bit integers. *)
Theorem addon_args_valid image cluster annotations :
  let ua := va_UserArgs (addonValues image cluster annotations) in
  let ann := map_of annotations in
  (∀ key arg, (key, arg) ∈ [("addon.open-cluster-management.io/search_memory_limit", ua_LimitMemory ua);
                            ("addon.open-cluster-management.io/search_memory_request", ua_RequestMemory ua)] →
     (arg = "" ∨ quantity arg) ∧ ∀ val, ann !! key = Some val → quantity val → arg = val) ∧
  Forall (λ z, min_int ≤ z ≤ max_int)%Z [ua_RediscoverRate ua; ua_HeartBeat ua; ua_ReportRate ua].
Proof.
  cbv zeta. split.
  - assert (Hm : ∀ key, (memoryArg annotations key = "" ∨ quantity (memoryArg annotations key)) ∧
      ∀ val, map_of annotations !! key = Some val → quantity val → memoryArg annotations key = val).
    { intros key. unfold memoryArg. destruct (map_of annotations !! key) as [v|]; [|split; [by left|done]].
      destruct (matchResource v) eqn:Hv.
      - apply matchResource_quantity in Hv. split; [by right|]. by intros ? [= ->].
      - split; [by left|]. intros ? [= ->] Hq%matchResource_quantity. by rewrite Hq in Hv. }
    intros key arg. rewrite !elem_of_cons. intros [[= -> ->]|[[= -> ->]|?%elem_of_nil]]; [apply Hm..|done].
  - assert (Hi : ∀ key, (min_int ≤ intArg annotations key ≤ max_int)%Z).
    { intros key. unfold intArg. destruct (map_of annotations !! key) as [v|]; [|done].
      destruct (Atoi v) eqn:Ha; [by apply Atoi_bounds in Ha|done]. }
    repeat (apply Forall_cons; split; [apply Hi|]). by apply Forall_nil.
Qed.

(** * The theorem at a concrete input *)

Definition addonAnnotations : option smap :=
  Some {[ "addon.open-cluster-management.io/search_memory_limit" := "2.5Gi";
          "addon.open-cluster-management.io/search_report_rate" := "99999999999999999999" ]}.

Lemma addon_args_valid_witness :
  let ua := va_UserArgs (addonValues "image" (mkManagedCluster (newMeta "c1" "") []) addonAnnotations) in
  ua_LimitMemory ua = "2.5Gi" ∧ quantity (ua_LimitMemory ua) ∧ ua_ReportRate ua = 0%Z.
Proof.
  cbv zeta.
  assert (Hq : quantity "2.5Gi") by (apply matchResource_quantity; vm_compute; reflexivity).
  destruct (addon_args_valid "image" (mkManagedCluster (newMeta "c1" "") []) addonAnnotations) as [Hm _].
  split; [|split; [|vm_compute; reflexivity]].
  - apply (Hm "addon.open-cluster-management.io/search_memory_limit" _);
      [left|vm_compute; reflexivity|exact Hq].
  - destruct (Hm "addon.open-cluster-management.io/search_memory_limit" _ (list_elem_of_here _ _)) as [[He|Hl] _];
      [vm_compute in He; discriminate He|exact Hl].
Defined.
