(* ===== verification/AddonManager.v ===== *)
(** [src/addon/addon.go]: how the manager of the add-on is put together and
    started, and what the agent it serves may do on the hub.

    Parameters (class [AddonLibrary], laws [AddonLibraryLaws]): the clients, the
    add-on manager and the agent factory of
    [open-cluster-management.io/addon-framework]. The factory is documented to
    merge what the value functions give, in the order in which they were
    registered, between its own defaults and its built-in values, and to hand the
    permission hook on to the agent. *)
From S2P Require Import Prelude GoStrings K8s V1alpha1 Effects MemServer Fixtures ImageValidation Common Addon.

Local Open Scope search_scope.

(** * The library *)

(** What contributes to the values of a chart: a function of the managed cluster
    and of the annotations of its ManagedClusterAddOn. *)
Definition ValuesFunc : Type := ManagedCluster → option smap → result json.

(** The values of an agent as the factory is documented to render them: its
    defaults, the functions in order, and its built-in values last; the first
    error ends it. *)
Section render.
Context `{AddonFramework}.

Fixpoint mergeValuesFuncs (fs : list ValuesFunc) (acc : json) (cluster : ManagedCluster)
    (annotations : option smap) : result json :=
  match fs with
  | [] => Ok acc
  | f :: fs =>
      match f cluster annotations with
      | Err e => Err e
      | Ok v => mergeValuesFuncs fs (MergeValues acc v) cluster annotations
      end
  end.

Definition renderValues (defaultValues builtinValues : ValuesFunc) (fs : list ValuesFunc) : ValuesFunc :=
  λ cluster annotations,
    match defaultValues cluster annotations with
    | Err e => Err e
    | Ok d => mergeValuesFuncs (fs ++ [builtinValues]) d cluster annotations
    end.
End render.

(** [agent.RegistrationOption], with the parts the operator fills. *)
Record RegistrationOption (Signers Approver : Type) := mkRegistration {
  ro_CSRConfigurations : Signers;
  ro_CSRApproveCheck : Approver;
  ro_PermissionConfig : ManagedCluster → prog (option error)
}.
Arguments mkRegistration {Signers Approver}.
Arguments ro_CSRConfigurations {Signers Approver}.
Arguments ro_CSRApproveCheck {Signers Approver}.
Arguments ro_PermissionConfig {Signers Approver}.

(** What the agent factory is told before it builds. *)
Record AgentSpec (Scheme Signers Approver : Type) := mkAgentSpec {
  as_Name : string;
  as_ChartDir : string;
  as_Scheme : Scheme;
  as_ConfigGVRs : list GroupVersionResource;
  as_GetValuesFuncs : list ValuesFunc;
  as_Registration : RegistrationOption Signers Approver
}.
Arguments mkAgentSpec {Scheme Signers Approver}.
Arguments as_Name {Scheme Signers Approver}.
Arguments as_ChartDir {Scheme Signers Approver}.
Arguments as_Scheme {Scheme Signers Approver}.
Arguments as_ConfigGVRs {Scheme Signers Approver}.
Arguments as_GetValuesFuncs {Scheme Signers Approver}.
Arguments as_Registration {Scheme Signers Approver}.

Class AddonLibrary := {
  KubeConfig : Type; AddonScheme : Type; AddonManager : Type; AddonClient : Type; KubeClient : Type;
  Signers : Type; Approver : Type; Agent : Type;
  GetConfig : result KubeConfig;
  NewScheme : AddonScheme;
  PrometheusAddToScheme : AddonScheme → AddonScheme * option error;
  NewManager : KubeConfig → result AddonManager;
  NewAddonClient : KubeConfig → result AddonClient;
  NewKubeClient : KubeConfig → result KubeClient;
  KubeClientSignerConfigurations : string → string → Signers;
  DefaultCSRApprover : string → Approver;
  AddOnDeploymentConfigGVR : GroupVersionResource;
  GetValuesFromAddonAnnotation : ValuesFunc;
  GetAddOnDeploymentConfigValues : AddonClient → ValuesFunc;
  BuildHelmAgentAddon : AgentSpec AddonScheme Signers Approver → result Agent;
  AddAgent : AddonManager → Agent → AddonManager * option error;
  (** What can be seen of a manager and of an agent. *)
  agents : AddonManager → list Agent;
  agentName : Agent → string;
  agentValues : Agent → ValuesFunc;
  agentPermission : Agent → ManagedCluster → prog (option error);
  (** The values the factory starts from, and those it sets last. *)
  defaultValues : ValuesFunc;
  builtinValues : ValuesFunc
}.

(** * Building and starting the manager *)

Section manager.
Context `{AddonFramework} `{AddonLibrary}.

(** [newRegistrationOption] *)
Definition newRegistrationOption (addonName : string) : RegistrationOption Signers Approver :=
  mkRegistration (KubeClientSignerConfigurations addonName addonName) (DefaultCSRApprover addonName)
    (λ cluster, createOrUpdateRoleBinding addonName (om_Name (mcl_Meta cluster))).

(** The value functions, in the order in which [NewAddonManager] registers them. *)
Definition valuesFuncs (SearchCollectorImage : string) (addonClient : AddonClient) : list ValuesFunc :=
  [getValue SearchCollectorImage;
   GetValuesFromAddonAnnotation;
   GetAddOnDeploymentConfigValues addonClient;
   λ _ _, Ok (validateImageOverride SearchCollectorImage)].

Definition ChartDir : string := "manifests/chart".

(** [NewAddonManager]: the manager, which may be there beside an error. *)
Definition NewAddonManager (SearchCollectorImage : string) (kubeConfig : KubeConfig) :
    option AddonManager * option error :=
  if String.eqb SearchCollectorImage "" then (None, Some (Errorf "the search-collector pod image is empty"))
  else
    let '(Scheme, _) := PrometheusAddToScheme NewScheme in
    match NewManager kubeConfig with
    | Err e => (None, Some e)
    | Ok addonMgr =>
        match NewAddonClient kubeConfig with
        | Err e => (None, Some e)
        | Ok addonClient =>
            match NewKubeClient kubeConfig with
            | Err e => (None, Some e)
            | Ok _ =>
                match BuildHelmAgentAddon
                        (mkAgentSpec SearchAddonName ChartDir Scheme [AddOnDeploymentConfigGVR]
                           (valuesFuncs SearchCollectorImage addonClient) (newRegistrationOption SearchAddonName)) with
                | Err e => (Some addonMgr, Some e)
                | Ok agentAddon =>
                    let '(addonMgr, err) := AddAgent addonMgr agentAddon in (Some addonMgr, err)
                end
            end
        end
    end.

(** [startAddon]: what [Start] is called on, a missing manager being [None] inside. *)
Definition startAddon (SearchCollectorImage : string) : option (option AddonManager) :=
  match GetConfig with
  | Err _ => None
  | Ok kubeConfig =>
      match NewAddonManager SearchCollectorImage kubeConfig with
      | (_, Some _) => None
      | (addonMgr, None) => Some addonMgr
      end
  end.

(** * Specification *)

(** No [global] among the fields. *)
Definition no_global (v : json) : Prop := ∃ m, v = JMap m ∧ jlookup "global" m = None.

Class AddonLibraryLaws := {
  MergeValues_later a b s : collectorImage b = Some s → collectorImage (MergeValues a b) = Some s;
  MergeValues_keeps a b s :
    collectorImage a = Some s → no_global b → collectorImage (MergeValues a b) = Some s;
  builtinValues_no_global cluster annotations v : builtinValues cluster annotations = Ok v → no_global v;
  NewManager_agents c m : NewManager c = Ok m → agents m = [];
  AddAgent_agents m a m' : AddAgent m a = (m', None) → agents m' = a :: agents m;
  Build_agent sp a :
    BuildHelmAgentAddon sp = Ok a →
    agentName a = as_Name sp ∧
    (∀ cluster annotations,
       agentValues a cluster annotations =
         renderValues defaultValues builtinValues (as_GetValuesFuncs sp) cluster annotations) ∧
    agentPermission a = ro_PermissionConfig (as_Registration sp)
}.

(** The role binding an add-on's agent is given in the namespace of its cluster. *)
Definition agent_binding (clusterName group : string) (b : ClusterRoleBinding) : Prop :=
  crb_RoleRef b = mkRoleRef GroupName "ClusterRole" clusterRoleName ∧
  crb_Subjects b = [mkSubject "Group" GroupName group ""].

(** The request does not write, or writes the binding in that namespace. *)
Definition writes_only_binding (clusterName : string) (e : event) : Prop :=
  match e with
  | Ev q _ =>
      match q with
      | Create KRoleBinding o | Update KRoleBinding o => obj_key KRoleBinding o = mkNN roleBindingName clusterName
      | q => is_write q = false
      end
  end.
End manager.

(** * Lemmas *)

Section manager_lemmas.
Context `{AddonFramework} `{AddonLibrary} `{!AddonLibraryLaws}.

Lemma mergeValuesFuncs_app fs gs acc cluster annotations :
  mergeValuesFuncs (fs ++ gs) acc cluster annotations =
  match mergeValuesFuncs fs acc cluster annotations with
  | Err e => Err e
  | Ok v => mergeValuesFuncs gs v cluster annotations
  end.
Proof.
  revert acc. induction fs as [|f fs IH]; intros acc; [done|]. cbn. by destruct (f cluster annotations).
Qed.

(** The last function decides on the image. *)
Lemma renderValues_image fs image cluster annotations v :
  renderValues defaultValues builtinValues (fs ++ [λ _ _, Ok (validateImageOverride image)]) cluster annotations = Ok v →
  collectorImage v = Some image.
Proof.
  unfold renderValues. destruct (defaultValues _ _) as [d|]; [|done]. rewrite !mergeValuesFuncs_app.
  destruct (mergeValuesFuncs fs d _ _) as [u|]; [|done]. cbn.
  destruct (builtinValues _ _) as [b|] eqn:Hb; [|done]. intros [= <-].
  apply MergeValues_keeps; [|by eapply builtinValues_no_global]. by apply MergeValues_later.
Qed.

Lemma exec_createOrUpdateRoleBinding addonName clusterName t o :
  exec (createOrUpdateRoleBinding addonName clusterName) t o → Forall honest t →
  Forall (writes_only_binding clusterName) t ∧
  (o = Done None → ∃ group gs b, DefaultGroups clusterName addonName = group :: gs ∧
     last_shown KRoleBinding (mkNN roleBindingName clusterName) t = Some b ∧ agent_binding clusterName group b).
Proof.
  unfold createOrUpdateRoleBinding, newRoleBindingForClusterRole.
  destruct (DefaultGroups clusterName addonName) as [|g gs].
  { intros [-> ->]%exec_Panic _. split; [by apply Forall_nil|done]. }
  intros He Hh. cbn [bind] in He. unfold call in He. cbn [bind] in He.
  apply exec_Op in He as ([found|e] & t1 & -> & He); apply Forall_cons in Hh as [Hf _].
  - cbn [crb_RoleRef crb_Subjects] in He. destruct (_ || _) eqn:Hq.
    + apply exec_Op in He as (a & t2 & -> & He).
      assert (t2 = []) as -> by (destruct a; by apply exec_Ret in He as [-> _]).
      split; [by repeat (constructor; [done || exact Hf|])|]. intros ->. destruct a as [b|e]; apply exec_Ret in He as [_ He]; [|done].
      exists g, gs, (mkClusterRoleBinding (crb_Meta found) (mkRoleRef GroupName "ClusterRole" clusterRoleName)
        [mkSubject "Group" GroupName g ""]).
      split; [done|]. split; [|done]. unfold last_shown. cbn [fold_left]. by apply track_updated.
    + apply exec_Ret in He as [-> ->]. split; [by repeat constructor|]. intros _. exists g, gs, found.
      split; [done|]. split; [apply track_get_ok|].
      apply orb_false_elim in Hq as [Hr Hs]. apply negb_false_iff, bool_decide_eq_true in Hr, Hs. done.
  - destruct (IsNotFound e).
    + apply exec_Op in He as (a & t2 & -> & He).
      assert (t2 = []) as -> by (destruct a; by apply exec_Ret in He as [-> _]).
      split; [by repeat constructor|]. intros ->. destruct a as [b|e']; apply exec_Ret in He as [_ He]; [|done].
      eexists g, gs, _. split; [done|]. split; [unfold last_shown; cbn [fold_left]; by apply track_created|done].
    + apply exec_Ret in He as [-> ->]. split; [by repeat constructor|done].
Qed.

(** A binding to another role is never replaced. [roleRef] is immutable: the API server
    refuses an update that changes it, and the code tries nothing else, so that every
    attempt ends in the refusal. *)
Theorem stale_role_never_replaced addonName clusterName t o :
  exec (createOrUpdateRoleBinding addonName clusterName) t o →
  (∀ a, Ev (Get KRoleBinding (mkNN roleBindingName clusterName)) a ∈ t →
     ∃ found, a = Ok found ∧ crb_RoleRef found ≠ mkRoleRef GroupName "ClusterRole" clusterRoleName) →
  (∀ x a, Ev (Update KRoleBinding x) a ∈ t → ∃ e, a = Err e) →
  (∃ w, o = Crashed w) ∨ ∃ e, o = Done (Some e).
Proof.
  unfold createOrUpdateRoleBinding, newRoleBindingForClusterRole.
  destruct (DefaultGroups clusterName addonName) as [|g gs]; [by intros [_ ->]%exec_Panic; left; eexists|].
  intros He Hr Hrefuse. right. unfold call in He. cbn [bind] in He. apply exec_Op in He as (x & t1 & -> & He).
  destruct (Hr x) as (found & -> & Hne); [left|]. cbn [crb_RoleRef crb_Subjects] in He.
  destruct (_ || _) eqn:Hq;
    [|apply orb_false_elim in Hq as [Hq _]; apply negb_false_iff, bool_decide_eq_true in Hq; congruence].
  apply exec_Op in He as (a & t2 & -> & He).
  assert (∃ e, a = Err e) as [e ->] by (eapply Hrefuse; right; left). apply exec_Ret in He as [_ ->]. by exists e.
Qed.

Lemma CreateAddonOnce_image envImage s :
  CreateAddonOnce envImage s = envImage ∨
  CreateAddonOnce envImage s = dc_ImageOverride (sd_Collector (sp_Deployments (s_Spec s))) ∧
  trusted (CreateAddonOnce envImage s).
Proof.
  unfold CreateAddonOnce. destruct (negb _); [|by left].
  destruct (ValidateImageRepo _) eqn:Hv; [by left|right]. split; [done|by apply ValidateImageRepo_None].
Qed.

(** A started manager serves the one agent built from the operator's settings. *)
Lemma startAddon_agent image mgr :
  startAddon image = Some mgr →
  image ≠ "" ∧ ∃ m a scheme addonClient, mgr = Some m ∧ agents m = [a] ∧
    BuildHelmAgentAddon (mkAgentSpec SearchAddonName ChartDir scheme [AddOnDeploymentConfigGVR]
      (valuesFuncs image addonClient) (newRegistrationOption SearchAddonName)) = Ok a.
Proof.
  unfold startAddon, NewAddonManager. destruct GetConfig as [c|]; [|done].
  destruct (String.eqb_spec image "") as [->|Hi]; [done|].
  destruct (PrometheusAddToScheme NewScheme) as [scheme err].
  destruct (NewManager c) as [m|] eqn:Hm; [|done]. destruct (NewAddonClient c) as [ac|]; [|done].
  destruct (NewKubeClient c); [|done]. destruct (BuildHelmAgentAddon _) as [ag|] eqn:Ha; [|done].
  destruct (AddAgent m ag) as [m' [e|]] eqn:Hadd; [done|]. intros [= <-]. split; [done|].
  exists m', ag, scheme, ac. split; [done|]. split; [|done].
  by rewrite (AddAgent_agents _ _ _ Hadd), (NewManager_agents _ _ Hm).
Qed.

(** Nothing the library answers is an error. *)
Definition library_up : Prop :=
  ∃ c m ac kc, GetConfig = Ok c ∧ NewManager c = Ok m ∧ NewAddonClient c = Ok ac ∧ NewKubeClient c = Ok kc ∧
    ∀ sp, ∃ a, BuildHelmAgentAddon sp = Ok a ∧ (AddAgent m a).2 = None.

Lemma startAddon_up image : library_up → image ≠ "" → is_Some (startAddon image).
Proof.
  intros (c & m & ac & kc & Hc & Hm & Hac & Hkc & Hb) Hi. unfold startAddon, NewAddonManager.
  rewrite Hc, (proj2 (String.eqb_neq _ _) Hi). destruct (PrometheusAddToScheme NewScheme) as [scheme err].
  rewrite Hm, Hac, Hkc.
  destruct (Hb (mkAgentSpec SearchAddonName ChartDir scheme [AddOnDeploymentConfigGVR] (valuesFuncs image ac)
    (newRegistrationOption SearchAddonName))) as (a & -> & Ha).
  destruct (AddAgent m a) as [m' e]. cbn in Ha. subst e. by eexists.
Qed.

(** * Theorem *)

(** C25: the add-on the operator starts is safe to run. It is started when the library
    works and there is an image. What is then served is one agent, under the name
    of the search collector, and for every managed cluster: whatever values the
    add-on's annotation and its deployment configuration inject, a chart that
    renders runs the image the operator was started with or the CR's override, and
    the latter only when it comes from a trusted registry; and registering the
    cluster writes nothing but the binding in its namespace, which on success binds
    the add-on's role to the group of that cluster's agent and to nobody else. *)
Theorem addon_deploys_safely envImage s mgr :
  let image := CreateAddonOnce envImage s in
  (library_up → image ≠ "" → startAddon image ≠ None) ∧
  (startAddon image = Some mgr →
   ∃ m a, mgr = Some m ∧ agents m = [a] ∧ agentName a = SearchAddonName ∧ image ≠ "" ∧
     (image = envImage ∨
      image = dc_ImageOverride (sd_Collector (sp_Deployments (s_Spec s))) ∧ trusted image) ∧
     ∀ cluster, let name := om_Name (mcl_Meta cluster) in
       (∀ annotations v, agentValues a cluster annotations = Ok v → collectorImage v = Some image) ∧
       ∀ t o, exec (agentPermission a cluster) t o → Forall honest t →
         Forall (writes_only_binding name) t ∧
         (o = Done None → ∃ group gs b, DefaultGroups name SearchAddonName = group :: gs ∧
            last_shown KRoleBinding (mkNN roleBindingName name) t = Some b ∧ agent_binding name group b)).
Proof.
  cbv zeta. split; [intros Hup Hi; by apply not_eq_None_Some, startAddon_up|].
  intros (Hi & m & a & scheme & ac & -> & Hag & Hb)%startAddon_agent.
  destruct (Build_agent _ _ Hb) as (Hn & Hv & Hp). exists m, a. do 4 (split; [done|]).
  split; [apply CreateAddonOnce_image|]. intros cluster. split.
  - intros annotations v. rewrite Hv. unfold as_GetValuesFuncs, valuesFuncs.
    apply (renderValues_image [_; _; _]).
  - intros t o. rewrite Hp. apply exec_createOrUpdateRoleBinding.
Qed.
End manager_lemmas.

(** * The theorem at a concrete input *)

(** Values whose later fields hide the earlier ones. *)
Definition sampleFramework : AddonFramework := {|
  DefaultGroups cluster addon := ["system:open-cluster-management:cluster:" +:+ cluster +:+ ":addon:" +:+ addon];
  JsonStructToValues v := Ok (JMap []);
  MergeValues a b := match a, b with JMap ma, JMap mb => JMap (mb ++ ma) | _, _ => b end
|}.
#[local] Existing Instance sampleFramework.

(** A library that works: a manager is the list of its agents, an agent what the
    factory was told. The annotation of the add-on injects an image. *)
Definition sampleDefaults : ValuesFunc := λ _ _, Ok (JMap []).
Definition sampleBuiltin : ValuesFunc := λ cluster _, Ok (JMap [("clusterName", JStr (om_Name (mcl_Meta cluster)))]).
#[local] Instance sampleLibrary : AddonLibrary := {|
  KubeConfig := unit; AddonScheme := unit; AddonClient := unit; KubeClient := unit; Signers := string; Approver := string;
  Agent := AgentSpec unit string string; AddonManager := list (AgentSpec unit string string);
  GetConfig := Ok tt; NewScheme := tt; PrometheusAddToScheme s := (s, None);
  NewManager _ := Ok []; NewAddonClient _ := Ok tt; NewKubeClient _ := Ok tt;
  KubeClientSignerConfigurations a _ := a; DefaultCSRApprover a := a;
  AddOnDeploymentConfigGVR := mkGVR "addon.open-cluster-management.io" "v1alpha1" "addondeploymentconfigs";
  GetValuesFromAddonAnnotation _ _ := Ok (validateImageOverride "docker.io/evil");
  GetAddOnDeploymentConfigValues _ _ _ := Ok (JMap []);
  BuildHelmAgentAddon sp := Ok sp;
  AddAgent m a := (a :: m, None);
  agents m := m; agentName a := as_Name a;
  agentValues a := renderValues sampleDefaults sampleBuiltin (as_GetValuesFuncs a);
  agentPermission a := ro_PermissionConfig (as_Registration a);
  defaultValues := sampleDefaults; builtinValues := sampleBuiltin
|}.

Lemma jlookup_app k m1 m2 v : jlookup k m1 = Some v → jlookup k (m1 ++ m2) = Some v.
Proof. induction m1 as [|[k' v'] m1 IH]; cbn; [done|]. by destruct (String.eqb k' k). Qed.

Lemma jlookup_app_r k m1 m2 : jlookup k m1 = None → jlookup k (m1 ++ m2) = jlookup k m2.
Proof. induction m1 as [|[k' v'] m1 IH]; cbn; [done|]. by destruct (String.eqb k' k). Qed.

#[local] Instance sampleLibraryLaws : AddonLibraryLaws.
Proof.
  constructor.
  - intros a b s. cbn. destruct a as [| | | | |ma], b as [| | | | |mb]; try done. cbn.
    destruct (jlookup "global" mb) as [g|] eqn:Hg; [|done]. by rewrite (jlookup_app _ _ ma _ Hg).
  - intros a b s Ha (mb & -> & Hb). destruct a as [| | | | |ma]; try done. cbn in *. by rewrite jlookup_app_r.
  - intros c ann v [= <-]. by eexists.
  - by intros c m [= <-].
  - by intros m a m' [= <-].
  - by intros sp a [= <-].
Qed.

(** A trusted override. *)
Definition overriddenSearch : Search :=
  mkSearch sampleMeta
    (mkSearchSpec (mkStorageSpec "" None) ""
       (mkSearchDeployments zeroDeploymentConfig zeroDeploymentConfig
          (mkDeploymentConfig 0 None "quay.io/stolostron/search-collector:test" [] []) zeroDeploymentConfig)
       "" "" "" "" None None)
    (mkSearchStatus "" "" []).

Definition managed1 : ManagedCluster := mkManagedCluster (newMeta "c1" "") [].

Definition sampleImage : string := CreateAddonOnce "quay.io/acm-d/collector:1" overriddenSearch.
Definition sampleAgent : Agent :=
  mkAgentSpec SearchAddonName ChartDir tt [AddOnDeploymentConfigGVR] (valuesFuncs sampleImage tt)
    (newRegistrationOption SearchAddonName).
Definition sampleManager : AddonManager := [sampleAgent].
Definition registrationTrace : list event := run_trace (agentPermission sampleAgent managed1) (serverWith emptyStore).

(** The injected image is in the chart's values, and does not win. *)
Lemma addon_deploys_safely_witness :
  ∃ v b, startAddon sampleImage = Some (Some sampleManager) ∧ agentValues sampleAgent managed1 None = Ok v ∧
    collectorImage v = Some "quay.io/stolostron/search-collector:test" ∧
    last_shown KRoleBinding (mkNN roleBindingName "c1") registrationTrace = Some b ∧
    agent_binding "c1" "system:open-cluster-management:cluster:c1:addon:search-collector" b.
Proof.
  destruct (addon_deploys_safely "quay.io/acm-d/collector:1" overriddenSearch (Some sampleManager)) as [_ Hok].
  destruct (Hok eq_refl) as (m & a & [= <-] & [= <-] & _ & _ & _ & Hc). destruct (Hc managed1) as [Hv Hp].
  destruct (agentValues sampleAgent managed1 None) as [v|e] eqn:Hav; [|discriminate Hav].
  destruct (Hp registrationTrace (Done None)) as [_ Hb].
  { apply run_exec_eq. vm_compute. reflexivity. }
  { apply honestb_sound. vm_compute. reflexivity. }
  destruct (Hb eq_refl) as (group & gs & b & [= <- <-] & Hl & Hab).
  exists v, b. repeat split; [|exact Hl|apply Hab..]. exact (Hv None v Hav).
Defined.
