(* ===== verification/Resources.v ===== *)
(** The operations that bring one object of the cluster to its desired state:
    [createConfigMap], [createOrUpdateConfigMap], [createOrUpdateNetworkPolicy],
    [createOrUpdateDeployment], [createService], [createSecret] of
    [src/controllers/common.go], [createSearchServiceAccount], [createUpdateRoles],
    [createRoleBinding], [createServiceMonitor], [createOrUpdatePrometheusRule]
    and [createPVC] of the files named after them. *)
From S2P Require Import Prelude GoStrings K8s V1alpha1 Effects Interfaces MemServer Fixtures ImageValidation Common Deployments PostgresConfig Objects Networks.

Local Open Scope search_scope.

(** [equality.Semantic.DeepEqual] on deployment specs, where it also compares
    quantities by value and identifies nil and empty maps. Of it is relied on that a
    spec equals itself, and that equal specs have the same annotations on their pods,
    nil and empty ones identified. *)
Class DeploymentSpecEquality := {
  SpecDeepEqual : DeploymentSpec → DeploymentSpec → bool;
  SpecDeepEqual_refl s : SpecDeepEqual s s = true;
  SpecDeepEqual_annotations s s' :
    SpecDeepEqual s s' = true → map_of (ds_TemplateAnnotations s) = map_of (ds_TemplateAnnotations s')
}.

#[export, refine] Instance DeploymentSpecEquality_dec : DeploymentSpecEquality :=
  {| SpecDeepEqual x y := bool_decide (x = y) |}.
Proof.
  - intros s. by apply bool_decide_eq_true_2.
  - by intros s s' ->%bool_decide_eq_true.
Defined.

Definition keyOf (m : ObjectMeta) : NamespacedName := mkNN (om_Name m) (om_Namespace m).

(** * Create when absent *)

(** Get; create on not-found; [strict] says what another error does: it is
    returned, or ignored. *)
Definition createIfAbsent (strict : bool) (k : Kind) (o : Obj k) : prog stepResult :=
  r <- call (Get k (obj_key k o)) ;;
  match r with
  | Ok _ => Ret stepOk
  | Err e =>
      if IsNotFound e then
        c <- call (Create k o) ;;
        match c with Ok _ => Ret stepOk | Err e => Ret (stepErr e) end
      else if strict then Ret (stepErr e) else Ret stepOk
  end.

Definition createService (svc : Service) : prog stepResult := createIfAbsent true KService svc.
Definition createSecret (secret : Secret) : prog stepResult := createIfAbsent true KSecret secret.
Definition createConfigMap (cm : ConfigMap) : prog stepResult := createIfAbsent false KConfigMap cm.
Definition createServiceMonitor (sm : ServiceMonitor) : prog stepResult :=
  createIfAbsent false KServiceMonitor sm.

(** [createSearchServiceAccount]: accounts with more than one pull secret are
    written back to the desired state. *)
Definition createSearchServiceAccount (sa : ServiceAccount) : prog stepResult :=
  r <- call (Get KServiceAccount (keyOf (sa_Meta sa))) ;;
  let update (found : ServiceAccount) : prog stepResult :=
    if (1 <? length (sa_ImagePullSecrets found))%nat then
      u <- call (Update KServiceAccount sa) ;;
      match u with Ok _ => Ret stepOk | Err e => Ret (stepErr e) end
    else Ret stepOk in
  match r with
  | Ok found => update found
  | Err e =>
      if IsNotFound e then
        c <- call (Create KServiceAccount sa) ;;
        match c with Ok _ => update zeroServiceAccount | Err e => Ret (stepErr e) end
      else update zeroServiceAccount
  end.

(** * Volume claim *)

(** [createPVC]: the error of the creation or of the lookup. *)
Definition createPVC (instance : Search) : prog (option error) :=
  let st := sp_DBStorage (s_Spec instance) in
  let pvcName := getPVCName (ss_StorageClassName st) in
  let storageSize := default (MustParse "10Gi") (ss_Size st) in
  r <- call (Get KPVC (mkNN pvcName (s_Namespace instance))) ;;
  match r with
  | Ok _ => Ret None
  | Err e =>
      if IsNotFound e then
        c <- call (Create KPVC (NewPVC pvcName (s_Namespace instance) (ss_StorageClassName st) storageSize)) ;;
        match c with Ok _ => Ret None | Err e => Ret (Some e) end
      else Ret (Some e)
  end.

Definition configurePVC (instance : Search) : prog bool :=
  e <- createPVC instance ;; match e with Some _ => Ret false | None => Ret true end.

(** [isPVCPresent]: any answer but not-found counts as present. *)
Definition isPVCPresent (instance : Search) : prog bool :=
  r <- call (Get KPVC (mkNN (getPVCName (ss_StorageClassName (sp_DBStorage (s_Spec instance))))
                         (s_Namespace instance))) ;;
  match r with
  | Ok _ => Ret true
  | Err e => if IsNotFound e then Ret false else Ret true
  end.

Section resources.
Context `{SemanticEquality smap} `{SemanticEquality NetworkPolicySpec}.
Context `{SemanticEquality (list OwnerReference)} `{SemanticEquality (list PolicyRule)}.
Context `{SemanticEquality RoleRef} `{SemanticEquality (list Subject)}.
Context `{SemanticEquality (list RuleGroup)} `{DeploymentSpecEquality}.

(** * ConfigMaps *)

(** The update branch of [createOrUpdateConfigMap] for the object [found]. *)
Definition updateConfigMap (found cm : ConfigMap) : prog (stepResult * ConfigMap) :=
  data <- (if String.eqb (om_Name (cm_Meta cm)) postgresConfigmapName
           then UpdatePostgresConfigmap (cm_Data found) (cm_Data cm) else Ret (cm_Data cm)) ;;
  let cm := mkConfigMap (cm_Meta cm) data in
  let cmWantsLabel := has_key (om_Labels (cm_Meta cm)) backupLabel in
  let foundHasLabel := has_key (om_Labels (cm_Meta found)) backupLabel in
  if negb (DeepEqual (map_of (cm_Data found)) (map_of (cm_Data cm))) ||
     (cmWantsLabel && negb foundHasLabel)
  then
    u <- call (Update KConfigMap cm) ;;
    match u with Ok o => Ret (stepOk, o) | Err e => Ret (stepErr e, cm) end
  else Ret (stepOk, cm).

(** [createOrUpdateConfigMap]: the result and the ConfigMap as the caller holds
    it afterwards. Any answer but not-found leads to the update branch, with a
    zero object when it is an error. *)
Definition createOrUpdateConfigMap (cm : ConfigMap) : prog (stepResult * ConfigMap) :=
  r <- call (Get KConfigMap (keyOf (cm_Meta cm))) ;;
  match r with
  | Ok found => updateConfigMap found cm
  | Err e =>
      if IsNotFound e then
        c <- call (Create KConfigMap cm) ;;
        match c with Ok o => Ret (stepOk, o) | Err e => Ret (stepErr e, cm) end
      else updateConfigMap zeroConfigMap cm
  end.

(** * NetworkPolicies *)

Definition createOrUpdateNetworkPolicy (np : NetworkPolicy) : prog stepResult :=
  r <- call (Get KNetworkPolicy (keyOf (np_Meta np))) ;;
  match r with
  | Err e =>
      if IsNotFound e then
        c <- call (Create KNetworkPolicy np) ;;
        match c with Ok _ => Ret stepOk | Err e => Ret (stepErr e) end
      else Ret (stepErr e)
  | Ok found =>
      let specChanged := negb (DeepEqual (np_Spec found) (np_Spec np)) in
      let labelsChanged := negb (DeepEqual (map_of (om_Labels (np_Meta found)))
                                           (map_of (om_Labels (np_Meta np)))) in
      let ownerRefsChanged := negb (DeepEqual (om_OwnerReferences (np_Meta found))
                                              (om_OwnerReferences (np_Meta np))) in
      if specChanged || labelsChanged || ownerRefsChanged then
        u <- call (Update KNetworkPolicy (mkNetworkPolicy
               (set_OwnerReferences (om_OwnerReferences (np_Meta np))
                  (set_Labels (om_Labels (np_Meta np)) (np_Meta found))) (np_Spec np))) ;;
        match u with Ok _ => Ret stepOk | Err e => Ret (stepErr e) end
      else Ret stepOk
  end.

(** Steps in order until one returns a result. *)
Fixpoint runSteps (steps : list (prog stepResult)) : prog stepResult :=
  match steps with
  | [] => Ret stepOk
  | s :: rest =>
      r <- s ;;
      match r with (Some _, _) => Ret r | (None, _) => runSteps rest end
  end.

(** [reconcileNetworkPolicies] *)
Definition reconcileNetworkPolicies `{ControllerUtil} `{NestedFields} (dynamicClientSet : bool)
    (instance : Search) : prog stepResult :=
  nps <- NetworkPolicies dynamicClientSet instance ;;
  runSteps (map createOrUpdateNetworkPolicy nps).

(** * Deployments *)

(** [createOrUpdateDeployment]: a failed update is logged only. *)
Definition createOrUpdateDeployment (deploy : Deployment) : prog stepResult :=
  r <- call (Get KDeployment (keyOf (dep_Meta deploy))) ;;
  match r with
  | Err e =>
      if IsNotFound e then
        c <- call (Create KDeployment deploy) ;;
        match c with Ok _ => Ret stepOk | Err e => Ret (stepErr e) end
      else Ret (stepErr e)
  | Ok found =>
      if negb (SpecDeepEqual (dep_Spec found) (dep_Spec deploy)) then
        _u <- call (Update KDeployment deploy) ;; Ret stepOk
      else Ret stepOk
  end.

(** * RBAC *)

Definition createUpdateRoles (crole : ClusterRole) : prog stepResult :=
  r <- call (Get KClusterRole (keyOf (cr_Meta crole))) ;;
  match r with
  | Err e =>
      if IsNotFound e then
        c <- call (Create KClusterRole crole) ;;
        match c with Ok _ => Ret stepOk | Err e => Ret (stepErr e) end
      else Ret (stepErr e)
  | Ok existing =>
      if negb (DeepEqual (cr_Rules existing) (cr_Rules crole)) then
        u <- call (Update KClusterRole (mkClusterRole (cr_Meta existing) (cr_Rules crole))) ;;
        match u with Ok _ => Ret stepOk | Err e => Ret (stepErr e) end
      else Ret stepOk
  end.

(** [createRoleBinding]: a role reference cannot be updated, so a binding with
    another one is deleted and created anew. *)
Definition createRoleBinding (rb : ClusterRoleBinding) : prog stepResult :=
  r <- call (Get KClusterRoleBinding (keyOf (crb_Meta rb))) ;;
  match r with
  | Err e =>
      if IsNotFound e then
        c <- call (Create KClusterRoleBinding rb) ;;
        match c with Ok _ => Ret stepOk | Err e => Ret (stepErr e) end
      else Ret (stepErr e)
  | Ok found =>
      if negb (DeepEqual (crb_RoleRef found) (crb_RoleRef rb)) then
        d <- call (Delete KClusterRoleBinding (keyOf (crb_Meta found))) ;;
        match d with
        | Some e => Ret (stepErr e)
        | None =>
            c <- call (Create KClusterRoleBinding rb) ;;
            match c with Ok _ => Ret stepOk | Err e => Ret (stepErr e) end
        end
      else if negb (DeepEqual (crb_Subjects found) (crb_Subjects rb)) then
        u <- call (Update KClusterRoleBinding
               (mkClusterRoleBinding (crb_Meta found) (crb_RoleRef found) (crb_Subjects rb))) ;;
        match u with Ok _ => Ret stepOk | Err e => Ret (stepErr e) end
      else Ret stepOk
  end.

(** * Alert rule *)

Definition createOrUpdatePrometheusRule (rule : PrometheusRule) : prog stepResult :=
  r <- call (Get KPrometheusRule (keyOf (pru_Meta rule))) ;;
  match r with
  | Err e =>
      if IsNotFound e then
        c <- call (Create KPrometheusRule rule) ;;
        match c with Ok _ => Ret stepOk | Err e => Ret (stepErr e) end
      else Ret (stepErr e)
  | Ok found =>
      if negb (DeepEqual (pru_Groups found) (pru_Groups rule)) then
        u <- call (Update KPrometheusRule (mkPrometheusRule (pru_Meta found) (pru_Groups rule))) ;;
        match u with Ok _ => Ret stepOk | Err e => Ret (stepErr e) end
      else Ret stepOk
  end.
End resources.

(** * Specification *)

(** The policy on the server is as desired, in everything the operator manages. *)
Definition policy_matches (desired o : NetworkPolicy) : Prop :=
  np_Spec o = np_Spec desired ∧ map_of (om_Labels (np_Meta o)) = map_of (om_Labels (np_Meta desired)) ∧
  om_OwnerReferences (np_Meta o) = om_OwnerReferences (np_Meta desired).

(** The binding on the server grants what the desired one grants. *)
Definition binding_matches (desired o : ClusterRoleBinding) : Prop :=
  crb_RoleRef o = crb_RoleRef desired ∧ crb_Subjects o = crb_Subjects desired.

(** * Lemmas *)

Section resource_lemmas.
Context `{SemanticEquality smap} `{SemanticEquality NetworkPolicySpec}.
Context `{SemanticEquality (list OwnerReference)} `{SemanticEquality (list PolicyRule)}.
Context `{SemanticEquality RoleRef} `{SemanticEquality (list Subject)}.
Context `{SemanticEquality (list RuleGroup)} `{DeploymentSpecEquality}.

Lemma exec_createOrUpdateNetworkPolicy np t :
  exec (createOrUpdateNetworkPolicy np) t (Done stepOk) → Forall honest t →
  ∀ st, ∃ o, fold_left (track KNetworkPolicy (keyOf (np_Meta np))) t st = Some o ∧ policy_matches np o.
Proof.
  unfold createOrUpdateNetworkPolicy, call. cbn [bind]. intros He Hh st.
  apply exec_Op in He as ([found|e] & t1 & -> & He); apply Forall_cons in Hh as [Hf Hh].
  - destruct (negb (DeepEqual (np_Spec found) _) || _ || _) eqn:Hc.
    + cbn [bind] in He. apply exec_Op in He as ([o|e] & t2 & -> & He);
        apply exec_Ret in He as [-> He]; [|done].
      eexists. cbn [fold_left]. split; [by apply track_updated|done].
    + apply exec_Ret in He as [-> _]. exists found. cbn [fold_left]. rewrite track_get_ok.
      split; [done|]. split_hyps. rewrite ?DeepEqual_spec in *. done.
  - destruct (IsNotFound e); [|by apply exec_Ret in He as [_ ?]].
    cbn [bind] in He. apply exec_Op in He as ([o|e'] & t2 & -> & He);
      apply exec_Ret in He as [-> He]; [|done].
    exists np. split; [|done]. cbn [fold_left]. by apply track_created.
Qed.

(** A step for one policy says nothing about the others. *)
Lemma exec_networkPolicy_frame np n t o :
  exec (createOrUpdateNetworkPolicy np) t o → Forall honest t → n ≠ keyOf (np_Meta np) →
  ∀ st, fold_left (track KNetworkPolicy n) t st = st.
Proof.
  unfold createOrUpdateNetworkPolicy, call. cbn [bind]. intros He Hh Hn st.
  apply exec_Op in He as (x & t1 & -> & He); apply Forall_cons in Hh as [Hf Hh].
  cbn [fold_left track]. rewrite (bool_decide_eq_false_2 (_ = n)) by done.
  destruct x as [found|e].
  - destruct (_ || _ || _); [|by apply exec_Ret in He as [-> _]].
    cbn [bind] in He. apply exec_Op in He as ([o'|e] & t2 & -> & He);
      apply exec_Ret in He as [-> _]; [|done]. cbn [fold_left track]. unfold sent.
    rewrite bool_decide_eq_false_2; [done|]. cbn in Hf |- *. unfold obj_key in Hf. cbn in Hf.
    unfold obj_key. cbn. by rewrite Hf.
  - destruct (IsNotFound e); [|by apply exec_Ret in He as [-> _]].
    cbn [bind] in He. apply exec_Op in He as ([o'|e'] & t2 & -> & He);
      apply exec_Ret in He as [-> _]; [|done]. cbn [fold_left track]. unfold sent.
    by rewrite bool_decide_eq_false_2.
Qed.

Lemma exec_runSteps_policies nps t :
  exec (runSteps (map createOrUpdateNetworkPolicy nps)) t (Done stepOk) → Forall honest t →
  NoDup (map (λ np, keyOf (np_Meta np)) nps) →
  ∀ np, np ∈ nps →
  ∀ st, ∃ o, fold_left (track KNetworkPolicy (keyOf (np_Meta np))) t st = Some o ∧ policy_matches np o.
Proof.
  revert t. induction nps as [|np nps IH]; intros t He Hh Hnd np' Hin st; [set_solver|].
  cbn [map runSteps] in He. apply exec_bind in He as [(r & t1 & t2 & -> & Ha & He)|(w & _ & ?)]; [|done].
  destruct r as [[res|] err]; [apply exec_Ret in He as [_ ?]; unfold stepOk in *; congruence|].
  cbn [map] in Hnd. apply NoDup_cons in Hnd as [Hnot Hnd]. apply Forall_app in Hh as [Hh1 Hh2].
  rewrite fold_left_app.
  assert (err = None) as ->.
  { revert Ha. unfold createOrUpdateNetworkPolicy. clear. intros Ha.
    exec_steps; unfold stepOk, stepErr in *; congruence. }
  apply elem_of_cons in Hin as [->|Hin]; [|by apply IH].
  destruct (exec_createOrUpdateNetworkPolicy np t1 Ha Hh1 st) as (o & Ho & Hm).
  exists o. split; [|done]. rewrite Ho.
  assert (Hframe : ∀ nps t, exec (runSteps (map createOrUpdateNetworkPolicy nps)) t (Done stepOk) →
    Forall honest t → keyOf (np_Meta np) ∉ map (λ np, keyOf (np_Meta np)) nps →
    ∀ st, fold_left (track KNetworkPolicy (keyOf (np_Meta np))) t st = st); [|by apply (Hframe nps)].
  clear. induction nps as [|p nps IH]; intros t He Hh Hnot st;
    cbn [map runSteps] in He; [by apply exec_Ret in He as [-> _]|].
  apply exec_bind in He as [(r & t1 & t2 & -> & Ha & He)|(w & _ & ?)]; [|done].
  destruct r as [[res|] err]; [apply exec_Ret in He as [_ ?]; unfold stepOk in *; congruence|].
  cbn [map] in Hnot. rewrite not_elem_of_cons in Hnot. destruct Hnot as [Hne Hnot].
  apply Forall_app in Hh as [Hh1 Hh2].
  by rewrite fold_left_app, (exec_networkPolicy_frame p _ t1 _ Ha Hh1 Hne), IH.
Qed.

Lemma exec_createRoleBinding rb t :
  exec (createRoleBinding rb) t (Done stepOk) → Forall honest t →
  ∃ b, last_shown KClusterRoleBinding (keyOf (crb_Meta rb)) t = Some b ∧ binding_matches rb b.
Proof.
  unfold createRoleBinding, last_shown, binding_matches, call. cbn [bind]. intros He Hh.
  apply exec_Op in He as ([found|e] & t1 & -> & He); apply Forall_cons in Hh as [Hf Hh];
    cbn [fold_left]; [rewrite track_get_ok|].
  - destruct (DeepEqual (crb_RoleRef found) _) eqn:Hr; cbn [negb] in He.
    + rewrite DeepEqual_spec in Hr. destruct (DeepEqual (crb_Subjects found) _) eqn:Hs; cbn [negb] in He.
      * apply exec_Ret in He as [-> _]. rewrite DeepEqual_spec in Hs. by exists found.
      * cbn [bind] in He. apply exec_Op in He as ([b|e] & t2 & -> & He);
          apply exec_Ret in He as [-> He]; [|done].
        eexists. cbn [fold_left]. split; [by apply track_updated|done].
    + cbn [bind] in He. apply exec_Op in He as ([e|] & t2 & -> & He);
        [by apply exec_Ret in He as [_ ?]|].
      cbn [bind] in He. apply exec_Op in He as ([b|e] & t3 & -> & He);
        apply exec_Ret in He as [-> He]; [|done].
      eexists. cbn [fold_left]. split; [by apply track_created|done].
  - destruct (IsNotFound e); [|by apply exec_Ret in He as [_ ?]].
    cbn [bind] in He. apply exec_Op in He as ([b|e'] & t2 & -> & He);
      apply exec_Ret in He as [-> He]; [|done].
    eexists. cbn [fold_left]. split; [by apply track_created|done].
Qed.

(** An update of a binding keeps the role reference of the binding shown. *)
Definition keeps_roleRef (n : NamespacedName) (h : list event) R (q : Api R) : Prop :=
  match q with
  | Update k o =>
      match as_kind KClusterRoleBinding k o None with
      | Some b => ∃ found, last_shown KClusterRoleBinding n h = Some found ∧
                           crb_RoleRef b = crb_RoleRef found
      | None => True
      end
  | _ => True
  end.

Lemma wp_createRoleBinding rb :
  wp (keeps_roleRef (keyOf (crb_Meta rb))) (createRoleBinding rb) (λ _ _, True).
Proof.
  unfold createRoleBinding, wp. apply wp_call; [done|]. intros [found|e].
  - destruct (negb _); [|destruct (negb _); [|done]].
    + apply wp_call; [done|]. intros [e|]; [done|]. apply wp_call; [done|]. by intros [].
    + apply wp_call; [|by intros []]. unfold keeps_roleRef. rewrite as_kind_same.
      exists found. split; [|done]. unfold last_shown. cbn [app fold_left]. apply track_get_ok.
  - destruct (IsNotFound e); [|done]. apply wp_call; [done|]. by intros [].
Qed.


Lemma policiesFor_keys `{ControllerUtilLaws} instance mce :
  NoDup (map (λ np, keyOf (np_Meta np)) (policiesFor instance mce)).
Proof.
  unfold policiesFor, keyOf. cbn.
  repeat match goal with |- context [om_Name (withOwner ?s ?m)] =>
    destruct (withOwner_name s m) as (-> & -> & _) end.
  cbn. repeat (apply NoDup_cons; split; [|]); try apply NoDup_nil; try done;
    rewrite ?not_elem_of_cons; split_and?; by (intros [=] || apply not_elem_of_nil).
Qed.

(** The policies of an instance are on the server as designed. *)
Definition policies_enforced `{ControllerUtil} (instance : Search) (t : list event) : Prop :=
  ∃ mce, ∀ np, np ∈ policiesFor instance mce →
    ∃ o, last_shown KNetworkPolicy (keyOf (np_Meta np)) t = Some o ∧ policy_matches np o.

Lemma exec_reconcileNetworkPolicies `{ControllerUtilLaws} `{NestedFields} dynamicClientSet instance t :
  exec (reconcileNetworkPolicies dynamicClientSet instance) t (Done stepOk) → Forall honest t →
  policies_enforced instance t.
Proof.
  unfold reconcileNetworkPolicies.
  intros [(nps & t1 & t2 & -> & Hn & He)|(w & _ & ?)]%exec_bind Hh; [|done].
  apply Forall_app in Hh as [_ Hh].
  assert (∃ mce, nps = policiesFor instance mce) as [mce ->].
  { revert Hn. clear. unfold NetworkPolicies. destruct dynamicClientSet.
    - intros [(r & ? & ? & _ & _ & [_ [= ->]]%exec_Ret)|(w & _ & ?)]%exec_bind; [eauto|done].
    - intros [_ [= ->]]%exec_Ret. eauto. }
  exists mce. intros np Hnp. rewrite last_shown_app.
  by apply exec_runSteps_policies with (nps := policiesFor instance mce); [| |apply policiesFor_keys|].
Qed.

(** * Theorems *)

(** An object the operator only creates (the database secrets, the services,
    the serving ConfigMaps, the monitors) is never written once it exists. All
    executions: one that finds the object does nothing else; one that does not
    creates it and reports what the creation answered; another answer ends the
    step, with the error for services and secrets and without it for ConfigMaps
    and monitors. *)
Theorem create_if_absent_spec strict k (x : Obj k) t r :
  exec (createIfAbsent strict k x) t r ↔
    (∃ found, t = [Ev (Get k (obj_key k x)) (Ok found)] ∧ r = Done stepOk) ∨
    (∃ e, IsNotFound e = false ∧ t = [Ev (Get k (obj_key k x)) (Err e)] ∧
          r = Done (if strict then stepErr e else stepOk)) ∨
    (∃ e a, IsNotFound e = true ∧ t = [Ev (Get k (obj_key k x)) (Err e); Ev (Create k x) a] ∧
            r = Done (match a with Ok _ => stepOk | Err e => stepErr e end)).
Proof.
  unfold createIfAbsent, call. cbn [bind]. split.
  - intros ([found|e] & t1 & -> & He)%exec_Op; [apply exec_Ret in He as [-> ->]; eauto|].
    destruct (IsNotFound e) eqn:Hn.
    + cbn [bind] in He. apply exec_Op in He as (a & t2 & -> & He). do 2 right. exists e, a.
      destruct a; by apply exec_Ret in He as [-> ->].
    + right. left. exists e. destruct strict; by apply exec_Ret in He as [-> ->].
  - intros [(found & -> & ->)|[(e & Hn & -> & ->)|(e & a & Hn & -> & ->)]]; constructor;
      [constructor|rewrite Hn; destruct strict; constructor|].
    rewrite Hn. constructor. destruct a; constructor.
Qed.

(** When the network policy step succeeds, every policy of the instance is
    on the server as designed: the object last shown or stored under its name has
    the designed rules, labels and owner, for one namespace of the multicluster
    engine. A policy somebody changed is thereby put back. *)
Theorem network_policies_enforced `{ControllerUtilLaws} `{NestedFields} dynamicClientSet instance t :
  exec (reconcileNetworkPolicies dynamicClientSet instance) t (Done stepOk) → Forall honest t →
  policies_enforced instance t.
Proof. apply exec_reconcileNetworkPolicies. Qed.

(** A cluster role binding ends as desired: on success the binding last
    shown or stored grants the desired role to the desired subjects. Since the
    server refuses to change a role reference, no update ever tries to: it keeps
    the reference of the binding just read, and a binding with another one is
    deleted and created anew. *)
Theorem role_binding_ensured rb t o :
  exec (createRoleBinding rb) t o → Forall honest t →
  let shown := last_shown KClusterRoleBinding (keyOf (crb_Meta rb)) in
  (o = Done stepOk → ∃ b, shown t = Some b ∧ binding_matches rb b) ∧
  ∀ t1 b a t2, t = t1 ++ Ev (Update KClusterRoleBinding b) a :: t2 →
    ∃ found, shown t1 = Some found ∧ crb_RoleRef b = crb_RoleRef found.
Proof.
  intros He Hh. split.
  - intros ->. by apply exec_createRoleBinding.
  - intros t1 b a t2 Ht.
    assert (Hg := wp_guarantee _ _ _ t o t1 _ _ a t2 (wp_createRoleBinding rb) He Ht).
    cbn in Hg. rewrite as_kind_same in Hg. by apply Hg.
Qed.

(** A read of the database ConfigMap that fails for a passing reason (any
    error but not-found) is taken for an empty ConfigMap: the very next request
    writes the defaults over the object, and with them the placeholder comment
    over the customizations an administrator keeps in it. *)
Theorem failed_read_overwrites_custom_conf {W} `{Server W} (w w' : W) cm new D e :
  serve (Get KConfigMap (keyOf (cm_Meta cm))) w = (Err e, w') → IsNotFound e = false →
  om_Name (cm_Meta cm) = postgresConfigmapName → cm_Data cm = Some new →
  new !! confKey = Some D → D ≠ "" →
  ∃ d a t, run_trace (createOrUpdateConfigMap cm) w =
      Ev (Get KConfigMap (keyOf (cm_Meta cm))) (Err e) ::
      Ev (Update KConfigMap (mkConfigMap (cm_Meta cm) (Some d))) a :: t ∧
    d !! customKey = Some "# Customizations appended to postgresql.conf".
Proof.
  intros Hs He Hn Hd Hconf HD.
  pose (d := <[customKey := migratedConf "" D]> new).
  assert (Hpg : UpdatePostgresConfigmap None (Some new) = Ret (Some d)).
  { rewrite UpdatePostgresConfigmap_Some. do 2 f_equal. unfold d.
    by apply (nextData_migrate new D Hconf None). }
  unfold run_trace, createOrUpdateConfigMap, call. cbn [run bind]. rewrite Hs, He.
  unfold updateConfigMap. rewrite Hn, String.eqb_refl, Hd. cbn [zeroConfigMap cm_Data].
  rewrite Hpg. cbn [bind cm_Data cm_Meta].
  destruct (DeepEqual _ _) eqn:Hq.
  { rewrite DeepEqual_spec in Hq. by destruct (insert_non_empty new customKey (migratedConf "" D)). }
  cbn [negb orb run bind]. unfold call. cbn [run bind].
  destruct (serve (Update _ _) w') as [a w2].
  exists d, a. destruct a; cbn; (eexists; split; [reflexivity|]); unfold d; rewrite lookup_insert_eq;
    (f_equal; unfold migratedConf; cbn [Split fold_left]; by rewrite ?Contains_nil).
Qed.
End resource_lemmas.

(** * The theorems at concrete inputs *)

(** A cluster whose database policy somebody emptied. *)
Definition tamperedPolicy : NetworkPolicy :=
  mkNetworkPolicy (np_Meta (PostgresNetworkPolicy sampleSearch)) (mkNetworkPolicySpec {[ "app" := "other" ]} [] [] []).
Definition policyServer : MemServer :=
  mkServer (store_put KNetworkPolicy tamperedPolicy emptyStore)
    [mkDyn multiclusterengineResourceGvr (mkNN "engine" "")
       (mkUnstructured "engine" None [("spec", JMap [("targetNamespace", JStr "mce")])])] 1 [].

#[local] Existing Instance ref_NestedString.

Lemma network_policies_enforced_witness :
  let t := run_trace (reconcileNetworkPolicies true sampleSearch) policyServer in
  ∃ mce, ∀ np, np ∈ policiesFor sampleSearch mce →
    ∃ o, last_shown KNetworkPolicy (keyOf (np_Meta np)) t = Some o ∧ policy_matches np o.
Proof.
  cbv zeta. apply (network_policies_enforced true sampleSearch).
  - apply run_exec_eq. vm_compute. reflexivity.
  - apply honestb_sound. vm_compute. reflexivity.
Defined.

Definition sampleBinding (role : string) : ClusterRoleBinding :=
  mkClusterRoleBinding (newMeta "search-api" "") (mkRoleRef "rbac.authorization.k8s.io" "ClusterRole" role)
    [mkSubject "ServiceAccount" "" "search-api" "ocm"].

(** The binding found refers to another role. *)
Lemma role_binding_ensured_witness :
  let t := run_trace (createRoleBinding (sampleBinding "search-api"))
             (serverWith (store_put KClusterRoleBinding (sampleBinding "admin") emptyStore)) in
  ∃ b, last_shown KClusterRoleBinding (mkNN "search-api" "") t = Some b ∧
       binding_matches (sampleBinding "search-api") b.
Proof.
  cbv zeta. apply (role_binding_ensured (sampleBinding "search-api") _ (Done stepOk)).
  - apply run_exec_eq. vm_compute. reflexivity.
  - apply honestb_sound. vm_compute. reflexivity.
  - reflexivity.
Defined.

Definition storedConf : ConfigMap :=
  mkConfigMap (newMeta postgresConfigmapName "ocm") (Some (<[customKey := "max_connections = '400'"]> sampleConf)).

Definition unreadableServer : MemServer :=
  faulty [Some serverDown] (serverWith (store_put KConfigMap storedConf emptyStore)).
Definition desiredConf : ConfigMap := mkConfigMap (newMeta postgresConfigmapName "ocm") (Some sampleConf).

Lemma failed_read_overwrites_custom_conf_witness :
  ∃ d a t, run_trace (createOrUpdateConfigMap desiredConf) unreadableServer =
      Ev (Get KConfigMap (keyOf (cm_Meta desiredConf))) (Err serverDown) ::
      Ev (Update KConfigMap (mkConfigMap (cm_Meta desiredConf) (Some d))) a :: t ∧
    d !! customKey = Some "# Customizations appended to postgresql.conf".
Proof.
  apply (failed_read_overwrites_custom_conf unreadableServer (faulty [] unreadableServer) desiredConf
           sampleConf (postgresqlConf sampleTLS) serverDown);
    try reflexivity; vm_compute; discriminate || reflexivity.
Defined.
