(* ===== verification/Reconciler.v ===== *)
(** The reconciler: [Reconcile], [setFinalizer], [finalizeSearch] of
    [src/controllers/search_controller.go] and the clean-up functions of
    [src/controllers/cleanup.go].

    The process state that outlives a call, the two [sync.Once] values and the
    collector image the add-on hands out, is threaded explicitly. *)
From S2P Require Import Prelude GoStrings K8s V1alpha1 Effects Interfaces Selectors MemServer Fixtures ImageValidation Common CollectorMerge PostgresConfig Deployments Objects Networks TLS SearchCR Features Status Addon Resources Seeder.
From Stdlib Require Import Ascii.

Local Open Scope search_scope.

Definition searchFinalizer : string := "search.open-cluster-management.io/finalizer".

(** * Clean-up (cleanup.go) *)

(** The first owner reference of kind Search removed; [None] when there is none. *)
Definition dropSearchRef (refs : list OwnerReference) : option (list OwnerReference) :=
  match find_index (λ ref, String.eqb (or_Kind ref) "Search") refs with
  | Some i => Some (delete_at i refs)
  | None => None
  end.

(** [removeOwnerRefClusterManagementAddon] *)
Definition removeOwnerRefClusterManagementAddon (instance : Search) : prog (option error) :=
  r <- call (Get KCMA (mkNN "search-collector" (s_Namespace instance))) ;;
  let cma := match r with
             | Ok cma => cma
             | Err _ => mkCMA (newMeta "search-collector" (s_Namespace instance))
             end in
  let update :=
    match dropSearchRef (om_OwnerReferences (cma_Meta cma)) with
    | Some refs =>
        u <- call (Update KCMA (mkCMA (set_OwnerReferences refs (cma_Meta cma)))) ;;
        match u with Ok _ => Ret None | Err e => Ret (Some e) end
    | None => Ret None
    end in
  match r with
  | Err e => if IsNotFound e then update else Ret (Some e)
  | Ok _ => update
  end.

(** A deletion for which a missing object is fine. *)
Definition deleteObject (k : Kind) (n : NamespacedName) : prog (option error) :=
  r <- call (Delete k n) ;;
  match r with
  | Some e => if negb (IsNotFound e) then Ret (Some e) else Ret None
  | None => Ret None
  end.

Definition deleteClusterRole (instance : Search) (resourceName : string) : prog (option error) :=
  deleteObject KClusterRole (mkNN resourceName (s_Namespace instance)).
Definition deleteClusterRoleBinding (instance : Search) (resourceName : string) : prog (option error) :=
  deleteObject KClusterRoleBinding (mkNN resourceName "").

Section reconciler.
Context `{Environ} `{Quantities} `{ControllerUtil} `{NestedFields} `{TLSLibrary} `{StatusConditions}.
Context `{SemanticEquality CollectorConfigSpec} `{SemanticEquality smap} `{SemanticEquality NetworkPolicySpec}.
Context `{SemanticEquality (list OwnerReference)} `{SemanticEquality (list PolicyRule)}.
Context `{SemanticEquality RoleRef} `{SemanticEquality (list Subject)}.
Context `{SemanticEquality (list RuleGroup)} `{DeploymentSpecEquality}.
Context (sha256 : string → list Byte.byte).

(** [deleteLegacyServiceMonitorSetup]: errors are logged. *)
Definition deleteLegacyServiceMonitorSetup (instance : Search) : prog unit :=
  _a <- deleteObject KServiceMonitor (keyOf (sm_Meta (MonitorOfService instance "search-api" "openshift-monitoring"))) ;;
  _b <- deleteObject KServiceMonitor (keyOf (sm_Meta (MonitorOfService instance "search-indexer" "openshift-monitoring"))) ;;
  _c <- deleteObject KRole (keyOf (cr_Meta (MetricsRole instance))) ;;
  _d <- deleteObject KRoleBinding (keyOf (crb_Meta (MetricsRoleBinding instance))) ;;
  Ret tt.

(** * Finalizing *)

(** Steps in order until one fails. *)
Fixpoint firstError (steps : list (prog (option error))) : prog (option error) :=
  match steps with
  | [] => Ret None
  | s :: rest => r <- s ;; match r with Some e => Ret (Some e) | None => firstError rest end
  end.

(** [finalizeSearch] *)
Definition finalizeSearch (instance : Search) : prog (option error) :=
  firstError
    [ removeOwnerRefClusterManagementAddon instance;
      deleteClusterRole instance getAddonRoleName;
      deleteClusterRoleBinding instance getAddonRoleName;
      deleteClusterRoleBinding instance (getRoleBindingName +:+ "-api");
      deleteClusterRoleBinding instance (getRoleBindingName +:+ "-collector");
      deleteClusterRole instance (getRoleName +:+ "-indexer");
      deleteClusterRoleBinding instance (getRoleBindingName +:+ "-indexer") ].

(** [setFinalizer]: whether the CR is being deleted, the error, and the CR. *)
Definition setFinalizer (instance : Search) : prog (bool * option error * Search) :=
  match om_DeletionTimestamp (s_Meta instance) with
  | Some _ =>
      if ContainsFinalizer (s_Meta instance) searchFinalizer then
        f <- finalizeSearch instance ;;
        match f with
        | Some e => Ret (false, Some e, instance)
        | None =>
            let instance := s_set_Meta (RemoveFinalizer (s_Meta instance) searchFinalizer) instance in
            u <- call (Update KSearch instance) ;;
            match u with
            | Ok o => Ret (true, None, o)
            | Err e => Ret (false, Some e, instance)
            end
        end
      else Ret (true, None, instance)
  | None =>
      if negb (ContainsFinalizer (s_Meta instance) searchFinalizer) then
        let instance := s_set_Meta (AddFinalizer (s_Meta instance) searchFinalizer) instance in
        u <- call (Update KSearch instance) ;;
        match u with
        | Ok o => Ret (false, None, o)
        | Err e => Ret (false, Some e, instance)
        end
      else Ret (false, None, instance)
  end.

(** * Reconcile *)

(** The database: its ConfigMap first, merged with what the server holds, then the
    deployment that carries the hash of the result. *)
Definition reconcileDatabase (instance : Search) : prog stepResult :=
  pgTLS <- getPostgresTLSConfig ;;
  pgConfigMap <- PostgresConfigmap instance pgTLS ;;
  r <- createOrUpdateConfigMap pgConfigMap ;;
  match r with
  | ((Some result, err), _) => Ret (Some result, err)
  | ((None, _), pgConfigMap) =>
      let pgConfigHash := postgresConfigHash sha256 (cm_Data pgConfigMap) in
      d <- PGDeployment instance pgConfigHash ;;
      createOrUpdateDeployment d
  end.

(** What outlives a call: [once], [cleanOnce] and [addon.SearchCollectorImage]. *)
Record Process := mkProcess { pr_AddonStarted : bool; pr_Cleaned : bool; pr_CollectorImage : string }.

(** [CreateAddonOnce], once: the manager starts with the image of that CR. *)
Definition addonStarted (p : Process) (instance : Search) : Process :=
  if pr_AddonStarted p then p
  else mkProcess true (pr_Cleaned p) (CreateAddonOnce (pr_CollectorImage p) instance).

(** The results of [Reconcile] with the process state it leaves. *)
Abbreviation outcomeOf := (ReconcileResult * option error * Process)%type.

Section steps.
Context (p : Process).

(** [result, err = step; if result != nil { return *result, err }] *)
Definition orElse (step : prog stepResult) (rest : prog outcomeOf) : prog outcomeOf :=
  r <- step ;;
  match r with
  | (Some result, err) => Ret (result, err, p)
  | (None, _) => rest
  end.
Notation "'try' s ';;;' q" := (orElse s q) (at level 63, right associativity) : search_scope.

(** [result, err = step; if err != nil { return *result, err }] for the feature
    reconcilers, which edit the CR; a nil result with an error is dereferenced. *)
Definition feature (step : prog (stepResult * Search)) (rest : Search → prog outcomeOf) : prog outcomeOf :=
  r <- step ;;
  match r with
  | ((Some result, Some e), _) => Ret (result, Some e, p)
  | ((None, Some _), _) => Panic "invalid memory address or nil pointer dereference"
  | ((_, None), instance) => rest instance
  end.

(** A builder that may fail before the step. *)
Definition withAccount (sa : result ServiceAccount) (rest : prog outcomeOf) : prog outcomeOf :=
  match sa with
  | Err e => Ret (emptyResult, Some e, p)
  | Ok sa => try createSearchServiceAccount sa ;;; rest
  end.

(** A deletion whose error ends the reconciliation. *)
Definition deleting (d : prog (option error)) (rest : prog outcomeOf) : prog outcomeOf :=
  r <- d ;; match r with Some e => Ret (emptyResult, Some e, p) | None => rest end.

(** The components but the database: deployments, policies and ConfigMaps. *)
Definition reconcileComponents (instance : Search) (rest : prog outcomeOf) : prog outcomeOf :=
  tlsEnvVars <- getTLSEnvVars ;;
  try (d <- CollectorDeployment instance tlsEnvVars ;; createOrUpdateDeployment d) ;;;
  try createOrUpdateDeployment (IndexerDeployment instance tlsEnvVars) ;;;
  try createOrUpdateDeployment (APIDeployment instance tlsEnvVars) ;;;
  try reconcileNetworkPolicies true instance ;;;
  try createConfigMap (IndexerConfigmap instance) ;;;
  try createConfigMap (SearchCACert instance) ;;;
  rest.

(** The part before the features: accounts, RBAC, configuration, database,
    services and monitors, in order, and then the components. *)
Definition reconcileResources (instance : Search) (rest : prog outcomeOf) : prog outcomeOf :=
  try createSearchServiceAccount (SearchAPIServiceAccount instance) ;;;
  withAccount (SearchPostgresServiceAccount instance) (
  withAccount (SearchIndexerServiceAccount instance) (
  try createSearchServiceAccount (SearchCollectorServiceAccount instance) ;;;
  try createUpdateRoles (IndexerClusterRole instance) ;;;
  try createUpdateRoles (AddonClusterRole instance) ;;;
  try createUpdateRoles (GlobalSearchUserClusterRole instance) ;;;
  try createRoleBinding (APIClusterRoleBinding instance) ;;;
  try createRoleBinding (CollectorClusterRoleBinding instance) ;;;
  try createRoleBinding (IndexerClusterRoleBinding instance) ;;;
  _logged <- ensureWebhookCAInjection ;;
  try createOrUpdateMergedCollectorConfig instance ;;;
  try (secret <- PGSecret instance ;; createSecret secret) ;;;
  try (secret <- APIReadonlySecret instance ;; createSecret secret) ;;;
  try (secret <- MCPReadonlySecret instance ;; createSecret secret) ;;;
  try createService (PGService instance) ;;;
  try reconcileDatabase instance ;;;
  try createService (IndexerService instance) ;;;
  try createService (APIService instance) ;;;
  _logged <- createService (CollectorService instance) ;;
  try createServiceMonitor (MonitorOfService instance "search-indexer" (s_Namespace instance)) ;;;
  try createServiceMonitor (MonitorOfService instance "search-api" (s_Namespace instance)) ;;;
  try createServiceMonitor (CollectorServiceMonitor instance "search-collector" (s_Namespace instance)) ;;;
  reconcileComponents instance rest)).

(** The deletions that end every reconciliation: the RBAC objects of old releases. *)
Definition deleteLegacyRBAC (instance : Search) : prog outcomeOf :=
  deleting (deleteClusterRole instance getRoleName) (
  deleting (deleteClusterRoleBinding instance getRoleBindingName) (
  deleting (deleteObject KServiceAccount (mkNN "search-serviceaccount" (s_Namespace instance)))
    (Ret (emptyResult, None, p)))).
End steps.
Notation "'try' p 'do' s ';;;' q" := (orElse p s q)
  (at level 63, p at level 0, s at level 62, right associativity) : search_scope.

(** [cleanOnce.Do] *)
Definition cleanOnce (p : Process) (instance : Search) : prog Process :=
  if pr_Cleaned p then Ret p
  else
    _done <- deleteLegacyServiceMonitorSetup instance ;;
    _logged <- removeOwnerRefClusterManagementAddon instance ;;
    Ret (mkProcess (pr_AddonStarted p) true (pr_CollectorImage p)).

(** The part after the features: the alert, and what is left of old releases. *)
Definition reconcileLegacy (p : Process) (instance : Search) : prog outcomeOf :=
  try p do createOrUpdatePrometheusRule (SearchPVCPrometheusRule instance) ;;;
  p <- cleanOnce p instance ;;
  deleteLegacyRBAC p instance.

(** The four features in order, each on the CR the one before it leaves. *)
Definition reconcileFeatures (p : Process) (instance : Search) (rest : Search → prog outcomeOf) : prog outcomeOf :=
  feature p (reconcileGlobalSearch instance) (λ instance,
  feature p (addEnvToSearchAPI instance) (λ instance,
  feature p (reconcileFineGrainedRBACConfiguration instance) (λ instance,
  feature p (reconcileVirtualMachineConfiguration instance) rest))).

(** The claim, the resources, the features, and the rest. *)
Definition reconcileActive (p : Process) (instance : Search) : prog outcomeOf :=
  let storage := ss_StorageClassName (sp_DBStorage (s_Spec instance)) in
  claim <- (if negb (String.eqb storage "") then
              present <- isPVCPresent instance ;;
              if negb present then configurePVC instance else Ret true
            else Ret true) ;;
  if negb claim then Ret (mkResult true (10 * 10 ^ 9), None, p)
  else
    reconcileResources p instance (reconcileFeatures p instance (reconcileLegacy p)).

(** [Reconcile] *)
Definition Reconcile (req : NamespacedName) (p : Process) : prog outcomeOf :=
  r <- call (Get KSearch (mkNN OperatorName (nn_Namespace req))) ;;
  match r with
  | Err e => Ret (emptyResult, if IsNotFound e then None else Some e, p)
  | Ok instance =>
      let p := addonStarted p instance in
      if HasPrefix (nn_Name req) "Pod/" then
        match Split (nn_Name req) "/"%char with
        | _ :: podName :: _ => e <- updateStatus instance podName ;; Ret (emptyResult, e, p)
        | _ => Panic "index out of range"
        end
      else
        f <- setFinalizer instance ;;
        let '(deleted, err, instance) := f in
        match err with
        | Some e => Ret (emptyResult, Some e, p)
        | None =>
            if (deleted : bool) then Ret (emptyResult, None, p)
            else if IsPaused (s_Annotations instance) then Ret (emptyResult, None, p)
            else reconcileActive p instance
        end
  end.
End reconciler.

(** * Concrete inputs *)

Definition newProcess : Process := mkProcess false false "quay.io/stolostron/search-collector:1".
Definition searchRequest : NamespacedName := mkNN OperatorName "ocm".
