(* ===== verification/Watches.v ===== *)
(** What wakes the reconciler up: the watches [SetupWithManager] of
    [src/controllers/search_controller.go] registers, with their predicates and
    map functions.

    Parameters: the event handlers and the predicate type of controller-runtime
    ([ControllerRuntime]), with their documented behaviour as laws. *)
From Stdlib Require Import Ascii String.
From S2P Require Import Prelude GoStrings K8s V1alpha1 Effects Interfaces Selectors MemServer Fixtures ImageValidation Common CollectorMerge PostgresConfig Deployments Objects Networks TLS SearchCR Features Status Addon Resources Seeder Reconciler.

Local Open Scope search_scope.

(** * Objects and events *)

(** [client.Object], by the types the operator watches. *)
Inductive clientObject :=
| Typed (k : Kind) (o : Obj k)
| Cluster (mc : ManagedCluster)
| Unstructured_ (u : Unstructured).

Inductive WatchedType := WKind (k : Kind) | WManagedCluster | WUnstructured.
#[export] Instance WatchedType_eq_dec : EqDecision WatchedType.
Proof. solve_decision. Defined.

Definition type_of (o : clientObject) : WatchedType :=
  match o with
  | Typed k _ => WKind k
  | Cluster _ => WManagedCluster
  | Unstructured_ _ => WUnstructured
  end.

(** [GetName], [GetNamespace], [GetLabels], [GetOwnerReferences]. The one
    unstructured type that is watched, APIServer, has no namespace. *)
Definition metaOf (o : clientObject) : ObjectMeta :=
  match o with
  | Typed k o => obj_meta k o
  | Cluster mc => mcl_Meta mc
  | Unstructured_ u => set_Labels (u_Labels u) (newMeta (u_Name u) "")
  end.

(** [event.CreateEvent] and friends. *)
Inductive watchEvent :=
| CreateEvent (o : clientObject)
| UpdateEvent (old new : clientObject)
| DeleteEvent (o : clientObject)
| GenericEvent (o : clientObject).

(** The versions of the object an event carries. *)
Definition objects (e : watchEvent) : list clientObject :=
  match e with
  | CreateEvent o | DeleteEvent o | GenericEvent o => [o]
  | UpdateEvent old new => [old; new]
  end.

Definition event_type (e : watchEvent) : WatchedType :=
  match e with
  | CreateEvent o | UpdateEvent _ o | DeleteEvent o | GenericEvent o => type_of o
  end.

(** * controller-runtime *)

(** [predicate.Funcs]; a nil function is [None]. *)
Record Funcs := mkFuncs {
  CreateFunc : option (watchEvent → bool);
  UpdateFunc : option (watchEvent → bool);
  DeleteFunc : option (watchEvent → bool);
  GenericFunc : option (watchEvent → bool)
}.

Definition func_of (f : Funcs) (e : watchEvent) : option (watchEvent → bool) :=
  match e with
  | CreateEvent _ => CreateFunc f
  | UpdateEvent _ _ => UpdateFunc f
  | DeleteEvent _ => DeleteFunc f
  | GenericEvent _ => GenericFunc f
  end.

(** The handlers the operator uses. The owner type is [Search] and the option
    [OnlyControllerOwner] is set. *)
Inductive EventHandler :=
| EnqueueRequestForObject
| EnqueueRequestForOwner
| EnqueueRequestsFromMapFunc (f : clientObject → list NamespacedName).

Class ControllerRuntime := {
  Filter : Funcs → watchEvent → bool;
  Handle : EventHandler → watchEvent → list NamespacedName
}.

(** [metav1.GetControllerOf] *)
Definition is_controller (ref : OwnerReference) : bool :=
  match or_Controller ref with Some b => b | None => false end.
Definition controllerOf (m : ObjectMeta) : option OwnerReference :=
  find_first is_controller (om_OwnerReferences m).

(** A reference to a Search of any version. *)
Definition refers_to_search (ref : OwnerReference) : Prop :=
  or_Kind ref = "Search" ∧ ∃ v, or_APIVersion ref = "search.open-cluster-management.io/" +:+ v.

Class ControllerRuntimeLaws `{ControllerRuntime} := {
  Filter_spec f e : Filter f e = match func_of f e with Some g => g e | None => true end;
  Handle_object e r : r ∈ Handle EnqueueRequestForObject e ↔
    ∃ o, o ∈ objects e ∧ r = mkNN (om_Name (metaOf o)) (om_Namespace (metaOf o));
  Handle_owner e r : r ∈ Handle EnqueueRequestForOwner e ↔
    ∃ o ref, o ∈ objects e ∧ controllerOf (metaOf o) = Some ref ∧ refers_to_search ref ∧
      r = mkNN (or_Name ref) (om_Namespace (metaOf o));
  Handle_map f e r : r ∈ Handle (EnqueueRequestsFromMapFunc f) e ↔ ∃ o, o ∈ objects e ∧ r ∈ f o
}.

(** * The watches *)

(** [isManagedHub] *)
Definition isManagedHub (mc : option ManagedCluster) : bool :=
  match mc with
  | None => false
  | Some mc => existsb (λ claim, String.eqb (cl_Name claim) "hub.open-cluster-management.io" &&
                                 negb (String.eqb (cl_Value claim) "NotInstalled")) (mcl_ClusterClaims mc)
  end.

Definition pred : Funcs :=
  mkFuncs (Some (λ _, false)) (Some (λ _, false)) None None.
Definition networkPolicyPred : Funcs :=
  mkFuncs (Some (λ _, false)) (Some (λ _, true)) None None.
Definition configMapPred : Funcs :=
  mkFuncs (Some (λ _, true)) (Some (λ _, true)) (Some (λ _, false)) None.

Record Watch := mkWatch {
  w_Type : WatchedType; w_Handler : EventHandler; w_Predicates : list Funcs
}.

Section watches.
Context `{Environ}.

Definition toOperator (namespace : string) : list NamespacedName := [mkNN OperatorName namespace].

Definition mapConfigMap (a : clientObject) : list NamespacedName :=
  let m := metaOf a in
  if String.eqb (om_Name m) SEARCH_GLOBAL_CONFIG && String.eqb (om_Namespace m) (Getenv "POD_NAMESPACE")
  then toOperator (om_Namespace m)
  else
    match find_first (λ ref, String.eqb (or_APIVersion ref) GroupVersion && String.eqb (or_Kind ref) "Search" &&
                             is_controller ref) (om_OwnerReferences m) with
    | Some ref => [mkNN (or_Name ref) (om_Namespace m)]
    | None => []
    end.

Definition mapPod (a : clientObject) : list NamespacedName :=
  let m := metaOf a in
  if searchLabels (om_Labels m) then [mkNN ("Pod/" +:+ om_Name m) (om_Namespace m)] else [].

Definition mapManagedCluster (a : clientObject) : list NamespacedName :=
  match a with
  | Cluster mc => if isManagedHub (Some mc) then toOperator (Getenv "POD_NAMESPACE") else []
  | _ => []
  end.

Definition mapCollectorConfig (a : clientObject) : list NamespacedName :=
  let m := metaOf a in
  if String.eqb (om_Name m) mergedCollectorConfigName then []
  else if String.eqb (om_Name m) userCollectorConfigName ||
          String.eqb (get_str (om_Labels m) IntegrationTeamLabel) IntegrationTeamLabelValue
  then toOperator (om_Namespace m) else [].

Definition mapAPIServer (a : clientObject) : list NamespacedName :=
  if String.eqb (om_Name (metaOf a)) "cluster" then toOperator (Getenv "POD_NAMESPACE") else [].

(** The watches in the order of [SetupWithManager]. *)
Definition SetupWithManager : list Watch :=
  [ mkWatch (WKind KSearch) EnqueueRequestForObject [];
    mkWatch (WKind KDeployment) EnqueueRequestForOwner [pred];
    mkWatch (WKind KSecret) EnqueueRequestForOwner [pred];
    mkWatch (WKind KNetworkPolicy) EnqueueRequestForOwner [networkPolicyPred];
    mkWatch (WKind KConfigMap) (EnqueueRequestsFromMapFunc mapConfigMap) [configMapPred];
    mkWatch (WKind KPod) (EnqueueRequestsFromMapFunc mapPod) [];
    mkWatch WManagedCluster (EnqueueRequestsFromMapFunc mapManagedCluster) [];
    mkWatch (WKind KCollectorConfig) (EnqueueRequestsFromMapFunc mapCollectorConfig) [];
    mkWatch WUnstructured (EnqueueRequestsFromMapFunc mapAPIServer) [] ].

Context `{ControllerRuntime}.

(** The requests one watch makes of an event of its type. *)
Definition deliver (w : Watch) (e : watchEvent) : list NamespacedName :=
  if bool_decide (w_Type w = event_type e) && forallb (λ f, Filter f e) (w_Predicates w)
  then Handle (w_Handler w) e else [].

(** The reconcile requests an event makes. *)
Definition wakes (e : watchEvent) : list NamespacedName :=
  flat_map (λ w, deliver w e) SetupWithManager.
End watches.

(** * Lemmas *)

Section lemmas.
Context `{Environ} `{ControllerRuntimeLaws}.

(** Every type is watched once. *)
Lemma watch_unique w w' :
  w ∈ SetupWithManager → w' ∈ SetupWithManager → w_Type w = w_Type w' → w = w'.
Proof.
  unfold SetupWithManager. intros Hw Hw' Ht.
  repeat (apply elem_of_cons in Hw as [->|Hw]; [
    repeat (apply elem_of_cons in Hw' as [->|Hw']; [done || discriminate Ht|]); by apply elem_of_nil in Hw'|]).
  by apply elem_of_nil in Hw.
Qed.

Lemma elem_of_deliver w e r :
  r ∈ deliver w e ↔
  w_Type w = event_type e ∧ Forall (λ f, Filter f e = true) (w_Predicates w) ∧ r ∈ Handle (w_Handler w) e.
Proof.
  unfold deliver. destruct (bool_decide_reflect (w_Type w = event_type e)) as [Ht|Ht]; cbn [andb].
  - destruct (forallb _ _) eqn:Hf.
      rewrite forallb_forall in Hf. split; [|by intros (_ & _ & ?)]. intros Hr. split_and!; [done| |done].
      apply Forall_forall. intros f Hin. by apply Hf, list_elem_of_In.
    + split; [by intros ?%elem_of_nil|]. intros (_ & Ha & _). apply not_true_iff_false in Hf. destruct Hf.
      apply forallb_forall. intros f Hin. rewrite Forall_forall in Ha. by apply Ha, list_elem_of_In.
  - split; [by intros ?%elem_of_nil|]. by intros (? & _).
Qed.

(** The requests of an event are those of the one watch of its type. *)
Lemma wakes_watched w e r :
  w ∈ SetupWithManager → w_Type w = event_type e →
  r ∈ wakes e ↔ Forall (λ f, Filter f e = true) (w_Predicates w) ∧ r ∈ Handle (w_Handler w) e.
Proof.
  intros Hw Ht. unfold wakes. rewrite list_elem_of_In, in_flat_map. split.
  - intros (w' & Hw'%list_elem_of_In & Hr%list_elem_of_In). apply elem_of_deliver in Hr as (Ht' & Hf & Hr).
    assert (w' = w) as -> by (eapply watch_unique; [done..|by rewrite Ht']). done.
  - intros [Hf Hr]. exists w. split; [by apply list_elem_of_In|]. apply list_elem_of_In.
    by apply elem_of_deliver.
Qed.

Lemma wakes_unwatched e :
  (∀ w, w ∈ SetupWithManager → w_Type w ≠ event_type e) → wakes e = [].
Proof.
  intros Hn. destruct (wakes e) as [|r l] eqn:He; [done|].
  assert (Hr : r ∈ wakes e) by (rewrite He; left).
  unfold wakes in Hr. apply list_elem_of_In, in_flat_map in Hr as (w & Hw%list_elem_of_In & Hr%list_elem_of_In).
  apply elem_of_deliver in Hr as [Ht _]. by apply Hn in Hw.
Qed.

Lemma event_type_of e o T :
  o ∈ objects e → (∀ o, o ∈ objects e → type_of o = T) → event_type e = T.
Proof. intros Ho Ht. destruct e; cbn in *; apply Ht; set_solver. Qed.

Lemma objects_inhabited e : ∃ o, o ∈ objects e.
Proof. destruct e; eexists; left. Qed.
End lemmas.

(** * Specification *)

(** The Search CR of a namespace controls the object: its first controller
    reference is to that CR. *)
Definition controlled (ns : string) (o : clientObject) : Prop :=
  om_Namespace (metaOf o) = ns ∧
  ∃ ref, controllerOf (metaOf o) = Some ref ∧ or_APIVersion ref = GroupVersion ∧
    or_Kind ref = "Search" ∧ or_Name ref = OperatorName.

(** The merge step reads this CollectorConfig: it is the user config of the
    namespace, or the listing of the team configs selects it. *)
Definition merge_reads (ns : string) (o : clientObject) : Prop :=
  om_Namespace (metaOf o) = ns ∧
  (om_Name (metaOf o) = userCollectorConfigName ∨
   ∀ k v, lo_Labels (teamListOptions ns) !! k = Some v → map_of (om_Labels (metaOf o)) !! k = Some v).

(** Which changes of an object of the CR are noticed. *)
Definition noticed (ns : string) (k : Kind) (e : watchEvent) : Prop :=
  match k, e with
  | (KDeployment | KSecret), (DeleteEvent _ | GenericEvent _) => True
  | KNetworkPolicy, (UpdateEvent _ _ | DeleteEvent _ | GenericEvent _) => True
  | KConfigMap, (CreateEvent _ | UpdateEvent _ _ | GenericEvent _) => True
  | KCollectorConfig, _ => ∃ o, o ∈ objects e ∧ om_Name (metaOf o) ≠ mergedCollectorConfigName ∧ merge_reads ns o
  | _, _ => False
  end.

(** * Theorems *)

Section theorems.
Context `{Environ} `{ControllerRuntimeLaws}.

(** Replace the requests of an event by those of the watch [w] of its type. *)
Local Ltac watched w :=
  rewrite (wakes_watched w); [cbn [w_Predicates w_Handler]|unfold SetupWithManager; repeat (first [left|right])|done].

(** No watch is of the type of the event. *)
Local Ltac unwatched Ht :=
  rewrite wakes_unwatched by (rewrite Ht; unfold SetupWithManager; intros ? Hw;
    repeat (apply elem_of_cons in Hw as [->|Hw]; [done|]); by apply elem_of_nil in Hw).

Lemma mapConfigMap_controlled ns o :
  controlled ns o → mapConfigMap o = toOperator ns.
Proof.
  intros (Hns & ref & Hc & Ha & Hk & Hn). unfold mapConfigMap. rewrite Hns.
  case_match; [done|]. unfold controllerOf in Hc.
  assert (find_first (λ ref, String.eqb (or_APIVersion ref) GroupVersion && String.eqb (or_Kind ref) "Search" &&
    is_controller ref) (om_OwnerReferences (metaOf o)) = Some ref) as ->; [|by rewrite Hn].
  induction (om_OwnerReferences (metaOf o)) as [|x l IH]; [done|]. cbn [find_first] in *.
  destruct (is_controller x) eqn:Hx.
  - injection Hc as ->. by rewrite Ha, Hk.
  - rewrite andb_false_r. by apply IH.
Qed.

(** What the watch of CollectorConfigs makes of one. *)
Lemma mapCollectorConfig_spec ns o r :
  om_Namespace (metaOf o) = ns →
  r ∈ mapCollectorConfig o ↔
    r = mkNN OperatorName ns ∧ om_Name (metaOf o) ≠ mergedCollectorConfigName ∧ merge_reads ns o.
Proof.
  intros Hns. unfold mapCollectorConfig, merge_reads. rewrite Hns.
  destruct (String.eqb_spec (om_Name (metaOf o)) mergedCollectorConfigName) as [->|Hm].
  { rewrite elem_of_nil. naive_solver. }
  assert (Hl : String.eqb (get_str (om_Labels (metaOf o)) IntegrationTeamLabel) IntegrationTeamLabelValue = true ↔
    ∀ k v, lo_Labels (teamListOptions ns) !! k = Some v → map_of (om_Labels (metaOf o)) !! k = Some v).
  { unfold get_str. rewrite String.eqb_eq. cbn [lo_Labels teamListOptions]. split.
    - intros Hg k v [<- <-]%lookup_singleton_Some. by destruct (map_of _ !! _); [f_equal|].
    - intros Hg. by rewrite (Hg _ IntegrationTeamLabelValue (lookup_singleton_eq _ _)). }
  destruct (String.eqb_spec (om_Name (metaOf o)) userCollectorConfigName) as [Hu|Hu]; cbn [orb].
  - unfold toOperator. rewrite list_elem_of_singleton. naive_solver.
  - rewrite <-Hl. destruct (String.eqb _ _).
    + unfold toOperator. rewrite list_elem_of_singleton. naive_solver.
    + rewrite elem_of_nil. naive_solver.
Qed.

(** C15: which changes of its own objects the operator notices. An event of an object
    the Search CR controls, of any kind but Search and Pod, asks for a
    reconciliation of that CR exactly when it is a deletion of a Deployment or
    Secret, any change but the creation of a NetworkPolicy, any change but the
    deletion of a ConfigMap, or a change of a CollectorConfig the merge reads; a
    generic event counts as a change. Changes of the other kinds, of Services and
    ServiceAccounts say, are not noticed, and nothing else is ever asked for. *)
Theorem drift_noticed k ns e :
  k ≠ KSearch → k ≠ KPod → (∀ o, o ∈ objects e → type_of o = WKind k ∧ controlled ns o) →
  ∀ r, r ∈ wakes e ↔ r = mkNN OperatorName ns ∧ noticed ns k e.
Proof.
  intros Hsearch Hpod Ho r. destruct (objects_inhabited e) as (o & Hin).
  assert (Ht : event_type e = WKind k) by (eapply event_type_of; [done|]; intros; by apply Ho).
  assert (Howner : r ∈ Handle EnqueueRequestForOwner e ↔ r = mkNN OperatorName ns).
  { rewrite Handle_owner. split.
    - intros (o' & ref & Ho' & Hc & _ & ->). destruct (Ho o' Ho') as (_ & -> & ref' & Hc' & _ & _ & Hn).
      rewrite Hc in Hc'. by injection Hc' as ->; rewrite Hn.
    - intros ->. destruct (Ho o Hin) as (_ & <- & ref & Hc & Ha & Hkd & Hn). exists o, ref.
      rewrite Hn. split_and!; [done..| |done]. split; [done|]. exists "v1alpha1". by rewrite Ha. }
  assert (Hmap : r ∈ Handle (EnqueueRequestsFromMapFunc mapConfigMap) e ↔ r = mkNN OperatorName ns).
  { rewrite Handle_map. split.
    - intros (o' & Ho' & Hr). destruct (Ho o' Ho') as [_ Hc]. rewrite (mapConfigMap_controlled ns) in Hr by done.
      by apply list_elem_of_singleton in Hr.
    - intros ->. exists o. split; [done|]. rewrite (mapConfigMap_controlled ns) by by apply Ho. left. }
  assert (Hconfig : r ∈ Handle (EnqueueRequestsFromMapFunc mapCollectorConfig) e ↔
    r = mkNN OperatorName ns ∧ noticed ns KCollectorConfig e).
  { rewrite Handle_map. assert (Hns : ∀ o, o ∈ objects e → om_Namespace (metaOf o) = ns) by (intros ? ?; by apply Ho).
    split.
    - intros (o' & Ho' & Hr%(mapCollectorConfig_spec ns)); [|by apply Hns]. destruct Hr as (-> & ? & ?).
      split; [done|]. by exists o'.
    - intros (-> & o' & Ho' & ? & ?). exists o'. split; [done|]. apply (mapCollectorConfig_spec ns); [by apply Hns|done]. }
  destruct k; try done; try (unwatched Ht; rewrite elem_of_nil; by destruct e; naive_solver).
  - watched (mkWatch (WKind KCollectorConfig) (EnqueueRequestsFromMapFunc mapCollectorConfig) []).
    rewrite Hconfig. split; [by intros [_ ?]|by split].
  - watched (mkWatch (WKind KConfigMap) (EnqueueRequestsFromMapFunc mapConfigMap) [configMapPred]).
    rewrite Forall_singleton, Hmap, Filter_spec. destruct e; cbn; naive_solver.
  - watched (mkWatch (WKind KSecret) EnqueueRequestForOwner [pred]).
    rewrite Forall_singleton, Howner, Filter_spec. destruct e; cbn; naive_solver.
  - watched (mkWatch (WKind KDeployment) EnqueueRequestForOwner [pred]).
    rewrite Forall_singleton, Howner, Filter_spec. destruct e; cbn; naive_solver.
  - watched (mkWatch (WKind KNetworkPolicy) EnqueueRequestForOwner [networkPolicyPred]).
    rewrite Forall_singleton, Howner, Filter_spec. destruct e; cbn; naive_solver.
Qed.

(** C22: the CollectorConfigs that wake the operator up are the inputs of the
    merge. An event of a CollectorConfig of the namespace asks for a
    reconciliation exactly when the merge reads the old or the new version, so
    that taking the team label off counts too; and no event of the merged config,
    which the reconciliation itself writes, asks for one, so that writing the result
    does not start another merge. *)
Theorem merge_inputs_watched ns name e :
  (∀ o, o ∈ objects e → type_of o = WKind KCollectorConfig ∧ om_Name (metaOf o) = name ∧ om_Namespace (metaOf o) = ns) →
  ∀ r, r ∈ wakes e ↔
    r = mkNN OperatorName ns ∧ name ≠ mergedCollectorConfigName ∧ ∃ o, o ∈ objects e ∧ merge_reads ns o.
Proof.
  intros Ho r. destruct (objects_inhabited e) as (o & Hin).
  assert (Ht : event_type e = WKind KCollectorConfig) by (eapply event_type_of; [done|]; intros; by apply Ho).
  watched (mkWatch (WKind KCollectorConfig) (EnqueueRequestsFromMapFunc mapCollectorConfig) []).
  rewrite Handle_map.
  assert (Hmap : ∀ o, o ∈ objects e → r ∈ mapCollectorConfig o ↔
    r = mkNN OperatorName ns ∧ name ≠ mergedCollectorConfigName ∧ merge_reads ns o).
  { intros o' Ho'. destruct (Ho o' Ho') as (_ & <- & Hns). by apply mapCollectorConfig_spec. }
  split.
  - intros (_ & o' & Ho' & Hr). apply Hmap in Hr; naive_solver.
  - intros (-> & Hn & o' & Ho' & Hr). split; [constructor|]. exists o'. split; [done|]. by apply Hmap.
Qed.

(** The operator's own pods, by the label all deployments put on them. *)
Definition search_pod (o : clientObject) : Prop :=
  type_of o = WKind KPod ∧ searchLabels (om_Labels (metaOf o)) = true.

Lemma wakes_pod e r :
  event_type e = WKind KPod →
  r ∈ wakes e ↔ ∃ o, o ∈ objects e ∧ searchLabels (om_Labels (metaOf o)) = true ∧
    r = mkNN ("Pod/" +:+ om_Name (metaOf o)) (om_Namespace (metaOf o)).
Proof.
  intros Ht. watched (mkWatch (WKind KPod) (EnqueueRequestsFromMapFunc mapPod) []). rewrite Handle_map.
  assert (Hmap : ∀ o, r ∈ mapPod o ↔ searchLabels (om_Labels (metaOf o)) = true ∧
    r = mkNN ("Pod/" +:+ om_Name (metaOf o)) (om_Namespace (metaOf o))).
  { intros o. unfold mapPod. destruct (searchLabels _); [rewrite list_elem_of_singleton|rewrite elem_of_nil]; naive_solver. }
  setoid_rewrite Hmap. split; [by intros [_ ?]|]. by split; [constructor|].
Qed.
End theorems.

Section pods.
Context `{Environ} `{Quantities} `{ControllerUtil} `{NestedFields} `{TLSLibrary} `{StatusConditions}.
Context `{SemanticEquality CollectorConfigSpec} `{SemanticEquality smap} `{SemanticEquality NetworkPolicySpec}.
Context `{SemanticEquality (list OwnerReference)} `{SemanticEquality (list PolicyRule)}.
Context `{SemanticEquality RoleRef} `{SemanticEquality (list Subject)}.
Context `{SemanticEquality (list RuleGroup)} `{DeploymentSpecEquality} `{ControllerRuntimeLaws}.

Lemma Split_pod name : free_of "/" name = true → Split ("Pod/" +:+ name) "/" = ["Pod"; name].
Proof.
  intros Hn. change ("Pod/" +:+ name) with ("Pod" +:+ String "/" name).
  rewrite Split_append by done. by rewrite Split_free.
Qed.

(** C21: an event of a pod of the operator reaches the status under the name of the
    pod. Each request an event of a pod makes is for a version of the pod that has
    the operator's label; the name the watch encodes in the request is the one
    [Reconcile] decodes, and apart from the start of the add-on all that
    reconciliation does, when it finds the CR, is to update the status from that
    pod. *)
Theorem pod_event_updates_status sha256 p e r :
  event_type e = WKind KPod → (∀ o, o ∈ objects e → free_of "/" (om_Name (metaOf o)) = true) →
  r ∈ wakes e →
  ∃ o, o ∈ objects e ∧ searchLabels (om_Labels (metaOf o)) = true ∧ nn_Namespace r = om_Namespace (metaOf o) ∧
    ∀ t out, exec (Reconcile sha256 r p) t out ↔
      (∃ s t', t = Ev (Get KSearch (mkNN OperatorName (nn_Namespace r))) (Ok s) :: t' ∧
         exec (err <- updateStatus s (om_Name (metaOf o)) ;; Ret (emptyResult, err, addonStarted p s)) t' out) ∨
      (∃ err, t = [Ev (Get KSearch (mkNN OperatorName (nn_Namespace r))) (Err err)] ∧
         out = Done (emptyResult, if IsNotFound err then None else Some err, p)).
Proof.
  intros Ht Hf Hr. apply wakes_pod in Hr as (o & Ho & Hl & ->); [|done]. exists o.
  split_and!; [done..|]. intros t out. unfold Reconcile, call. cbn [bind nn_Name nn_Namespace].
  rewrite exec_Op, Split_pod by by apply Hf.
  assert (HasPrefix ("Pod/" +:+ om_Name (metaOf o)) "Pod/" = true) as -> by by apply HasPrefix_append.
  split.
  - intros ([s|err] & t' & -> & He); [left; by exists s, t'|right].
    apply exec_Ret in He as [-> ->]. by exists err.
  - intros [(s & t' & -> & He)|(err & -> & ->)]; [by exists (Ok s), t'|].
    eexists (Err err), []. by rewrite exec_Ret.
Qed.
End pods.

(** * The theorems at concrete inputs *)

(** The documented behaviour of the handlers, as functions. *)
Definition requestOf (o : clientObject) : NamespacedName :=
  mkNN (om_Name (metaOf o)) (om_Namespace (metaOf o)).
Definition ownerRequest (o : clientObject) : list NamespacedName :=
  match controllerOf (metaOf o) with
  | Some ref =>
      if String.eqb (or_Kind ref) "Search" && HasPrefix (or_APIVersion ref) "search.open-cluster-management.io/"
      then [mkNN (or_Name ref) (om_Namespace (metaOf o))] else []
  | None => []
  end.

#[export] Instance reference_ControllerRuntime : ControllerRuntime := {
  Filter f e := match func_of f e with Some g => g e | None => true end;
  Handle h e := match h with
                | EnqueueRequestForObject => map requestOf (objects e)
                | EnqueueRequestForOwner => flat_map ownerRequest (objects e)
                | EnqueueRequestsFromMapFunc f => flat_map f (objects e)
                end
}.

#[export] Instance reference_ControllerRuntimeLaws : ControllerRuntimeLaws.
Proof.
  split; cbn.
  - done.
  - intros e r. rewrite list_elem_of_fmap. naive_solver.
  - intros e r. rewrite list_elem_of_In, in_flat_map. setoid_rewrite <-list_elem_of_In. unfold ownerRequest. split.
    + intros (o & Ho & Hr). destruct (controllerOf (metaOf o)) as [ref|] eqn:Hc; [|by apply elem_of_nil in Hr].
      destruct (_ && _) eqn:Hb; [|by apply elem_of_nil in Hr]. apply list_elem_of_singleton in Hr as ->.
      apply andb_true_iff in Hb as [Hk%String.eqb_eq (v & Hv)%HasPrefix_spec]. exists o, ref.
      split_and!; [done..| |done]. split; [done|by exists v].
    + intros (o & ref & Ho & Hc & [Hk (v & Hv)] & ->). exists o. split; [done|]. rewrite Hc, Hk, Hv.
      rewrite HasPrefix_append. left.
  - intros f e r. rewrite list_elem_of_In, in_flat_map. by setoid_rewrite <-list_elem_of_In.
Qed.

#[local] Existing Instance ref_NestedString.
#[local] Existing Instance sampleTLSLibrary.
#[local] Existing Instance sampleEnviron.
#[local] Existing Instance sampleQuantities.

(** The policy of the database before and after somebody emptied it. *)
Definition policyOwner : OwnerReference := mkOwnerRef GroupVersion "Search" OperatorName "uid-1" (Some true).
Definition ownedPolicy (sp : NetworkPolicySpec) : clientObject :=
  Typed KNetworkPolicy (mkNetworkPolicy (set_OwnerReferences [policyOwner] (newMeta "search-postgres" "ocm")) sp).
Definition tampering : watchEvent :=
  UpdateEvent (ownedPolicy (np_Spec (PostgresNetworkPolicy sampleSearch)))
    (ownedPolicy (np_Spec tamperedPolicy)).

Lemma drift_noticed_witness :
  wakes tampering = [mkNN OperatorName "ocm"; mkNN OperatorName "ocm"] ∧
  ∀ r, r ∈ wakes tampering ↔ r = mkNN OperatorName "ocm" ∧ noticed "ocm" KNetworkPolicy tampering.
Proof.
  split; [reflexivity|]. apply drift_noticed; [discriminate..|].
  assert (Hc : ∀ sp, controlled "ocm" (ownedPolicy sp)) by (intros sp; split; [done|by exists policyOwner]).
  intros o Ho. unfold tampering in Ho. cbn [objects] in Ho.
  apply elem_of_cons in Ho as [->|Ho]; [split; [done|apply Hc]|].
  apply list_elem_of_singleton in Ho as ->. split; [done|apply Hc].
Defined.

(** The team label is taken off an integration config. *)
Definition unlabelling : watchEvent :=
  UpdateEvent (Typed KCollectorConfig teamA)
    (Typed KCollectorConfig (mkCC (newMeta "a-integration" "ocm") (cc_Spec teamA) [])).

Lemma merge_inputs_watched_witness :
  wakes unlabelling = [mkNN OperatorName "ocm"] ∧
  ∀ r, r ∈ wakes unlabelling ↔
    r = mkNN OperatorName "ocm" ∧ "a-integration" ≠ mergedCollectorConfigName ∧
    ∃ o, o ∈ objects unlabelling ∧ merge_reads "ocm" o.
Proof.
  split; [vm_compute; reflexivity|]. apply merge_inputs_watched.
  intros o Ho. unfold unlabelling in Ho. cbn [objects] in Ho.
  apply elem_of_cons in Ho as [->|Ho]; [done|]. by apply list_elem_of_singleton in Ho as ->.
Defined.

(** A new pod of the indexer. *)
Definition indexerPod : Pod :=
  mkPod (set_Labels (Some {[ "component" := "search-v2-operator" ]}) (newMeta "search-indexer-5b8-x2x" "ocm")) "Running" [].
Definition podCreated : watchEvent := CreateEvent (Typed KPod indexerPod).
Definition podRequest : NamespacedName := mkNN "Pod/search-indexer-5b8-x2x" "ocm".

Lemma pod_event_updates_status_witness :
  ∃ o, o ∈ objects podCreated ∧ om_Namespace (metaOf o) = "ocm" ∧
    ∃ s t', run_trace (Reconcile sampleHash podRequest newProcess) freshCluster =
        Ev (Get KSearch (mkNN OperatorName "ocm")) (Ok s) :: t' ∧
      exec (err <- updateStatus s (om_Name (metaOf o)) ;; Ret (emptyResult, err, addonStarted newProcess s)) t'
        (run_outcome (Reconcile sampleHash podRequest newProcess) freshCluster).
Proof.
  destruct (pod_event_updates_status sampleHash newProcess podCreated podRequest) as (o & Ho & _ & Hns & Hex).
  - reflexivity.
  - intros o Ho. unfold podCreated in Ho. cbn [objects] in Ho. by apply list_elem_of_singleton in Ho as ->.
  - vm_compute. left.
  - exists o. split; [exact Ho|]. split; [by rewrite <-Hns|].
    destruct (proj1 (Hex _ _) (run_exec (Reconcile sampleHash podRequest newProcess) freshCluster))
      as [(s & t' & Ht & He)|(err & Ht & _)].
    + exists s, t'. split; [exact Ht|exact He].
    + apply (f_equal List.length) in Ht. vm_compute in Ht. discriminate Ht.
Defined.

(** A pod with the operator's label whose name has no dash, say one started by hand: its
    event wakes the reconciler up, which panics. *)
Definition debugPod : Pod :=
  mkPod (set_Labels (Some {[ "component" := "search-v2-operator" ]}) (newMeta "debug" "ocm")) "Running" [].
Lemma dashless_pod_crashes :
  wakes (CreateEvent (Typed KPod debugPod)) = [mkNN "Pod/debug" "ocm"] ∧
  run_outcome (Reconcile sampleHash (mkNN "Pod/debug" "ocm") newProcess) freshCluster = Crashed "slice bounds out of range".
Proof. split; vm_compute; reflexivity. Qed.
