(* ===== verification/Rollout.v ===== *)
(** The rollout of the database: [reconcileDatabase], the part of [Reconcile] from
    the TLS settings to the postgres deployment. Its ConfigMap and its deployment
    are two objects; the deployment carries a hash of the configuration so that a
    change of the first replaces the pods of the second. *)
From Stdlib Require Import Ascii String.
From S2P Require Import Prelude GoStrings K8s V1alpha1 Effects Interfaces Selectors MemServer Fixtures ImageValidation Common PostgresConfig Deployments Objects Networks TLS Resources Reconciler.

Local Open Scope search_scope.

(** * Specification *)

(** The server stores the ConfigMap data it is sent. *)
Definition keeps_data (e : event) : Prop :=
  match e with
  | Ev q a =>
      match q in Api R return R → Prop with
      | Create KConfigMap o | Update KConfigMap o => λ a,
          match a with Ok o' => cm_Data o' = cm_Data o | Err _ => True end
      | _ => λ _, True
      end a
  end.

Definition keeps_datab (e : event) : bool :=
  match e with
  | Ev q a =>
      match q in Api R return R → bool with
      | Create KConfigMap o | Update KConfigMap o => λ a,
          match a with Ok o' => bool_decide (cm_Data o' = cm_Data o) | Err _ => true end
      | _ => λ _, true
      end a
  end.

Lemma keeps_datab_sound t : forallb keeps_datab t = true → Forall keeps_data t.
Proof.
  intros Ht%Is_true_true%forallb_True. eapply Forall_impl; [exact Ht|]. cbv beta.
  intros [R q a]. destruct q; cbn; try done; destruct k; try done; destruct a; try done;
    intros ?%Is_true_true; by case_bool_decide.
Qed.

(** No write of a ConfigMap. *)
Definition leaves_configmaps R (q : Api R) : Prop :=
  match q with
  | Create k _ | Update k _ | Patch k _ | StatusUpdate k _ | Delete k _ => k ≠ KConfigMap
  | DynCreate _ _ _ | DynUpdate _ _ _ | DynDelete _ _ => False
  | _ => True
  end.

Definition rolloutHash (d : Deployment) : string :=
  get_str (ds_TemplateAnnotations (dep_Spec d)) "search.open-cluster-management.io/postgres-config-hash".

Definition postgresKey (instance : Search) : NamespacedName :=
  mkNN "search-postgres" (s_Namespace instance).

(** * Lemmas *)

(** A read of an object supersedes what was known of it. *)
Lemma last_shown_get k n t1 a t2 :
  last_shown k n (t1 ++ Ev (Get k n) a :: t2) = last_shown k n (Ev (Get k n) a :: t2).
Proof.
  rewrite last_shown_app. unfold last_shown. cbn [fold_left]. f_equal.
  cbn. rewrite bool_decide_eq_true_2 by done. destruct a; [by rewrite !as_kind_same|by rewrite !forget_same].
Qed.

(** A program whose first request reads the object [n]. *)
Lemma last_shown_after {A} k n (f : result (Obj k) → prog A) t1 t2 (o : outcome A) :
  exec (r <- call (Get k n) ;; f r) t2 o → last_shown k n (t1 ++ t2) = last_shown k n t2.
Proof. unfold call. cbn [bind]. intros (a & t & -> & _)%exec_Op. apply last_shown_get. Qed.

Section rollout.
Context `{Environ} `{Quantities} `{ControllerUtilLaws} `{TLSLibrary}.
Context `{SemanticEquality smap} `{DeploymentSpecEquality}.
Context (sha256 : string → list Byte.byte).

Lemma nextData_conf new existing : is_Some (new !! confKey) → is_Some (nextData new existing !! confKey).
Proof.
  unfold nextData. generalize (postgresAssignments existing (Some new)). intros l. revert new.
  induction l as [|[k v] l IH]; intros new Hn; cbn [fold_left]; [done|]. apply IH. cbn.
  destruct (decide (k = confKey)) as [->|Hk]; [by rewrite lookup_insert_eq|by rewrite lookup_insert_ne].
Qed.

Lemma hash_map_of d d' : map_of d = map_of d' → postgresConfigHash sha256 d = postgresConfigHash sha256 d'.
Proof. unfold postgresConfigHash, get_str. by intros ->. Qed.

(** A write of a ConfigMap that reports no result was accepted. *)
Lemma exec_writeConfigMap (q : ConfigMap → Api (result ConfigMap)) cm t e cm' :
  exec (u <- call (q cm) ;;
        match u with Ok o => Ret (stepOk, o) | Err e => Ret (stepErr e, cm) end)
    t (Done ((None, e), cm')) →
  t = [Ev (q cm) (Ok cm')].
Proof.
  unfold call. cbn [bind]. intros ([o|err] & t1 & -> & He)%exec_Op; apply exec_Ret in He as [-> He];
    unfold stepOk, stepErr in He; by simplify_eq.
Qed.

(** The step that reports no result leaves the ConfigMap shown with the data the
    caller goes on with. *)
Lemma exec_updateConfigMap found cm new t e cm' :
  cm_Data cm = Some new → is_Some (new !! confKey) → om_Name (cm_Meta cm) = postgresConfigmapName →
  exec (updateConfigMap found cm) t (Done ((None, e), cm')) → Forall keeps_data t →
  (t = [] ∧ map_of (cm_Data found) = map_of (cm_Data cm') ∧ is_Some (map_of (cm_Data cm') !! confKey)) ∨
  ∃ x o, t = [Ev (Update KConfigMap x) (Ok o)] ∧ cm_Meta x = cm_Meta cm ∧ cm_Data x = cm_Data cm'.
Proof.
  intros Hd Hc Hn. unfold updateConfigMap. rewrite Hn, Hd, String.eqb_refl, UpdatePostgresConfigmap_Some.
  cbn [bind cm_Data cm_Meta]. destruct (_ || _) eqn:Hcond; intros He Hk.
  - apply exec_writeConfigMap in He as ->. apply Forall_cons in Hk as [Hk _]. cbn in Hk. right.
    eexists _, cm'. by split_and!.
  - apply exec_Ret in He as [-> He]. left. apply orb_false_iff in Hcond as [Heq%negb_false_iff _].
    apply (proj1 (DeepEqual_spec _ _)) in Heq. unfold stepOk in He. simplify_eq. cbn [cm_Data map_of].
    split_and!; [done|exact Heq|]. by apply nextData_conf.
Qed.

Lemma exec_createOrUpdateConfigMap cm new t e cm' :
  cm_Data cm = Some new → is_Some (new !! confKey) → om_Name (cm_Meta cm) = postgresConfigmapName →
  exec (createOrUpdateConfigMap cm) t (Done ((None, e), cm')) → Forall keeps_data t →
  ∃ x, last_shown KConfigMap (keyOf (cm_Meta cm)) t = Some x ∧ map_of (cm_Data x) = map_of (cm_Data cm').
Proof.
  intros Hd Hc Hn He Hk. unfold createOrUpdateConfigMap in He.
  assert (Hup : ∀ found st a, exec (updateConfigMap found cm) a (Done ((None, e), cm')) → Forall keeps_data a →
    (st = Some found ∨ found = zeroConfigMap) →
    ∃ x, fold_left (track KConfigMap (keyOf (cm_Meta cm))) a st = Some x ∧ map_of (cm_Data x) = map_of (cm_Data cm')).
  { intros found st a Ha Hka Hst.
    destruct (exec_updateConfigMap found cm new a e cm' Hd Hc Hn Ha Hka)
      as [(-> & Hf & Hs)|(x & o & -> & Hm & Hx)].
    - destruct Hst as [->| ->]; cbn [fold_left]; [by eauto|]. cbn in Hf. rewrite <-Hf in Hs.
      rewrite lookup_empty in Hs. by destruct Hs.
    - exists x. cbn [fold_left]. rewrite track_updated; [by rewrite Hx|].
      unfold obj_key, keyOf. cbn. by rewrite Hm. }
  unfold call in He. cbn [bind] in He. apply exec_Op in He as (r & t1 & -> & He).
  apply Forall_cons in Hk as [_ Hk]. destruct r as [found|err].
  - unfold last_shown. cbn [fold_left]. rewrite track_get_ok. apply (Hup found); [done|done|by left].
  - destruct (IsNotFound err).
    + apply (exec_writeConfigMap (Create KConfigMap)) in He as ->.
      apply Forall_cons in Hk as [Hk _]. cbn in Hk. exists cm.
      unfold last_shown. cbn [fold_left]. rewrite track_created by done. by rewrite Hk.
    + unfold last_shown. cbn [fold_left]. apply (Hup zeroConfigMap); [done|done|by right].
Qed.

(** A deployment step that reports no error: the deployment shown is equal to the
    desired one, or the server refused the update. *)
Lemma exec_createOrUpdateDeployment d t e :
  exec (createOrUpdateDeployment d) t (Done (None, e)) →
  Forall (ev_ok leaves_configmaps) t ∧
  ((∃ d', last_shown KDeployment (keyOf (dep_Meta d)) t = Some d' ∧
      SpecDeepEqual (dep_Spec d') (dep_Spec d) = true) ∨
   ∃ e, Ev (Update KDeployment d) (Err e) ∈ t).
Proof.
  intros He. split.
  { assert (Hi : issues leaves_configmaps (createOrUpdateDeployment d))
      by (unfold createOrUpdateDeployment; by issue_steps).
    by eapply Hi. }
  unfold createOrUpdateDeployment, call in He. cbn [bind] in He.
  apply exec_Op in He as ([found|err] & t1 & -> & He).
  - destruct (SpecDeepEqual _ _) eqn:Heq; cbn [negb] in He.
    + apply exec_Ret in He as [-> _]. left. exists found. split; [|done]. apply track_get_ok.
    + apply exec_Op in He as ([o|err] & t2 & -> & He); apply exec_Ret in He as [-> _].
      * left. exists d. split; [|apply SpecDeepEqual_refl]. by apply track_updated.
      * right. exists err. right. by left.
  - destruct (IsNotFound err); [|by apply exec_Ret in He as [_ ?]].
    apply exec_Op in He as ([o|err'] & t2 & -> & He); apply exec_Ret in He as [-> He]; [|done].
    left. exists d. split; [|apply SpecDeepEqual_refl]. by apply track_created.
Qed.

(** The deployment of the database for the settings the CR gives. *)
Lemma exec_PGDeployment instance hash t o :
  exec (PGDeployment instance hash) t o →
  Forall (ev_ok leaves_configmaps) t ∧ ∃ w, o = Done (pgDeploymentOf w instance hash).
Proof.
  intros He. split.
  - assert (Hi : issues leaves_configmaps (PGDeployment instance hash))
      by (unfold PGDeployment, GetDBConfigFromSearchCR, getDBConfigData; by issue_steps).
    by eapply Hi.
  - unfold PGDeployment in He. apply exec_bind in He as [(w & t1 & t2 & -> & _ & [_ ->]%exec_Ret)|(w & Hw & ->)].
    + by eexists.
    + by apply exec_work_mem in Hw as (v & ? & _).
Qed.

Lemma exec_PostgresConfigmap instance tls t cm :
  exec (PostgresConfigmap instance tls) t (Done cm) →
  keyOf (cm_Meta cm) = postgresKey instance ∧ om_Name (cm_Meta cm) = postgresConfigmapName ∧
  ∃ new, cm_Data cm = Some new ∧ is_Some (new !! confKey).
Proof.
  unfold PostgresConfigmap. cbv zeta.
  intros [(v & t1 & t2 & -> & _ & [_ [= ->]]%exec_Ret)|(w & _ & ?)]%exec_bind; [|done].
  cbn [cm_Meta cm_Data]. unfold keyOf. edestruct withOwner_name as (-> & -> & _).
  split_and!; [done|done|]. eexists. split; [done|]. vm_compute. by eexists.
Qed.

(** * Specification of the step *)

(** The requests of a trace leave a configuration on the server, and after it,
    without touching it again, a deployment that equals the desired one and carries
    the hash of that configuration, unless the server refused the update to it. *)
Definition rolled_out (instance : Search) (t : list event) : Prop :=
  ∃ t1 t2 cm d, t = t1 ++ t2 ∧
    last_shown KConfigMap (postgresKey instance) t1 = Some cm ∧
    Forall (ev_ok leaves_configmaps) t2 ∧
    rolloutHash d = postgresConfigHash sha256 (cm_Data cm) ∧ keyOf (dep_Meta d) = postgresKey instance ∧
    ((∃ d', last_shown KDeployment (postgresKey instance) t2 = Some d' ∧
        SpecDeepEqual (dep_Spec d') (dep_Spec d) = true ∧
        rolloutHash d' = postgresConfigHash sha256 (cm_Data cm)) ∨
     ∃ e, Ev (Update KDeployment d) (Err e) ∈ t2).

Lemma SpecDeepEqual_hash d d' : SpecDeepEqual (dep_Spec d') (dep_Spec d) = true → rolloutHash d' = rolloutHash d.
Proof. unfold rolloutHash, get_str. by intros ->%SpecDeepEqual_annotations. Qed.

Lemma exec_reconcileDatabase instance t e :
  exec (reconcileDatabase sha256 instance) t (Done (None, e)) → Forall keeps_data t → rolled_out instance t.
Proof.
  unfold reconcileDatabase. intros [(tls & t1 & t2 & -> & _ & He)|(w & _ & ?)]%exec_bind; [|done].
  apply exec_bind in He as [(cm & t3 & t4 & -> & Hcm & He)|(w & _ & ?)]; [|done].
  apply exec_bind in He as [([[[r|] ec] cm'] & t5 & t6 & -> & Hup & He)|(w & _ & ?)]; [| |done].
  { by apply exec_Ret in He as [_ ?]. }
  apply exec_bind in He as [(d & t7 & t8 & -> & Hd & He)|(w & _ & ?)]; [|done].
  rewrite !Forall_app. intros (_ & _ & Hk & _).
  apply exec_PostgresConfigmap in Hcm as (Hkey & Hname & new & Hnew & Hconf).
  destruct (exec_createOrUpdateConfigMap cm new t5 ec cm') as (x & Hx & Hmap); [done..|].
  apply exec_PGDeployment in Hd as [Ht7 (w & [= ->])].
  destruct (exec_createOrUpdateDeployment _ _ _ He) as [Ht8 Hshown].
  assert (Hdk : keyOf (dep_Meta (pgDeploymentOf w instance (postgresConfigHash sha256 (cm_Data cm')))) = postgresKey instance).
  { unfold keyOf, pgDeploymentOf, finishDeployment. cbn [dep_Meta]. by edestruct withOwner_name as (-> & -> & _). }
  assert (Hhash : rolloutHash (pgDeploymentOf w instance (postgresConfigHash sha256 (cm_Data cm'))) =
    postgresConfigHash sha256 (cm_Data x)).
  { rewrite (hash_map_of _ _ Hmap). unfold rolloutHash, get_str. cbn. by rewrite lookup_singleton_eq. }
  exists (t1 ++ t3 ++ t5), (t7 ++ t8), x, (pgDeploymentOf w instance (postgresConfigHash sha256 (cm_Data cm'))).
  split_and!.
  - by rewrite <-!app_assoc.
  - rewrite app_assoc, <-Hkey. rewrite <-Hx. eapply last_shown_after. exact Hup.
  - by apply Forall_app.
  - exact Hhash.
  - done.
  - rewrite Hdk in Hshown. destruct Hshown as [(d' & Hd' & Hs)|(err & Herr)].
    + left. exists d'. split_and!; [|done|by rewrite (SpecDeepEqual_hash _ _ Hs)]. rewrite <-Hd', <-Hdk. eapply last_shown_after. exact He.
    + right. exists err. apply elem_of_app. by right.
Qed.

(** * Theorem *)

(** C10: the running database matches its configuration. When the database step
    reports no error, and the server stores the configuration it is sent, the
    ConfigMap is on the server, and either the server refused the update of the
    deployment, which the step logs and does not report, or the deployment on the
    server equals the desired one and carries the hash of exactly that configuration.
    The ConfigMap comes first and is not written again, so a pod that starts with a
    new hash finds the new settings. *)
Theorem database_rollout instance t :
  exec (reconcileDatabase sha256 instance) t (Done stepOk) → Forall keeps_data t →
  rolled_out instance t.
Proof. apply exec_reconcileDatabase. Qed.
End rollout.

(** * The theorem at a concrete input *)

#[local] Existing Instance sampleTLSLibrary.
#[local] Existing Instance sampleEnviron.
#[local] Existing Instance sampleQuantities.

Definition databaseTrace : list event := run_trace (reconcileDatabase sampleHash sampleSearch) freshCluster.

Lemma database_rollout_witness :
  List.length databaseTrace = 5 ∧
  ∃ t1 t2 cm d, databaseTrace = t1 ++ t2 ∧
    last_shown KConfigMap (postgresKey sampleSearch) t1 = Some cm ∧
    rolloutHash d = postgresConfigHash sampleHash (cm_Data cm) ∧
    ((∃ d', last_shown KDeployment (postgresKey sampleSearch) t2 = Some d' ∧
        rolloutHash d' = postgresConfigHash sampleHash (cm_Data cm)) ∨
     ∃ e, Ev (Update KDeployment d) (Err e) ∈ t2).
Proof.
  split; [vm_compute; reflexivity|].
  destruct (database_rollout sampleHash sampleSearch databaseTrace)
    as (t1 & t2 & cm & d & Ht & Hcm & _ & Hd & _ & Hs).
  - apply run_exec_eq. vm_compute. reflexivity.
  - apply keeps_datab_sound. vm_compute. reflexivity.
  - exists t1, t2, cm, d. split_and!; [exact Ht|exact Hcm|exact Hd|].
    destruct Hs as [(d' & H1 & _ & H2)|He]; [left; by exists d'|by right].
Defined.
