(* ===== verification/Lifecycle.v ===== *)
(** The life of the Search CR: what [Reconcile] does to a CR that is being deleted
    ([setFinalizer], [finalizeSearch]) or paused. *)
From Stdlib Require Import Ascii String.
From S2P Require Import Prelude GoStrings K8s V1alpha1 Effects Interfaces Selectors MemServer Fixtures ImageValidation Common CollectorMerge PostgresConfig Deployments Objects Networks TLS SearchCR Features Status Addon Resources Seeder Reconciler.

Local Open Scope search_scope.

(** * Specification *)

(** The cluster roles and bindings [finalizeSearch] deletes, which no owner reference
    can clean up. They are not all the operator leaves outside the namespace of the
    CR: see [Ownership]. *)
Definition finalizedRBAC (s : Search) : list (Kind * NamespacedName) :=
  let ns := s_Namespace s in
  [ (KClusterRole, mkNN "open-cluster-management:addons:search-collector" ns);
    (KClusterRoleBinding, mkNN "open-cluster-management:addons:search-collector" "");
    (KClusterRoleBinding, mkNN "search-api" "");
    (KClusterRoleBinding, mkNN "search-collector" "");
    (KClusterRole, mkNN "search-indexer" ns);
    (KClusterRoleBinding, mkNN "search-indexer" "") ].

Definition addonKey (s : Search) : NamespacedName := mkNN "search-collector" (s_Namespace s).

(** The ClusterManagementAddOn was looked up, and an owner reference of kind Search
    on it was taken off. *)
Definition addon_released (s : Search) (t : list event) : Prop :=
  ∃ a, Ev (Get KCMA (addonKey s)) a ∈ t ∧
    match a with
    | Err e => IsNotFound e = true
    | Ok cma =>
        ∀ refs, dropSearchRef (om_OwnerReferences (cma_Meta cma)) = Some refs →
          ∃ o, Ev (Update KCMA (mkCMA (set_OwnerReferences refs (cma_Meta cma)))) (Ok o) ∈ t
    end.

(** All clean-ups were made, and each succeeded or found nothing to do. *)
Definition finalized (s : Search) (t : list event) : Prop :=
  addon_released s t ∧
  ∀ k n, (k, n) ∈ finalizedRBAC s → ∃ a, Ev (Delete k n) a ∈ t ∧ deleted a.

(** The requests of the clean-up. *)
Definition cleaning (s : Search) R (q : Api R) : Prop :=
  match q with
  | Get k n => k = KCMA ∧ n = addonKey s
  | Update k o => k = KCMA
  | Delete k n => (k, n) ∈ finalizedRBAC s
  | _ => False
  end.

(** An accepted update of the CR keeps the annotations it was sent with. *)
Definition keeps_annotations (e : event) : Prop :=
  match e with
  | Ev q a =>
      match q in Api R return R → Prop with
      | Update KSearch s => λ a,
          match a with Ok s' => map_of (s_Annotations s') = map_of (s_Annotations s) | Err _ => True end
      | _ => λ _, True
      end a
  end.

(** The status of [s] is written at most, in the last request; the settings and the
    metadata it is written with are those of [s]. *)
Definition only_status_written (s : Search) (t : list event) : Prop :=
  read_only t ∨
  ∃ t0 s' a, t = t0 ++ [Ev (StatusUpdate KSearch s') a] ∧ read_only t0 ∧
    s_Spec s' = s_Spec s ∧ s_Meta s' = s_Meta s.

(** No request is made but, when the finalizer is missing, the one that puts it on. *)
Definition only_finalizer_added (s : Search) (t : list event) : Prop :=
  t = [] ∨
  ∃ s' a, t = [Ev (Update KSearch s') a] ∧ searchFinalizer ∈ om_Finalizers (s_Meta s') ∧
    s' = s_set_Meta (set_Finalizers (om_Finalizers (s_Meta s')) (s_Meta s)) s.

(** * Lemmas *)

Lemma exec_firstError steps t :
  exec (firstError steps) t (Done None) →
  ∃ ts, t = concat ts ∧ Forall2 (λ p ti, exec p ti (Done None)) steps ts.
Proof.
  revert t. induction steps as [|p steps IH]; intros t; cbn [firstError].
  - intros [-> _]%exec_Ret. by exists [].
  - intros [(r & t1 & t2 & -> & H1 & H2)|(w & _ & ?)]%exec_bind; [|done].
    destruct r as [e|]; [by apply exec_Ret in H2 as [_ ?]|].
    destruct (IH t2 H2) as (ts & -> & Hts). exists (t1 :: ts). by split; [|constructor].
Qed.

Lemma exec_deleteObject k n t :
  exec (deleteObject k n) t (Done None) → ∃ a, t = [Ev (Delete k n) a] ∧ deleted a.
Proof.
  unfold deleteObject, call. cbn [bind]. intros ([e|] & t1 & -> & He)%exec_Op.
  - destruct (IsNotFound e) eqn:Hn; cbn [negb] in He; apply exec_Ret in He as [-> He]; [|done].
    by exists (Some e).
  - apply exec_Ret in He as [-> _]. by exists None.
Qed.

Lemma exec_removeOwnerRef s t :
  exec (removeOwnerRefClusterManagementAddon s) t (Done None) → addon_released s t.
Proof.
  unfold removeOwnerRefClusterManagementAddon, call. cbn [bind]. fold (addonKey s).
  intros ([cma|e] & t1 & -> & He)%exec_Op; cbn [cma_Meta] in He.
  - exists (Ok cma). split; [left|]. intros refs Hr. rewrite Hr in He.
    apply exec_Op in He as ([o|e] & t2 & -> & He); [|by apply exec_Ret in He as [_ ?]].
    exists o. right. left.
  - exists (Err e). split; [left|]. destruct (IsNotFound e); [done|]. by apply exec_Ret in He as [_ ?].
Qed.

Lemma addon_released_mono s t1 t2 : addon_released s t1 → t1 ⊆ t2 → addon_released s t2.
Proof.
  intros (a & Ha & Hr) Ht. exists a. split; [by apply Ht|]. destruct a as [cma|e]; [|done].
  intros refs Hd. destruct (Hr refs Hd) as (o & Ho). exists o. by apply Ht.
Qed.

(** A finalization without an error made every clean-up. *)
Lemma exec_finalizeSearch s t : exec (finalizeSearch s) t (Done None) → finalized s t.
Proof.
  unfold finalizeSearch, deleteClusterRole, deleteClusterRoleBinding.
  intros (ts & -> & Hts)%exec_firstError.
  apply Forall2_cons_inv_l in Hts as (t0 & ts' & H0 & Hts & ->). split.
  - eapply addon_released_mono; [by apply exec_removeOwnerRef|]. cbn. apply list_subseteq_app_l, reflexivity.
  - intros k n Hk.
    assert (Hd : Forall2 (λ kn ti, exec (deleteObject kn.1 kn.2) ti (Done None)) (finalizedRBAC s) ts').
    { unfold finalizedRBAC. repeat (apply Forall2_cons_inv_l in Hts as (? & ? & ? & Hts & ->);
        constructor; [assumption|]). apply Forall2_nil_inv_l in Hts as ->. constructor. }
    apply list_elem_of_lookup in Hk as (i & Hi). destruct (Forall2_lookup_l _ _ _ _ _ Hd Hi) as (ti & Hti & He).
    apply exec_deleteObject in He as (a & -> & Ha). exists a. split; [|done]. cbn [concat].
    apply elem_of_app. right. apply list_elem_of_In, in_concat. exists [Ev (Delete k n) a].
    split; [|by left]. apply list_elem_of_In. by eapply list_elem_of_lookup_2.
Qed.

Lemma finalizeSearch_cleans s : issues (cleaning s) (finalizeSearch s).
Proof.
  unfold finalizeSearch, deleteClusterRole, deleteClusterRoleBinding, deleteObject,
    removeOwnerRefClusterManagementAddon. cbn [firstError].
  issue_steps; try done; cbn; repeat (first [left | right]).
Qed.

Lemma IsPaused_map_of l l' : map_of l = map_of l' → IsPaused l = IsPaused l'.
Proof. intros Hm. unfold IsPaused, get_str. by rewrite Hm. Qed.

Lemma exec_scanPods pods t o : exec (scanPods pods) t o → t = [].
Proof.
  unfold scanPods. generalize ("", zeroCondition). revert t o.
  induction pods as [|p pods IH]; intros t o acc He; cbn [foldM] in He; [by apply exec_Ret in He as [-> _]|].
  destruct (deploymentNameOf _); cbn [bind] in He; [by eapply IH|by apply exec_Panic in He as [-> _]].
Qed.

(** The status of a component is all that [updateStatus] writes. *)
Lemma exec_updateStatus s podName t o : exec (updateStatus s podName) t o → only_status_written s t.
Proof.
  intros He. unfold updateStatus, call in He. destruct (deploymentNameOf podName);
    [|apply exec_Panic in He as [-> _]; by left; constructor].
  cbn [bind] in He. apply exec_Op in He as ([pods|e] & t1 & -> & He);
    [|apply exec_Ret in He as [-> _]; left; by repeat constructor].
  assert (Hrest : ∀ pods t2, exec (instance <- updateStatusCondition s pods ;;
      let instance := s_set_Status (mkSearchStatus DBNAME
                        (ss_StorageClassName (sp_DBStorage (s_Spec instance)))
                        (s_Conditions instance)) instance in
      u <- Op (StatusUpdate KSearch instance) Ret ;;
      match u with Ok _ => Ret None | Err e => Ret (Some e) end) t2 o → only_status_written s t2).
  { intros pods' t2 [(s1 & t3 & t4 & -> & Hc & Hu)|(w & Hc & _)]%exec_bind; unfold updateStatusCondition in Hc.
    - apply exec_bind in Hc as [([ty c] & t5 & t6 & -> & ->%exec_scanPods & Hc)|(w & _ & ?)]; [|done].
      cbv zeta in Hu. cbn [bind] in Hu. apply exec_Op in Hu as (a & t7 & -> & Hu).
      assert (t7 = []) as -> by (destruct a; by apply exec_Ret in Hu as [-> _]).
      right. eexists t6, _, a. split; [done|]. destruct (bool_decide _); apply exec_Ret in Hc as [-> [= ->]];
        (split; [by constructor|]); by destruct s as [? ? []].
    - apply exec_bind in Hc as [([ty c] & t5 & t6 & -> & ->%exec_scanPods & Hc)|(w' & ->%exec_scanPods & _)];
        [|by left; constructor]. destruct (bool_decide _); by apply exec_Ret in Hc as [_ ?]. }
  assert (Hcons : ∀ R (q : Api R) a t2, is_write q = false → only_status_written s t2 →
    only_status_written s (Ev q a :: t2)).
  { intros R q a t2 Hq [Hr|(t0 & s' & b & -> & Hr & Hs)]; [left; by constructor|right].
    exists (Ev q a :: t0), s', b. split; [done|]. split; [by constructor|done]. }
  apply Hcons; [done|]. destruct pods as [|p pods].
  - cbn [bind] in He. apply exec_Op in He as (now & t2 & -> & He). apply Hcons; [done|]. by eapply Hrest.
  - by eapply Hrest.
Qed.

Lemma finalizeSearch_returns s : wp no_guarantee (finalizeSearch s) returns.
Proof.
  unfold finalizeSearch, deleteClusterRole, deleteClusterRoleBinding, deleteObject,
    removeOwnerRefClusterManagementAddon, call. cbn [firstError].
  wp_steps; try done; by eexists.
Qed.

Section lifecycle.
Context `{ControllerUtilLaws}.

(** A CR being deleted is reported as done, or as failed. *)
Lemma setFinalizer_deleting s t s' :
  om_DeletionTimestamp (s_Meta s) ≠ None → ¬ exec (setFinalizer s) t (Done (false, None, s')).
Proof.
  intros Hd He. unfold setFinalizer in He. destruct (om_DeletionTimestamp (s_Meta s)); [|done].
  destruct (ContainsFinalizer _ _); [|by apply exec_Ret in He as [_ ?]].
  apply exec_bind in He as [([e|] & t1 & t2 & -> & _ & He)|(w & _ & ?)]; [|..|done].
  - by apply exec_Ret in He as [_ ?].
  - unfold call in He. cbn [bind] in He. apply exec_Op in He as ([o|e] & t3 & -> & He);
      by apply exec_Ret in He as [_ ?].
Qed.

(** * Theorems *)

(** C11: the finalizer goes last. For a CR that is being deleted there are three
    executions: the finalizer is not there and nothing is done; some clean-up
    fails, and then its error is returned and the CR is not written, so that the
    clean-up is tried again; or the one write of the CR, which takes the finalizer
    and nothing else off, is the last request, and before it each of the six roles
    and bindings of [finalizedRBAC] was deleted or found gone and the
    ClusterManagementAddOn released. No other request is made: in particular the
    ManagedServiceAccounts, ManifestWorks and ClusterPermissions the features made
    are not cleaned up. *)
Theorem finalizer_removed_last s t o :
  om_DeletionTimestamp (s_Meta s) ≠ None → exec (setFinalizer s) t o →
  (searchFinalizer ∉ om_Finalizers (s_Meta s) ∧ t = [] ∧ o = Done (true, None, s)) ∨
  (∃ e, Forall (ev_ok (cleaning s)) t ∧ o = Done (false, Some e, s)) ∨
  (∃ t1 s' a, t = t1 ++ [Ev (Update KSearch s') a] ∧
     Forall (ev_ok (cleaning s)) t1 ∧ finalized s t1 ∧
     (∀ f, f ∈ om_Finalizers (s_Meta s') ↔ f ∈ om_Finalizers (s_Meta s) ∧ f ≠ searchFinalizer) ∧
     s' = s_set_Meta (set_Finalizers (om_Finalizers (s_Meta s')) (s_Meta s)) s ∧
     o = Done (match a with Ok o' => (true, None, o') | Err e => (false, Some e, s') end)).
Proof.
  intros Hd He. unfold setFinalizer in He. destruct (om_DeletionTimestamp (s_Meta s)); [|done].
  destruct (ContainsFinalizer _ _) eqn:Hc.
  2: { apply exec_Ret in He as [-> ->]. left. split_and!; [|done..].
       intros Hin%ContainsFinalizer_spec. by rewrite Hin in Hc. }
  right. apply exec_bind in He as [([e|] & t1 & t2 & -> & Hf & He)|(w & Hf & ->)].
  - apply exec_Ret in He as [-> ->]. left. exists e. rewrite app_nil_r. split; [|done].
    by eapply finalizeSearch_cleans.
  - right. unfold call in He. cbn [bind] in He. apply exec_Op in He as (a & t3 & -> & He).
    destruct (RemoveFinalizer_spec (s_Meta s) searchFinalizer) as [Hm Hfs].
    exists t1, (s_set_Meta (RemoveFinalizer (s_Meta s) searchFinalizer) s), a.
    assert (t3 = [] ∧ o = Done (match a with Ok o' => (true, None, o')
      | Err e => (false, Some e, s_set_Meta (RemoveFinalizer (s_Meta s) searchFinalizer) s) end)) as [-> ->]
      by (destruct a; by apply exec_Ret in He as [-> ->]).
    split_and!; [done|by eapply finalizeSearch_cleans|by apply exec_finalizeSearch|done| |done].
    cbn [s_Meta s_set_Meta]. by rewrite <-Hm.
  - by destruct (wp_exec _ _ _ _ _ (finalizeSearch_returns s) Hf).
Qed.
End lifecycle.

Section reconcile.
Context `{Environ} `{Quantities} `{ControllerUtilLaws} `{NestedFields} `{TLSLibrary} `{StatusConditions}.
Context `{SemanticEquality CollectorConfigSpec} `{SemanticEquality smap} `{SemanticEquality NetworkPolicySpec}.
Context `{SemanticEquality (list OwnerReference)} `{SemanticEquality (list PolicyRule)}.
Context `{SemanticEquality RoleRef} `{SemanticEquality (list Subject)}.
Context `{SemanticEquality (list RuleGroup)} `{DeploymentSpecEquality}.

(** C13: a CR that is being deleted or is paused is not acted on. A reconciliation
    that finds no CR does nothing. One for a pod writes the status of the CR and
    nothing else, and it does so for a CR that is paused or being deleted too. Every
    other one does nothing but finalize a CR that is being deleted, and for one that
    is paused makes no request but the one that puts the finalizer on, when it is
    missing, so that a pause never delays a deletion. *)
Theorem deleted_or_paused_untouched sha256 req p t o :
  exec (Reconcile sha256 req p) t o → Forall keeps_annotations t →
  ∃ a t', t = Ev (Get KSearch (mkNN OperatorName (nn_Namespace req))) a :: t' ∧
  match a with
  | Err _ => t' = []
  | Ok s =>
      if HasPrefix (nn_Name req) "Pod/" then only_status_written s t'
      else match om_DeletionTimestamp (s_Meta s) with
           | Some _ => ∃ o', exec (setFinalizer s) t' o'
           | None =>
               IsPaused (s_Annotations s) = true →
               only_finalizer_added s t'
           end
  end.
Proof.
  unfold Reconcile, call. cbn [bind]. intros (a & t' & -> & He)%exec_Op Hst.
  apply Forall_cons in Hst as [_ Hst]. exists a, t'. split; [done|].
  destruct a as [s|e]; [|by apply exec_Ret in He as [-> _]]. destruct (HasPrefix _ _).
  { destruct (Split _ _) as [|x [|podName l]]; [by apply exec_Panic in He as [-> _]; left; constructor..|].
    apply exec_bind in He as [(r & t1 & t2 & -> & Hu & [-> _]%exec_Ret)|(w & Hu & _)].
    - rewrite app_nil_r. by eapply exec_updateStatus.
    - by eapply exec_updateStatus. }
  apply exec_bind in He as [([[d err] s'] & t1 & t2 & -> & Hf & He)|(w & Hf & ->)].
  - apply Forall_app in Hst as [Hst _].
    assert (Hquiet : om_DeletionTimestamp (s_Meta s) ≠ None ∨ IsPaused (s_Annotations s') = true → t2 = []).
    { intros Hor. destruct err as [e|]; [by apply exec_Ret in He as [-> _]|]. destruct d; [by apply exec_Ret in He as [-> _]|].
      destruct Hor as [Hor|Hor]; [|rewrite Hor in He; by apply exec_Ret in He as [-> _]].
      by apply setFinalizer_deleting in Hf. }
    destruct (om_DeletionTimestamp (s_Meta s)) eqn:Hd.
    + rewrite Hquiet by by left. rewrite app_nil_r. by eexists.
    + intros Hp. unfold setFinalizer, call in Hf. rewrite Hd in Hf. destruct (ContainsFinalizer _ _).
      * apply exec_Ret in Hf as [-> [= -> -> ->]]. left. apply Hquiet. by right.
      * cbn [negb bind] in Hf. right.
        destruct (AddFinalizer_spec (s_Meta s) searchFinalizer) as (Hm & Hin & _).
        apply exec_Op in Hf as (a & t3 & -> & Hf). apply Forall_cons in Hst as [Hst _]. cbn in Hst.
        exists (s_set_Meta (AddFinalizer (s_Meta s) searchFinalizer) s), a.
        split_and!; [|exact Hin|by cbn; rewrite <-Hm].
        destruct a as [o'|e]; apply exec_Ret in Hf as [-> [= -> -> ->]]; cbn [app].
        -- rewrite Hquiet; [done|]. right. rewrite (IsPaused_map_of _ _ Hst). unfold s_Annotations in *.
           cbn [s_Meta s_set_Meta]. by rewrite Hm.
        -- by apply exec_Ret in He as [-> _].
  - destruct (om_DeletionTimestamp (s_Meta s)) eqn:Hd; [by eexists|].
    unfold setFinalizer, call in Hf. rewrite Hd in Hf. destruct (negb _); [|by apply exec_Ret in Hf as [_ ?]].
    cbn [bind] in Hf. apply exec_Op in Hf as ([o'|e] & t3 & -> & Hf); by apply exec_Ret in Hf as [_ ?].
Qed.
End reconcile.


(** * The theorems at concrete inputs *)

(** A CR that carries the finalizer, and one that is also being deleted. *)
Definition finalizedSearch : Search :=
  s_set_Meta (set_Finalizers [searchFinalizer] (s_Meta sampleSearch)) sampleSearch.
Definition deletedSearch : Search :=
  s_set_Meta (mkMeta "search-v2-operator" "ocm" None None [] [searchFinalizer] (Some 1%Z) "uid-1") sampleSearch.
Definition pausedSearch : Search :=
  s_set_Meta (set_Annotations (Some {[ "search-pause" := "true" ]}) (s_Meta sampleSearch)) sampleSearch.

(** The add-on carries an owner reference of an earlier release. *)
Definition ownedAddon : ClusterManagementAddOn :=
  mkCMA (set_OwnerReferences [mkOwnerRef "v1" "Search" "search-v2-operator" "uid-1" None] (newMeta "search-collector" "ocm")).

Definition deletingCluster : MemServer :=
  serverWith (store_put KCMA ownedAddon (store_put KSearch deletedSearch emptyStore)).
Definition pausedCluster : MemServer := serverWith (store_put KSearch pausedSearch emptyStore).

Definition deletingTrace : list event := run_trace (setFinalizer deletedSearch) deletingCluster.

Lemma finalizer_removed_last_witness :
  List.length deletingTrace = 9 ∧
  ∃ t1 s' a, deletingTrace = t1 ++ [Ev (Update KSearch s') a] ∧
     Forall (ev_ok (cleaning deletedSearch)) t1 ∧ finalized deletedSearch t1.
Proof.
  split; [vm_compute; reflexivity|].
  destruct (finalizer_removed_last deletedSearch deletingTrace (run_outcome (setFinalizer deletedSearch) deletingCluster))
    as [(Hn & _)|[(e & _ & Ho)|(t1 & s' & a & Ht & Hc & Hf & _)]].
  - discriminate.
  - apply run_exec.
  - by destruct Hn; left.
  - vm_compute in Ho. discriminate Ho.
  - exists t1, s', a. exact (conj Ht (conj Hc Hf)).
Defined.

#[local] Existing Instance ref_NestedString.
#[local] Existing Instance sampleTLSLibrary.
#[local] Existing Instance sampleEnviron.
#[local] Existing Instance sampleQuantities.

Definition pausedTrace : list event :=
  run_trace (Reconcile sampleHash searchRequest newProcess) pausedCluster.

Lemma deleted_or_paused_untouched_witness :
  List.length pausedTrace = 2 ∧
  ∃ a t', pausedTrace = Ev (Get KSearch (mkNN OperatorName "ocm")) a :: t' ∧
  ∀ s, a = Ok s → s_Meta s = s_Meta pausedSearch →
    t' = [] ∨
    ∃ s' a, t' = [Ev (Update KSearch s') a] ∧ searchFinalizer ∈ om_Finalizers (s_Meta s').
Proof.
  split; [vm_compute; reflexivity|].
  destruct (deleted_or_paused_untouched sampleHash searchRequest newProcess pausedTrace
    (run_outcome (Reconcile sampleHash searchRequest newProcess) pausedCluster)) as (a & t' & Ht & Hs).
  - apply run_exec.
  - unfold pausedTrace. cbv [run_trace]. vm_compute. repeat constructor.
  - exists a, t'. split; [exact Ht|]. intros s -> Hm. rewrite Hm in Hs. cbn in Hs.
    destruct Hs as [->|(s' & a & -> & Hf & _)]; [|by left|right; by exists s', a].
    unfold s_Annotations. rewrite Hm. reflexivity.
Defined.
