(* ===== verification/Requests.v ===== *)
(** The requests of a reconciliation, once and for all: every part of [Reconcile]
    keeps to any guarantee that allows the edits of the table below and the creation
    of the objects [made] describes. [Permissions] and [Ownership] are two such
    guarantees. *)
From Stdlib Require Import Ascii String.
From S2P Require Import Prelude GoStrings K8s V1alpha1 Effects Interfaces Selectors MemServer Fixtures ImageValidation Common CollectorMerge PostgresConfig Deployments Objects Networks TLS SearchCR Features Status Addon Resources Seeder Reconciler Rollout Lifecycle.

Local Open Scope search_scope.

(** * Verbs

    The [kubebuilder:rbac] markers above [Reconcile], from which
    [config/rbac/role.yaml] is generated, and the namespaced role of
    [config/rbac/manager_role.yaml], restricted to the verbs that write. *)

Inductive Verb := VCreate | VUpdate | VPatch | VDelete.

#[export] Instance Verb_eq_dec : EqDecision Verb.
Proof. solve_decision. Defined.

Definition clusterVerbs (k : Kind) : list Verb :=
  match k with
  | KSecret | KService | KServiceAccount | KDeployment | KNetworkPolicy | KCollectorConfig =>
      [VCreate; VUpdate; VPatch; VDelete]
  | KConfigMap => [VUpdate]
  | KClusterRole | KClusterRoleBinding | KRole | KRoleBinding | KCMA => [VCreate; VUpdate; VDelete]
  | KServiceMonitor => [VCreate; VDelete]
  | KPrometheusRule => [VCreate; VUpdate]
  | KVWC | KSearch => [VUpdate; VPatch]
  | KPVC | KPod => []
  end.

(** The kinds of the namespaced role, which has all verbs on them. *)
Definition namespacedRole (k : Kind) : bool :=
  match k with
  | KDeployment | KConfigMap | KSecret | KServiceAccount | KService | KPVC | KPod => true
  | _ => false
  end.

Definition statusUpdates (k : Kind) : bool :=
  match k with KSearch | KCollectorConfig => true | _ => false end.

Definition dynamicVerbs (gvr : GroupVersionResource) : list Verb :=
  if bool_decide (gvr = managedServiceAccountGvr ∨ gvr = clusterPermissionGvr) then [VCreate; VDelete]
  else if bool_decide (gvr = manifestWorkGvr) then [VCreate; VDelete; VPatch]
  else if bool_decide (gvr = configmapsGvr) then [VUpdate]
  else [].

(** The objects the features make for a managed cluster, in its namespace. *)
Definition featureObject (gvr : GroupVersionResource) (cluster : string) (u : Unstructured) : Prop :=
  (gvr = managedServiceAccountGvr ∧
     (u = managedServiceAccount SEARCH_GLOBAL appSearchLabels ∨
      u = managedServiceAccount managedSAName appSearchVMLabels)) ∨
  (gvr = clusterPermissionGvr ∧ u = vmClusterPermission) ∨
  (gvr = manifestWorkGvr ∧ ∃ ns msaNamespace, u = globalManifestWork cluster ns msaNamespace).

(** Requests the cluster role allows, creations of typed objects aside; what is
    created through the dynamic client is made for a managed cluster. *)
Definition edits R (q : Api R) : Prop :=
  match q with
  | Create _ _ => False
  | Update k _ => VUpdate ∈ clusterVerbs k
  | Patch k _ => VPatch ∈ clusterVerbs k
  | Delete k _ => VDelete ∈ clusterVerbs k
  | StatusUpdate k _ => statusUpdates k = true
  | DynCreate gvr ns u => VCreate ∈ dynamicVerbs gvr ∧ featureObject gvr ns u
  | DynUpdate gvr _ _ => VUpdate ∈ dynamicVerbs gvr
  | DynDelete gvr _ => VDelete ∈ dynamicVerbs gvr
  | _ => True
  end.

(** * Parts that create no object, or one that is given *)

(** Solve [edits] for a known request. *)
Ltac edit :=
  first [ exact I
        | cbn; assumption
        | cbn; reflexivity
        | solve [cbn; repeat (first [left | right])]
        | apply (bool_decide_unpack _); vm_compute; exact I ].

Section requests.
Context `{Environ} `{Quantities} `{ControllerUtilLaws} `{NestedFields} `{TLSLibrary} `{StatusConditions}.
Context `{SemanticEquality CollectorConfigSpec} `{SemanticEquality smap} `{SemanticEquality NetworkPolicySpec}.
Context `{SemanticEquality (list OwnerReference)} `{SemanticEquality (list PolicyRule)}.
Context `{SemanticEquality RoleRef} `{SemanticEquality (list Subject)}.
Context `{SemanticEquality (list RuleGroup)} `{DeploymentSpecEquality}.
Context (sha256 : string → list Byte.byte).

(** The guarantee. *)
Context (G : ∀ R, Api R → Prop).
Hypothesis G_edits : ∀ R (q : Api R), edits R q → G R q.

#[local] Abbreviation may_issue p := (issues G p).
#[local] Hint Extern 1 (G _ _) => apply G_edits; edit : issues.
#[local] Hint Extern 1 (_ ∈ dynamicVerbs _) => edit : issues.
#[local] Hint Extern 1 (featureObject _ _ _) => unfold featureObject; naive_solver : issues.
#[local] Hint Extern 1 (_ ∈ clusterVerbs _) => edit : issues.

Lemma issues_createIfAbsent strict k (o : Obj k) : G _ (Create k o) → may_issue (createIfAbsent strict k o).
Proof. intros Hc. unfold createIfAbsent. issue_steps. Qed.

Lemma issues_serviceAccount sa : G _ (Create KServiceAccount sa) → may_issue (createSearchServiceAccount sa).
Proof. intros Hc. unfold createSearchServiceAccount. issue_steps. Qed.

Lemma issues_roles cr : G _ (Create KClusterRole cr) → may_issue (createUpdateRoles cr).
Proof. intros Hc. unfold createUpdateRoles. issue_steps. Qed.

Lemma issues_binding rb : G _ (Create KClusterRoleBinding rb) → may_issue (createRoleBinding rb).
Proof. intros Hc. unfold createRoleBinding. issue_steps. Qed.

Lemma issues_deployment d : G _ (Create KDeployment d) → may_issue (createOrUpdateDeployment d).
Proof. intros Hc. unfold createOrUpdateDeployment. issue_steps. Qed.

Lemma issues_prometheusRule r : G _ (Create KPrometheusRule r) → may_issue (createOrUpdatePrometheusRule r).
Proof. intros Hc. unfold createOrUpdatePrometheusRule. issue_steps. Qed.

Lemma issues_policy np : G _ (Create KNetworkPolicy np) → may_issue (createOrUpdateNetworkPolicy np).
Proof. intros Hc. unfold createOrUpdateNetworkPolicy. issue_steps. Qed.

Lemma issues_configMap cm : G _ (Create KConfigMap cm) → may_issue (createOrUpdateConfigMap cm).
Proof.
  intros Hc. unfold createOrUpdateConfigMap.
  assert (Hup : ∀ found, may_issue (updateConfigMap found cm)).
  { intros found. unfold updateConfigMap, UpdatePostgresConfigmap. issue_steps. }
  issue_steps.
Qed.

Lemma issues_webhookCA : may_issue ensureWebhookCAInjection.
Proof. unfold ensureWebhookCAInjection. issue_steps. Qed.

Lemma issues_deleteObject k n : VDelete ∈ clusterVerbs k → may_issue (deleteObject k n).
Proof. intros Hd. unfold deleteObject. issue_steps. Qed.
#[local] Hint Resolve issues_deleteObject : issues.

Lemma issues_policies instance : may_issue (NetworkPolicies true instance).
Proof. unfold NetworkPolicies, getMCETargetNamespace. issue_steps. Qed.

Lemma issues_merged instance :
  (∀ meta spec, SetControllerReference instance (newMeta mergedCollectorConfigName (s_Namespace instance)) = Ok meta →
     G _ (Create KCollectorConfig (mkCC meta spec []))) →
  may_issue (createOrUpdateMergedCollectorConfig instance).
Proof.
  intros Hc. unfold createOrUpdateMergedCollectorConfig. issue_steps.
  - match goal with |- issues _ (mergeTeams ?l ?a ?b) => generalize l a b end.
    intros l. induction l as [|x l IH]; intros rules configs; cbn [mergeTeams]; [apply issues_Ret|].
    unfold addBackupLabel. issue_steps.
  - unfold mergeUser, addBackupLabel, updateUserCCStatus. issue_steps.
  - unfold writeMerged. apply issues_bind; [issue_steps|]. intros [found|e]; [issue_steps|].
    destruct (IsNotFound e); [|issue_steps]. destruct (SetControllerReference _ _) as [meta|] eqn:Hm; [|issue_steps].
    pose proof (λ spec, Hc meta spec eq_refl) as Hm'. issue_steps.
Qed.

Lemma issues_generatePass n : may_issue (generatePass n).
Proof. induction n as [|n IH]; cbn [generatePass]; issue_steps. Qed.
#[local] Hint Resolve issues_generatePass : issues.

Lemma issues_dbConfig instance v : may_issue (GetDBConfigFromSearchCR instance v).
Proof. unfold GetDBConfigFromSearchCR, getDBConfigData. issue_steps. Qed.
#[local] Hint Resolve issues_dbConfig : issues.

Lemma issues_postgresConfigmap instance tls : may_issue (PostgresConfigmap instance tls).
Proof. unfold PostgresConfigmap. issue_steps. Qed.
#[local] Hint Resolve issues_postgresConfigmap : issues.

Lemma issues_TLSProfile : may_issue fetchTLSProfileSpec.
Proof. unfold fetchTLSProfileSpec. issue_steps. Qed.
#[local] Hint Resolve issues_TLSProfile : issues.

Lemma issues_envUpdate instance ev : may_issue (updateSearchApiDeployment instance ev).
Proof. unfold updateSearchApiDeployment. issue_steps. Qed.
#[local] Hint Resolve issues_envUpdate : issues.

Lemma issues_commit instance : may_issue (commitSearchCRInstanceState instance).
Proof. unfold commitSearchCRInstanceState. issue_steps. Qed.
#[local] Hint Resolve issues_commit : issues.

Lemma issues_conditionCR instance c : may_issue (updateStatusConditionCR instance c).
Proof. unfold updateStatusConditionCR. issue_steps. Qed.
#[local] Hint Resolve issues_conditionCR : issues.

Lemma issues_globalStatus instance c : may_issue (updateGlobalSearchStatus instance c).
Proof. unfold updateGlobalSearchStatus. issue_steps. Qed.
#[local] Hint Resolve issues_globalStatus : issues.

Lemma issues_flag key b ns' name : may_issue (setConsoleFlag key b ns' name).
Proof. unfold setConsoleFlag, as_map. issue_steps. Qed.
#[local] Hint Resolve issues_flag : issues.

Lemma issues_MCE : may_issue getMCETargetNamespace.
Proof. unfold getMCETargetNamespace. issue_steps. Qed.
#[local] Hint Resolve issues_MCE : issues.

Lemma issues_createUnlessExists gvr ns' u :
  VCreate ∈ dynamicVerbs gvr → featureObject gvr ns' u → may_issue (createUnlessExists gvr ns' u).
Proof.
  intros Hv Hu. pose proof (G_edits _ (DynCreate gvr ns' u) (conj Hv Hu)) as Hc. unfold createUnlessExists. issue_steps.
Qed.
#[local] Hint Resolve issues_createUnlessExists : issues.

Lemma issues_deletePair g1 n1 g2 n2 errs c :
  VDelete ∈ dynamicVerbs g1 → VDelete ∈ dynamicVerbs g2 → may_issue (deletePair g1 n1 g2 n2 errs c).
Proof. intros Hg1 Hg2. unfold deletePair, deleteIfExists. issue_steps. Qed.
#[local] Hint Resolve issues_deletePair : issues.

Lemma issues_engine n1 n2 : may_issue (validateEngine n1 n2).
Proof.
  unfold validateEngine, as_map, as_list. issue_steps.
  match goal with |- issues _ (scanComponents ?l ?a) => generalize l a end.
  intros l. induction l as [|x l IH]; intros acc; cbn [scanComponents]; [apply issues_Ret|].
  unfold as_map. issue_steps.
Qed.
#[local] Hint Resolve issues_engine : issues.

Lemma issues_isHub c : may_issue (clusterIsHub c).
Proof.
  unfold clusterIsHub, as_map, as_list. issue_steps.
  match goal with |- issues _ (anyHubClaim ?l) => generalize l end.
  intros l. induction l as [|x l IH]; cbn [anyHubClaim]; [apply issues_Ret|].
  unfold as_map. issue_steps.
Qed.
#[local] Hint Resolve issues_isHub : issues.

Lemma issues_forClusters a errs body :
  (∀ errs c, may_issue (body errs c)) → may_issue (forClusters a errs body).
Proof. intros Hb. unfold forClusters. issue_steps. Qed.
#[local] Hint Resolve issues_forClusters : issues.

Lemma issues_switchGlobal b instance : may_issue (switchGlobalSearch b instance).
Proof.
  unfold switchGlobalSearch, updateConsoleConfig.
  issue_steps.
Qed.
#[local] Hint Resolve issues_switchGlobal : issues.

Lemma issues_configureHub errs c namespace : may_issue (configureHub namespace errs c).
Proof.
  unfold configureHub, createManagedServiceAccount, createManifestWork, as_map.
  issue_steps.
Qed.
#[local] Hint Resolve issues_configureHub : issues.

Lemma issues_newCondition ty st r m : may_issue (newCondition ty st r m).
Proof. unfold newCondition. issue_steps. Qed.
#[local] Hint Resolve issues_newCondition : issues.

Lemma issues_dropCondition i instance : may_issue (dropCondition i instance).
Proof. unfold dropCondition. issue_steps. Qed.
#[local] Hint Resolve issues_dropCondition : issues.

Lemma issues_enableGlobal instance : may_issue (enableGlobalSearch instance).
Proof.
  unfold enableGlobalSearch.
  issue_steps.
Qed.
#[local] Hint Resolve issues_enableGlobal : issues.

Lemma issues_disableGlobal instance : may_issue (disableGlobalSearch instance).
Proof.
  unfold disableGlobalSearch. issue_steps.
Qed.
#[local] Hint Resolve issues_disableGlobal : issues.

Lemma issues_globalSearch instance : may_issue (reconcileGlobalSearch instance).
Proof.
  unfold reconcileGlobalSearch, validateGlobalSearchDependencies.
  issue_steps.
Qed.
#[local] Hint Resolve issues_globalSearch : issues.

Lemma issues_VMFlag b : may_issue (updateConsoleConfigVM b).
Proof. unfold updateConsoleConfigVM. issue_steps. Qed.
#[local] Hint Resolve issues_VMFlag : issues.

Lemma issues_configureVM : may_issue configureVirtualMachineActions.
Proof.
  unfold configureVirtualMachineActions, configureVMCluster, createVMManagedServiceAccount,
    createVMClusterPermission.
  issue_steps.
Qed.
#[local] Hint Resolve issues_configureVM : issues.

Lemma issues_disableVM : may_issue disableVirtualMachineActions.
Proof.
  unfold disableVirtualMachineActions. issue_steps.
Qed.
#[local] Hint Resolve issues_disableVM : issues.

Lemma issues_virtualMachines instance : may_issue (reconcileVirtualMachineConfiguration instance).
Proof.
  unfold reconcileVirtualMachineConfiguration, validateVirtualMachineDependencies.
  issue_steps.
Qed.
#[local] Hint Resolve issues_virtualMachines : issues.

Lemma issues_fineGrained instance : may_issue (reconcileFineGrainedRBACConfiguration instance).
Proof.
  unfold reconcileFineGrainedRBACConfiguration, removeStatusCondition.
  issue_steps.
Qed.
#[local] Hint Resolve issues_fineGrained : issues.

Lemma issues_hubName instance : may_issue (addEnvToSearchAPI instance).
Proof. unfold addEnvToSearchAPI. issue_steps. Qed.
#[local] Hint Resolve issues_hubName : issues.

Lemma issues_removeOwnerRef instance : may_issue (removeOwnerRefClusterManagementAddon instance).
Proof. unfold removeOwnerRefClusterManagementAddon. issue_steps. Qed.
#[local] Hint Resolve issues_removeOwnerRef : issues.

Lemma issues_legacyMonitors instance : may_issue (deleteLegacyServiceMonitorSetup instance).
Proof. unfold deleteLegacyServiceMonitorSetup. issue_steps. Qed.
#[local] Hint Resolve issues_legacyMonitors : issues.

Lemma issues_status instance podName : may_issue (updateStatus instance podName).
Proof.
  unfold updateStatus, updateStatusCondition, scanPods. issue_steps.
Qed.
#[local] Hint Resolve issues_status : issues.

Lemma issues_firstError steps : Forall (issues G) steps → may_issue (firstError steps).
Proof.
  induction 1 as [|p steps Hp _ IH]; cbn [firstError]; [apply issues_Ret|]. issue_steps.
Qed.

Lemma issues_setFinalizer instance : may_issue (setFinalizer instance).
Proof.
  unfold setFinalizer, finalizeSearch, deleteClusterRole, deleteClusterRoleBinding. issue_steps.
  apply issues_firstError. repeat (apply Forall_cons; split; [auto with issues|]). by apply Forall_nil.
Qed.
#[local] Hint Resolve issues_setFinalizer : issues.

Lemma issues_TLS : may_issue getPostgresTLSConfig ∧ may_issue getTLSEnvVars.
Proof. unfold getPostgresTLSConfig, getTLSEnvVars. split; issue_steps. Qed.
End requests.

(** * What a reconciliation creates *)

Definition createdKinds : list Kind :=
  [KServiceAccount; KClusterRole; KClusterRoleBinding; KCollectorConfig; KSecret; KService; KConfigMap;
   KDeployment; KServiceMonitor; KNetworkPolicy; KPVC; KPrometheusRule].

(** The garbage collector deletes the object with the CR. *)
Definition owned (s : Search) (m : ObjectMeta) : Prop := Exists (controller_ref_to s) (om_OwnerReferences m).

(** The finalizer deletes it. *)
Definition finalizer_deletes (s : Search) (k : Kind) (name : string) : Prop :=
  ∃ n, (k, n) ∈ finalizedRBAC s ∧ nn_Name n = name.

(** It stays: the claim with its data, the monitors and the role for users. *)
Definition outlives (k : Kind) (name : string) : Prop :=
  match k with
  | KPVC | KServiceMonitor => True
  | KClusterRole => name = getSearchUserRoleName
  | _ => False
  end.

(** An object made for the CR: of a known kind, in the namespace of the CR unless
    it has none, and with a known fate when the CR is deleted. *)
Record made (s : Search) (k : Kind) (o : Obj k) : Prop := {
  made_kind : k ∈ createdKinds;
  made_place : k ∈ [KClusterRole; KClusterRoleBinding] ∨ om_Namespace (obj_meta k o) = s_Namespace s;
  made_fate : owned s (obj_meta k o) ∨ finalizer_deletes s k (om_Name (obj_meta k o)) ∨
              outlives k (om_Name (obj_meta k o))
}.

Section builders.
Context `{Environ} `{Quantities} `{ControllerUtilLaws} `{TLSLibrary}.
Context (s : Search).

Lemma withOwner_owned m : om_OwnerReferences m = [] → om_Namespace m = s_Namespace s → owned s (withOwner s m).
Proof.
  intros Ho Hn. unfold withOwner. destruct (SetControllerReference_free s m Ho Hn) as [m' Hm]. rewrite Hm.
  by apply SetControllerReference_ok in Hm as [_ ?].
Qed.

Lemma made_owned k (o : Obj k) m :
  k ∈ createdKinds → obj_meta k o = withOwner s m → om_OwnerReferences m = [] → om_Namespace m = s_Namespace s →
  made s k o.
Proof.
  intros Hk Hm Ho Hn. split; [done|right|left]; rewrite Hm; [by rewrite withOwner_namespace|by apply withOwner_owned].
Qed.

(** When setting the owner is checked. *)
Lemma made_reference k (o : Obj k) m :
  k ∈ createdKinds → SetControllerReference s m = Ok (obj_meta k o) → om_Namespace m = s_Namespace s → made s k o.
Proof.
  intros Hk Hm Hn. apply SetControllerReference_ok in Hm as [Hm Ho]. split; [done|right|by left].
  rewrite Hm. exact Hn.
Qed.

(** What has a fate of its own. *)
Lemma made_kept k (o : Obj k) :
  k ∈ createdKinds → k ∈ [KClusterRole; KClusterRoleBinding] ∨ om_Namespace (obj_meta k o) = s_Namespace s →
  finalizer_deletes s k (om_Name (obj_meta k o)) ∨ outlives k (om_Name (obj_meta k o)) → made s k o.
Proof. intros Hk Hp Hf. split; [done..|by right]. Qed.

Lemma made_binding suffix r account :
  suffix ∈ ["-api"; "-collector"; "-indexer"] → made s KClusterRoleBinding (clusterRoleBinding suffix r account s).
Proof.
  intros Hs. apply made_kept; [apply (bool_decide_unpack _); vm_compute; exact I|left; right; left|]. left.
  exists (mkNN (getRoleBindingName +:+ suffix) ""). split; [|done].
  rewrite !elem_of_cons, elem_of_nil in Hs. destruct Hs as [->|[->|[->|[]]]]; unfold finalizedRBAC; cbn; set_solver.
Qed.

Lemma made_role (cr : ClusterRole) :
  om_Name (cr_Meta cr) ∈ [getRoleName +:+ "-indexer"; getAddonRoleName; getSearchUserRoleName] → made s KClusterRole cr.
Proof.
  intros Hr. apply made_kept; [apply (bool_decide_unpack _); vm_compute; exact I|left; left|].
  rewrite !elem_of_cons, elem_of_nil in Hr. cbn [obj_meta]. destruct Hr as [->|[->|[->|[]]]]; [left|left|by right].
  - exists (mkNN "search-indexer" (s_Namespace s)). split; [unfold finalizedRBAC; cbn; set_solver|done].
  - exists (mkNN "open-cluster-management:addons:search-collector" (s_Namespace s)).
    split; [unfold finalizedRBAC; cbn; set_solver|done].
Qed.

Lemma made_monitor scheme tls deployment :
  made s KServiceMonitor (monitorOf scheme tls s deployment (s_Namespace s)).
Proof. apply made_kept; [apply (bool_decide_unpack _); vm_compute; exact I|by right|by right]. Qed.
End builders.

(** Solve [made] for an owned object. *)
Ltac made_by_owner := eapply made_owned; [apply (bool_decide_unpack _); vm_compute; exact I|reflexivity|reflexivity|reflexivity].

(** The CR the operator holds stays one of [I], if the answers are of [R]. *)
Section relying.
Context `{Environ} `{Quantities} `{ControllerUtilLaws} `{NestedFields} `{TLSLibrary} `{StatusConditions}.
Context `{SemanticEquality CollectorConfigSpec} `{SemanticEquality smap} `{SemanticEquality NetworkPolicySpec}.
Context `{SemanticEquality (list OwnerReference)} `{SemanticEquality (list PolicyRule)}.
Context `{SemanticEquality RoleRef} `{SemanticEquality (list Subject)}.
Context `{SemanticEquality (list RuleGroup)} `{DeploymentSpecEquality}.
Context (sha256 : string → list Byte.byte).
Context (R : event → Prop) (I : Search → Prop).
Hypothesis I_identity : ∀ s s', I s → s_Namespace s' = s_Namespace s → om_UID (s_Meta s') = om_UID (s_Meta s) → I s'.
Hypothesis I_update : ∀ o o', I o → R (Ev (Update KSearch o) (Ok o')) → I o'.
Hypothesis I_status : ∀ o o', I o → R (Ev (StatusUpdate KSearch o) (Ok o')) → I o'.

(** Every result satisfies [Q]. *)
Definition post {A} (p : prog A) (Q : A → Prop) : Prop := ∀ t a, exec p t (Done a) → Forall R t → Q a.

Lemma post_Ret {A} (a : A) (Q : A → Prop) : Q a → post (Ret a) Q.
Proof. by intros Ha t b [_ [= ->]]%exec_Ret _. Qed.
Lemma post_Panic {A} w (Q : A → Prop) : post (Panic w) Q.
Proof. by intros t b [_ ?]%exec_Panic. Qed.
Lemma post_any {A} (p : prog A) : post p (λ _, True).
Proof. by intros t a _ _. Qed.
Lemma post_call {X} (q : Api X) (Q : X → Prop) : (∀ a, R (Ev q a) → Q a) → post (call q) Q.
Proof. intros HQ t a (x & t' & -> & [-> [= ->]]%exec_Ret)%exec_Op Ht. apply Forall_cons in Ht as [Hx _]. auto. Qed.
Lemma post_bind {A B} (p : prog A) (g : A → prog B) Q1 Q :
  post p Q1 → (∀ a, Q1 a → post (g a) Q) → post (bind p g) Q.
Proof.
  intros Hp Hg t b [(a & t1 & t2 & -> & Ha & Hb)|(w & _ & ?)]%exec_bind Ht; [|done].
  apply Forall_app in Ht as [Ht1 Ht2]. eapply Hg; [by eapply Hp|done..].
Qed.

(** Programs that return the CR, alone or with something. *)
#[local] Abbreviation keeps p := (post p (λ r, I r.2)).

Create HintDb keeps.

Ltac keep_step :=
  lazymatch goal with
  | |- post (bind _ _) _ => eapply post_bind; [first [solve [eauto with keeps] | apply post_any]|cbv beta; intros]
  | |- post (Ret _) _ => apply post_Ret
  | |- post (Panic _) _ => apply post_Panic
  | |- post (match ?x with _ => _ end) _ => destruct x; cbn [fst snd] in *
  | |- post (let _ := _ in _) _ => cbv zeta
  end.
Ltac keep_steps := repeat keep_step; cbn [fst snd] in *; try assumption.

(** Edits of the settings and conditions. *)
Lemma I_env env s : I s → I (s_set_QueryAPIEnv env s).
Proof. intros Hs. by apply (I_identity s). Qed.
Lemma I_conditions cs s : I s → I (s_set_Conditions cs s).
Proof. intros Hs. by apply (I_identity s). Qed.
#[local] Hint Resolve I_conditions : keeps.

Lemma I_searchAPIEnvVar s ev : I s → I (searchAPIEnvVar s ev).2.
Proof. intros Hs. unfold searchAPIEnvVar. cbv zeta. repeat case_match; cbn; by repeat first [exact Hs|apply I_env]. Qed.

Lemma keeps_commit s : I s → keeps (commitSearchCRInstanceState s).
Proof.
  intros Hs. unfold commitSearchCRInstanceState. eapply post_bind.
  - apply (post_call _ (λ r, match r with Ok o => I o | Err _ => True end)). intros [o|e]; [by apply I_status|done].
  - intros [o|e] Ho; by apply post_Ret.
Qed.
#[local] Hint Resolve keeps_commit : keeps.

Lemma keeps_envUpdate s ev : I s → keeps (updateSearchApiDeployment s ev).
Proof.
  intros Hs. pose proof (I_searchAPIEnvVar s ev Hs) as He. unfold updateSearchApiDeployment.
  destruct (searchAPIEnvVar s ev) as [b s']. cbn in He. destruct b; [by apply post_Ret|]. eapply post_bind.
  - apply (post_call _ (λ r, match r with Ok o => I o | Err _ => True end)). intros [o|e]; [by apply I_update|done].
  - intros [o|e] Ho; by apply post_Ret.
Qed.
#[local] Hint Resolve keeps_envUpdate : keeps.

Lemma keeps_globalStatus s c : I s → keeps (updateGlobalSearchStatus s c).
Proof. intros Hs. unfold updateGlobalSearchStatus. destruct (putCondition _ _ _); [auto with keeps|by apply post_Ret]. Qed.
#[local] Hint Resolve keeps_globalStatus : keeps.

Lemma keeps_conditionCR s c : I s → post (updateStatusConditionCR s c) I.
Proof. intros Hs. unfold updateStatusConditionCR. keep_steps. Qed.
#[local] Hint Resolve keeps_conditionCR : keeps.

Lemma keeps_removeStatus s ty : I s → keeps (removeStatusCondition s ty).
Proof. intros Hs. unfold removeStatusCondition. destruct (find_index _ _); [auto with keeps|by apply post_Ret]. Qed.
#[local] Hint Resolve keeps_removeStatus : keeps.

Lemma keeps_dropCondition i s : I s → post (dropCondition i s) I.
Proof. intros Hs. unfold dropCondition. keep_steps. by apply I_conditions. Qed.
#[local] Hint Resolve keeps_dropCondition : keeps.

Lemma keeps_switchGlobal b s : I s → keeps (switchGlobalSearch b s).
Proof. intros Hs. unfold switchGlobalSearch. keep_steps. Qed.
#[local] Hint Resolve keeps_switchGlobal : keeps.

Lemma keeps_enableGlobal s : I s → keeps (enableGlobalSearch s).
Proof. intros Hs. unfold enableGlobalSearch. keep_steps. Qed.
Lemma keeps_disableGlobal s : I s → keeps (disableGlobalSearch s).
Proof. intros Hs. unfold disableGlobalSearch. keep_steps. Qed.
#[local] Hint Resolve keeps_enableGlobal keeps_disableGlobal : keeps.

Lemma keeps_globalSearch s : I s → keeps (reconcileGlobalSearch s).
Proof. intros Hs. unfold reconcileGlobalSearch. keep_steps. Qed.

Lemma keeps_hubName s : I s → keeps (addEnvToSearchAPI s).
Proof. intros Hs. unfold addEnvToSearchAPI. keep_steps. Qed.

Lemma keeps_fineGrained s : I s → keeps (reconcileFineGrainedRBACConfiguration s).
Proof. intros Hs. unfold reconcileFineGrainedRBACConfiguration. keep_steps. Qed.

Lemma keeps_virtualMachines s : I s → keeps (reconcileVirtualMachineConfiguration s).
Proof. intros Hs. unfold reconcileVirtualMachineConfiguration. keep_steps. Qed.
#[local] Hint Resolve keeps_globalSearch keeps_hubName keeps_fineGrained keeps_virtualMachines : keeps.

Lemma keeps_setFinalizer s : I s → keeps (setFinalizer s).
Proof.
  intros Hs. unfold setFinalizer.
  assert (Hw : ∀ s' (b b' : bool), I s' → keeps (u <- call (Update KSearch s') ;;
    match u with Ok o => Ret (b, @None error, o) | Err e => Ret (b', Some e, s') end)).
  { intros s' b b' Hs'. eapply post_bind.
    - apply (post_call _ (λ r, match r with Ok o => I o | Err _ => True end)). intros [o|e]; [by apply I_update|done].
    - intros [o|e] Ho; by apply post_Ret. }
  destruct (om_DeletionTimestamp _).
  - destruct (ContainsFinalizer _ _); [|by apply post_Ret]. eapply post_bind; [apply post_any|].
    intros [e|] _; [by apply post_Ret|]. apply Hw, (I_identity s); [done|..]; cbn; by destruct (RemoveFinalizer_spec (s_Meta s) searchFinalizer) as [-> _].
  - destruct (negb _); [|by apply post_Ret].
    apply Hw, (I_identity s); [done|..]; cbn; by destruct (AddFinalizer_spec (s_Meta s) searchFinalizer) as [-> _].
Qed.

(** ** A guarantee that relies on the answers *)

Context (G : ∀ R, Api R → Prop).
Hypothesis G_edits : ∀ R (q : Api R), edits R q → G R q.
Hypothesis G_made : ∀ s k (o : Obj k), I s → made s k o → G _ (Create k o).

Definition relies {A} (p : prog A) : Prop := ∀ t o, exec p t o → Forall R t → Forall (ev_ok G) t.

Lemma relies_issues {A} (p : prog A) : issues G p → relies p.
Proof. intros Hp t o He _. by eapply Hp. Qed.

Lemma relies_bind {A B} (p : prog A) (g : A → prog B) Q :
  relies p → post p Q → (∀ a, Q a → relies (g a)) → relies (bind p g).
Proof.
  intros Hp HQ Hg t o [(a & t1 & t2 & -> & Ha & Hb)|(w & Hw & ->)]%exec_bind Ht; [|by eapply Hp].
  apply Forall_app in Ht as [Ht1 Ht2]. apply Forall_app. split; [by eapply Hp|].
  eapply Hg; [by eapply HQ|done..].
Qed.

(** Sequencing where what the first part returns does not depend on the answers. *)
Lemma relies_then {A B} (p : prog A) (g : A → prog B) :
  issues G p → (∀ t a, exec p t (Done a) → relies (g a)) → relies (bind p g).
Proof.
  intros Hp Hg t o [(a & t1 & t2 & -> & Ha & Hb)|(w & Hw & ->)]%exec_bind Ht; [|by eapply Hp].
  apply Forall_app in Ht as [Ht1 Ht2]. apply Forall_app. split; [by eapply Hp|by eapply Hg].
Qed.

Lemma relies_orElse p step rest : relies step → relies rest → relies (orElse p step rest).
Proof.
  intros Hs Hr. eapply relies_bind; [done|apply post_any|]. intros [[r|] e] _; [apply relies_issues, issues_Ret|done].
Qed.

Lemma relies_feature p step rest :
  issues G step → keeps step → (∀ s, I s → relies (rest s)) → relies (feature p step rest).
Proof.
  intros Hs Hk Hr. eapply relies_bind; [by apply relies_issues|exact Hk|]. intros [[[r|] [e|]] s] Hi; cbn in Hi; auto;
    apply relies_issues; [apply issues_Ret|apply issues_Panic].
Qed.

Lemma relies_deleting p d rest : issues G d → relies rest → relies (deleting p d rest).
Proof. intros Hd Hr. apply relies_then; [done|]. intros t [e|] _; [apply relies_issues, issues_Ret|done]. Qed.

(** ** The parts of a reconciliation *)

Section parts.
Context (s : Search) (Hs : I s).

Local Ltac creates := apply (G_made s _ _ Hs).

Lemma relies_accountStep p account rest :
  G _ (Create KServiceAccount account) → relies rest → relies (orElse p (createSearchServiceAccount account) rest).
Proof. intros Ha Hr. apply relies_orElse; [|done]. by apply relies_issues, issues_serviceAccount. Qed.

Lemma relies_withAccount p name rest : relies rest → relies (withAccount p (ownedServiceAccount name s) rest).
Proof.
  intros Hr. unfold ownedServiceAccount. destruct (SetControllerReference s _) as [m|] eqn:Hm; [|apply relies_issues, issues_Ret].
  apply relies_accountStep; [|done]. creates. eapply made_reference; [|exact Hm|done].
  apply (bool_decide_unpack _); vm_compute; exact Logic.I.
Qed.

(** What is made of an answer, and then used. *)
Lemma issues_built {A B C} (p : prog A) (f : A → B) (g : B → prog C) :
  issues G p → (∀ a, issues G (g (f a))) → issues G (b <- (a <- p ;; Ret (f a)) ;; g b).
Proof.
  intros Hp Hg t o [(b & t1 & t2 & -> & Hb & He)|(w & Hw & ->)]%exec_bind.
  - apply exec_bind in Hb as [(a & t3 & t4 & -> & Ha & [-> [= ->]]%exec_Ret)|(w & _ & ?)]; [|done].
    rewrite app_nil_r. apply Forall_app. split; [by eapply Hp|by eapply Hg].
  - apply exec_bind in Hw as [(a & t3 & t4 & _ & _ & [_ ?]%exec_Ret)|(w' & Hw & _)]; [done|by eapply Hp].
Qed.

Lemma issues_secret name user : issues G (secret <- dbSecret name user s ;; createSecret secret).
Proof.
  apply issues_built; [by apply issues_generatePass|]. intros pw. apply issues_createIfAbsent; [done|].
  creates. made_by_owner.
Qed.

Lemma made_deployment deployment account container volumes annotations strategy grace :
  made s KDeployment (finishDeployment deployment account s container volumes annotations strategy grace).
Proof. unfold finishDeployment. cbv zeta. made_by_owner. Qed.

Lemma relies_database : relies (reconcileDatabase sha256 s).
Proof.
  unfold reconcileDatabase. apply relies_then; [by apply issues_TLS|]. intros _ tls _.
  apply relies_then; [by apply issues_postgresConfigmap|]. intros t cm Hcm. unfold PostgresConfigmap in Hcm. cbv zeta in Hcm.
  apply exec_bind in Hcm as [(v & t1 & t2 & _ & _ & [_ [= ->]]%exec_Ret)|(w & _ & ?)]; [|done].
  apply relies_issues, issues_bind.
  - apply issues_configMap; [done|]. creates. made_by_owner.
  - intros [[[r|] e] cm']; [apply issues_Ret|]. apply issues_built; [by apply issues_dbConfig|].
    intros wm. apply issues_deployment; [done|]. creates. apply made_deployment.
Qed.

Lemma relies_policies : relies (reconcileNetworkPolicies true s).
Proof.
  unfold reconcileNetworkPolicies. apply relies_then; [by apply issues_policies|]. intros t nps Hnps.
  assert (Hall : Forall (λ np, made s KNetworkPolicy np) nps).
  { unfold NetworkPolicies in Hnps.
    apply exec_bind in Hnps as [(v & t1 & t2 & _ & _ & [_ [= ->]]%exec_Ret)|(w & _ & ?)]; [|done].
    repeat (apply Forall_cons; split; [made_by_owner|]). by apply Forall_nil. }
  apply relies_issues. clear Hnps. induction Hall as [|np nps Hnp _ IH]; cbn [map runSteps]; [apply issues_Ret|].
  apply issues_bind; [|intros [[r|] e]; [apply issues_Ret|exact IH]].
  apply issues_policy; [done|]. by creates.
Qed.

(** What the request creates was made for the CR. *)
Local Ltac by_made :=
  creates; first [ made_by_owner
                 | apply made_deployment
                 | apply made_monitor
                 | apply made_binding; rewrite !elem_of_cons; tauto
                 | apply made_role; cbn; rewrite !elem_of_cons; tauto ].
Local Ltac step lem := apply relies_orElse; [apply relies_issues; eapply lem; [exact G_edits|by_made]|].

Lemma relies_resources p rest : relies rest → relies (reconcileResources sha256 p s rest).
Proof.
  intros Hr. unfold reconcileResources, reconcileComponents.
  step (issues_serviceAccount G). do 2 apply relies_withAccount. step (issues_serviceAccount G).
  do 3 step (issues_roles G). do 3 step (issues_binding G).
  apply relies_then; [by apply issues_webhookCA|intros _ _ _].
  apply relies_orElse; [apply relies_issues, issues_merged; [done|]|].
  { intros m spec Hm. creates. eapply made_reference; [|exact Hm|done]. apply (bool_decide_unpack _); vm_compute; exact Logic.I. }
  do 3 (apply relies_orElse; [apply relies_issues, issues_secret|]).
  step (issues_createIfAbsent G). apply relies_orElse; [apply relies_database|].
  do 2 step (issues_createIfAbsent G).
  apply relies_then; [eapply (issues_createIfAbsent G); [done|by_made]|intros _ _ _].
  do 3 step (issues_createIfAbsent G).
  apply relies_then; [by apply issues_TLS|intros _ tls _].
  apply relies_orElse; [apply relies_issues, issues_built|].
  { unfold getClusterNameFromMCH. by issue_steps; apply G_edits. }
  { intros c. apply issues_deployment; [done|by_made]. }
  do 2 step (issues_deployment G). apply relies_orElse; [apply relies_policies|].
  by do 2 step (issues_createIfAbsent G).
Qed.

Lemma relies_legacy p : relies (reconcileLegacy p s).
Proof.
  unfold reconcileLegacy, cleanOnce, deleteLegacyRBAC, deleteClusterRole, deleteClusterRoleBinding.
  step (issues_prometheusRule G). apply relies_then.
  - destruct (pr_Cleaned p); [apply issues_Ret|]. apply issues_bind; [by apply issues_legacyMonitors|intros _].
    apply issues_bind; [by apply issues_removeOwnerRef|intros _; apply issues_Ret].
  - intros _ p' _. do 3 (apply relies_deleting; [apply issues_deleteObject; [done|cbn; set_solver]|]).
    apply relies_issues, issues_Ret.
Qed.

Lemma issues_claim : issues G (isPVCPresent s) ∧ issues G (configurePVC s).
Proof.
  assert (Hc : ∀ name class size, G _ (Create KPVC (NewPVC name (s_Namespace s) class size))).
  { intros name class size. creates. apply made_kept; [apply (bool_decide_unpack _); vm_compute; exact Logic.I|by right|by right]. }
  unfold isPVCPresent, configurePVC, createPVC. split; issue_steps; first [by apply G_edits|apply Hc].
Qed.
End parts.

(** ** The whole *)

Lemma relies_active p s : I s → relies (reconcileActive sha256 p s).
Proof.
  intros Hs. destruct (issues_claim s Hs) as [Hpvc Hc]. unfold reconcileActive, reconcileFeatures. cbv zeta. apply relies_then.
  - destruct (negb _); [|apply issues_Ret]. apply issues_bind; [done|]. intros [|]; cbn [negb]; [apply issues_Ret|done].
  - intros _ [|] _; cbn [negb]; [|apply relies_issues, issues_Ret]. apply relies_resources; [done|].
    apply relies_feature; [by apply issues_globalSearch|auto with keeps|intros s1 Hs1].
    apply relies_feature; [by apply issues_hubName|auto with keeps|intros s2 Hs2].
    apply relies_feature; [by apply issues_fineGrained|auto with keeps|intros s3 Hs3].
    apply relies_feature; [by apply issues_virtualMachines|auto with keeps|intros s4 Hs4].
    by apply relies_legacy.
Qed.

(** A reconciliation keeps to the guarantee, if the CR it reads is one of [I]. *)
Lemma reconcile_relies req p t o :
  exec (Reconcile sha256 req p) t o → Forall R t →
  (∀ s t', t = Ev (Get KSearch (mkNN OperatorName (nn_Namespace req))) (Ok s) :: t' → I s) →
  Forall (ev_ok G) t.
Proof.
  unfold Reconcile, call. cbn [bind]. intros (r & t1 & -> & He)%exec_Op Ht HI.
  apply Forall_cons in Ht as [_ Ht]. apply Forall_cons. split; [by apply G_edits|].
  destruct r as [s|e]; [|apply exec_Ret in He as [-> _]; by apply Forall_nil]. specialize (HI s t1 eq_refl).
  revert t1 o He Ht. match goal with |- ∀ t o, exec ?q t o → _ => change (relies q) end. cbv zeta.
  destruct (HasPrefix _ _).
  - apply relies_issues. destruct (Split _ _) as [|x [|podName l]]; [apply issues_Panic..|].
    apply issues_bind; [by apply issues_status|intros e; apply issues_Ret].
  - eapply relies_bind; [by apply relies_issues, issues_setFinalizer|by apply keeps_setFinalizer|].
    intros [[d err] s'] Hs'. cbn [snd] in Hs'. destruct err; [apply relies_issues, issues_Ret|].
    destruct d; [apply relies_issues, issues_Ret|]. destruct (IsPaused _); [apply relies_issues, issues_Ret|].
    by apply relies_active.
Qed.
End relying.
