(* ===== verification/Permissions.v ===== *)
(** Least privilege: every write request of a reconciliation is one that the
    roles of the operator allow. *)
From Stdlib Require Import Ascii String.
From S2P Require Import Prelude GoStrings K8s V1alpha1 Effects Interfaces Selectors MemServer Fixtures ImageValidation Common CollectorMerge PostgresConfig Deployments Objects Networks TLS SearchCR Features Status Addon Resources Seeder Reconciler Requests.

Local Open Scope search_scope.

(** A request the roles allow, with the namespaced role bound in [ns]. Reads of
    every kind are allowed. *)
Definition may (ns : string) (v : Verb) (k : Kind) (at_ : string) : Prop :=
  v ∈ clusterVerbs k ∨ (namespacedRole k = true ∧ at_ = ns).

Definition permitted (ns : string) R (q : Api R) : Prop :=
  match q with
  | Create k o => may ns VCreate k (om_Namespace (obj_meta k o))
  | Update k o => may ns VUpdate k (om_Namespace (obj_meta k o))
  | Patch k o => may ns VPatch k (om_Namespace (obj_meta k o))
  | Delete k n => may ns VDelete k (nn_Namespace n)
  | StatusUpdate k o => statusUpdates k = true
  | DynCreate gvr _ _ => VCreate ∈ dynamicVerbs gvr
  | DynUpdate gvr _ _ => VUpdate ∈ dynamicVerbs gvr
  | DynDelete gvr _ => VDelete ∈ dynamicVerbs gvr
  | _ => True
  end.

(** * Theorem *)

(** The guarantee covers the edits, and the creation of what a reconciliation makes. *)
Lemma permitted_edits ns R (q : Api R) : edits R q → permitted ns R q.
Proof. destruct q; cbn; try done; [by left..|by intros []]. Qed.

Lemma permitted_made ns s k (o : Obj k) : s_Namespace s = ns → made s k o → permitted ns _ (Create k o).
Proof.
  intros <- [Hk Hp _]. cbn. unfold may. revert Hk Hp. unfold createdKinds. rewrite !elem_of_cons, elem_of_nil.
  intros Hk Hp. repeat (destruct Hk as [->|Hk]; [first [left; cbn; set_solver|right; cbn in *; set_solver]|]). destruct Hk.
Qed.

Section least_privilege.
Context `{Environ} `{Quantities} `{ControllerUtilLaws} `{NestedFields} `{TLSLibrary} `{StatusConditions}.
Context `{SemanticEquality CollectorConfigSpec} `{SemanticEquality smap} `{SemanticEquality NetworkPolicySpec}.
Context `{SemanticEquality (list OwnerReference)} `{SemanticEquality (list PolicyRule)}.
Context `{SemanticEquality RoleRef} `{SemanticEquality (list Subject)}.
Context `{SemanticEquality (list RuleGroup)} `{DeploymentSpecEquality}.

(** C6: least privilege. Whatever the API server answers, provided it answers
    with the objects asked for, every request a reconciliation makes is one the
    operator's roles allow: the cluster role generated from the markers above
    [Reconcile], and the namespaced role in the namespace of the CR. In
    particular no pod is ever written, PVCs and new ConfigMaps only appear in
    that namespace, and service monitors are never updated. *)
Theorem reconcile_within_rbac sha256 req p t o :
  exec (Reconcile sha256 req p) t o → Forall honest t →
  Forall (ev_ok (permitted (nn_Namespace req))) t.
Proof.
  intros He Hh. apply (reconcile_relies sha256 honest (λ s, s_Namespace s = nn_Namespace req)) with req p o; try done.
  - by intros s s' <-.
  - intros s s' <- Hs. cbn in Hs. injection Hs as _ Hs. exact Hs.
  - intros s s' <- Hs. cbn in Hs. injection Hs as _ Hs. exact Hs.
  - apply permitted_edits.
  - intros s k x. apply permitted_made.
  - intros s t' ->. apply Forall_cons in Hh as [Hs _]. cbn in Hs. by injection Hs.
Qed.
End least_privilege.

(** * The theorem at a concrete input *)

#[local] Existing Instance ref_NestedString.
#[local] Existing Instance sampleTLSLibrary.
#[local] Existing Instance sampleEnviron.
#[local] Existing Instance sampleQuantities.

Lemma reconcile_within_rbac_witness :
  let p := Reconcile sampleHash searchRequest newProcess in
  List.length (run_trace p freshCluster) = 134 ∧ Forall (ev_ok (permitted "ocm")) (run_trace p freshCluster).
Proof.
  cbv zeta. split; [vm_compute; reflexivity|].
  apply (reconcile_within_rbac sampleHash searchRequest newProcess _
           (run_outcome (Reconcile sampleHash searchRequest newProcess) freshCluster)).
  - apply run_exec.
  - apply honestb_sound. vm_compute. reflexivity.
Defined.
