(* ===== verification/Ownership.v ===== *)
(** What becomes of the objects a reconciliation creates when the CR is deleted: the
    garbage collector or [finalizeSearch] takes each of them, but for those that
    [outlives] names. *)
From Stdlib Require Import Ascii String.
From S2P Require Import Prelude GoStrings K8s V1alpha1 Effects Interfaces Selectors MemServer Fixtures ImageValidation Common CollectorMerge PostgresConfig Deployments Objects Networks TLS SearchCR Features Status Addon Resources Seeder Reconciler Lifecycle Requests.

Local Open Scope search_scope.

(** * Specification *)

(** An update changes neither the UID nor the namespace of an object, which are
    immutable. *)
Definition keeps_identity (e : event) : Prop :=
  match e with
  | Ev q a =>
      match q in Api R return R → Prop with
      | Update k o | StatusUpdate k o => λ a,
          match a with
          | Ok o' => om_UID (obj_meta k o') = om_UID (obj_meta k o) ∧ om_Namespace (obj_meta k o') = om_Namespace (obj_meta k o)
          | Err _ => True
          end
      | _ => λ _, True
      end a
  end.

Definition keeps_identityb (e : event) : bool :=
  match e with
  | Ev q a =>
      match q in Api R return R → bool with
      | Update k o | StatusUpdate k o => λ a,
          match a with
          | Ok o' => String.eqb (om_UID (obj_meta k o')) (om_UID (obj_meta k o)) &&
                     String.eqb (om_Namespace (obj_meta k o')) (om_Namespace (obj_meta k o))
          | Err _ => true
          end
      | _ => λ _, true
      end a
  end.

Lemma keeps_identityb_sound t : forallb keeps_identityb t = true → Forall keeps_identity t.
Proof.
  intros Ht. apply Forall_forall. intros e He. rewrite forallb_elem in Ht. specialize (Ht e He).
  destruct e as [X q a]. destruct q; cbn in *; try done;
    (destruct a; [by apply andb_true_iff in Ht as [?%String.eqb_eq ?%String.eqb_eq]|done]).
Qed.

(** The same CR, perhaps edited. *)
Definition same_cr (s s' : Search) : Prop :=
  s_Namespace s' = s_Namespace s ∧ om_UID (s_Meta s') = om_UID (s_Meta s).

(** The fate of an object of kind [k] with the metadata [m] once the clean-up [t] of
    the deleted CR [s] has succeeded. *)
Definition fate (s : Search) (t : list event) (k : Kind) (m : ObjectMeta) : Prop :=
  owned s m ∨ (∃ n b, nn_Name n = om_Name m ∧ Ev (Delete k n) b ∈ t ∧ deleted b) ∨ outlives k (om_Name m).

(** * Lemmas *)

Lemma made_same s s' k (o : Obj k) : same_cr s s' → made s' k o → made s k o.
Proof.
  intros [Hn Hu] [Hk Hp Hf]. split; [done|by rewrite <-Hn|].
  destruct Hf as [Hf|[Hf|Hf]]; [left|right; left|by right; right].
  - unfold owned in *. eapply Exists_impl; [exact Hf|]. intros ref [Hr Hc]. by split; [rewrite Hr|].
  - destruct Hf as (n & Hin & Hnn). exists n. split; [|done]. unfold finalizedRBAC in *. by rewrite <-Hn.
Qed.

Lemma same_updated s o o' : same_cr s o → same_cr o o' → same_cr s o'.
Proof. intros [H1 H2] [H3 H4]. split; congruence. Qed.

(** What a reconciliation creates is made for the CR. *)
Definition creates_made (s : Search) : ∀ R, Api R → Prop := λ R q,
  match q with
  | Create k o => made s k o
  | DynCreate gvr cluster u => featureObject gvr cluster u
  | _ => True
  end.

(** A request through the dynamic client. *)
Definition is_dynamic (e : event) : bool :=
  match e with
  | Ev (DynGet _ _) _ | Ev (DynList _) _ | Ev (DynCreate _ _ _) _ | Ev (DynUpdate _ _ _) _ | Ev (DynDelete _ _) _ => true
  | _ => false
  end.

Lemma finalizeSearch_typed s t o : exec (finalizeSearch s) t o → Forall (λ e, is_dynamic e = false) t.
Proof.
  intros He. eapply Forall_impl; [by eapply finalizeSearch_cleans|]. intros [R q a] Hq. by destruct q.
Qed.

Section ownership.
Context `{Environ} `{Quantities} `{ControllerUtilLaws} `{NestedFields} `{TLSLibrary} `{StatusConditions}.
Context `{SemanticEquality CollectorConfigSpec} `{SemanticEquality smap} `{SemanticEquality NetworkPolicySpec}.
Context `{SemanticEquality (list OwnerReference)} `{SemanticEquality (list PolicyRule)}.
Context `{SemanticEquality RoleRef} `{SemanticEquality (list Subject)}.
Context `{SemanticEquality (list RuleGroup)} `{DeploymentSpecEquality}.

(** C12: what becomes of the objects of the operator. Each object a reconciliation
    creates with the typed client is of one of twelve kinds, is in the namespace of the
    CR unless its kind has none, and, once the CR is deleted, goes with it: either it
    names the CR as its controller, so that the garbage collector deletes it, or every
    successful [finalizeSearch] deletes it. Three are left behind: the volume claim,
    the service monitors and the cluster role for users of global search. What it
    creates with the dynamic client are the ManagedServiceAccounts, ClusterPermissions
    and ManifestWorks of the features, in the namespace of a managed cluster; they are
    left behind too, since [finalizeSearch] makes no request with that client. *)
Theorem created_objects_accounted sha256 req p s t o t' :
  exec (Reconcile sha256 req p) (Ev (Get KSearch (mkNN OperatorName (nn_Namespace req))) (Ok s) :: t) o →
  Forall keeps_identity t → exec (finalizeSearch s) t' (Done None) →
  (∀ k x a, Ev (Create k x) a ∈ t →
    k ∈ createdKinds ∧
    (k ∈ [KClusterRole; KClusterRoleBinding] ∨ om_Namespace (obj_meta k x) = s_Namespace s) ∧
    fate s t' k (obj_meta k x)) ∧
  (∀ gvr cluster u a, Ev (DynCreate gvr cluster u) a ∈ t → featureObject gvr cluster u) ∧
  Forall (λ e, is_dynamic e = false) t'.
Proof.
  intros He Ht Hfin. pose proof (finalizeSearch_typed _ _ _ Hfin) as Hdyn. apply exec_finalizeSearch in Hfin as [_ Hfin].
  assert (Hall : Forall (ev_ok (creates_made s)) (Ev (Get KSearch (mkNN OperatorName (nn_Namespace req))) (Ok s) :: t)).
  { apply (reconcile_relies sha256 keeps_identity (same_cr s)) with req p o; try done.
    - intros s1 s2 Hs Hn Hu. by eapply same_updated.
    - intros s1 s2 Hs [Hu Hn]. by eapply same_updated.
    - intros s1 s2 Hs [Hu Hn]. by eapply same_updated.
    - intros R q Hq. destruct q; try done. by destruct Hq.
    - intros s1 k' x' Hs Hm. by eapply made_same.
    - by constructor.
    - intros s1 t1 Heq. apply (f_equal (λ l, track KSearch (mkNN OperatorName (nn_Namespace req)) None <$> head l)) in Heq.
      cbn [head fmap option_fmap option_map] in Heq. rewrite !track_get_ok in Heq. by injection Heq as <-. }
  apply Forall_cons in Hall as [_ Hall]. rewrite Forall_forall in Hall.
  split_and!; [|intros gvr cluster u a Hin; exact (Hall _ Hin)|done].
  intros k x a Hin. destruct (Hall _ Hin) as [Hk Hp Hf].
  split_and!; [done..|]. destruct Hf as [Hf|[(n & Hn & Hname)|Hf]]; [by left|right; left|by right; right].
  destruct (Hfin k n Hn) as (b & Hb & Hdel). by exists n, b.
Qed.
End ownership.

(** * The theorem at a concrete input *)

#[local] Existing Instance ref_NestedString.
#[local] Existing Instance sampleTLSLibrary.
#[local] Existing Instance sampleEnviron.
#[local] Existing Instance sampleQuantities.

Definition firstTrace : list event := run_trace (Reconcile sampleHash searchRequest newProcess) freshCluster.
Definition afterFirst : MemServer := run_state (Reconcile sampleHash searchRequest newProcess) freshCluster.
Definition finalTrace : list event := run_trace (finalizeSearch sampleSearch) afterFirst.

(** A run begins with the first request of the program. *)
Lemma run_trace_call {W A R} `{Server W} (q : Api R) (f : R → prog A) w a :
  (serve q w).1 = a → run_trace (bind (call q) f) w = Ev q a :: tail (run_trace (bind (call q) f) w).
Proof.
  intros <-. unfold run_trace, call. cbn [bind run]. destruct (serve q w) as [x w']. destruct (run (f x) w') as [[o t] w2].
  done.
Qed.

Lemma firstTrace_cons :
  firstTrace = Ev (Get KSearch (mkNN OperatorName (nn_Namespace searchRequest))) (Ok sampleSearch) :: tail firstTrace.
Proof. unfold firstTrace, Reconcile. apply run_trace_call. vm_compute. reflexivity. Qed.

Lemma firstTrace_exec :
  exec (Reconcile sampleHash searchRequest newProcess)
    (Ev (Get KSearch (mkNN OperatorName (nn_Namespace searchRequest))) (Ok sampleSearch) :: tail firstTrace)
    (run_outcome (Reconcile sampleHash searchRequest newProcess) freshCluster).
Proof. rewrite <-firstTrace_cons. apply run_exec. Qed.

(** The binding of the indexer is created, and deleted again. *)
Definition isCreatedBinding (e : event) : bool :=
  match e with
  | Ev (Create KClusterRoleBinding x) _ => String.eqb (om_Name (crb_Meta x)) "search-indexer"
  | _ => false
  end.

Lemma created_objects_accounted_witness :
  existsb isCreatedBinding (tail firstTrace) = true ∧
  ∀ x a, Ev (Create KClusterRoleBinding x) a ∈ tail firstTrace → fate sampleSearch finalTrace KClusterRoleBinding (crb_Meta x).
Proof.
  split; [vm_compute; reflexivity|]. intros x a Hin.
  assert (Hid : Forall keeps_identity (tail firstTrace)) by (apply keeps_identityb_sound; vm_compute; reflexivity).
  assert (Hfin : run_outcome (finalizeSearch sampleSearch) afterFirst = Done None) by (vm_compute; reflexivity).
  exact (proj2 (proj2 (proj1 (created_objects_accounted sampleHash searchRequest newProcess sampleSearch _ _ _
    firstTrace_exec Hid (run_exec_eq _ _ _ Hfin)) _ _ _ Hin))).
Defined.
