(* ===== verification/Admission.v ===== *)
(** The operator before its own webhook: the merged config is a CollectorConfig like
    any other, so the write of the merge ([CollectorMerge]) is validated by the
    admission ([Webhook]). Exactly which merged configs are admitted. *)
From Stdlib Require Import Ascii String.
From S2P Require Import Prelude GoStrings K8s V1alpha1 Effects Interfaces Selectors MemServer Fixtures Webhook Common CollectorMerge.

Local Open Scope search_scope.

(** * Specification *)

(** No exclude rule of a team takes away what a team includes. *)
Definition compatible (items : list CollectorConfig) : Prop :=
  ∀ a b rule teamRule, a ∈ items → b ∈ items →
    rule ∈ ccs_CollectionRules (cc_Spec a) → is_exclude rule →
    teamRule ∈ ccs_CollectionRules (cc_Spec b) → is_include teamRule →
    ¬ overlap (r_ResourceSelector rule) (r_ResourceSelector teamRule).

(** The caller is a service account of the namespace, as the operator is. *)
Definition from_service_account (request : result AdmissionRequest) : Prop :=
  ∃ req, request = Ok req ∧
    HasPrefix (req_Username req) ("system:serviceaccount:" +:+ req_Namespace req +:+ ":") = true.

(** The webhook could not list the configs of the teams. *)
Definition listing_failed (t : list event) : Prop :=
  ∃ opts e, Ev (List KCollectorConfig opts) (Err e) ∈ t.

(** A merged config as it is sent: not one of a team. *)
Definition is_merge (items : list CollectorConfig) (user : option CollectorConfig) (cc : CollectorConfig) : Prop :=
  cc_Spec cc = mergedSpecOf items user ∧ get_str (cc_Labels cc) IntegrationTeamLabel ≠ IntegrationTeamLabelValue.

(** * Lemmas *)

Lemma service_account_passes request cc op : from_service_account request → rejectIfProtected request cc op = None.
Proof.
  intros (req & -> & Hp). unfold rejectIfProtected. rewrite Hp. by repeat case_match.
Qed.

Section admission.
Context (jsonpath_parses : string → bool) (kindsOrder : list (string * string)).
Hypothesis kindsOrder_perm : kindsOrder ≡ₚ map_to_list protectedKinds.
Local Abbreviation valid cc := (validateCollectorConfig jsonpath_parses kindsOrder cc = None).

(** A rule of the merge is a rule of a team, or one of the user that the merge keeps. *)
Lemma merged_rule items user rule :
  rule ∈ ccs_CollectionRules (mergedSpecOf items user) ↔
  (∃ tc, tc ∈ items ∧ rule ∈ ccs_CollectionRules (cc_Spec tc)) ∨
  (∃ u, user = Some u ∧
     rule ∈ List.filter (λ r, negb (drops (sort_by cc_Name items) r)) (ccs_CollectionRules (cc_Spec u))).
Proof.
  unfold mergedSpecOf, user_spec. destruct user as [u|]; cbn [ccs_CollectionRules].
  - rewrite elem_of_app, elem_of_sortedTeamRules. naive_solver.
  - rewrite elem_of_sortedTeamRules. naive_solver.
Qed.

(** Merging valid configs gives a valid config. *)
Lemma merge_valid items user cc :
  Forall (λ c, valid c) items → (∀ u, user = Some u → valid u) → cc_Spec cc = mergedSpecOf items user → valid cc.
Proof.
  intros Hi Hu Hs. apply (content_rules_valid _ _ kindsOrder_perm). rewrite Hs. apply Forall_forall.
  assert (Hr : ∀ c r, valid c → r ∈ ccs_CollectionRules (cc_Spec c) → valid_rule jsonpath_parses r).
  { intros c r Hc. apply (content_rules_valid _ _ kindsOrder_perm) in Hc. rewrite Forall_forall in Hc. apply Hc. }
  rewrite Forall_forall in Hi. intros rule [(tc & Htc & Hrule)|(u & -> & Hrule)]%merged_rule.
  - by eapply Hr; [apply Hi|].
  - apply elem_of_keptRules in Hrule as [Hrule _]. by eapply Hr; [apply Hu|].
Qed.

(** The webhook finds a conflict in a merge only between the rules of the teams. *)
Lemma merge_conflicts items user cc l :
  cc_Spec cc = mergedSpecOf items user → l ≡ₚ items → excludeConflicts cc l = [] ↔ compatible items.
Proof.
  intros Hs Hl. rewrite excludeConflicts_nil, Hs. unfold compatible, is_exclude, is_include. split.
  - intros Hc a b rule teamRule Ha Hb Hrule Hex Htr Hin. apply (Hc rule) with b; [|done|rewrite Hl; exact Hb|done|done].
    apply merged_rule. left. by exists a.
  - intros Hc rule Hrule Hex ic teamRule Hic Htr Hin. rewrite Hl in Hic.
    apply merged_rule in Hrule as [(tc & Htc & Hrule)|(u & -> & Hrule)]; [by apply (Hc tc ic rule)|].
    apply elem_of_keptRules in Hrule as [_ Hkeep]. by apply (Hkeep Hex ic).
Qed.

(** What the webhook asks about a merge. *)
Lemma exec_merge_excludes items user cc t o :
  is_merge items user cc →
  exec (validateExcludeAgainstIntegrationConfigs true cc) t o →
  (o = Done None ∧ (t = [] → ∀ rule, rule ∈ ccs_CollectionRules (cc_Spec cc) → ¬ is_exclude rule) ∧
   (t = [] ∨ listing_failed t)) ∨
  ∃ l, t = [Ev (List KCollectorConfig (integrationListOptions (om_Namespace (cc_Meta cc)))) (Ok l)] ∧
    o = Done (aggregate (excludeConflicts cc l)).
Proof.
  intros [_ Hlab]. unfold validateExcludeAgainstIntegrationConfigs, call. cbn [negb bind].
  rewrite (proj2 (String.eqb_neq _ _) Hlab). destruct (existsb _ _) eqn:Hex; cbn [negb].
  - intros ([l|e] & t' & -> & [-> ->]%exec_Ret)%exec_Op; [right; by exists l|]. left.
    split; [done|]. split; [done|]. right. eexists _, e. left.
  - intros [-> ->]%exec_Ret. left. split; [done|]. split; [|by left]. intros _ rule Hr He.
    apply not_true_iff_false in Hex. apply Hex, existsb_exists. exists rule.
    split; [by apply list_elem_of_In|]. by apply String.eqb_eq.
Qed.

(** The answer of the webhook to the write of a merge by the operator. *)
Lemma merge_admission request old cc items user t a :
  Forall (λ c, valid c) items → (∀ u, user = Some u → valid u) → is_merge items user cc →
  from_service_account request →
  exec (ValidateCreate jsonpath_parses kindsOrder true request (ObjectCC cc)) t (Done a) ∨
  exec (ValidateUpdate jsonpath_parses kindsOrder true request (ObjectCC old) (ObjectCC cc)) t (Done a) →
  (∀ e l, e ∈ t → listed_ccs e = Some l → l ≡ₚ items) →
  a = None ↔ compatible items ∨ listing_failed t.
Proof.
  intros Hi Hu Hm Hreq He Hlist. cbn [ValidateCreate ValidateUpdate] in He. rewrite !service_account_passes in He by done.
  assert (Hv : exec (validateExcludeAgainstIntegrationConfigs true cc) t (Done a)).
  { unfold validateContent in He. rewrite (merge_valid items user cc) in He by (done || apply Hm). by destruct He. }
  apply (exec_merge_excludes items user) in Hv as [([= ->] & Hno & Hf)|(l & -> & [= ->])]; [| |done].
  - split; [intros _|done]. destruct Hf as [->|Hf]; [|by right]. left.
    intros x b rule teamRule Hx Hb Hrule Hex. exfalso. eapply (Hno eq_refl rule); [|done].
    destruct Hm as [-> _]. apply merged_rule. left. by exists x.
  - assert (Hl : l ≡ₚ items) by (eapply Hlist; [left|done]). destruct Hm as [Hs _].
    rewrite aggregate_None, (merge_conflicts items user cc l Hs Hl).
    split; [by left|]. intros [Hc|(opts & e & Hin)]; [done|].
    apply list_elem_of_singleton, (f_equal listed_ccs) in Hin. discriminate Hin.
Qed.

(** C3: the operator and its own webhook. The write of a merge of configs that each
    passed the validation, made by the operator, is admitted if and only if no
    exclude rule of a team overlaps an include rule of a team, or the webhook
    cannot list the configs: the validation never objects to the rules or to the
    owner, and the rules of the user never matter, since the merge has dropped
    those the webhook would refuse. Excludes of teams it does not drop, although
    the webhook lets the teams write them. *)
Theorem merged_config_admission request old cc items user t a :
  Forall (λ c, valid c) items → (∀ u, user = Some u → valid u) → is_merge items user cc →
  from_service_account request →
  exec (ValidateCreate jsonpath_parses kindsOrder true request (ObjectCC cc)) t (Done a) ∨
  exec (ValidateUpdate jsonpath_parses kindsOrder true request (ObjectCC old) (ObjectCC cc)) t (Done a) →
  (∀ e l, e ∈ t → listed_ccs e = Some l → l ≡ₚ items) →
  a = None ↔ compatible items ∨ listing_failed t.
Proof. apply merge_admission. Qed.
End admission.

(** * The theorem at concrete inputs

    The sample configs, and a team that excludes part of what it includes. *)

Definition mergedOf (items : list CollectorConfig) (user : option CollectorConfig) : CollectorConfig :=
  mkCC (cc_Meta ownedConfig) (mergedSpecOf items user) [].

Definition narrowTeam : CollectorConfig :=
  teamConfig "narrow" [includeRule ["apps"] ["*"]; excludeRule ["apps"] ["ReplicaSet"]].
Definition narrowServer : MemServer := serverWith (store_put KCollectorConfig narrowTeam emptyStore).

(** An update of a config by the operator, on a server. *)
Definition submit (cc : CollectorConfig) : prog (option AdmissionError) :=
  ValidateUpdate anyPath someOrder true operatorRequest (ObjectCC cc) (ObjectCC cc).

Definition mergedSample : CollectorConfig := mergedOf [teamA; teamB] (Some userMixed).
Definition mergedNarrow : CollectorConfig := mergedOf [narrowTeam] None.

(** The only request was a listing that showed these configs. *)
Definition lists (items : list CollectorConfig) (t : list event) : bool :=
  forallb (λ e, match listed_ccs e with Some l => bool_decide (l ≡ₚ items) | None => false end) t.

Lemma lists_elem items t e l : lists items t = true → e ∈ t → listed_ccs e = Some l → l ≡ₚ items.
Proof.
  unfold lists. intros Ht He Hl. rewrite forallb_elem in Ht. specialize (Ht e He). rewrite Hl in Ht.
  by apply bool_decide_eq_true in Ht.
Qed.

Lemma lists_answered items t : lists items t = true → ¬ listing_failed t.
Proof. unfold lists. intros Ht (opts & e & He). rewrite forallb_elem in Ht. discriminate (Ht _ He). Qed.

Definition passes (cc : CollectorConfig) : bool := bool_decide (validateCollectorConfig anyPath someOrder cc = None).

Lemma all_pass l : forallb passes l = true → Forall (λ c, validateCollectorConfig anyPath someOrder c = None) l.
Proof. intros Hl. apply Forall_forall. intros c Hc. rewrite forallb_elem in Hl. by apply Hl, bool_decide_eq_true in Hc. Qed.

(** The sample merge is admitted. A team whose exclude narrows its own include is
    admitted too, but then the merge is refused. *)
Lemma merged_config_admission_witness :
  run_outcome (submit mergedSample) ccServer = Done None ∧ compatible [teamA; teamB] ∧
  run_outcome (submit narrowTeam) narrowServer = Done None ∧
  run_outcome (submit mergedNarrow) narrowServer ≠ Done None ∧ ¬ compatible [narrowTeam].
Proof.
  assert (Hiff : ∀ items user w a,
    forallb passes (items ++ option_list user) = true → lists items (run_trace (submit (mergedOf items user)) w) = true →
    run_outcome (submit (mergedOf items user)) w = Done a → a = None ↔ compatible items).
  { intros items user w a Hv Hl Ho. rewrite forallb_app in Hv. apply andb_true_iff in Hv as [Hi Hu].
    rewrite (merged_config_admission anyPath someOrder someOrder_perm operatorRequest (mergedOf items user)
      (mergedOf items user) items user (run_trace (submit (mergedOf items user)) w) a).
    - split; [intros [?|Hf]; [done|by destruct (lists_answered _ _ Hl)]|by left].
    - by apply all_pass.
    - intros u ->. apply all_pass in Hu. by apply Forall_inv in Hu.
    - by split.
    - by eexists.
    - right. by apply run_exec_eq.
    - intros e l. by apply lists_elem. }
  split_and!; [vm_compute; reflexivity| |vm_compute; reflexivity|vm_compute; discriminate|].
  - apply (Hiff [teamA; teamB] (Some userMixed) ccServer None); vm_compute; reflexivity.
  - destruct (run_outcome (submit mergedNarrow) narrowServer) as [a|why] eqn:Ho; [|vm_compute in Ho; discriminate Ho].
    intros Hc. apply (Hiff [narrowTeam] None narrowServer a) in Hc; [subst a; vm_compute in Ho; discriminate Ho| | |exact Ho];
      vm_compute; reflexivity.
Defined.
