(* ===== verification/Shipped.v ===== *)
(** The CollectorConfigs the operator ships
    ([src/config/integration_collector_configs/*.yaml]), as the decoder of the seeder
    has them, and what the webhook and the merge make of them: the product works with
    its own configs, whatever the user adds. *)
From Stdlib Require Import Ascii String.
From S2P Require Import Prelude GoStrings K8s V1alpha1 Effects Interfaces Selectors MemServer Fixtures Webhook Common CollectorMerge Admission.

Local Open Scope search_scope.

(** * The manifests *)

(** One include rule for all kinds of some groups, with the labels of a team config. *)
Definition shipped (name : string) (groups : list string) : CollectorConfig :=
  mkCC (set_Labels (Some {[ IntegrationTeamLabel := IntegrationTeamLabelValue; backupLabel := "" ]}) (newMeta name ""))
    (mkCCSpec None [mkRule ActionInclude (mkSelector groups ["*"]) [] "" None None None]) [].

Definition appLifecycleIntegration : CollectorConfig :=
  shipped "app-lifecycle-integration" ["apps.open-cluster-management.io"; "app.k8s.io"].
Definition argoIntegration : CollectorConfig := shipped "argo-integration" ["argoproj.io"].
Definition cnvIntegration : CollectorConfig := shipped "cnv-integration"
  ["kubevirt.io"; "cdi.kubevirt.io"; "migrations.kubevirt.io"; "clone.kubevirt.io"; "instancetype.kubevirt.io";
   "snapshot.kubevirt.io"; "networkaddonsoperator.network.kubevirt.io"; "k8s.cni.cncf.io"; "storage.k8s.io";
   "snapshot.storage.k8s.io"; "snapshot.storage.kubevirt.io"].
Definition gatekeeperIntegration : CollectorConfig := shipped "gatekeeper-integration" ["constraints.gatekeeper.sh"].
Definition grcIntegration : CollectorConfig :=
  shipped "grc-integration" ["policy.open-cluster-management.io"; "wgpolicyk8s.io"].
Definition kyvernoIntegration : CollectorConfig := shipped "kyverno-integration" ["kyverno.io"; "policies.kyverno.io"].
Definition olmIntegration : CollectorConfig := shipped "olm-integration" ["operators.coreos.com"].

Definition shippedConfigs : list CollectorConfig :=
  [appLifecycleIntegration; argoIntegration; cnvIntegration; gatekeeperIntegration; grcIntegration;
   kyvernoIntegration; olmIntegration].

(** * Specification *)

(** The team configs of the cluster are those shipped: stored under whatever metadata,
    their specs as they are. *)
Definition as_shipped (items : list CollectorConfig) : Prop := (cc_Spec <$> items) ≡ₚ (cc_Spec <$> shippedConfigs).

(** The product needs the resources of a group a shipped rule names. *)
Definition needed (g : string) : Prop := ∃ c rule,
  c ∈ shippedConfigs ∧ rule ∈ ccs_CollectionRules (cc_Spec c) ∧ g ∈ rs_APIGroups (r_ResourceSelector rule).

(** The form all shipped rules have. *)
Definition shipped_rule (rule : CollectionRule) : Prop :=
  ∃ groups, groups ≠ [] ∧ rule = mkRule ActionInclude (mkSelector groups ["*"]) [] "" None None None.

(** * Lemmas *)

Lemma elem_of_specs (l l' : list CollectorConfig) c :
  (cc_Spec <$> l) ≡ₚ (cc_Spec <$> l') → c ∈ l → ∃ c', c' ∈ l' ∧ cc_Spec c' = cc_Spec c.
Proof.
  intros Hp Hc. assert (Hs : cc_Spec c ∈ cc_Spec <$> l') by (rewrite <-Hp; by apply list_elem_of_fmap_2).
  apply list_elem_of_fmap_1 in Hs as (c' & Heq & Hc'). by exists c'.
Qed.

Lemma shippedConfigs_rules : Forall (λ c, ∃ groups, groups ≠ [] ∧
  ccs_CollectionRules (cc_Spec c) = [mkRule ActionInclude (mkSelector groups ["*"]) [] "" None None None]) shippedConfigs.
Proof. unfold shippedConfigs. rewrite !Forall_cons, Forall_nil. split_and!; try (eexists; split; [|reflexivity]; done). done. Qed.

Lemma as_shipped_rules items c rule :
  as_shipped items → c ∈ items → rule ∈ ccs_CollectionRules (cc_Spec c) → shipped_rule rule.
Proof.
  intros Hi Hc Hr. destruct (elem_of_specs _ _ _ Hi Hc) as (c' & Hc' & Heq). rewrite <-Heq in Hr.
  pose proof shippedConfigs_rules as Ha. rewrite Forall_forall in Ha. destruct (Ha c' Hc') as (groups & Hg & Hrules).
  rewrite Hrules in Hr. apply list_elem_of_singleton in Hr as ->. by exists groups.
Qed.

(** Everything of a needed group is asked for. *)
Lemma needed_included items g k : as_shipped items → needed g →
  ∃ c rule, c ∈ items ∧ rule ∈ ccs_CollectionRules (cc_Spec c) ∧ is_include rule ∧ selects (r_ResourceSelector rule) g k.
Proof.
  intros Hi (c & rule & Hc & Hr & Hg). destruct (elem_of_specs _ items _ (Permutation_sym Hi) Hc) as (c' & Hc' & Heq).
  rewrite <-Heq in Hr. exists c', rule.
  destruct (as_shipped_rules _ _ _ Hi Hc' Hr) as (groups & _ & ->). split_and!; [done..|].
  split; [by left|right; left].
Qed.

Lemma shipped_compatible items : as_shipped items → compatible items.
Proof.
  intros Hi a b rule teamRule Ha _ Hr Hex. destruct (as_shipped_rules _ _ _ Hi Ha Hr) as (groups & _ & ->). discriminate Hex.
Qed.

Section shipped.
Context (jsonpath_parses : string → bool) (kindsOrder : list (string * string)).
Hypothesis kindsOrder_perm : kindsOrder ≡ₚ map_to_list protectedKinds.
Local Abbreviation valid cc := (validateCollectorConfig jsonpath_parses kindsOrder cc = None).

(** The operator's writes of a config that the webhook admitted. *)
Definition admits (request : result AdmissionRequest) (cc : CollectorConfig) (t : list event) (a : option AdmissionError) : Prop :=
  exec (ValidateCreate jsonpath_parses kindsOrder true request (ObjectCC cc)) t (Done a) ∨
  ∃ old, exec (ValidateUpdate jsonpath_parses kindsOrder true request (ObjectCC old) (ObjectCC cc)) t (Done a).

Lemma shipped_valid items c : as_shipped items → c ∈ items → valid c.
Proof.
  intros Hi Hc. apply (content_rules_valid _ _ kindsOrder_perm), Forall_forall. intros rule Hr.
  destruct (as_shipped_rules _ _ _ Hi Hc Hr) as (groups & Hg & ->). split_and!; [done..|]. left. split; [done|].
  split_and!; [done|by left|done].
Qed.

Lemma includes_admitted request cc t a :
  valid cc → (∀ rule, rule ∈ ccs_CollectionRules (cc_Spec cc) → is_include rule) → from_service_account request →
  admits request cc t a → a = None ∧ t = [].
Proof.
  intros Hv Hinc Hreq He. unfold admits in He. cbn [ValidateCreate ValidateUpdate] in He.
  assert (Hc : exec (validateExcludeAgainstIntegrationConfigs true cc) t (Done a)).
  { destruct He as [He|[old He]]; rewrite !service_account_passes in He by done; unfold validateContent in He; by rewrite Hv in He. }
  unfold validateExcludeAgainstIntegrationConfigs in Hc. cbn [negb] in Hc.
  destruct (String.eqb _ _); [by apply exec_Ret in Hc as [-> [= ->]]|]. destruct (existsb _ _) eqn:Hex; cbn [negb] in Hc.
  - apply existsb_elem in Hex as (rule & Hr & Hx%String.eqb_eq). apply Hinc in Hr. unfold is_include in Hr. by rewrite Hr in Hx.
  - by apply exec_Ret in Hc as [-> [= ->]].
Qed.

(** C4: the operator works with the configs it ships, whatever the user adds. If the
    team configs are those shipped, the webhook admits each of them as the seeder
    writes it, without a look at the others; it admits the merge with any valid user
    config, whose exclude rules never block a reconciliation; and the merge collects
    every resource of every group the product needs and excludes none. *)
Theorem shipped_configs_work items :
  as_shipped items →
  (∀ c request t a, c ∈ items → from_service_account request → admits request c t a → a = None ∧ t = []) ∧
  (∀ user cc request t a, (∀ u, user = Some u → valid u) → is_merge items user cc → from_service_account request →
     (∀ e l, e ∈ t → listed_ccs e = Some l → l ≡ₚ items) → admits request cc t a → a = None) ∧
  (∀ user g k, needed g →
     (∃ rule, rule ∈ ccs_CollectionRules (mergedSpecOf items user) ∧ is_include rule ∧ selects (r_ResourceSelector rule) g k) ∧
     ∀ rule, rule ∈ ccs_CollectionRules (mergedSpecOf items user) → is_exclude rule → ¬ selects (r_ResourceSelector rule) g k).
Proof.
  intros Hi. split_and!.
  - intros c request t a Hc Hreq. apply includes_admitted; [by eapply shipped_valid| |done].
    intros rule Hr. by destruct (as_shipped_rules _ _ _ Hi Hc Hr) as (groups & _ & ->).
  - intros user cc request t a Hu Hm Hreq Hl He.
    assert (Ha : ∃ old, exec (ValidateCreate jsonpath_parses kindsOrder true request (ObjectCC cc)) t (Done a) ∨
      exec (ValidateUpdate jsonpath_parses kindsOrder true request (ObjectCC old) (ObjectCC cc)) t (Done a)).
    { destruct He as [He|[old He]]; [exists cc; by left|exists old; by right]. }
    destruct Ha as [old Ha]. apply (merge_admission jsonpath_parses kindsOrder kindsOrder_perm request old cc items user t a); try done.
    + apply Forall_forall. intros c Hc. by eapply shipped_valid.
    + left. by apply shipped_compatible.
  - intros user g k Hg. destruct (needed_included items g k Hi Hg) as (c & rule & Hc & Hr & Hinc & Hsel). split.
    + exists rule. split; [|done]. apply merged_rule. left. by exists c.
    + intros x Hx Hex Hxsel. apply merged_rule in Hx as [(tc & Htc & Hx)|(u & -> & Hx)].
      * destruct (as_shipped_rules _ _ _ Hi Htc Hx) as (groups & _ & ->). discriminate Hex.
      * apply elem_of_keptRules in Hx as [_ Hkeep]. apply (Hkeep Hex c rule Hc Hr Hinc). by exists g, k.
Qed.
End shipped.

(** * The theorem at concrete inputs

    The shipped configs as the seeder stores them, and a user who wants neither events
    nor Argo CD. *)

Definition stored (c : CollectorConfig) : CollectorConfig :=
  cc_set_Meta (set_Labels (cc_Labels c) (newMeta (cc_Name c) "ocm")) c.
Definition storedConfigs : list CollectorConfig := map stored shippedConfigs.
Definition frugalUser : CollectorConfig :=
  userConfig [excludeRule ["events.k8s.io"] ["Event"]; excludeRule ["argoproj.io"] ["*"]].
Definition shippedServer : MemServer :=
  serverWith (foldr (store_put KCollectorConfig) emptyStore (frugalUser :: storedConfigs)).
Definition mergedShipped : CollectorConfig := mergedOf storedConfigs (Some frugalUser).

Lemma shipped_configs_work_witness :
  run_outcome (submit mergedShipped) shippedServer = Done None ∧
  (∃ rule, rule ∈ ccs_CollectionRules (cc_Spec mergedShipped) ∧ is_include rule ∧
     selects (r_ResourceSelector rule) "argoproj.io" "Application") ∧
  excludeRule ["argoproj.io"] ["*"] ∉ ccs_CollectionRules (cc_Spec mergedShipped) ∧
  excludeRule ["events.k8s.io"] ["Event"] ∈ ccs_CollectionRules (cc_Spec mergedShipped).
Proof.
  assert (Hs : as_shipped storedConfigs) by (unfold as_shipped; vm_compute; reflexivity).
  destruct (shipped_configs_work anyPath someOrder someOrder_perm storedConfigs Hs) as (_ & Hm & Hg).
  assert (Hn : needed "argoproj.io").
  { exists argoIntegration. eexists. split; [right; left|]. split; [left|left]. }
  destruct (Hg (Some frugalUser) "argoproj.io" "Application" Hn) as [Hinc Hex].
  assert (Ho : ∃ a, run_outcome (submit mergedShipped) shippedServer = Done a) by (eexists; vm_compute; reflexivity).
  destruct Ho as [a Ho].
  assert (Ha : a = None).
  { apply (Hm (Some frugalUser) mergedShipped operatorRequest (run_trace (submit mergedShipped) shippedServer)).
    - intros u [= <-]. vm_compute. reflexivity.
    - split; [reflexivity|vm_compute; discriminate].
    - eexists. split; [reflexivity|vm_compute; reflexivity].
    - intros e l. apply lists_elem. vm_compute. reflexivity.
    - right. exists mergedShipped. apply run_exec_eq. exact Ho. }
  split; [rewrite Ho, Ha; reflexivity|]. split; [exact Hinc|]. split.
  - intros Hin. apply (Hex _ Hin); [reflexivity|]. split; [left; left|right; left].
  - apply (bool_decide_unpack _). vm_compute. exact Logic.I.
Defined.
