(* ===== verification/Established.v ===== *)
(** What a reconciliation that succeeds has achieved: every object of the operator
    was, at some point of it, on the server as it should be. The theorem composes
    what each step ensures along the order in which [Reconcile] runs them. *)
From Stdlib Require Import Ascii String.
From S2P Require Import Prelude GoStrings K8s V1alpha1 Effects Interfaces Selectors MemServer Fixtures ImageValidation Common CollectorMerge PostgresConfig Deployments Objects Networks TLS SearchCR Features Status Addon Resources Seeder Reconciler Rollout Lifecycle Requests.

Local Open Scope search_scope.

(** * Specification *)

(** An object the operator wants: its name, what is wanted of it, and the failures
    on the way there that the code only logs. *)
Record Desired := mkDesired {
  d_kind : Kind; d_key : NamespacedName;
  d_ok : Obj d_kind → Prop;
  d_excuse : list event → Prop
}.

(** The requests of a trace leave it on the server, as far as they show. *)
Definition settled (d : Desired) (t : list event) : Prop :=
  (∃ o, last_shown (d_kind d) (d_key d) t = Some o ∧ d_ok d o) ∨ d_excuse d t.

(** At some point of a trace. *)
Definition somewhere (P : list event → Prop) (t : list event) : Prop :=
  ∃ t1 t2 t3, t = t1 ++ t2 ++ t3 ∧ P t2.

(** An object that is only created is left as it is found. *)
Definition present (k : Kind) (n : NamespacedName) : Desired := mkDesired k n (λ _, True) (λ _, False).

(** A failed read that is not reported. *)
Definition unread (k : Kind) (n : NamespacedName) (t : list event) : Prop :=
  ∃ e, IsNotFound e = false ∧ Ev (Get k n) (Err e) ∈ t.
Definition present_or_unread (k : Kind) (n : NamespacedName) : Desired :=
  mkDesired k n (λ _, True) (unread k n).

Definition role (r : ClusterRole) : Desired :=
  mkDesired KClusterRole (keyOf (cr_Meta r)) (λ o, cr_Rules o = cr_Rules r) (λ _, False).
Definition binding (b : ClusterRoleBinding) : Desired :=
  mkDesired KClusterRoleBinding (keyOf (crb_Meta b)) (binding_matches b) (λ _, False).

(** The update of a deployment may fail without a report. *)
Definition deployment `{DeploymentSpecEquality} (d : Deployment) : Desired :=
  mkDesired KDeployment (keyOf (dep_Meta d)) (λ o, SpecDeepEqual (dep_Spec o) (dep_Spec d) = true)
    (λ t, ∃ e, Ev (Update KDeployment d) (Err e) ∈ t).

Section desired.
Context `{Environ} `{Quantities} `{ControllerUtil} `{DeploymentSpecEquality}.
Context (instance : Search).

Let inNamespace (name : string) : NamespacedName := mkNN name (s_Namespace instance).

(** The objects a reconciliation wants, but for the database, the policies and the
    claim, for the TLS variables and the cluster name it found. The service of the
    collector is not among them: a failure to create it ends nothing. *)
Definition desiredObjects (tls : list EnvVar) (clusterName : string) : list Desired :=
  map (λ name, present_or_unread KServiceAccount (inNamespace name))
    [getAPIServiceAccountName; getPostgresServiceAccountName; getIndexerServiceAccountName;
     getCollectorServiceAccountName] ++
  map role [IndexerClusterRole instance; AddonClusterRole instance; GlobalSearchUserClusterRole instance] ++
  map binding [APIClusterRoleBinding instance; CollectorClusterRoleBinding instance;
               IndexerClusterRoleBinding instance] ++
  [present KCollectorConfig (inNamespace mergedCollectorConfigName)] ++
  map (λ name, present KSecret (inNamespace name))
    ["search-postgres"; apiReadonlySecretName; mcpReadonlySecretName] ++
  map (λ name, present KService (inNamespace name)) ["search-postgres"; "search-indexer"; "search-search-api"] ++
  map (λ name, present_or_unread KServiceMonitor (inNamespace name))
    ["search-indexer-monitor"; "search-api-monitor"; "search-collector-monitor"] ++
  map deployment [collectorDeploymentOf clusterName instance tls; IndexerDeployment instance tls;
                  APIDeployment instance tls] ++
  map (λ name, present_or_unread KConfigMap (inNamespace name)) [indexerConfigmapName; caCertConfigmapName].

(** The alert of the volume claim, and what old releases left, to be deleted. *)
Definition alert (r : PrometheusRule) : Desired :=
  mkDesired KPrometheusRule (keyOf (pru_Meta r)) (λ o, pru_Groups o = pru_Groups r) (λ _, False).
Definition legacyObjects : list (Kind * NamespacedName) :=
  [(KClusterRole, inNamespace getRoleName); (KClusterRoleBinding, mkNN getRoleBindingName "");
   (KServiceAccount, inNamespace "search-serviceaccount")].

(** The object was deleted, or was not there. *)
Definition gone (kn : Kind * NamespacedName) (t : list event) : Prop :=
  ∃ b, Ev (Delete kn.1 kn.2) b ∈ t ∧ deleted b.

(** The end of a reconciliation: the alert for the CR as the optional features left it,
    and the deletions. *)
Definition finished (t : list event) : Prop :=
  (∃ s, s_Namespace s = s_Namespace instance ∧ somewhere (settled (alert (SearchPVCPrometheusRule s))) t) ∧
  ∀ kn, kn ∈ legacyObjects → gone kn t.

(** The volume claim, when the CR names a storage class. *)
Definition desiredClaim : list Desired :=
  let storage := ss_StorageClassName (sp_DBStorage (s_Spec instance)) in
  if String.eqb storage "" then [] else [present_or_unread KPVC (inNamespace (getPVCName storage))].
End desired.

(** * What a step ensures *)

(** The server shows objects under the name asked for, and stores the data of the
    ConfigMaps it is sent. *)
Definition faithful (e : event) : Prop := honest e ∧ keeps_data e.

(** A step that reports no result did its work; one that does reports an error. *)
Definition ensures (s : prog stepResult) (P : list event → Prop) : Prop :=
  ∀ t r, exec s t (Done r) → Forall faithful t →
    match r with (None, _) => somewhere P t | (Some _, e) => e ≠ None end.

Lemma somewhere_here (P : list event → Prop) t : P t → somewhere P t.
Proof. intros Hp. exists [], t, []. by rewrite app_nil_r. Qed.

Lemma somewhere_app_r P t1 t2 : somewhere P t2 → somewhere P (t1 ++ t2).
Proof. intros (a & b & c & -> & Hp). exists (t1 ++ a), b, c. by rewrite app_assoc. Qed.

Lemma somewhere_app_l P t1 t2 : somewhere P t1 → somewhere P (t1 ++ t2).
Proof. intros (a & b & c & -> & Hp). exists a, b, (c ++ t2). by rewrite <-!app_assoc. Qed.

Lemma somewhere_mono (P Q : list event → Prop) t : (∀ t, P t → Q t) → somewhere P t → somewhere Q t.
Proof. intros HPQ (a & b & c & -> & Hp). exists a, b, c. auto. Qed.

(** A step after a part that only prepares it. *)
Lemma ensures_bind {A} (p : prog A) (g : A → prog stepResult) P :
  (∀ t a, exec p t (Done a) → ensures (g a) P) → ensures (bind p g) P.
Proof.
  intros Hg t r [(a & t1 & t2 & -> & Ha & Hb)|(w & _ & ?)]%exec_bind Hf; [|done].
  apply Forall_app in Hf as [_ Hf]. specialize (Hg t1 a Ha t2 r Hb Hf).
  destruct r as [[r|] e]; [done|]. by apply somewhere_app_r.
Qed.

Lemma ensures_mono s (P Q : list event → Prop) : (∀ t, P t → Q t) → ensures s P → ensures s Q.
Proof.
  intros HPQ Hs t r He Hf. specialize (Hs t r He Hf). destruct r as [[r|] e]; [done|]. by eapply somewhere_mono.
Qed.

(** The object is on the server after a read or an accepted write of it. *)
Lemma settled_shown d o t st :
  fold_left (track (d_kind d) (d_key d)) t st = Some o → d_ok d o →
  st = None → somewhere (settled d) t.
Proof. intros Ht Ho ->. apply somewhere_here. left. by exists o. Qed.

(** * The steps *)

Section steps.
Context `{SemanticEquality smap} `{SemanticEquality NetworkPolicySpec}.
Context `{SemanticEquality (list OwnerReference)} `{SemanticEquality (list PolicyRule)}.
Context `{SemanticEquality RoleRef} `{SemanticEquality (list Subject)}.
Context `{SemanticEquality (list RuleGroup)} `{DeploymentSpecEquality}.

Lemma ensures_createIfAbsent strict k x :
  ensures (createIfAbsent strict k x)
    (settled ((if strict then present else present_or_unread) k (obj_key k x))).
Proof.
  intros t r He _. unfold createIfAbsent, call in He. cbn [bind] in He.
  apply exec_Op in He as ([found|e] & t1 & -> & He).
  - apply exec_Ret in He as [-> [= ->]]. cbn. apply somewhere_here. left.
    destruct strict; exists found; (split; [apply track_get_ok|done]).
  - destruct (IsNotFound e) eqn:Hn.
    + cbn [bind] in He. apply exec_Op in He as ([o|e'] & t2 & -> & He); apply exec_Ret in He as [-> [= ->]]; [|done].
      apply somewhere_here. left. destruct strict; exists x; (split; [by apply track_created|done]).
    + destruct strict; apply exec_Ret in He as [-> [= ->]]; [done|].
      apply somewhere_here. right. exists e. split; [done|left].
Qed.

Lemma ensures_serviceAccount sa :
  ensures (createSearchServiceAccount sa) (settled (present_or_unread KServiceAccount (keyOf (sa_Meta sa)))).
Proof.
  intros t r He _. unfold createSearchServiceAccount, call in He. cbn [bind] in He.
  apply exec_Op in He as (a & t1 & -> & He).
  assert (Hshown : ∀ (found : ServiceAccount) t2,
    exec (if (1 <? length (sa_ImagePullSecrets found))%nat then
      u <- call (Update KServiceAccount sa) ;;
      match u with Ok _ => Ret stepOk | Err e => Ret (stepErr e) end else Ret stepOk) t2 (Done r) →
    match r with
    | (Some _, e) => e ≠ None
    | (None, _) => ∀ o, ∃ o', fold_left (track KServiceAccount (keyOf (sa_Meta sa))) t2 (Some o) = Some o'
    end).
  { intros found t2 Hu. case_match.
    - unfold call in Hu. cbn [bind] in Hu.
      apply exec_Op in Hu as ([o|e] & t3 & -> & Hu); apply exec_Ret in Hu as [-> [= ->]]; [|done].
      cbn [stepOk]. intros o'. exists sa. cbn [fold_left]. by apply track_updated.
    - apply exec_Ret in Hu as [-> [= ->]]. cbn [stepOk]. by intros o; exists o. }
  destruct a as [found|e].
  - apply Hshown in He. destruct r as [[r|] err]; [done|]. destruct (He found) as (o' & Ho').
    apply somewhere_here. left. exists o'. split; [|done]. unfold last_shown.
    cbn [fold_left]. cbn [d_kind d_key present_or_unread]. by rewrite track_get_ok.
  - destruct (IsNotFound e) eqn:Hn.
    + apply exec_Op in He as ([o|e'] & t2 & -> & He); [|by apply exec_Ret in He as [-> [= ->]]].
      apply Hshown in He. destruct r as [[r|] err]; [done|]. destruct (He sa) as (o' & Ho').
      apply somewhere_here. left. exists o'. split; [|done]. unfold last_shown. cbn [fold_left d_kind d_key present_or_unread].
      by rewrite track_created.
    + apply Hshown in He. destruct r as [[r|] err]; [done|].
      apply somewhere_here. right. exists e. split; [done|left].
Qed.

Lemma ensures_roles cr : ensures (createUpdateRoles cr) (settled (role cr)).
Proof.
  intros t r He Hf. unfold createUpdateRoles, call in He. cbn [bind] in He.
  apply exec_Op in He as ([found|e] & t1 & -> & He); apply Forall_cons in Hf as [[Hh _] _]; cbn in Hh.
  - destruct (DeepEqual (cr_Rules found) (cr_Rules cr)) eqn:Hq; cbn [negb] in He.
    + apply exec_Ret in He as [-> [= ->]]. apply somewhere_here. left. exists found.
      split; [apply track_get_ok|]. by apply (proj1 (DeepEqual_spec _ _)) in Hq.
    + apply exec_Op in He as ([o|e] & t2 & -> & He); apply exec_Ret in He as [-> [= ->]]; [|done].
      apply somewhere_here. left. eexists. split; [by apply track_updated|done].
  - destruct (IsNotFound e); [|by apply exec_Ret in He as [-> [= ->]]].
    apply exec_Op in He as ([o|e'] & t2 & -> & He); apply exec_Ret in He as [-> [= ->]]; [|done].
    apply somewhere_here. left. exists cr. split; [by apply track_created|done].
Qed.

Lemma ensures_rule r : ensures (createOrUpdatePrometheusRule r) (settled (alert r)).
Proof.
  intros t res He Hf. unfold createOrUpdatePrometheusRule, call in He. cbn [bind] in He.
  apply exec_Op in He as ([found|e] & t1 & -> & He); apply Forall_cons in Hf as [[Hh _] _]; cbn in Hh.
  - destruct (DeepEqual (pru_Groups found) (pru_Groups r)) eqn:Hq; cbn [negb] in He.
    + apply exec_Ret in He as [-> [= ->]]. apply somewhere_here. left. exists found.
      split; [apply track_get_ok|]. by apply (proj1 (DeepEqual_spec _ _)) in Hq.
    + apply exec_Op in He as ([o|e] & t2 & -> & He); apply exec_Ret in He as [-> [= ->]]; [|done].
      apply somewhere_here. left. eexists. split; [by apply track_updated|done].
  - destruct (IsNotFound e); [|by apply exec_Ret in He as [-> [= ->]]].
    apply exec_Op in He as ([o|e'] & t2 & -> & He); apply exec_Ret in He as [-> [= ->]]; [|done].
    apply somewhere_here. left. exists r. split; [by apply track_created|done].
Qed.

Lemma ensures_binding rb : ensures (createRoleBinding rb) (settled (binding rb)).
Proof.
  intros t r He Hf. assert (Hr : r = stepOk ∨ ∃ e, r = stepErr e).
  { revert He. unfold createRoleBinding. clear. intros He. exec_steps; simplify_eq; eauto. }
  destruct Hr as [->|(e & ->)]; [|done]. apply somewhere_here. left.
  apply exec_createRoleBinding; [done|]. eapply Forall_impl; [exact Hf|]. by intros ? [? _].
Qed.

Lemma ensures_deployment d : ensures (createOrUpdateDeployment d) (settled (deployment d)).
Proof.
  intros t [[r|] e] He _.
  - revert He. unfold createOrUpdateDeployment. clear. intros He. exec_steps; unfold stepOk, stepErr in *; by simplify_eq.
  - apply exec_createOrUpdateDeployment in He as [_ Hs]. apply somewhere_here. exact Hs.
Qed.

Lemma ensures_policies `{ControllerUtilLaws} `{NestedFields} dynamicClientSet instance :
  ensures (reconcileNetworkPolicies dynamicClientSet instance) (policies_enforced instance).
Proof.
  intros t r He Hf.
  assert (Hr : r = stepOk ∨ ∃ e, r = stepErr e).
  { revert He. unfold reconcileNetworkPolicies. clear.
    intros [(nps & t1 & t2 & _ & _ & He)|(w & _ & ?)]%exec_bind; [|done].
    revert t2 He. induction nps as [|np nps IH]; intros t2 He; cbn [map runSteps] in He.
    - apply exec_Ret in He as [_ [= ->]]. by left.
    - apply exec_bind in He as [(r' & t3 & t4 & _ & Ha & He)|(w & _ & ?)]; [|done].
      destruct r' as [[r'|] e]; [|by eapply IH]. apply exec_Ret in He as [_ [= ->]].
      revert Ha. unfold createOrUpdateNetworkPolicy. clear. intros Ha. exec_steps; simplify_eq; eauto. }
  destruct Hr as [->|(e & ->)]; [|done]. apply somewhere_here.
  apply exec_reconcileNetworkPolicies with (dynamicClientSet := dynamicClientSet); [done|].
  eapply Forall_impl; [exact Hf|]. by intros ? [? _].
Qed.

(** The ConfigMap step reports a result with an error only. *)
Lemma configMap_reports cm t r e cm' :
  exec (createOrUpdateConfigMap cm) t (Done ((Some r, e), cm')) → e ≠ None.
Proof.
  assert (Hup : ∀ found t, exec (updateConfigMap found cm) t (Done ((Some r, e), cm')) → e ≠ None).
  { intros found t'. unfold updateConfigMap.
    intros [(data & t1 & t2 & _ & _ & He)|(w & _ & ?)]%exec_bind; [|done]. cbv zeta in He.
    destruct (_ || _); exec_steps; unfold stepOk, stepErr in *; by simplify_eq. }
  unfold createOrUpdateConfigMap, call. cbn [bind]. intros ([found|err] & t1 & _ & He)%exec_Op; [by eapply Hup|].
  destruct (IsNotFound err); [|by eapply Hup].
  exec_steps; unfold stepOk, stepErr in *; by simplify_eq.
Qed.

Lemma ensures_database `{Environ} `{Quantities} `{ControllerUtilLaws} `{TLSLibrary} sha256 instance :
  ensures (reconcileDatabase sha256 instance) (rolled_out sha256 instance).
Proof.
  intros t [[r|] e] He Hf.
  - revert He. unfold reconcileDatabase. clear. intros He.
    apply exec_bind in He as [(tls & t1 & t2 & _ & _ & He)|(w & _ & ?)]; [|done].
    apply exec_bind in He as [(cm & t3 & t4 & _ & _ & He)|(w & _ & ?)]; [|done].
    apply exec_bind in He as [([[[r'|] ec] cm'] & t5 & t6 & _ & Hup & He)|(w & _ & ?)]; [| |done].
    + apply exec_Ret in He as [_ [= -> ->]]. by eapply configMap_reports.
    + apply exec_bind in He as [(d & t7 & t8 & _ & _ & He)|(w & _ & ?)]; [|done].
      revert He. unfold createOrUpdateDeployment. clear. intros He.
      exec_steps; unfold stepOk, stepErr in *; by simplify_eq.
  - apply somewhere_here. eapply exec_reconcileDatabase; [exact He|].
    eapply Forall_impl; [exact Hf|]. by intros ? [_ ?].
Qed.

(** The database secrets are made before they are looked up. *)
Lemma ensures_secret `{Environ} `{ControllerUtilLaws} name user instance :
  ensures (secret <- dbSecret name user instance ;; createSecret secret)
    (settled (present KSecret (mkNN name (s_Namespace instance)))).
Proof.
  apply ensures_bind. intros t s. unfold dbSecret.
  intros [(pw & t1 & t2 & -> & _ & [_ [= ->]]%exec_Ret)|(w & _ & ?)]%exec_bind; [|done].
  eapply ensures_mono; [|apply (ensures_createIfAbsent true)]. intros t Hs.
  unfold obj_key in Hs. cbn [obj_meta sec_Meta] in Hs. by rewrite withOwner_Name, withOwner_namespace in Hs.
Qed.

Lemma ensures_merged `{ControllerUtilLaws} `{StatusConditions} `{SemanticEquality CollectorConfigSpec} instance :
  ensures (createOrUpdateMergedCollectorConfig instance)
    (settled (present KCollectorConfig (mkNN mergedCollectorConfigName (s_Namespace instance)))).
Proof.
  unfold createOrUpdateMergedCollectorConfig. cbv zeta.
  assert (Hpure : ∀ e P, ensures (Ret (stepErr e)) P) by (intros e P t r [_ [= ->]]%exec_Ret _; done).
  apply ensures_bind. intros _ [items|e] _; [|apply Hpure].
  apply ensures_bind. intros _ [[rules configs]|e] _; [|apply Hpure].
  apply ensures_bind. intros _ [spec|e] _; [|apply Hpure].
  intros t r He Hf. unfold writeMerged, call in He. cbn [bind] in He.
  apply exec_Op in He as ([found|e] & t1 & -> & He); apply Forall_cons in Hf as [[Hh _] _]; cbn in Hh.
  - destruct (DeepEqual _ _).
    + apply exec_Ret in He as [-> [= ->]]. apply somewhere_here. left. exists found.
      split; [apply track_get_ok|done].
    + apply exec_Op in He as ([o|e] & t2 & -> & He); apply exec_Ret in He as [-> [= ->]]; [|done].
      apply somewhere_here. left. eexists. split; [by apply track_updated|done].
  - destruct (IsNotFound e); [|by apply exec_Ret in He as [-> [= ->]]].
    destruct (SetControllerReference _ _) as [m|errRef] eqn:Hm; [|by apply exec_Ret in He as [-> [= ->]]].
    apply exec_Op in He as ([o|e'] & t2 & -> & He); apply exec_Ret in He as [-> [= ->]]; [|done].
    apply somewhere_here. left. eexists. split; [apply track_created|done].
    apply SetControllerReference_ok in Hm as [-> _]. done.
Qed.
End steps.

(** * Sequences of steps *)

Abbreviation reconciliation := (prog (ReconcileResult * option error * Process)).

(** What an execution that ends without a requeue and without an error achieved. *)
Definition achieves (q : reconciliation) (R : list event → Prop) : Prop :=
  ∀ t p', exec q t (Done (emptyResult, None, p')) → Forall faithful t → R t.

(** What happened later happened. *)
Definition stable (R : list event → Prop) : Prop := ∀ t1 t2, R t2 → R (t1 ++ t2).

Lemma stable_somewhere P : stable (somewhere P).
Proof. intros t1 t2. apply somewhere_app_r. Qed.
Lemma stable_and R R' : stable R → stable R' → stable (λ t, R t ∧ R' t).
Proof. intros HR HR' t1 t2 [? ?]. split; auto. Qed.
Lemma stable_ex {A} (R : A → list event → Prop) : (∀ a, stable (R a)) → stable (λ t, ∃ a, R a t).
Proof. intros HR t1 t2 [a ?]. exists a. by apply HR. Qed.
Lemma stable_True : stable (λ _, True).
Proof. done. Qed.

Create HintDb stable.
#[export] Hint Resolve stable_somewhere stable_and stable_ex stable_True : stable.

Lemma achieves_True q : achieves q (λ _, True).
Proof. done. Qed.

Lemma achieves_orElse p s rest P R :
  ensures s P → achieves rest R → stable R → achieves (orElse p s rest) (λ t, somewhere P t ∧ R t).
Proof.
  intros Hs Hr HR t p'. unfold orElse.
  intros [([[r|] e] & t1 & t2 & -> & He & Hrest)|(w & _ & ?)]%exec_bind Hf; [| |done];
    apply Forall_app in Hf as [Hf1 Hf2]; specialize (Hs t1 _ He Hf1).
  - apply exec_Ret in Hrest as [_ [= <- <- <-]]. done.
  - split; [by apply somewhere_app_l|]. apply HR. by eapply Hr.
Qed.

Lemma achieves_bind {A} (q : prog A) g R :
  (∀ a, achieves (g a) (R a)) → (∀ a, stable (R a)) → achieves (bind q g) (λ t, ∃ a, R a t).
Proof.
  intros Hg HR t p' [(a & t1 & t2 & -> & _ & Hb)|(w & _ & ?)]%exec_bind Hf; [|done].
  apply Forall_app in Hf as [_ Hf]. exists a. apply HR. by eapply Hg.
Qed.

(** A part whose answer does not matter to what follows. *)
Lemma achieves_skip {A} (q : prog A) g R :
  (∀ a, achieves (g a) R) → stable R → achieves (bind q g) R.
Proof.
  intros Hg HR t p' [(a & t1 & t2 & -> & _ & Hb)|(w & _ & ?)]%exec_bind Hf; [|done].
  apply Forall_app in Hf as [_ Hf]. apply HR. by eapply Hg.
Qed.

Lemma achieves_account p sa rest P R :
  (∀ a, sa = Ok a → ensures (createSearchServiceAccount a) P) → achieves rest R → stable R →
  achieves (withAccount p sa rest) (λ t, somewhere P t ∧ R t).
Proof.
  intros Hs Hr HR. unfold withAccount. destruct sa as [a|e].
  - apply achieves_orElse; auto.
  - by intros t p' [_ ?]%exec_Ret.
Qed.

Lemma achieves_mono q (R R' : list event → Prop) : achieves q R → (∀ t, R t → R' t) → achieves q R'.
Proof. intros Hq HR t p' He Hf. apply HR. by eapply Hq. Qed.

Lemma ensures_eq s d d' : ensures s (settled d) → d = d' → ensures s (settled d').
Proof. by intros Hs <-. Qed.

(** * Theorem *)

Section establishes.
Context `{Environ} `{Quantities} `{ControllerUtilLaws} `{NestedFields} `{TLSLibrary} `{StatusConditions}.
Context `{SemanticEquality CollectorConfigSpec} `{SemanticEquality smap} `{SemanticEquality NetworkPolicySpec}.
Context `{SemanticEquality (list OwnerReference)} `{SemanticEquality (list PolicyRule)}.
Context `{SemanticEquality RoleRef} `{SemanticEquality (list Subject)}.
Context `{SemanticEquality (list RuleGroup)} `{DeploymentSpecEquality}.
Context (sha256 : string → list Byte.byte).

(** Everything the reconciliation of an active CR is to bring about before the
    optional features. *)
Definition established (instance : Search) (t : list event) : Prop :=
  (∃ tls clusterName, ∀ d, d ∈ desiredObjects instance tls clusterName → somewhere (settled d) t) ∧
  somewhere (rolled_out sha256 instance) t ∧
  somewhere (policies_enforced instance) t.

(** The name of an object a builder gives an owner. *)
Local Ltac named := unfold obj_key, keyOf; cbn; by rewrite ?withOwner_Name, ?withOwner_namespace.

(** One more step; that what follows is stable is left for the end. *)
Local Tactic Notation "step" tactic3(tac) := eapply achieves_orElse; [tac| |shelve].

Lemma ensures_collector instance tls :
  ensures (d <- CollectorDeployment instance tls ;; createOrUpdateDeployment d)
    (λ t, ∃ c, settled (deployment (collectorDeploymentOf c instance tls)) t).
Proof.
  apply ensures_bind. intros t d. unfold CollectorDeployment.
  intros [(c & t1 & t2 & -> & _ & [_ [= ->]]%exec_Ret)|(w & _ & ?)]%exec_bind; [|done].
  eapply ensures_mono; [|apply ensures_deployment]. intros t Hs. by exists c.
Qed.

Lemma ensures_ownedAccount name instance sa :
  ownedServiceAccount name instance = Ok sa →
  ensures (createSearchServiceAccount sa)
    (settled (present_or_unread KServiceAccount (mkNN name (s_Namespace instance)))).
Proof.
  unfold ownedServiceAccount. destruct (SetControllerReference _ _) as [m|] eqn:Hm; [|done]. intros [= <-].
  eapply ensures_eq; [apply ensures_serviceAccount|]. apply SetControllerReference_ok in Hm as [-> _]. done.
Qed.

Lemma resources_established p instance rest R :
  achieves rest R → stable R → achieves (reconcileResources sha256 p instance rest) (λ t, established instance t ∧ R t).
Proof.
  intros Hrest HR.
  eapply achieves_mono.
  { unfold reconcileResources, reconcileComponents.
    step (eapply ensures_eq; [apply ensures_serviceAccount|named]).
    do 2 (eapply achieves_account; [intros sa; apply ensures_ownedAccount| |shelve]).
    step (eapply ensures_eq; [apply ensures_serviceAccount|named]).
    do 3 step ltac:(apply ensures_roles).
    do 3 step ltac:(apply ensures_binding).
    eapply achieves_skip; [intros _|shelve].
    step ltac:(apply ensures_merged).
    do 3 step ltac:(apply ensures_secret).
    step ltac:(eapply ensures_eq; [apply (ensures_createIfAbsent true)|named]).
    step ltac:(apply ensures_database).
    do 2 step ltac:(eapply ensures_eq; [apply (ensures_createIfAbsent true)|named]).
    eapply achieves_skip; [intros _|shelve].
    do 3 step ltac:(eapply ensures_eq; [apply (ensures_createIfAbsent false)|named]).
    eapply achieves_bind; [intros tls|shelve].
    step ltac:(apply ensures_collector).
    do 2 step ltac:(apply ensures_deployment).
    step ltac:(apply ensures_policies).
    do 2 step ltac:(eapply ensures_eq; [apply (ensures_createIfAbsent false)|named]).
    exact Hrest.
    Unshelve. all: intros; cbv beta; auto 50 with stable. }
  cbv beta. cbn [om_Name om_Namespace set_Labels set_Annotations newMeta]. intros t Hall. split_hyps.
  split; [|assumption].
  match goal with Hc : somewhere (λ t, ∃ c, settled (deployment (collectorDeploymentOf c instance ?tls)) t) _ |- _ =>
    destruct Hc as (t1 & t2 & t3 & -> & c & Hc); set (t := t1 ++ t2 ++ t3) in *;
    assert (somewhere (settled (deployment (collectorDeploymentOf c instance tls))) t) by (by exists t1, t2, t3);
    split; [exists tls, c|split; assumption]
  end.
  intros d. unfold desiredObjects. cbn [map app]. rewrite !elem_of_cons, elem_of_nil. intros Hd.
  repeat (destruct Hd as [->|Hd]; [assumption|]). destruct Hd.
Qed.

Lemma stable_established instance : stable (established instance).
Proof.
  intros t1 t2 ((tls & c & Hd) & Hdb & Hp). split; [|split; by apply somewhere_app_r].
  exists tls, c. intros d Hin. by apply somewhere_app_r, Hd.
Qed.

(** The claim of the CR is there, was just created, or could not be read. *)
Lemma claim_settled instance t b :
  exec (present <- isPVCPresent instance ;; if negb present then configurePVC instance else Ret true) t (Done b) →
  Forall faithful t → b = true →
  somewhere (settled (present_or_unread KPVC
    (mkNN (getPVCName (ss_StorageClassName (sp_DBStorage (s_Spec instance)))) (s_Namespace instance)))) t.
Proof.
  intros He Hf ->. unfold isPVCPresent, configurePVC, createPVC, call in He. cbv zeta in He. cbn [bind] in He.
  apply exec_Op in He as ([o|e] & t1 & -> & He).
  - cbn [bind negb] in He. apply exec_Ret in He as [-> _]. apply somewhere_here. left. exists o.
    split; [apply track_get_ok|done].
  - destruct (IsNotFound e) eqn:Hn; cbn [bind negb] in He.
    + apply exec_Op in He as ([o|e'] & t2 & -> & He).
      * cbn [bind] in He. apply exec_Ret in He as [-> _]. apply (somewhere_app_r _ [_]), somewhere_here. left.
        exists o. split; [apply track_get_ok|done].
      * destruct (IsNotFound e'); cbn [bind] in He; [|by apply exec_Ret in He as [_ ?]].
        apply exec_Op in He as ([o|e''] & t3 & -> & He); cbn [bind] in He; apply exec_Ret in He as [-> He]; [|done].
        apply (somewhere_app_r _ [_; _]), somewhere_here. left. eexists. split; [by apply track_created|done].
    + apply exec_Ret in He as [-> _]. apply somewhere_here. right. exists e. split; [done|left].
Qed.

(** ** The end of a reconciliation *)

Lemma stable_gone kn : stable (gone kn).
Proof. intros t1 t2 (b & Hb & Hd). exists b. split; [|done]. apply elem_of_app. by right. Qed.

Lemma stable_finished instance : stable (finished instance).
Proof.
  intros t1 t2 [(s & Hs & Ha) Hl]. split; [exists s; split; [done|by apply somewhere_app_r]|].
  intros kn Hkn. by apply stable_gone, Hl.
Qed.

Lemma achieves_deleting p k n rest R :
  achieves rest R → stable R → achieves (deleting p (deleteObject k n) rest) (λ t, gone (k, n) t ∧ R t).
Proof.
  intros Hr HR t p' [(o & t1 & t2 & -> & Hd & He)|(w & _ & ?)]%exec_bind Hf; [|done].
  apply Forall_app in Hf as [_ Hf]. destruct o as [e|]; [by apply exec_Ret in He as [_ ?]|].
  split; [|apply HR; by eapply Hr]. apply exec_deleteObject in Hd as (b & -> & Hb). exists b. split; [left|done].
Qed.

Lemma legacy_finished p s instance :
  s_Namespace s = s_Namespace instance → achieves (reconcileLegacy p s) (finished instance).
Proof.
  intros Hs. unfold reconcileLegacy, deleteLegacyRBAC, deleteClusterRole, deleteClusterRoleBinding. eapply achieves_mono.
  { eapply achieves_orElse; [apply ensures_rule| |shelve]. eapply achieves_skip; [intros p2|shelve].
    do 3 (eapply achieves_deleting; [|shelve]). apply achieves_True.
    Unshelve. all: auto 50 using stable_gone with stable. }
  cbv beta. intros t Hall. split_hyps. split; [exists s; by split|].
  intros kn. unfold legacyObjects. rewrite <-Hs, !elem_of_cons, elem_of_nil. by intros [->|[->|[->|[]]]].
Qed.

(** A feature leaves the namespace of the CR, and only a success goes on. *)
Lemma achieves_feature p step rest (I : Search → Prop) R :
  post honest step (λ r, I r.2) → (∀ s, I s → achieves (rest s) R) → stable R → achieves (feature p step rest) R.
Proof.
  intros Hp Hr HR t p' [([[r e] s] & t1 & t2 & -> & Hs & He)|(w & _ & ?)]%exec_bind Hf; [|done].
  apply Forall_app in Hf as [Hf1 Hf2].
  assert (Hi : I s). { apply (Hp _ _ Hs). eapply Forall_impl; [exact Hf1|]. by intros ? [? _]. }
  destruct r as [r|], e as [e|]; try (by apply exec_Ret in He as [_ ?]); try (by apply exec_Panic in He as [_ ?]);
    apply HR; by eapply (Hr s).
Qed.

Lemma features_finished p instance :
  achieves (reconcileFeatures p instance (reconcileLegacy p)) (finished instance).
Proof.
  pose (I s := s_Namespace s = s_Namespace instance).
  assert (Hid : ∀ s s', I s → s_Namespace s' = s_Namespace s → om_UID (s_Meta s') = om_UID (s_Meta s) → I s').
  { unfold I. congruence. }
  assert (Hup : ∀ o o', I o → honest (Ev (Update KSearch o) (Ok o')) → I o').
  { unfold I. intros o o' Ho Hh. cbn in Hh. injection Hh as _ Hh. unfold s_Namespace in *. congruence. }
  assert (Hst : ∀ o o', I o → honest (Ev (StatusUpdate KSearch o) (Ok o')) → I o').
  { unfold I. intros o o' Ho Hh. cbn in Hh. injection Hh as _ Hh. unfold s_Namespace in *. congruence. }
  assert (HI : I instance) by done. unfold reconcileFeatures.
  eapply (achieves_feature _ _ _ I); [by eapply keeps_globalSearch|intros s1 Hs1|apply stable_finished].
  eapply (achieves_feature _ _ _ I); [by eapply keeps_hubName|intros s2 Hs2|apply stable_finished].
  eapply (achieves_feature _ _ _ I); [by eapply keeps_fineGrained|intros s3 Hs3|apply stable_finished].
  eapply (achieves_feature _ _ _ I); [by eapply keeps_virtualMachines|intros s4 Hs4|apply stable_finished].
  by apply legacy_finished.
Qed.

Lemma active_established p instance :
  achieves (reconcileActive sha256 p instance)
    (λ t, established instance t ∧ finished instance t ∧ ∀ d, d ∈ desiredClaim instance → somewhere (settled d) t).
Proof.
  intros t p'. unfold reconcileActive. cbv zeta.
  intros [(b & t1 & t2 & -> & Hc & He)|(w & _ & ?)]%exec_bind Hf; [|done].
  apply Forall_app in Hf as [Hf1 Hf2]. destruct b; cbn [negb] in He; [|by apply exec_Ret in He as [_ ?]].
  destruct (resources_established p instance _ _ (features_finished p instance) (stable_finished instance) t2 p' He Hf2)
    as [Hest Hfin].
  split; [by apply stable_established|]. split; [by apply stable_finished|].
  intros d. unfold desiredClaim. destruct (String.eqb _ ""); cbn [negb] in Hc; [by intros ?%elem_of_nil|].
  intros ->%list_elem_of_singleton. apply somewhere_app_l. by eapply claim_settled.
Qed.

(** C7: what a successful reconciliation has achieved. When a reconciliation of the
    CR ends without an error and without asking for another, and the CR it read is
    active, then for the CR as the finalizer step left it each object of the
    operator was on the server as desired at some point: the accounts, roles,
    bindings, the merged configuration, secrets, services, monitors, deployments,
    policies, ConfigMaps and the volume claim, and the database with the hash of
    its configuration; so was the alert for the claim, for the CR as the optional
    features left it, and what old releases had made was gone. The exceptions are the failures the code only logs, which
    are listed: a read that failed, a refused update of a deployment; and the
    service of the collector. *)
Theorem reconciliation_establishes req p t p' :
  exec (Reconcile sha256 req p) t (Done (emptyResult, None, p')) → Forall faithful t →
  HasPrefix (nn_Name req) "Pod/" = false →
  ∃ a t', t = Ev (Get KSearch (mkNN OperatorName (nn_Namespace req))) a :: t' ∧
  match a with
  | Err e => IsNotFound e = true ∧ t' = []
  | Ok s =>
      om_DeletionTimestamp (s_Meta s) = None →
      ∃ s1, (s1 = s ∨ ∃ s0, Ev (Update KSearch s0) (Ok s1) ∈ t') ∧
        (IsPaused (s_Annotations s1) = false →
         established s1 t' ∧ finished s1 t' ∧ ∀ d, d ∈ desiredClaim s1 → somewhere (settled d) t')
  end.
Proof.
  unfold Reconcile, call. cbn [bind]. intros (a & t' & -> & He)%exec_Op Hf Hreq.
  apply Forall_cons in Hf as [_ Hf]. exists a, t'. split; [done|].
  destruct a as [s|e].
  2: { apply exec_Ret in He as [-> He]. split; [|done]. injection He as He _. revert He. by destruct (IsNotFound e). }
  intros Hd. rewrite Hreq in He.
  apply exec_bind in He as [([[d err] s1] & t1 & t2 & -> & Hfin & He)|(w & _ & ?)]; [|done].
  apply Forall_app in Hf as [_ Hf].
  destruct err as [e|]; [by apply exec_Ret in He as [_ ?]|].
  exists s1. unfold setFinalizer, call in Hfin. rewrite Hd in Hfin.
  assert (Hs : d = false ∧ (s1 = s ∨ ∃ s0, Ev (Update KSearch s0) (Ok s1) ∈ t1)).
  { destruct (negb _); [|by apply exec_Ret in Hfin as [_ [= -> ->]]; auto]. cbn [bind] in Hfin.
    apply exec_Op in Hfin as ([o|e] & t3 & -> & Hfin); apply exec_Ret in Hfin as [-> Hfin]; [|done].
    injection Hfin as -> ->. split; [done|]. right. eexists. left. }
  destruct Hs as [-> Hs]. split.
  - destruct Hs as [->|(s0 & Hs)]; [by left|]. right. exists s0. apply elem_of_app. by left.
  - intros Hp. rewrite Hp in He. destruct (active_established _ _ _ _ He Hf) as (Hest & Hend & Hcl).
    split; [by apply stable_established|]. split; [by apply stable_finished|]. intros x Hx. by apply somewhere_app_r, Hcl.
Qed.
End establishes.

(** * The theorem at a concrete input *)

#[local] Existing Instance ref_NestedString.
#[local] Existing Instance sampleTLSLibrary.
#[local] Existing Instance sampleEnviron.
#[local] Existing Instance sampleQuantities.

Definition freshTrace : list event := run_trace (Reconcile sampleHash searchRequest newProcess) freshCluster.
Lemma reconciliation_establishes_witness :
  ∃ a t', freshTrace = Ev (Get KSearch (mkNN OperatorName "ocm")) a :: t' ∧
    ∀ s, a = Ok s → om_DeletionTimestamp (s_Meta s) = None →
    ∃ s1, (s1 = s ∨ ∃ s0, Ev (Update KSearch s0) (Ok s1) ∈ t') ∧
      (IsPaused (s_Annotations s1) = false → established sampleHash s1 t' ∧ finished s1 t').
Proof.
  destruct (reconciliation_establishes sampleHash searchRequest newProcess freshTrace (mkProcess true true "quay.io/stolostron/search-collector:1"))
    as (a & t' & Ht & Hs).
  - apply run_exec_eq. vm_compute. reflexivity.
  - apply Forall_and. split; [apply honestb_sound|apply keeps_datab_sound]; vm_compute; reflexivity.
  - reflexivity.
  - exists a, t'. split; [exact Ht|]. intros s -> Hd. destruct (Hs Hd) as (s1 & Hs1 & He).
    exists s1. split; [exact Hs1|]. intros Hp. destruct (He Hp) as (Hest & Hfin & _). split; [exact Hest|exact Hfin].
Defined.

(** The service of the collector is an exception because a failure to create it is only
    logged: the reconciliation ends without an error, so that nobody tries again, and
    the service is not there although everything after it is. *)
Definition collectorServiceRefused : MemServer := faulty (replicate 93 None ++ [Some serverDown]) freshCluster.
Lemma collector_service_not_retried :
  let p := Reconcile sampleHash searchRequest newProcess in
  let services := ms_store (run_state p collectorServiceRefused) KService in
  run_outcome p collectorServiceRefused = Done (emptyResult, None, mkProcess true true "quay.io/stolostron/search-collector:1") ∧
  services !! mkNN "search-collector" "ocm" = None ∧ bool_decide (is_Some (services !! mkNN "search-indexer" "ocm")) = true ∧
  bool_decide (is_Some (ms_store (run_state p collectorServiceRefused) KDeployment !! mkNN "search-collector" "ocm")) = true.
Proof. vm_compute. repeat split. Qed.
