(* ===== verification/Quiescence.v ===== *)
(** A cluster that is as desired is left alone. The converse of [Established]: when
    the server shows every object the way the operator wants it, a reconciliation
    changes none of them. Deployments are the exception the source makes: it compares
    the spec on the server, to which the server adds defaults, with the desired one,
    and sends the desired one again if they differ. *)
From Stdlib Require Import Ascii String.
From S2P Require Import Prelude GoStrings K8s V1alpha1 Effects Interfaces Selectors MemServer Fixtures ImageValidation Common CollectorMerge PostgresConfig Deployments Objects Networks TLS SearchCR Features Status Addon Resources Seeder Reconciler Rollout Established.

Local Open Scope search_scope.

(** * A cluster that does not change *)

(** The lookups, but for those of CollectorConfigs, which the teams, the user and
    the merge itself may edit at any time. *)
Definition is_lookup {R} (q : Api R) : bool :=
  match q with
  | Get k _ | List k _ => match k with KCollectorConfig => false | _ => true end
  | DynGet _ _ | DynList _ => true
  | _ => false
  end.

Section view.
Context `{DeploymentSpecEquality}.
(** What the server shows: an answer to every lookup; the desired Deployments. *)
Context (v : ∀ R, Api R → R) (wanted : Deployment → Prop).

Definition consistent (e : event) : Prop := let 'Ev q a := e in is_lookup q = true → a = v _ q.

(** A result of a program on this cluster. *)
Definition answers {A} (p : prog A) (a : A) : Prop := ∃ t, exec p t (Done a) ∧ Forall consistent t.

(** The request changes nothing, or one of the CollectorConfigs, whose status the
    merge reports every time, or sends a desired Deployment to which the one on the
    server is not equal. Deleting what is not there changes nothing. *)
Definition quiet_event (e : event) : Prop :=
  let 'Ev q _ := e in
  match q with
  | Delete k n => k ≠ KCollectorConfig ∧ ∃ err, v _ (Get k n) = Err err
  | Update KDeployment d => wanted d ∧
      ∃ o, v _ (Get KDeployment (keyOf (dep_Meta d))) = Ok o ∧ SpecDeepEqual (dep_Spec o) (dep_Spec d) = false
  | Create k _ | Update k _ | Patch k _ | StatusUpdate k _ => k = KCollectorConfig
  | DynCreate _ _ _ | DynUpdate _ _ _ | DynDelete _ _ => False
  | _ => True
  end.

Definition quiet {A} (p : prog A) : Prop :=
  ∀ t o, exec p t o → Forall consistent t → Forall quiet_event t.

(** ** Sequencing *)

Lemma quiet_Ret {A} (a : A) : quiet (Ret a).
Proof. intros t o [-> _]%exec_Ret _. by apply Forall_nil. Qed.
Lemma quiet_Panic {A} w : quiet (@Panic A w).
Proof. intros t o [-> _]%exec_Panic _. by apply Forall_nil. Qed.

Lemma quiet_bind {A B} (p : prog A) (g : A → prog B) :
  quiet p → (∀ a, answers p a → quiet (g a)) → quiet (bind p g).
Proof.
  intros Hp Hg t o [(a & t1 & t2 & -> & Ha & Hb)|(w & Hw & ->)]%exec_bind Ht; [|by eapply Hp].
  apply Forall_app in Ht as [Ht1 Ht2]. apply Forall_app. split; [by eapply Hp|].
  eapply Hg; [by exists t1|done..].
Qed.

Lemma quiet_call {R} (q : Api R) : (∀ a, quiet_event (Ev q a)) → quiet (call q).
Proof. intros Hq t o (a & t' & -> & [-> _]%exec_Ret)%exec_Op _. by apply Forall_singleton. Qed.

(** A lookup answers what the server shows. *)
Lemma quiet_lookup {R B} (q : Api R) (g : R → prog B) :
  is_lookup q = true → quiet (g (v _ q)) → quiet (bind (call q) g).
Proof.
  intros Hq Hg t o He Ht. unfold call in He. cbn [bind] in He.
  apply exec_Op in He as (a & t' & -> & He). apply Forall_cons in Ht as [Ha Ht].
  specialize (Ha Hq). subst a. apply Forall_cons. split; [by destruct q|]. by eapply Hg.
Qed.

(** A program all of whose requests are quiet, whatever is answered. *)
Lemma quiet_issues {A} (p : prog A) :
  issues (λ R q, ∀ a, quiet_event (Ev q a)) p → quiet p.
Proof.
  intros Hi t o He _. eapply Forall_impl; [by eapply Hi|]. intros [R q a] Hq. apply Hq.
Qed.

Lemma quiet_foldM {S A} (body : S → A → prog S) s l :
  (∀ s x, x ∈ l → quiet (body s x)) → quiet (foldM body s l).
Proof.
  revert s. induction l as [|x l IH]; intros s Hb; cbn [foldM]; [apply quiet_Ret|].
  apply quiet_bind; [apply Hb; left|]. intros s' _. apply IH. intros s2 y Hy. apply Hb. by right.
Qed.
End view.

(** * Steps on objects that are as desired *)

Section steps.
Context (v : ∀ R, Api R → R) (wanted : Deployment → Prop).
Context `{SemanticEquality smap} `{SemanticEquality NetworkPolicySpec}.
Context `{SemanticEquality (list OwnerReference)} `{SemanticEquality (list PolicyRule)}.
Context `{SemanticEquality RoleRef} `{SemanticEquality (list Subject)}.
Context `{SemanticEquality (list RuleGroup)} `{DeploymentSpecEquality}.

Definition policy (np : NetworkPolicy) : Desired :=
  mkDesired KNetworkPolicy (keyOf (np_Meta np)) (policy_matches np) (λ _, False).

(** The server shows the object, and, unless it is a Deployment, it is as desired. *)
Definition there (d : Desired) : Prop :=
  ∃ o, v _ (Get (d_kind d) (d_key d)) = Ok o ∧ (d_kind d ≠ KDeployment → d_ok d o).

Lemma there_ok d : d_kind d ≠ KDeployment → there d → ∃ o, v _ (Get (d_kind d) (d_key d)) = Ok o ∧ d_ok d o.
Proof. intros Hk (o & Ho & Hd). exists o. auto. Qed.

#[local] Abbreviation quiet := (quiet v wanted).

Local Ltac shown H := cbn [d_kind d_key d_ok present role binding deployment policy] in H.

Lemma quiet_createIfAbsent strict k x :
  k ≠ KCollectorConfig → there (present k (obj_key k x)) → quiet (createIfAbsent strict k x).
Proof.
  intros Hk (o & Ho & _). unfold createIfAbsent. apply quiet_lookup; [by destruct k|]. shown Ho. rewrite Ho. apply quiet_Ret.
Qed.

Lemma quiet_serviceAccount sa found :
  v _ (Get KServiceAccount (keyOf (sa_Meta sa))) = Ok found → length (sa_ImagePullSecrets found) ≤ 1 →
  quiet (createSearchServiceAccount sa).
Proof.
  intros Hf Hl. unfold createSearchServiceAccount. apply quiet_lookup; [done|]. rewrite Hf. cbv zeta.
  rewrite (proj2 (Nat.ltb_ge _ _) Hl). apply quiet_Ret.
Qed.

Lemma quiet_roles cr : there (role cr) → quiet (createUpdateRoles cr).
Proof.
  intros (o & Ho & Hr)%there_ok; [|done]. unfold createUpdateRoles. apply quiet_lookup; [done|]. shown Ho. shown Hr. rewrite Ho.
  apply (proj2 (DeepEqual_spec _ _)) in Hr. rewrite Hr. apply quiet_Ret.
Qed.

Lemma quiet_binding rb : there (binding rb) → quiet (createRoleBinding rb).
Proof.
  intros (o & Ho & [Hr Hs])%there_ok; [|done]. unfold createRoleBinding. apply quiet_lookup; [done|]. shown Ho. rewrite Ho.
  apply (proj2 (DeepEqual_spec _ _)) in Hr, Hs. rewrite Hr, Hs. apply quiet_Ret.
Qed.

Lemma quiet_deployment d : there (deployment d) → wanted d → quiet (createOrUpdateDeployment d).
Proof.
  intros (o & Ho & _) Hw. unfold createOrUpdateDeployment. apply quiet_lookup; [done|]. shown Ho. rewrite Ho.
  destruct (SpecDeepEqual _ _) eqn:Hs; cbn [negb]; [apply quiet_Ret|].
  apply quiet_bind; [apply quiet_call|intros _ _; apply quiet_Ret]. intros a. split; [done|]. by exists o.
Qed.

Lemma quiet_policy np : there (policy np) → quiet (createOrUpdateNetworkPolicy np).
Proof.
  intros (o & Ho & (Hs & Hl & Hr))%there_ok; [|done]. unfold createOrUpdateNetworkPolicy. apply quiet_lookup; [done|]. shown Ho.
  rewrite Ho. cbv zeta. apply (proj2 (DeepEqual_spec _ _)) in Hs, Hl, Hr. rewrite Hs, Hl, Hr. apply quiet_Ret.
Qed.

Lemma quiet_policies `{ControllerUtil} `{NestedFields} instance :
  (∀ nps np, answers v (NetworkPolicies true instance) nps → np ∈ nps → there (policy np)) →
  quiet (reconcileNetworkPolicies true instance).
Proof.
  intros Hp. unfold reconcileNetworkPolicies. apply quiet_bind.
  - apply quiet_issues. unfold NetworkPolicies, getMCETargetNamespace. by issue_steps.
  - intros nps Hnps. specialize (Hp nps).
    assert (Hall : Forall (λ np, there (policy np)) nps) by (apply Forall_forall; auto).
    clear Hp Hnps. induction Hall as [|np nps Hnp _ IH]; cbn [map runSteps]; [apply quiet_Ret|].
    apply quiet_bind; [by apply quiet_policy|]. intros [[r|] e] _; [apply quiet_Ret|exact IH].
Qed.

(** The database: its ConfigMap has the data an update would give it and the backup
    label, and its deployment is the one for that data. *)
Definition database_settled `{Environ} `{Quantities} `{ControllerUtil} `{TLSLibrary}
    (sha256 : string → list Byte.byte) (instance : Search) : Prop :=
  ∃ found, v _ (Get KConfigMap (postgresKey instance)) = Ok found ∧
    has_key (om_Labels (cm_Meta found)) backupLabel = true ∧
    (∀ tls cm new, answers v getPostgresTLSConfig tls → answers v (PostgresConfigmap instance tls) cm →
       cm_Data cm = Some new → nextData new (cm_Data found) = map_of (cm_Data found)) ∧
    (∀ d, answers v (PGDeployment instance (postgresConfigHash sha256 (cm_Data found))) d →
       there (deployment d)).

Lemma quiet_PostgresConfigmap `{ControllerUtil} instance tls : quiet (PostgresConfigmap instance tls).
Proof.
  apply quiet_issues. unfold PostgresConfigmap, GetDBConfigFromSearchCR, getDBConfigData. by issue_steps.
Qed.

Lemma quiet_database `{Environ} `{Quantities} `{ControllerUtilLaws} `{TLSLibrary} sha256 instance :
  database_settled sha256 instance →
  (∀ found d, v _ (Get KConfigMap (postgresKey instance)) = Ok found →
     answers v (PGDeployment instance (postgresConfigHash sha256 (cm_Data found))) d → wanted d) →
  quiet (reconcileDatabase sha256 instance).
Proof.
  intros (found & Hf & Hl & Hd & Hdep) Hw. unfold reconcileDatabase. apply quiet_bind.
  { apply quiet_issues. unfold getPostgresTLSConfig, fetchTLSProfileSpec. by issue_steps. }
  intros tls Htls. apply quiet_bind; [apply quiet_PostgresConfigmap|]. intros cm Hcm.
  specialize (Hd tls cm). pose proof Hcm as (t & He & _).
  apply exec_PostgresConfigmap in He as (Hk & Hn & new & Hnew & _). specialize (Hd new Htls Hcm Hnew).
  assert (Hup : createOrUpdateConfigMap cm =
    (r <- call (Get KConfigMap (postgresKey instance)) ;;
     match r with
     | Ok found => updateConfigMap found cm
     | Err e => if IsNotFound e then
         c <- call (Create KConfigMap cm) ;;
         match c with Ok o => Ret (stepOk, o) | Err e => Ret (stepErr e, cm) end
       else updateConfigMap zeroConfigMap cm
     end)) by (unfold createOrUpdateConfigMap; by rewrite Hk).
  assert (Hsame : updateConfigMap found cm = Ret (stepOk, mkConfigMap (cm_Meta cm) (Some (nextData new (cm_Data found))))).
  { unfold updateConfigMap. rewrite Hn, String.eqb_refl, Hnew, UpdatePostgresConfigmap_Some. cbn [bind cm_Data cm_Meta].
    rewrite (proj2 (DeepEqual_spec _ _)) by (cbn; by rewrite Hd). rewrite Hl, andb_false_r. done. }
  apply quiet_bind; rewrite Hup.
  - apply quiet_lookup; [done|]. rewrite Hf, Hsame. apply quiet_Ret.
  - intros r (t' & He & Ht). unfold call in He. cbn [bind] in He.
    apply exec_Op in He as (a & t2 & -> & He). apply Forall_cons in Ht as [Ha _]. specialize (Ha eq_refl).
    subst a. rewrite Hf, Hsame in He. apply exec_Ret in He as [_ [= ->]]. cbn [stepOk cm_Data].
    apply quiet_bind.
    { apply quiet_issues. unfold PGDeployment, GetDBConfigFromSearchCR, getDBConfigData. by issue_steps. }
    assert (Hh : postgresConfigHash sha256 (cm_Data found) = postgresConfigHash sha256 (Some (nextData new (cm_Data found)))).
    { apply hash_map_of. cbn. by rewrite Hd. }
    intros d Hdd. rewrite <-Hh in Hdd. apply quiet_deployment; [by apply Hdep|by eapply Hw].
Qed.
End steps.

(** * The reconciliation *)

Section quiescence.
Context (v : ∀ R, Api R → R).
Context `{Environ} `{Quantities} `{ControllerUtilLaws} `{NestedFields} `{TLSLibrary} `{StatusConditions}.
Context `{SemanticEquality CollectorConfigSpec} `{SemanticEquality smap} `{SemanticEquality NetworkPolicySpec}.
Context `{SemanticEquality (list OwnerReference)} `{SemanticEquality (list PolicyRule)}.
Context `{SemanticEquality RoleRef} `{SemanticEquality (list Subject)}.
Context `{SemanticEquality (list RuleGroup)} `{DeploymentSpecEquality}.
Context (sha256 : string → list Byte.byte).

(** The CR asks for no optional feature and shows no trace of one. *)
Definition plain (s : Search) : Prop :=
  get_str (s_Annotations s) "global-search-preview" ≠ "true" ∧
  get_str (s_Annotations s) "virtual-machine-preview" ≠ "true" ∧
  get_str (s_Annotations s) "fine-grained-rbac" ≠ "true" ∧
  (∀ c, c ∈ s_Conditions s →
     c_Type c ∉ [CONDITION_GLOBAL_SEARCH; CONDITION_VM_ACTIONS; CONDITION_FINE_GRAINED_RBAC]) ∧
  (∀ e, e ∈ s_QueryAPIEnv s → ev_Name e ≠ "FEATURE_FINE_GRAINED_RBAC").

(** The service accounts of the components. *)
Definition componentAccounts : list string :=
  [getAPIServiceAccountName; getPostgresServiceAccountName; getIndexerServiceAccountName;
   getCollectorServiceAccountName].

(** The Deployments the operator wants for the CR and what the server shows. *)
Definition wantedDeployment (s : Search) (d : Deployment) : Prop :=
  (∃ tls c, answers v getTLSEnvVars tls ∧ answers v getClusterNameFromMCH c ∧
     d ∈ [collectorDeploymentOf c s tls; IndexerDeployment s tls; APIDeployment s tls]) ∨
  ∃ cm, v _ (Get KConfigMap (postgresKey s)) = Ok cm ∧
    answers v (PGDeployment s (postgresConfigHash sha256 (cm_Data cm))) d.

(** The cluster is as the operator wants it for the CR. *)
Record as_desired (s : Search) : Prop := {
  ad_objects tls c d :
    answers v getTLSEnvVars tls → answers v getClusterNameFromMCH c → d ∈ desiredObjects s tls c → there v d;
  ad_collectorService : there v (present KService (mkNN "search-collector" (s_Namespace s)));
  ad_claim d : d ∈ desiredClaim s → there v d;
  ad_pullSecrets name sa :
    name ∈ componentAccounts →
    v _ (Get KServiceAccount (mkNN name (s_Namespace s))) = Ok sa → length (sa_ImagePullSecrets sa) ≤ 1;
  ad_policies nps np : answers v (NetworkPolicies true s) nps → np ∈ nps → there v (policy np);
  ad_database : database_settled v sha256 s;
  ad_rule : ∃ o, v _ (Get KPrometheusRule (mkNN SearchPVCAlertRuleName (s_Namespace s))) = Ok o ∧
              pru_Groups o = pru_Groups (SearchPVCPrometheusRule s);
  ad_webhook : match v _ (Get KVWC (mkNN webhookConfigName "")) with
               | Ok w => get_str (om_Annotations (vwc_Meta w)) caInjectionAnnotation = "true"
               | Err _ => True
               end;
  ad_noHubName : ∃ e, v _ (Get KConfigMap (mkNN SEARCH_GLOBAL_CONFIG (s_Namespace s))) = Err e;
  ad_noLegacy :
    (∃ e, v _ (Get KClusterRole (mkNN getRoleName (s_Namespace s))) = Err e) ∧
    (∃ e, v _ (Get KClusterRoleBinding (mkNN getRoleBindingName "")) = Err e) ∧
    (∃ e, v _ (Get KServiceAccount (mkNN "search-serviceaccount" (s_Namespace s))) = Err e)
}.

(** The CR reconciled. *)
Context (cr : Search).
#[local] Abbreviation quiet := (quiet v (wantedDeployment cr)).

Lemma quiet_orElse p step rest : quiet step → quiet rest → quiet (orElse p step rest).
Proof.
  intros Hs Hr. apply quiet_bind; [done|]. intros [[r|] e] _; [apply quiet_Ret|done].
Qed.

Lemma quiet_withAccount p sa rest :
  (∀ a, sa = Ok a → quiet (createSearchServiceAccount a)) → quiet rest → quiet (withAccount p sa rest).
Proof. intros Hs Hr. unfold withAccount. destruct sa; [|apply quiet_Ret]. apply quiet_orElse; auto. Qed.

Lemma quiet_deleting p k n rest :
  k ≠ KCollectorConfig → (∃ e, v _ (Get k n) = Err e) → quiet rest → quiet (deleting p (deleteObject k n) rest).
Proof.
  intros Hk Hn Hr. unfold deleting. apply quiet_bind; [|intros [e|] _; [apply quiet_Ret|done]].
  unfold deleteObject. apply quiet_bind; [by apply quiet_call|].
  intros [e|] _; [destruct (negb _)|]; apply quiet_Ret.
Qed.

(** The merge writes CollectorConfigs only. *)
Lemma quiet_merged s : quiet (createOrUpdateMergedCollectorConfig s).
Proof.
  apply quiet_issues. unfold createOrUpdateMergedCollectorConfig. issue_steps; try done.
  - match goal with |- issues _ (mergeTeams ?l ?a ?b) => generalize l a b end.
    intros l. induction l as [|x l IH]; intros rules configs; cbn [mergeTeams]; [apply issues_Ret|].
    unfold addBackupLabel. by issue_steps.
  - unfold mergeUser, addBackupLabel, updateUserCCStatus. by issue_steps.
  - unfold writeMerged. by issue_steps.
Qed.

Lemma quiet_secret name user s :
  there v (present KSecret (mkNN name (s_Namespace s))) →
  quiet (secret <- dbSecret name user s ;; createSecret secret).
Proof.
  intros Ht. apply quiet_bind.
  - apply quiet_issues. unfold dbSecret. apply issues_bind; [|intros; apply issues_Ret].
    generalize 16. intros n. induction n as [|n IH]; cbn [generatePass]; by issue_steps.
  - intros secret (t & He & _). apply quiet_createIfAbsent; [done|]. unfold dbSecret in He.
    apply exec_bind in He as [(pw & t1 & t2 & -> & _ & [_ [= ->]]%exec_Ret)|(w & _ & ?)]; [|done].
    unfold obj_key. cbn. by rewrite withOwner_Name, withOwner_namespace.
Qed.

Lemma quiet_webhook s : as_desired s → quiet ensureWebhookCAInjection.
Proof.
  intros Hd. pose proof (ad_webhook s Hd) as Hw. unfold ensureWebhookCAInjection. apply quiet_lookup; [done|].
  destruct (v _ (Get KVWC (mkNN webhookConfigName ""))) as [w|e].
  - rewrite Hw. apply quiet_Ret.
  - destruct (IsNotFound e); apply quiet_Ret.
Qed.

Lemma quiet_rule s : as_desired s → quiet (createOrUpdatePrometheusRule (SearchPVCPrometheusRule s)).
Proof.
  intros Hd. destruct (ad_rule s Hd) as (o & Ho & Hg). unfold createOrUpdatePrometheusRule.
  assert (Hk : keyOf (pru_Meta (SearchPVCPrometheusRule s)) = mkNN SearchPVCAlertRuleName (s_Namespace s)).
  { unfold keyOf. cbn. by rewrite withOwner_Name, withOwner_namespace. }
  rewrite Hk. apply quiet_lookup; [done|]. rewrite Ho. apply (proj2 (DeepEqual_spec _ _)) in Hg. rewrite Hg.
  apply quiet_Ret.
Qed.

(** An account the server shows keeps its pull secrets. *)
Lemma quiet_account s name sa :
  as_desired s → name ∈ componentAccounts → keyOf (sa_Meta sa) = mkNN name (s_Namespace s) →
  there v (present_or_unread KServiceAccount (mkNN name (s_Namespace s))) →
  quiet (createSearchServiceAccount sa).
Proof.
  intros Hd Hn Hk (o & Ho & _). eapply quiet_serviceAccount; [rewrite Hk; exact Ho|].
  exact (ad_pullSecrets s Hd _ _ Hn Ho).
Qed.

(** A plain CR passes through the features unchanged. *)
Lemma find_index_absent {A} (f : A → bool) l : (∀ x, x ∈ l → f x = false) → find_index f l = None.
Proof. intros Hl. by apply find_index_None, Forall_forall. Qed.

Lemma no_condition s ty :
  plain s → ty ∈ [CONDITION_GLOBAL_SEARCH; CONDITION_VM_ACTIONS; CONDITION_FINE_GRAINED_RBAC] →
  find_index (λ c, String.eqb (c_Type c) ty) (s_Conditions s) = None.
Proof.
  intros (_ & _ & _ & Hc & _) Hty. apply find_index_absent. intros c Hin. apply String.eqb_neq. intros <-.
  by apply (Hc c Hin).
Qed.

Lemma eqb_not a b : a ≠ b → String.eqb a b = false.
Proof. by intros ?%String.eqb_neq. Qed.

Lemma plain_globalSearch s : plain s → reconcileGlobalSearch s = Ret ((Some emptyResult, None), s).
Proof.
  intros Hp. unfold reconcileGlobalSearch. rewrite eqb_not by apply Hp. rewrite (no_condition s); [done|done|left].
Qed.

Lemma plain_virtualMachines s : plain s → reconcileVirtualMachineConfiguration s = Ret ((Some emptyResult, None), s).
Proof.
  intros Hp. unfold reconcileVirtualMachineConfiguration. rewrite eqb_not by apply Hp.
  rewrite (no_condition s); [done|done|right; left].
Qed.

Lemma plain_fineGrained s : plain s → reconcileFineGrainedRBACConfiguration s = Ret ((Some emptyResult, None), s).
Proof.
  intros Hp. unfold reconcileFineGrainedRBACConfiguration. rewrite eqb_not by apply Hp.
  unfold updateSearchApiDeployment, searchAPIEnvVar. cbn [newEnvVar ev_Name ev_Value]. cbv zeta.
  rewrite (find_index_absent _ (s_QueryAPIEnv s)).
  - cbn [String.eqb negb bind]. unfold removeStatusCondition. rewrite (no_condition s); [done|done|do 2 right; left].
  - intros e He. apply String.eqb_neq. by apply Hp.
Qed.

Lemma quiet_hubName s p rest :
  as_desired s → quiet (rest s) → quiet (feature p (addEnvToSearchAPI s) rest).
Proof.
  intros Hd Hr. destruct (ad_noHubName s Hd) as (e & He). unfold feature. apply quiet_bind.
  - unfold addEnvToSearchAPI. apply quiet_lookup; [done|]. rewrite He. destruct (IsNotFound e); apply quiet_Ret.
  - intros r (t & Hex & Ht). unfold addEnvToSearchAPI, call in Hex. cbn [bind] in Hex.
    apply exec_Op in Hex as (a & t' & -> & Hex). apply Forall_cons in Ht as [Ha _]. specialize (Ha eq_refl).
    subst a. rewrite He in Hex. destruct (IsNotFound e); apply exec_Ret in Hex as [_ [= ->]]; [done|apply quiet_Ret].
Qed.

Lemma quiet_legacy p s : as_desired s → pr_Cleaned p = true → quiet (reconcileLegacy p s).
Proof.
  intros Hd Hp. destruct (ad_noLegacy s Hd) as (Hr & Hb & Ha). unfold reconcileLegacy, cleanOnce. rewrite Hp.
  apply quiet_orElse; [by apply quiet_rule|]. cbn [bind]. unfold deleteLegacyRBAC, deleteClusterRole, deleteClusterRoleBinding.
  do 3 (apply quiet_deleting; [done..|]). apply quiet_Ret.
Qed.

(** A program that does not panic has a result on the cluster. *)
Fixpoint eval {A} (p : prog A) : outcome A * list event :=
  match p with
  | Ret a => (Done a, [])
  | Panic w => (Crashed w, [])
  | Op q f => let '(o, t) := eval (f (v _ q)) in (o, Ev q (v _ q) :: t)
  end.

Lemma eval_exec {A} (p : prog A) : exec p (eval p).2 (eval p).1 ∧ Forall (consistent v) (eval p).2.
Proof.
  induction p as [a|w|R q f IH]; cbn [eval].
  - split; [constructor|by apply Forall_nil].
  - split; [constructor|by apply Forall_nil].
  - destruct (IH (v _ q)) as [He Hc]. destruct (eval (f (v _ q))) as [o t]. cbn in *.
    split; [by constructor|]. by apply Forall_cons.
Qed.

Lemma returns_answers {A} (p : prog A) : wp no_guarantee p returns → ∃ a, answers v p a.
Proof.
  intros Hp. destruct (eval_exec p) as [He Hc]. destruct (wp_exec _ _ _ _ _ Hp He) as [a Ha].
  exists a, (eval p).2. by rewrite <-Ha.
Qed.

Lemma tls_answers : ∃ tls, answers v getTLSEnvVars tls.
Proof.
  apply returns_answers. unfold getTLSEnvVars, fetchTLSProfileSpec, call. wp_steps; try done; by eexists.
Qed.

Lemma clusterName_answers : ∃ c, answers v getClusterNameFromMCH c.
Proof. apply returns_answers. unfold getClusterNameFromMCH, call. wp_steps; try done; by eexists. Qed.

Local Ltac named := unfold obj_key, keyOf; cbn; by rewrite ?withOwner_Name, ?withOwner_namespace.

(** One of the accounts. *)
Local Ltac component := unfold componentAccounts; repeat (first [left|right]).

Lemma quiet_owned s p name rest :
  as_desired s → name ∈ componentAccounts → there v (present_or_unread KServiceAccount (mkNN name (s_Namespace s))) →
  quiet rest → quiet (withAccount p (ownedServiceAccount name s) rest).
Proof.
  intros Hd Hn Ht Hr. apply quiet_withAccount; [|done]. intros a Ha. apply (quiet_account s name); [done..| |done].
  unfold ownedServiceAccount in Ha. destruct (SetControllerReference _ _) as [m|] eqn:Hm; [|done].
  injection Ha as <-. by apply SetControllerReference_ok in Hm as [-> _].
Qed.

(** An object that is only created, by its name. *)
Lemma quiet_named strict k x n :
  k ≠ KCollectorConfig → obj_key k x = n → there v (present k n) → quiet (createIfAbsent strict k x).
Proof. intros Hk <-. by apply quiet_createIfAbsent. Qed.

Lemma quiet_resources p rest :
  as_desired cr → quiet rest → quiet (reconcileResources sha256 p cr rest).
Proof.
  set (s := cr). intros Hd Hrest. destruct tls_answers as (tls0 & Htls0), clusterName_answers as (c0 & Hc0).
  assert (Hob : Forall (there v) (desiredObjects s tls0 c0)).
  { apply Forall_forall. intros d. by apply (ad_objects s Hd). }
  unfold desiredObjects in Hob. cbn [map app] in Hob. rewrite !Forall_cons in Hob. split_hyps.
  pose proof (ad_collectorService s Hd) as Hsvc.
  unfold reconcileResources, reconcileComponents.
  apply quiet_orElse; [eapply quiet_account; [done| |named|eassumption]; component|].
  apply quiet_owned; [done|component|done|]. apply quiet_owned; [done|component|done|].
  apply quiet_orElse; [eapply quiet_account; [done| |named|eassumption]; component|].
  do 3 (apply quiet_orElse; [by apply quiet_roles|]).
  do 3 (apply quiet_orElse; [by apply quiet_binding|]).
  apply quiet_bind; [by eapply quiet_webhook|intros _ _].
  apply quiet_orElse; [apply quiet_merged|].
  do 3 (apply quiet_orElse; [by apply quiet_secret|]).
  apply quiet_orElse; [eapply quiet_named; [done|named|eassumption]|].
  apply quiet_orElse; [|].
  { apply (quiet_database v (wantedDeployment s) sha256 s (ad_database s Hd)). intros found d Hf Ha. right. by exists found. }
  do 2 (apply quiet_orElse; [eapply quiet_named; [done|named|eassumption]|]).
  apply quiet_bind; [eapply quiet_named; [done|named|eassumption]|intros _ _].
  do 3 (apply quiet_orElse; [eapply quiet_named; [done|named|eassumption]|]).
  apply quiet_bind; [apply quiet_issues; unfold getTLSEnvVars, fetchTLSProfileSpec; by issue_steps|].
  intros tls Htls.
  assert (Hdep : ∀ c d, answers v getClusterNameFromMCH c →
    d ∈ [deployment (collectorDeploymentOf c s tls); deployment (IndexerDeployment s tls); deployment (APIDeployment s tls)] →
    there v d).
  { intros c d Hc Hin. apply (ad_objects s Hd tls c); [done..|]. unfold desiredObjects. rewrite !elem_of_app.
    do 7 right. left. exact Hin. }
  apply quiet_orElse.
  { apply quiet_bind.
    - apply quiet_issues. unfold CollectorDeployment, getClusterNameFromMCH. by issue_steps.
    - intros d (t & He & Ht). unfold CollectorDeployment in He.
      apply exec_bind in He as [(c & t1 & t2 & -> & Hc & [_ [= ->]]%exec_Ret)|(w & _ & ?)]; [|done].
      apply Forall_app in Ht as [Ht _]. assert (Hac : answers v getClusterNameFromMCH c) by (by exists t1).
      apply quiet_deployment; [apply (Hdep c); [done|left]|left; exists tls, c; split_and!; [done..|left]]. }
  do 2 (apply quiet_orElse; [apply quiet_deployment;
    [apply (Hdep c0); [done|repeat (first [left|right])]|left; exists tls, c0; split_and!; [done..|repeat (first [left|right])]]|]).
  apply quiet_orElse; [apply quiet_policies; intros; by eapply (ad_policies s Hd)|].
  do 2 (apply quiet_orElse; [eapply quiet_named; [done|named|eassumption]|]).
  done.
Qed.

(** A claim the server shows is not touched. *)
Lemma quiet_claim s {A} (rest : bool → prog A) :
  as_desired s → (∀ b, quiet (rest b)) →
  quiet (bind (if negb (String.eqb (ss_StorageClassName (sp_DBStorage (s_Spec s))) "") then
                   present <- isPVCPresent s ;; if negb present then configurePVC s else Ret true
                 else Ret true) rest).
Proof.
  intros Hd Hr. apply quiet_bind; [|auto]. pose proof (ad_claim s Hd) as Hc. unfold desiredClaim in Hc. cbv zeta in Hc.
  destruct (String.eqb _ ""); cbn [negb]; [apply quiet_Ret|].
  destruct (Hc _ (list_elem_of_here _ _)) as (o & Ho & _). cbn [d_kind d_key present_or_unread] in Ho.
  unfold isPVCPresent. apply quiet_bind.
  - apply quiet_lookup; [done|]. rewrite Ho. apply quiet_Ret.
  - intros b (t & He & Ht). unfold call in He. cbn [bind] in He. apply exec_Op in He as (a & t' & -> & He).
    apply Forall_cons in Ht as [Ha _]. specialize (Ha eq_refl). subst a. rewrite Ho in He.
    apply exec_Ret in He as [_ [= ->]]. apply quiet_Ret.
Qed.

Lemma quiet_feature p step rest s r :
  step = Ret ((Some r, None), s) → quiet (rest s) → quiet (feature p step rest).
Proof. intros -> Hr. unfold feature. by cbn [bind]. Qed.

Lemma quiet_active p :
  as_desired cr → plain cr → pr_Cleaned p = true → quiet (reconcileActive sha256 p cr).
Proof.
  set (s := cr). intros Hd Hp Hc. unfold reconcileActive, reconcileFeatures. cbv zeta. apply quiet_claim; [done|]. intros b.
  destruct (negb b); [apply quiet_Ret|]. apply quiet_resources; [done|].
  eapply quiet_feature; [by apply plain_globalSearch|].
  apply quiet_hubName; [done|].
  eapply quiet_feature; [by apply plain_fineGrained|].
  eapply quiet_feature; [by apply plain_virtualMachines|].
  by apply quiet_legacy.
Qed.

(** C8: a cluster that is as desired is left alone. If the server shows an active
    CR that asks for no optional feature, every object the way a reconciliation
    leaves it ([as_desired], whose objects are those of [Established], and of whose
    Deployments only the presence is asked), and nothing of old releases, then no
    execution of [Reconcile] writes anything but CollectorConfigs, deletions of what
    is not there, and updates that send a desired Deployment to which the one on the
    server is not semantically equal. *)
Theorem desired_cluster_left_alone req p t o :
  v _ (Get KSearch (mkNN OperatorName (nn_Namespace req))) = Ok cr →
  HasPrefix (nn_Name req) "Pod/" = false →
  om_DeletionTimestamp (s_Meta cr) = None → searchFinalizer ∈ om_Finalizers (s_Meta cr) →
  plain cr → as_desired cr → pr_Cleaned p = true →
  exec (Reconcile sha256 req p) t o → Forall (consistent v) t →
  Forall (quiet_event v (wantedDeployment cr)) t.
Proof.
  intros Hs Hreq Hdel Hfin Hp Hd Hc. revert t o. change (quiet (Reconcile sha256 req p)). set (s := cr) in *.
  unfold Reconcile. apply quiet_lookup; [done|]. rewrite Hs, Hreq. cbv zeta.
  assert (Hset : setFinalizer s = Ret (false, None, s)).
  { unfold setFinalizer. rewrite Hdel, (proj2 (ContainsFinalizer_spec _ _)) by done. done. }
  rewrite Hset. cbn [bind]. destruct (IsPaused _); [apply quiet_Ret|].
  apply quiet_active; [done..|]. unfold addonStarted. by destruct (pr_AddonStarted p).
Qed.
End quiescence.

(** * The theorem at a concrete input

    The cluster two reconciliations after its creation. *)

#[local] Existing Instance ref_NestedString.
#[local] Existing Instance sampleTLSLibrary.
#[local] Existing Instance sampleEnviron.
#[local] Existing Instance sampleQuantities.

Definition laterProcess : Process := mkProcess true true (pr_CollectorImage newProcess).
Definition settledCluster : MemServer :=
  run_state (Reconcile sampleHash searchRequest laterProcess)
    (run_state (Reconcile sampleHash searchRequest newProcess) freshCluster).
Definition settledView : ∀ R, Api R → R := λ R q, (serve q settledCluster).1.
Definition settledSearch : Search :=
  match settledView _ (Get KSearch (mkNN OperatorName "ocm")) with Ok s => s | Err _ => sampleSearch end.

(** A program of lookups has one result on a cluster. *)
Lemma lookups_eval v {A} (p : prog A) t o :
  issues (λ R q, is_lookup q = true) p → exec p t o → Forall (consistent v) t → eval v p = (o, t).
Proof.
  revert t. induction p as [a|w|R q f IH]; intros t Hi He Ht; cbn [eval].
  - by apply exec_Ret in He as [-> ->].
  - by apply exec_Panic in He as [-> ->].
  - pose proof (Hi _ _ He) as Hall. apply exec_Op in He as (x & t' & -> & He).
    apply Forall_cons in Hall as [Hq _]. apply Forall_cons in Ht as [Hx Ht]. cbn in Hq. specialize (Hx Hq). subst x.
    erewrite IH; [done| |done|done]. intros t2 o2 H2. specialize (Hi (Ev q (v _ q) :: t2) o2).
    assert (Hop : exec (Op q f) (Ev q (v _ q) :: t2) o2) by (by constructor).
    by apply Hi, Forall_cons in Hop as [_ ?].
Qed.

Lemma answers_eval v {A} (p : prog A) a :
  issues (λ R q, is_lookup q = true) p → answers v p a → (eval v p).1 = Done a.
Proof. intros Hi (t & He & Ht). by rewrite (lookups_eval v p t (Done a)). Qed.

(** The result of a program of lookups, by evaluation. *)
Definition result_on {A} (v : ∀ R, Api R → R) (dflt : A) (p : prog A) : A :=
  match (eval v p).1 with Done a => a | Crashed _ => dflt end.

Lemma answers_result v {A} (dflt : A) (p : prog A) a :
  issues (λ R q, is_lookup q = true) p → answers v p a → a = result_on v dflt p.
Proof. intros Hi Ha. unfold result_on. by rewrite (answers_eval v p a Hi Ha). Qed.

(** The object the server shows, if any, passes a test. *)
Definition shows (v : ∀ R, Api R → R) (k : Kind) (n : NamespacedName) (f : Obj k → bool) : bool :=
  match v _ (Get k n) with Ok o => f o | Err _ => false end.

Lemma there_by v d f : shows v (d_kind d) (d_key d) f = true → (∀ o, f o = true → d_ok d o) → there v d.
Proof.
  unfold shows. intros Hs Hf. destruct (v _ (Get (d_kind d) (d_key d))) as [o|e] eqn:Ho; [|done].
  exists o. auto.
Qed.

Lemma present_by v k n : shows v k n (λ _, true) = true → there v (present k n).
Proof. intros Hs. by apply (there_by v (present k n) (λ _, true)). Qed.
Lemma unread_by v k n : shows v k n (λ _, true) = true → there v (present_or_unread k n).
Proof. intros Hs. by apply (there_by v (present_or_unread k n) (λ _, true)). Qed.
Lemma role_by v r :
  shows v KClusterRole (keyOf (cr_Meta r)) (λ o, bool_decide (cr_Rules o = cr_Rules r)) = true → there v (role r).
Proof. intros Hs. apply (there_by v (role r) _ Hs). intros o Ho. by apply bool_decide_eq_true in Ho. Qed.
Lemma binding_by v b :
  shows v KClusterRoleBinding (keyOf (crb_Meta b))
    (λ o, bool_decide (crb_RoleRef o = crb_RoleRef b ∧ crb_Subjects o = crb_Subjects b)) = true → there v (binding b).
Proof. intros Hs. apply (there_by v (binding b) _ Hs). intros o Ho. by apply bool_decide_eq_true in Ho. Qed.
Lemma deployment_by v d :
  shows v KDeployment (keyOf (dep_Meta d)) (λ o, SpecDeepEqual (dep_Spec o) (dep_Spec d)) = true →
  there v (deployment d).
Proof. intros Hs. by apply (there_by v (deployment d) _ Hs). Qed.
Definition sampleTLSVars : list EnvVar := result_on settledView [] getTLSEnvVars.
Definition sampleClusterName : string := result_on settledView "" getClusterNameFromMCH.

Lemma sample_objects : Forall (there settledView) (desiredObjects settledSearch sampleTLSVars sampleClusterName).
Proof.
  unfold desiredObjects. cbn [map app].
  repeat (apply Forall_cons; split;
    [first [apply present_by|apply unread_by|apply role_by|apply binding_by|apply deployment_by]; vm_compute; reflexivity|]).
  by apply Forall_nil.
Qed.

(** The test of [policy_by]. *)
Definition policy_shown (v : ∀ R, Api R → R) (np : NetworkPolicy) : bool :=
  shows v KNetworkPolicy (keyOf (np_Meta np))
    (λ o, bool_decide (np_Spec o = np_Spec np ∧ map_of (om_Labels (np_Meta o)) = map_of (om_Labels (np_Meta np)) ∧
                       om_OwnerReferences (np_Meta o) = om_OwnerReferences (np_Meta np))).

Lemma policy_by v np : policy_shown v np = true → there v (policy np).
Proof. intros Hs. apply (there_by v (policy np) _ Hs). intros o Ho. by apply bool_decide_eq_true in Ho. Qed.

Lemma sample_policies :
  forallb (policy_shown settledView) (result_on settledView [] (NetworkPolicies true settledSearch)) = true.
Proof. vm_compute. reflexivity. Qed.

(** What a successful lookup answers. *)
Definition shown_object (k : Kind) (dflt : Obj k) (n : NamespacedName) : Obj k :=
  match settledView _ (Get k n) with Ok o => o | Err _ => dflt end.

Lemma shown_object_eq k dflt n :
  shows settledView k n (λ _, true) = true → settledView _ (Get k n) = Ok (shown_object k dflt n).
Proof. unfold shows, shown_object. by destruct (settledView _ _). Qed.

Definition sampleConfig : ConfigMap := shown_object KConfigMap zeroConfigMap (postgresKey settledSearch).

Lemma sample_database : database_settled settledView sampleHash settledSearch.
Proof.
  exists sampleConfig. split; [apply shown_object_eq; vm_compute; reflexivity|].
  split; [vm_compute; reflexivity|]. split.
  - intros tls cm new Htls Hcm Hnew.
    apply (answers_result _ (mkPGTLS "" "")) in Htls; [|unfold getPostgresTLSConfig, fetchTLSProfileSpec; by issue_steps].
    apply (answers_result _ zeroConfigMap) in Hcm;
      [|unfold PostgresConfigmap, GetDBConfigFromSearchCR, getDBConfigData; by issue_steps].
    assert (new = default ∅ (cm_Data cm)) as -> by by rewrite Hnew. rewrite Hcm, Htls.
    apply (bool_decide_unpack _). vm_compute. exact I.
  - intros d Hd. apply (answers_result _ (collectorDeploymentOf "" settledSearch [])) in Hd;
      [|unfold PGDeployment, GetDBConfigFromSearchCR, getDBConfigData; by issue_steps].
    rewrite Hd. apply deployment_by. vm_compute. reflexivity.
Qed.

(** No account has a pull secret. *)
Lemma sample_pullSecrets :
  map_Forall (λ _ (x : ServiceAccount), length (sa_ImagePullSecrets x) ≤ 1) (ms_store settledCluster KServiceAccount).
Proof. apply (bool_decide_unpack _). vm_compute. exact I. Qed.

Lemma mem_get w k n o : ms_faults w = [] → (serve (Get k n) w).1 = Ok o → ms_store w k !! n = Some o.
Proof. unfold serve, memServer. intros ->. cbn. destruct (_ !! n); [|done]. by intros [= ->]. Qed.

Lemma sample_as_desired : as_desired settledView sampleHash settledSearch.
Proof.
  split.
  - intros tls c d Htls Hc Hd.
    apply (answers_result _ []) in Htls as ->; [|unfold getTLSEnvVars, fetchTLSProfileSpec; by issue_steps].
    apply (answers_result _ "") in Hc as ->; [|unfold getClusterNameFromMCH; by issue_steps].
    pose proof sample_objects as Ho. rewrite Forall_forall in Ho. by apply Ho.
  - apply present_by. vm_compute. reflexivity.
  - assert (Hc : desiredClaim settledSearch = []) by (vm_compute; reflexivity).
    intros d. rewrite Hc. intros Hd. apply elem_of_nil in Hd. destruct Hd.
  - intros name sa _ Hsa. apply mem_get in Hsa; [|vm_compute; reflexivity]. exact (sample_pullSecrets _ _ Hsa).
  - intros nps np Hnps Hnp.
    apply (answers_result _ []) in Hnps; [|unfold NetworkPolicies, getMCETargetNamespace; by issue_steps].
    pose proof sample_policies as Ho. rewrite forallb_elem in Ho. apply policy_by, Ho. by rewrite <-Hnps.
  - apply sample_database.
  - exists (shown_object KPrometheusRule (mkPrometheusRule zeroMeta []) (mkNN SearchPVCAlertRuleName (s_Namespace settledSearch))).
    split; [apply shown_object_eq; vm_compute; reflexivity|]. apply (bool_decide_unpack _). vm_compute. exact I.
  - vm_compute. exact I.
  - eexists. vm_compute. reflexivity.
  - split_and!; eexists; vm_compute; reflexivity.
Qed.

Definition settledTrace : list event :=
  run_trace (Reconcile sampleHash searchRequest laterProcess) settledCluster.

(** Lookups, and deletions that found nothing. *)
Definition idle (e : event) : bool :=
  match e with
  | Ev q a =>
      match q in Api R return R → bool with
      | Get _ _ | List _ _ | DynGet _ _ | DynList _ | Now | RandInt _ => λ _, true
      | Delete _ _ => λ a, match a with Some _ => true | None => false end
      | _ => λ _, false
      end a
  end.

(** A server that is only looked at keeps showing the same. *)
Lemma idle_consistent {A} (p : prog A) w w0 :
  ms_store w = ms_store w0 → ms_dyn w = ms_dyn w0 → ms_faults w = [] → ms_faults w0 = [] →
  forallb idle (run_trace p w) = true →
  Forall (consistent (λ R q, (serve q w0).1)) (run_trace p w).
Proof.
  unfold run_trace. revert w. induction p as [a|why|R q f IH]; intros w Hs Hd Hf Hf0; [by intros; apply Forall_nil..|].
  cbn [run]. destruct (serve q w) as [x w'] eqn:Hq. destruct (run (f x) w') as [[o t] w2] eqn:Hr.
  cbn [fst snd forallb]. intros [Hi Ht]%andb_true_iff.
  assert (Hw : (ms_store w' = ms_store w ∧ ms_dyn w' = ms_dyn w ∧ ms_faults w' = []) ∧
    (is_lookup q = true → x = (serve q w0).1)).
  { unfold serve, memServer in *. rewrite Hf in Hq. rewrite Hf0. unfold serve_ok in *. rewrite <-Hs, <-Hd.
    destruct q; try done; cbn in Hi |- *; repeat case_match; simplify_eq; cbn; done. }
  destruct Hw as [(Hs' & Hd' & Hf') Hx]. apply Forall_cons. split; [exact Hx|].
  specialize (IH x w'). rewrite Hr in IH. cbn [fst snd] in IH. apply IH; congruence.
Qed.

Lemma desired_cluster_left_alone_witness :
  List.length settledTrace = 94 ∧ Forall (quiet_event settledView (wantedDeployment settledView sampleHash settledSearch)) settledTrace.
Proof.
  split; [vm_compute; reflexivity|].
  apply (desired_cluster_left_alone settledView sampleHash settledSearch searchRequest laterProcess _
    (run_outcome (Reconcile sampleHash searchRequest laterProcess) settledCluster)).
  - vm_compute. reflexivity.
  - reflexivity.
  - vm_compute. reflexivity.
  - vm_compute. left.
  - split_and!; vm_compute; intros; try discriminate; try set_solver.
  - apply sample_as_desired.
  - reflexivity.
  - apply run_exec.
  - apply idle_consistent; [reflexivity..|]. vm_compute. reflexivity.
Defined.
