(* ===== verification/ApiServer.v ===== *)
(** The API server, as far as the operator relies on it, and total correctness of the
    requests it grants.

    [ApiServer] is the interface. It leaves open what a server makes of an object it is
    sent (defaults, identifiers, the status subresource), which writes it refuses
    (admission, immutable fields, quotas), and when a deletion is complete; it says that
    reads are answered by what the server holds, as by a cache that is up to date, and
    that nobody else writes. [granted]
    events are those in which no write was refused, and [reaches] is the weakest
    precondition of a run whose events are all granted: the program ends without a panic
    and its result and the state it leaves satisfy the postcondition. [apiMem], a server
    in memory that fills in defaults, assigns identifiers, keeps the status apart and
    waits for finalizers, implements the interface. *)
From Stdlib Require Import Ascii String.
From S2P Require Import Prelude GoStrings K8s V1alpha1 Effects Interfaces Common Objects MemServer Fixtures Resources.

Local Open Scope search_scope.

(** * The interface *)

Definition is_dynamic {R} (q : Api R) : bool :=
  match q with DynGet _ _ | DynList _ => true | _ => false end.
Definition writes_dynamic {R} (q : Api R) : bool :=
  match q with DynCreate _ _ _ | DynUpdate _ _ _ | DynDelete _ _ => true | _ => false end.

(** The objects on the server. *)
Abbreviation Objects := (∀ k : Kind, NamespacedName → option (Obj k)).

(** The answer to a read when the server holds the objects [s]; [missing] is the error
    for an object that is not there. *)
Definition answer_ok (missing : ∀ k : Kind, NamespacedName → error) (s : Objects) {R} (q : Api R) : R → Prop :=
  match q in Api R return R → Prop with
  | Get k n => λ a,
      match s k n with
      | Some o => a = Ok o ∧ obj_key k o = n
      | None => a = Err (missing k n)
      end
  | List k _ => λ a, ∃ items, a = Ok items ∧ Forall (λ o, is_Some (s k (obj_key k o))) items
  | RandInt b => λ a, 0 < b → a < b
  | _ => λ _, True
  end.

Definition same (s s' : Objects) : Prop := ∀ k n, s' k n = s k n.

(** One object is replaced, or removed. *)
Definition replaced (k : Kind) (n : NamespacedName) (x : option (Obj k)) (s s' : Objects) : Prop :=
  s' k n = x ∧ ∀ k' n', ¬ (k' = k ∧ n' = n) → s' k' n' = s k' n'.

(** Nothing is left to the defaults of the API server. *)
Definition binding_spelled_out (b : ClusterRoleBinding) : Prop :=
  rf_APIGroup (crb_RoleRef b) ≠ "" ∧ Forall (λ x, sub_Kind x = "ServiceAccount") (crb_Subjects b).
Definition policy_spelled_out (np : NetworkPolicy) : Prop :=
  nps_PolicyTypes (np_Spec np) ≠ [] ∧
  Forall (λ r, Forall (λ p, pp_Protocol p ≠ "") (ing_Ports r)) (nps_Ingress (np_Spec np)) ∧
  Forall (λ r, Forall (λ p, pp_Protocol p ≠ "") (eg_Ports r)) (nps_Egress (np_Spec np)).

(** The finalizers of these kinds are not the operator's business: it puts one on the
    CR, and controllers of the cluster put theirs on claims, services and pods. *)
Definition finalizable (k : Kind) : bool :=
  match k with KSearch | KPVC | KService | KPod => true | _ => false end.

Definition being_deleted (k : Kind) (o : Obj k) : Prop := om_DeletionTimestamp (obj_meta k o) ≠ None.

(** What is relied on of the object [o'] that is stored when [o] is sent and [old] was
    there: its name, its finalizers, whether it is being deleted, and by kind the parts
    that have no defaults. The status of the CR is a subresource, so an update leaves
    it, and what the update sends back unchanged of the settings stays. Of the spec of
    a Deployment nothing is known. *)
Record kept (k : Kind) (old : option (Obj k)) (o o' : Obj k) : Prop := {
  kept_key : obj_key k o' = obj_key k o;
  kept_finalizers : finalizable k = false → om_Finalizers (obj_meta k o') = om_Finalizers (obj_meta k o);
  kept_deletion : om_DeletionTimestamp (obj_meta k o') = old ≫= λ x, om_DeletionTimestamp (obj_meta k x);
  kept_content :
    match k return option (Obj k) → Obj k → Obj k → Prop with
    | KClusterRole => λ _ o o', cr_Rules o' = cr_Rules o
    | KClusterRoleBinding => λ _ o o', binding_spelled_out o → binding_matches o o'
    | KConfigMap => λ _ o o', map_of (cm_Data o') = map_of (cm_Data o) ∧
        map_of (om_Labels (cm_Meta o')) = map_of (om_Labels (cm_Meta o))
    | KNetworkPolicy => λ _ o o', policy_spelled_out o → policy_matches o o'
    | KPrometheusRule => λ _ o o', pru_Groups o' = pru_Groups o
    | KServiceAccount => λ _ o o', sa_ImagePullSecrets o' = sa_ImagePullSecrets o
    | KVWC => λ _ o o', map_of (om_Annotations (vwc_Meta o')) = map_of (om_Annotations (vwc_Meta o))
    | KSearch => λ old o o', ∀ s, old = Some s →
        s_Conditions o' = s_Conditions s ∧ (s_Spec o = s_Spec s → s_Spec o' = s_Spec s) ∧
        map_of (s_Annotations o') = map_of (s_Annotations o) ∧
        om_Finalizers (s_Meta o') = om_Finalizers (s_Meta o)
    | _ => λ _ _ _, True
    end old o o'
}.

(** What a request does to the objects when it is answered. A refused write does
    nothing. An accepted one stores what [stores] allows; to objects that are being
    deleted it may do anything. A deletion removes an object without finalizers. *)
Definition effect (stores : ∀ k, option (Obj k) → Obj k → Obj k → Prop) (s s' : Objects) {R} (q : Api R) : R → Prop :=
  match q in Api R return R → Prop with
  | Create k o => λ a,
      match a with
      | Ok o' => s k (obj_key k o) = None ∧ stores k None o o' ∧ replaced k (obj_key k o) (Some o') s s'
      | Err _ => same s s'
      end
  | Update k o | Patch k o => λ a,
      match a with
      | Ok o' => ∃ old, s k (obj_key k o) = Some old ∧
          (¬ being_deleted k old → stores k (Some old) o o' ∧ replaced k (obj_key k o) (Some o') s s')
      | Err _ => same s s'
      end
  | StatusUpdate k o => λ a,
      match a with
      | Ok o' => ∃ old, s k (obj_key k o) = Some old ∧
          (¬ being_deleted k old →
             obj_key k o' = obj_key k o ∧ om_Finalizers (obj_meta k o') = om_Finalizers (obj_meta k old) ∧
             ¬ being_deleted k o' ∧ replaced k (obj_key k o) (Some o') s s')
      | Err _ => same s s'
      end
  | Delete k n => λ a,
      match a with
      | None => ∃ old, s k n = Some old ∧ (om_Finalizers (obj_meta k old) = [] → replaced k n None s s')
      | Some e => same s s' ∧ (IsNotFound e = true → s k n = None)
      end
  | _ => λ _, same s s'
  end.

(** Reads never fail; writes may. Storing the same object a second time changes
    nothing. *)
Class ApiServer (W : Type) `{Server W} := {
  reachable : W → Prop;
  shown : W → Objects;
  missing : ∀ k : Kind, NamespacedName → error;
  missing_IsNotFound k n : IsNotFound (missing k n) = true;
  stores : ∀ k : Kind, option (Obj k) → Obj k → Obj k → Prop;
  stores_kept k old o o' : stores k old o o' → kept k old o o';
  stores_again k old o o1 o2 : stores k old o o1 → stores k (Some o1) o o2 → o2 = o1;
  listed w w' k o :
    reachable w → reachable w' → (∀ n, shown w' k n = shown w k n) → (serve (List k o) w').1 = (serve (List k o) w).1;
  works R (q : Api R) w a w' :
    reachable w → serve q w = (a, w') →
    reachable w' ∧ answer_ok missing (shown w) q a ∧ effect stores (shown w) (shown w') q a ∧
    (writes_dynamic q = false →
     ∀ R' (q' : Api R'), is_dynamic q' = true → (serve q' w').1 = (serve q' w).1)
}.

(** No write was refused; a deletion may find nothing. *)
Definition granted (e : event) : Prop :=
  match e with
  | Ev q a =>
      match q in Api R return R → Prop with
      | Create k _ | Update k _ | Patch k _ | StatusUpdate k _ => λ a, match a with Ok _ => True | Err _ => False end
      | Delete _ _ => λ a, match a with None => True | Some e => IsNotFound e = true end
      | _ => λ _, True
      end a
  end.

#[export] Instance granted_dec e : Decision (granted e).
Proof. destruct e as [R q a]. destruct q; cbn in a |- *; try destruct a; apply _. Defined.

(** * Runs *)

Section runs.
Context `{ApiServer W}.

(** No object the operator writes is being deleted or, but for the CollectorConfigs,
    has finalizers. *)
Definition live (w : W) : Prop := ∀ k n o, shown w k n = Some o → finalizable k = false →
  ¬ being_deleted k o ∧ (k ≠ KCollectorConfig → om_Finalizers (obj_meta k o) = []).
Definition good (w : W) : Prop := reachable w ∧ live w.

(** What the server answers to a request. *)
Definition view (w : W) : ∀ R, Api R → R := λ R q, (serve q w).1.

(** Only objects of [F] differ, and nothing of the dynamic client. *)
Definition changes (F : Kind → NamespacedName → Prop) (w w' : W) : Prop :=
  good w' ∧ (∀ k n, ¬ F k n → shown w' k n = shown w k n) ∧
  ∀ R (q : Api R), is_dynamic q = true → view w' R q = view w R q.

Definition nothing : Kind → NamespacedName → Prop := λ _ _, False.
Definition only (k : Kind) (n : NamespacedName) : Kind → NamespacedName → Prop := λ k' n', k' = k ∧ n' = n.

Lemma changes_refl F w : good w → changes F w w.
Proof. intros Hg. by split. Qed.

Lemma changes_trans F w1 w2 w3 : changes F w1 w2 → changes F w2 w3 → changes F w1 w3.
Proof.
  intros (_ & Ho & Hd) (Hg & Ho' & Hd'). split_and!; [done| |].
  - intros k n Hn. by rewrite Ho', Ho.
  - intros R q Hq. by rewrite Hd', Hd.
Qed.

Lemma changes_mono (F F' : Kind → NamespacedName → Prop) w w' :
  (∀ k n, F k n → F' k n) → changes F w w' → changes F' w w'.
Proof. intros HF (Hg & Ho & Hd). split_and!; auto. Qed.

Lemma changes_good F w w' : changes F w w' → good w'.
Proof. by intros (? & _). Qed.

(** ** Total correctness of what is granted *)

Record reaches {A} (p : prog A) (w : W) (Q : A → W → Prop) : Prop := Reaches {
  reaches_granted : Forall granted (run_trace p w) → ∃ a, run_outcome p w = Done a ∧ Q a (run_state p w)
}.

Lemma reaches_Ret {A} (a : A) w (Q : A → W → Prop) : Q a w → reaches (Ret a) w Q.
Proof. intros HQ. constructor. by exists a. Qed.

Lemma reaches_bind {A B} (p : prog A) (g : A → prog B) w (Q : B → W → Prop) :
  reaches p w (λ a w', reaches (g a) w' Q) → reaches (bind p g) w Q.
Proof.
  intros [Hp]. constructor. revert Hp. unfold run_outcome, run_state, run_trace. rewrite run_bind.
  destruct (run p w) as [[[a|why] t] w1]; cbn; [|intros Hp Ht; by destruct (Hp Ht) as (? & ? & _)].
  destruct (run (g a) w1) as [[o' t'] w2] eqn:Hg. cbn. rewrite Forall_app. intros Hp [Ht Ht'].
  destruct (Hp Ht) as (x & [= <-] & [Hx]). revert Hx. unfold run_outcome, run_state, run_trace. rewrite Hg. cbn. auto.
Qed.

Lemma reaches_mono {A} (p : prog A) w (Q Q' : A → W → Prop) :
  (∀ a w', Q a w' → Q' a w') → reaches p w Q → reaches p w Q'.
Proof. intros HQ [Hp]. constructor. intros Ht. destruct (Hp Ht) as (a & Ha & Hq). exists a. auto. Qed.

(** ** Requests *)

Lemma reaches_call {R B} (q : Api R) (g : R → prog B) w (Q : B → W → Prop) :
  (∀ a w', serve q w = (a, w') → granted (Ev q a) → reaches (g a) w' Q) → reaches (bind (call q) g) w Q.
Proof.
  intros Hq. specialize (Hq _ _ (surjective_pairing (serve q w))). constructor. revert Hq.
  unfold run_outcome, run_state, run_trace, call. cbn [bind run]. destruct (serve q w) as [a w']. cbn [fst snd].
  intros Hq. destruct (run (g a) w') as [[o t] w2] eqn:Hg. cbn. intros [Ha Ht]%Forall_cons. destruct (Hq Ha) as [Hx].
  revert Hx. unfold run_outcome, run_state, run_trace. rewrite Hg. cbn. auto.
Qed.

Lemma same_live w w' : same (shown w) (shown w') → live w → live w'.
Proof. intros Hs Hl k n o. rewrite Hs. apply Hl. Qed.

Lemma live_replaced w w' k n x :
  replaced k n x (shown w) (shown w') → live w →
  (∀ o, x = Some o → finalizable k = false →
     ¬ being_deleted k o ∧ (k ≠ KCollectorConfig → om_Finalizers (obj_meta k o) = [])) → live w'.
Proof.
  intros [Hn Ho] Hl Hx k' n' o' Hs Hf. destruct (decide (k' = k ∧ n' = n)) as [[-> ->]|Hne].
  - apply Hx; [by rewrite <-Hn|done].
  - rewrite Ho in Hs by done. by eapply Hl.
Qed.

(** A request that changes nothing of the objects. *)
Lemma same_changes w w' {R} (q : Api R) a :
  good w → serve q w = (a, w') → writes_dynamic q = false → same (shown w) (shown w') → changes nothing w w'.
Proof.
  intros [Hr Hl] Hs Hq Hsame. destruct (works _ _ _ _ _ Hr Hs) as (Hr' & _ & _ & Hd).
  split_and!; [split; [done|by eapply same_live]|intros k n _; apply Hsame|intros R' q' Hq'; by apply Hd].
Qed.

Lemma get_spec w k n a w' :
  good w → serve (Get k n) w = (a, w') →
  changes nothing w w' ∧
  match shown w k n with
  | Some o => a = Ok o ∧ obj_key k o = n
  | None => a = Err (missing k n)
  end.
Proof.
  intros Hg Hs. destruct (works _ _ _ _ _ (proj1 Hg) Hs) as (_ & Ha & He & _). split; [by eapply same_changes|exact Ha].
Qed.

(** An object the server shows has the name it is shown under. *)
Lemma shown_key w k n o : good w → shown w k n = Some o → obj_key k o = n.
Proof.
  intros Hg Ho. destruct (serve (Get k n) w) as [a w'] eqn:Hs. destruct (get_spec _ _ _ _ _ Hg Hs) as [_ Ha].
  rewrite Ho in Ha. by destruct Ha.
Qed.

Lemma view_get w k n :
  good w → view w _ (Get k n) = match shown w k n with Some o => Ok o | None => Err (missing k n) end.
Proof.
  intros Hg. destruct (serve (Get k n) w) as [a w'] eqn:Hs. destruct (get_spec _ _ _ _ _ Hg Hs) as [_ Ha].
  unfold view. rewrite Hs. cbn. destruct (shown w k n); [by destruct Ha|done].
Qed.

(** A lookup of what did not change answers as before. *)
Definition outside (F : Kind → NamespacedName → Prop) {R} (q : Api R) : Prop :=
  match q with
  | Get k n => ¬ F k n
  | List k _ => ∀ n, ¬ F k n
  | DynGet _ _ | DynList _ => True
  | _ => False
  end.

Lemma view_changes F w w' {R} (q : Api R) : good w → changes F w w' → outside F q → view w' R q = view w R q.
Proof.
  intros Hg (Hg' & Ho & Hd) Hq. destruct q; try done; [| |by apply Hd|by apply Hd].
  - rewrite !view_get by done. by rewrite Ho.
  - apply listed; [apply Hg|apply Hg'|]. intros n. apply Ho, Hq.
Qed.

(** The object after an accepted write: what the server stores for the one sent. *)
Definition put (k : Kind) (old : option (Obj k)) (o o' : Obj k) (w w' : W) : Prop :=
  changes (only k (obj_key k o)) w w' ∧ shown w' k (obj_key k o) = Some o' ∧ kept k old o o' ∧ stores k old o o'.

Lemma replaced_changes w w' {R} (q : Api R) a k n x :
  good w → serve q w = (a, w') → writes_dynamic q = false → replaced k n x (shown w) (shown w') → live w' →
  changes (only k n) w w'.
Proof.
  intros [Hr _] Hs Hq [_ Ho] Hl. destruct (works _ _ _ _ _ Hr Hs) as (Hr' & _ & _ & Hd).
  split_and!; [by split|exact Ho|intros R' q' Hq'; by apply Hd].
Qed.

(** Objects are sent without finalizers, but for those of kinds that may have some. *)
Definition sendable (k : Kind) (o : Obj k) : Prop :=
  finalizable k = false → k ≠ KCollectorConfig → om_Finalizers (obj_meta k o) = [].

Lemma stored_live k old o o' :
  kept k old o o' → sendable k o → (∀ x, old = Some x → ¬ being_deleted k x) → finalizable k = false →
  ¬ being_deleted k o' ∧ (k ≠ KCollectorConfig → om_Finalizers (obj_meta k o') = []).
Proof.
  intros Hk Ho Hold Hf. split.
  - unfold being_deleted. rewrite (kept_deletion _ _ _ _ Hk). destruct old as [x|]; cbn; [by apply Hold|auto].
  - intros Hc. rewrite (kept_finalizers _ _ _ _ Hk Hf). auto.
Qed.

Lemma reaches_create {B} k o (g : result (Obj k) → prog B) w (Q : B → W → Prop) :
  good w → sendable k o → (∀ w' o', put k None o o' w w' → reaches (g (Ok o')) w' Q) →
  reaches (bind (call (Create k o)) g) w Q.
Proof.
  intros Hg Hf Hq. apply reaches_call. intros a w' Hs Ha. destruct a as [o'|e]; [|done].
  destruct (works _ _ _ _ _ (proj1 Hg) Hs) as (_ & _ & (Hn & Hst & Hr) & _). pose proof (stores_kept _ _ _ _ Hst) as Hk.
  apply Hq. split_and!; [|apply Hr|done..]. eapply replaced_changes; [done..|].
  eapply live_replaced; [done|apply Hg|]. intros ? [= <-]. by eapply stored_live.
Qed.

Lemma reaches_update {B} k o (g : result (Obj k) → prog B) w (Q : B → W → Prop) (q : Api (result (Obj k))) old :
  q = Update k o ∨ q = Patch k o →
  good w → sendable k o → shown w k (obj_key k o) = Some old → ¬ being_deleted k old →
  (∀ w' o', put k (Some old) o o' w w' → reaches (g (Ok o')) w' Q) →
  reaches (bind (call q) g) w Q.
Proof.
  intros Hqs Hg Hf Hold Hdel Hq. apply reaches_call. intros a w' Hs Ha.
  destruct a as [o'|e]; [|by destruct Hqs as [->| ->]].
  assert (Hput : stores k (Some old) o o' ∧ replaced k (obj_key k o) (Some o') (shown w) (shown w')).
  { destruct (works _ _ _ _ _ (proj1 Hg) Hs) as (_ & _ & He & _).
    destruct Hqs as [->| ->]; destruct He as (x & Hx & He); rewrite Hold in Hx; injection Hx as <-; auto. }
  destruct Hput as [Hst Hr]. pose proof (stores_kept _ _ _ _ Hst) as Hk.
  apply Hq. split_and!; [|apply Hr|done..].
  eapply replaced_changes; [done..|by destruct Hqs as [->| ->]|done|].
  eapply live_replaced; [done|apply Hg|]. intros ? [= <-]. eapply stored_live; [done..|]. by intros ? [= <-].
Qed.

(** An object of the operator is there to be updated. *)
Lemma live_update w k n o : good w → shown w k n = Some o → finalizable k = false → ¬ being_deleted k o.
Proof. intros [_ Hl] Hs Hf. by destruct (Hl _ _ _ Hs Hf). Qed.

Lemma live_sendable w k n o : good w → shown w k n = Some o → sendable k o.
Proof. intros [_ Hl] Hs Hf Hc. destruct (Hl _ _ _ Hs Hf) as [_ Hn]. auto. Qed.

Lemma reaches_status {B} k o (g : result (Obj k) → prog B) w (Q : B → W → Prop) :
  good w → finalizable k = false → is_Some (shown w k (obj_key k o)) →
  (∀ w' o', changes (only k (obj_key k o)) w w' → shown w' k (obj_key k o) = Some o' → reaches (g (Ok o')) w' Q) →
  reaches (bind (call (StatusUpdate k o)) g) w Q.
Proof.
  intros Hg Hf [x Hx] Hq. apply reaches_call. intros a w' Hs Ha. destruct a as [o'|e]; [|done].
  destruct (works _ _ _ _ _ (proj1 Hg) Hs) as (_ & _ & (old & Hold & He) & _). pose proof (live_update _ _ _ _ Hg Hold Hf) as Hd.
  destruct (He Hd) as (_ & Hfin & Hd' & Hr). apply (Hq _ o'); [|apply Hr]. eapply replaced_changes; [done..|].
  eapply live_replaced; [done|apply Hg|]. intros ? [= <-] _. split; [done|]. rewrite Hfin. by apply (proj2 Hg _ _ _ Hold).
Qed.

Lemma reaches_delete {B} k n (g : option error → prog B) w (Q : B → W → Prop) :
  good w → finalizable k = false → k ≠ KCollectorConfig →
  (∀ w' a, changes (only k n) w w' → shown w' k n = None →
     match a with Some e => IsNotFound e = true ∧ shown w k n = None | None => True end → reaches (g a) w' Q) →
  reaches (bind (call (Delete k n)) g) w Q.
Proof.
  intros Hg Hf Hc Hq. apply reaches_call. intros a w' Hs Ha. destruct (works _ _ _ _ _ (proj1 Hg) Hs) as (_ & _ & He & _).
  destruct a as [e|]; cbn in Ha, He.
  - destruct He as [Hsame Hn]. apply Hq; [|by rewrite Hsame, Hn|auto].
    eapply changes_mono; [|by eapply same_changes]. by intros.
  - destruct He as (old & Hold & Hr). destruct (proj2 Hg _ _ _ Hold Hf) as [_ Hfin]. specialize (Hr (Hfin Hc)).
    apply Hq; [|apply Hr|done]. eapply replaced_changes; [done..|]. by eapply live_replaced; [done|apply Hg|].
Qed.

(** Any request that writes no object. *)
Definition reads_only {R} (q : Api R) : bool :=
  match q with Get _ _ | List _ _ | DynGet _ _ | DynList _ | Now | RandInt _ => true | _ => false end.

Lemma read_spec {R} (q : Api R) w a w' :
  reads_only q = true → good w → serve q w = (a, w') → changes nothing w w' ∧ answer_ok missing (shown w) q a.
Proof.
  intros Hr Hg Hs. destruct (works _ _ _ _ _ (proj1 Hg) Hs) as (_ & Ha & He & _). split; [|done].
  eapply same_changes; [done..| |]; by destruct q.
Qed.

Lemma reaches_read {R B} (q : Api R) (g : R → prog B) w (Q : B → W → Prop) :
  reads_only q = true → good w →
  (∀ w', changes nothing w w' → answer_ok missing (shown w) q (view w R q) → reaches (g (view w R q)) w' Q) →
  reaches (bind (call q) g) w Q.
Proof.
  intros Hr Hg Hq. apply reaches_call. intros a w' Hs _. destruct (read_spec _ _ _ _ Hr Hg Hs) as [Hc Ha].
  assert (a = view w R q) as -> by (unfold view; by rewrite Hs). auto.
Qed.

Lemma reaches_get {B} k n (g : result (Obj k) → prog B) w (Q : B → W → Prop) :
  good w →
  (∀ w', changes nothing w w' →
     match shown w k n with
     | Some o => obj_key k o = n → reaches (g (Ok o)) w' Q
     | None => ∀ e, IsNotFound e = true → reaches (g (Err e)) w' Q
     end) →
  reaches (bind (call (Get k n)) g) w Q.
Proof.
  intros Hg Hq. apply reaches_call. intros a w' Hs _. destruct (get_spec _ _ _ _ _ Hg Hs) as [Hc Ha].
  specialize (Hq w' Hc). destruct (shown w k n); [destruct Ha as [-> ?]; auto|]. subst a.
  apply Hq, missing_IsNotFound.
Qed.
End runs.
