(* ===== verification/ApiMem.v ===== *)
(** An API server in memory that implements [ApiServer]: it assigns identifiers, fills in
    a default of Deployments, keeps the status of the resources that have that subresource
    apart, and lets deletions wait for finalizers. The theorems on servers are evaluated
    on it; none assumes it. *)
From Stdlib Require Import Ascii String.
From S2P Require Import Prelude GoStrings K8s V1alpha1 Effects Interfaces Common Objects MemServer Fixtures Resources ApiServer.

Local Open Scope search_scope.

(** * The server *)

Definition obj_set_meta (k : Kind) (m : ObjectMeta) : Obj k → Obj k :=
  match k with
  | KSearch => s_set_Meta m
  | KCollectorConfig => λ o, mkCC m (cc_Spec o) (cc_Conditions o)
  | KConfigMap => λ o, mkConfigMap m (cm_Data o)
  | KSecret => λ o, mkSecret m (sec_Type o) (sec_StringData o)
  | KService => λ o, mkService m (svc_Ports o) (svc_Selector o)
  | KServiceAccount => λ o, mkServiceAccount m (sa_ImagePullSecrets o)
  | KDeployment => λ o, mkDeployment m (dep_Spec o)
  | KPVC => λ o, mkPVC m (pvc_AccessModes o) (pvc_Requests o) (pvc_StorageClassName o)
  | KPod => λ o, mkPod m (pod_Phase o) (pod_Conditions o)
  | KClusterRole | KRole => λ o, mkClusterRole m (cr_Rules o)
  | KClusterRoleBinding | KRoleBinding => λ o, mkClusterRoleBinding m (crb_RoleRef o) (crb_Subjects o)
  | KNetworkPolicy => λ o, mkNetworkPolicy m (np_Spec o)
  | KServiceMonitor => λ o, mkServiceMonitor m (sm_JobLabel o) (sm_MatchNames o) (sm_Endpoints o) (sm_Selector o)
  | KPrometheusRule => λ o, mkPrometheusRule m (pru_Groups o)
  | KVWC => λ _, mkVWC m
  | KCMA => λ _, mkCMA m
  end.

(** A Deployment without a strategy gets the default one. *)
Definition defaulted (k : Kind) : Obj k → Obj k :=
  match k with
  | KDeployment => λ d,
      let s := dep_Spec d in
      mkDeployment (dep_Meta d) (mkDeploymentSpec (ds_Replicas s) (ds_Selector s) (ds_TemplateLabels s)
        (ds_TemplateAnnotations s) (ds_PodSpec s)
        (if String.eqb (ds_Strategy s) "" then "RollingUpdate" else ds_Strategy s))
  | _ => λ o, o
  end.

(** The object with the status of another one, or with none. *)
Definition with_status (k : Kind) (x : option (Obj k)) : Obj k → Obj k :=
  match k return option (Obj k) → Obj k → Obj k with
  | KSearch => λ x o, s_set_Status (match x with Some s => s_Status s | None => mkSearchStatus "" "" [] end) o
  | KCollectorConfig => λ x o, cc_set_Conditions (match x with Some c => cc_Conditions c | None => [] end) o
  | _ => λ _ o, o
  end x.

Definition identified (old : option ObjectMeta) (m : ObjectMeta) : ObjectMeta :=
  mkMeta (om_Name m) (om_Namespace m) (om_Labels m) (om_Annotations m) (om_OwnerReferences m) (om_Finalizers m)
    (old ≫= om_DeletionTimestamp) (match old with Some x => om_UID x | None => "uid of " +:+ om_Name m end).

(** What is stored for the object [o] in the place of [old]. *)
Definition admit_object (k : Kind) (old : option (Obj k)) (o : Obj k) : Obj k :=
  with_status k old (defaulted k (obj_set_meta k (identified (obj_meta k <$> old) (obj_meta k o)) o)).

Definition deleting_meta (now : Time) (m : ObjectMeta) : ObjectMeta :=
  mkMeta (om_Name m) (om_Namespace m) (om_Labels m) (om_Annotations m) (om_OwnerReferences m) (om_Finalizers m)
    (Some now) (om_UID m).

Record ApiMem := mkApi { api_mem : MemServer }.

Section serve.
Context (w : MemServer).

Definition storing {R} (s : Store) (a : R) : R * ApiMem := (a, mkApi (mkServer s (ms_dyn w) (ms_clock w) [])).

Definition api_update (k : Kind) (f : Obj k → Obj k) (n : NamespacedName) : result (Obj k) * ApiMem :=
  match ms_store w k !! n with
  | None => storing (ms_store w) (Err notFound)
  | Some old => storing (store_put k (f old) (ms_store w)) (Ok (f old))
  end.

Definition api_serve {R} (q : Api R) : R * ApiMem :=
  match q in Api R return R * ApiMem with
  | Create k o =>
      match ms_store w k !! obj_key k o with
      | Some _ => storing (ms_store w) (Err alreadyExists)
      | None => storing (store_put k (admit_object k None o) (ms_store w)) (Ok (admit_object k None o))
      end
  | Update k o | Patch k o => api_update k (λ old, admit_object k (Some old) o) (obj_key k o)
  | StatusUpdate k o => api_update k (with_status k (Some o)) (obj_key k o)
  | Delete k n =>
      match ms_store w k !! n with
      | None => storing (ms_store w) (Some notFound)
      | Some o =>
          if bool_decide (om_Finalizers (obj_meta k o) = []) then storing (store_alter k (delete n) (ms_store w)) None
          else storing (store_put k (obj_set_meta k (deleting_meta (ms_clock w) (obj_meta k o)) o) (ms_store w)) None
      end
  | q => let '(a, w') := serve_ok w q in (a, mkApi w')
  end.
End serve.

#[export] Instance apiServe : Server ApiMem := λ R q w, api_serve (api_mem w) q.

(** * It implements the interface *)

Definition mem_reachable (w : ApiMem) : Prop :=
  ms_faults (api_mem w) = [] ∧ ∀ k n o, ms_store (api_mem w) k !! n = Some o → obj_key k o = n.

Lemma meta_set k m o : obj_meta k (obj_set_meta k m o) = m.
Proof. by destruct k. Qed.
Lemma meta_defaulted k o : obj_meta k (defaulted k o) = obj_meta k o.
Proof. by destruct k. Qed.
Lemma meta_status k x o : obj_meta k (with_status k x o) = obj_meta k o.
Proof. by destruct k. Qed.
Lemma meta_admit k old o : obj_meta k (admit_object k old o) = identified (obj_meta k <$> old) (obj_meta k o).
Proof. unfold admit_object. by rewrite meta_status, meta_defaulted, meta_set. Qed.

Lemma admit_key k old o : obj_key k (admit_object k old o) = obj_key k o.
Proof. unfold obj_key. by rewrite meta_admit. Qed.

Lemma admit_again k old o : admit_object k (Some (admit_object k old o)) o = admit_object k old o.
Proof.
  unfold admit_object at 1. cbn [fmap option_fmap option_map]. rewrite meta_admit. unfold admit_object.
  assert (Hid : identified (Some (identified (obj_meta k <$> old) (obj_meta k o))) (obj_meta k o) =
    identified (obj_meta k <$> old) (obj_meta k o)).
  { unfold identified. cbn. done. }
  rewrite Hid. by destruct k; destruct old.
Qed.

Lemma admit_kept k old o : kept k old o (admit_object k old o).
Proof.
  split.
  - apply admit_key.
  - intros _. by rewrite meta_admit.
  - rewrite meta_admit. by destruct old.
  - destruct k; try done. intros s ->. split_and!; [done|by destruct o as [? ? []]|done|done].
Qed.

Lemma store_put_replaced k o (s : Store) :
  replaced k (obj_key k o) (Some o) (λ k' n, s k' !! n) (λ k' n, store_put k o s k' !! n).
Proof.
  unfold store_put, store_alter. split.
  - rewrite (decide_True_pi eq_refl). apply lookup_insert_eq.
  - intros k' n' Hn. destruct (decide (k = k')) as [<-|]; [|done]. apply lookup_insert_ne. naive_solver.
Qed.

Lemma store_delete_replaced k n (s : Store) :
  replaced k n None (λ k' n', s k' !! n') (λ k' n', store_alter k (delete n) s k' !! n').
Proof.
  unfold store_alter. split.
  - rewrite (decide_True_pi eq_refl). apply lookup_delete_eq.
  - intros k' n' Hn. destruct (decide (k = k')) as [<-|]; [|done]. apply lookup_delete_ne. naive_solver.
Qed.

(** A replacement keeps the names. *)
Lemma replaced_keys k n x (s s' : Store) :
  replaced k n x (λ k n, s k !! n) (λ k n, s' k !! n) → (∀ o, x = Some o → obj_key k o = n) →
  (∀ k n o, s k !! n = Some o → obj_key k o = n) → ∀ k n o, s' k !! n = Some o → obj_key k o = n.
Proof.
  intros [Hn Ho] Hx Hs k' n' o Hl. destruct (decide (k' = k ∧ n' = n)) as [[-> ->]|Hne].
  - apply Hx. by rewrite <-Hn, Hl.
  - specialize (Ho k' n' Hne). cbv beta in Ho. rewrite Ho in Hl. by apply Hs.
Qed.

Lemma mem_list_shown k o (s : Store) :
  (∀ n x, s k !! n = Some x → obj_key k x = n) → Forall (λ x, is_Some (s k !! obj_key k x)) (mem_list k o s).
Proof.
  intros Hk. apply Forall_forall. intros x. unfold mem_list. intros Hx.
  apply list_elem_of_In, List.filter_In in Hx as [Hx _]. apply list_elem_of_In in Hx.
  apply list_elem_of_fmap in Hx as ([n y] & -> & Hy). apply elem_of_map_to_list in Hy. cbn.
  rewrite (Hk _ _ Hy). by eexists.
Qed.

#[export, refine] Instance apiMem : ApiServer ApiMem :=
  {| reachable := mem_reachable; shown w k n := ms_store (api_mem w) k !! n; missing _ _ := notFound;
     stores k old o o' := o' = admit_object k old o |}.
Proof.
  { done. }
  { intros k old o o' ->. apply admit_kept. }
  { intros k old o o1 o2 -> ->. apply admit_again. }
  { intros w w' k o _ _ Hs. unfold serve, apiServe. cbn. unfold mem_list.
    assert (ms_store (api_mem w') k = ms_store (api_mem w) k) as -> by (apply map_eq; exact Hs). done. }
  intros R q [w] a w' [Hf Hk] Hs. unfold serve, apiServe in Hs. cbn [api_mem] in *.
  assert (Hall : mem_reachable w' ∧ answer_ok (λ _ _, notFound) (λ k n, ms_store w k !! n) q a ∧
    effect (λ k old o o', o' = admit_object k old o) (λ k n, ms_store w k !! n) (λ k n, ms_store (api_mem w') k !! n) q a ∧
    (writes_dynamic q = false → ms_dyn (api_mem w') = ms_dyn w)).
  2: { destruct Hall as (Hr & Ha & He & Hd). split_and!; [done..|]. intros Hq R' q' Hq'.
       destruct q'; try discriminate Hq'; unfold serve, apiServe; cbn; by rewrite Hd. }
  assert (Hput : ∀ k n o, obj_key k o = n → mem_reachable (mkApi (mkServer (store_put k o (ms_store w)) (ms_dyn w) (ms_clock w) []))).
  { intros k n o <-. split; [done|]. apply (replaced_keys k (obj_key k o) (Some o) (ms_store w)); [apply store_put_replaced| |done].
    by intros ? [= <-]. }
  destruct q as [k n|k o|k o|k o|k o|k o|k n|r n|r|r ns u|r ns u|r n| |b]; cbn [api_serve serve_ok] in Hs;
    unfold api_update, storing in Hs.
  - simplify_eq. split_and!; [done|cbn; destruct (_ !! n) eqn:Hn; eauto|done..].
  - simplify_eq. split_and!; [done| |done..]. eexists. split; [done|]. apply mem_list_shown. auto.
  - destruct (ms_store w k !! obj_key k o) eqn:Hx; simplify_eq; [by split_and!|].
    split_and!; [by eapply Hput|done| |done]. cbn. split_and!; [done..|].
    rewrite <-(admit_key k None o). apply store_put_replaced.
  - destruct (ms_store w k !! obj_key k o) as [old|] eqn:Hx; simplify_eq; [|by split_and!].
    split_and!; [by eapply Hput|done| |done]. exists old. split; [done|]. intros _. split; [done|].
    rewrite <-(admit_key k (Some old) o). apply store_put_replaced.
  - destruct (ms_store w k !! obj_key k o) as [old|] eqn:Hx; simplify_eq; [|by split_and!].
    split_and!; [by eapply Hput|done| |done]. exists old. split; [done|]. intros _. split; [done|].
    rewrite <-(admit_key k (Some old) o). apply store_put_replaced.
  - destruct (ms_store w k !! obj_key k o) as [old|] eqn:Hx; simplify_eq; [|by split_and!].
    assert (Hko : obj_key k (with_status k (Some o) old) = obj_key k o).
    { rewrite <-(Hk _ _ _ Hx). unfold obj_key. by rewrite meta_status. }
    split_and!; [by eapply Hput|done| |done]. exists old. split; [done|]. intros Hd. split; [done|].
    unfold being_deleted. rewrite meta_status. split_and!; [done..|]. rewrite <-Hko at 1. apply store_put_replaced.
  - destruct (ms_store w k !! n) as [old|] eqn:Hx; [|simplify_eq; by split_and!].
    case_bool_decide as Hfin; simplify_eq.
    + split_and!; [|done| |done].
      * split; [done|]. by apply (replaced_keys k n None (ms_store w)); [apply store_delete_replaced| |].
      * exists old. split; [done|]. intros _. apply store_delete_replaced.
    + split_and!; [|done| |done]; [|by exists old].
      apply (Hput k n). rewrite <-(Hk _ _ _ Hx). unfold obj_key. by rewrite meta_set.
  - simplify_eq. by split_and!.
  - simplify_eq. by split_and!.
  - destruct (find_first _ _); simplify_eq; by split_and!.
  - destruct (find_first _ _); simplify_eq; by split_and!.
  - destruct (find_first _ _); simplify_eq; by split_and!.
  - simplify_eq. by split_and!.
  - simplify_eq. split_and!; first [done|by cbn].
Defined.
