(* ===== verification/Steps.v ===== *)
(** The operations of [Resources], of the merge and of the clean-up on an API server:
    if its writes are granted, each one ends, reports success, leaves the object it is
    about as desired and changes no other. *)
From Stdlib Require Import Ascii String.
From S2P Require Import Prelude GoStrings K8s V1alpha1 Effects Interfaces Selectors MemServer Fixtures ImageValidation Common CollectorMerge PostgresConfig Deployments Objects Networks TLS SearchCR Features Status Addon Resources Seeder Reconciler ApiServer Rollout Established Quiescence.

Local Open Scope search_scope.

(** * Slots: an object of the cluster and what is wanted of it, absence included *)

Record Slot := mkSlot {
  sl_kind : Kind; sl_key : NamespacedName; sl_ok : option (Obj sl_kind) → Prop
}.

Definition slot_of (d : Desired) : Slot := mkSlot (d_kind d) (d_key d) (λ x, ∃ o, x = Some o ∧ d_ok d o).
Definition absent (k : Kind) (n : NamespacedName) : Slot := mkSlot k n (λ x, x = None).

(** An account with at most one pull secret is not written to. *)
Definition account (n : NamespacedName) : Slot :=
  mkSlot KServiceAccount n (λ x, ∃ sa, x = Some sa ∧ length (sa_ImagePullSecrets sa) ≤ 1).
Definition rule (r : PrometheusRule) : Slot :=
  mkSlot KPrometheusRule (keyOf (pru_Meta r)) (λ x, ∃ o, x = Some o ∧ pru_Groups o = pru_Groups r).

(** The webhook configuration, when there is one, asks for the CA bundle. *)
Definition webhookCA : Slot :=
  mkSlot KVWC (mkNN webhookConfigName "")
    (λ x, ∀ w, x = Some w → get_str (om_Annotations (vwc_Meta w)) caInjectionAnnotation = "true").

Section slots.
Context `{ApiServer W}.

(** The server holds a Deployment that equals the desired one, or what it made of it. *)
Definition deployed `{DeploymentSpecEquality} (d : Deployment) : Slot :=
  mkSlot KDeployment (keyOf (dep_Meta d)) (λ x, ∃ o, x = Some o ∧
    (SpecDeepEqual (dep_Spec o) (dep_Spec d) = true ∨ ∃ old, stores KDeployment old d o)).

Definition filled (w : W) (sl : Slot) : Prop := sl_ok sl (shown w (sl_kind sl) (sl_key sl)).

(** From [w] to [w'] the slot was filled and nothing else was touched. *)
Definition became (sl : Slot) (w w' : W) : Prop := changes (only (sl_kind sl) (sl_key sl)) w w' ∧ filled w' sl.

Definition settles {A} (s : prog A) (a : A) (sl : Slot) : Prop :=
  ∀ w, good w → reaches s w (λ r w', r = a ∧ became sl w w').

Lemma changes_nothing F w w' : changes nothing w w' → changes F w w'.
Proof. apply changes_mono. by intros. Qed.

Lemma changes_shown F w w' k n : changes F w w' → ¬ F k n → shown w' k n = shown w k n.
Proof. intros (_ & Ho & _). apply Ho. Qed.

Lemma unchanged_shown w w' k n : changes nothing w w' → shown w' k n = shown w k n.
Proof. intros Hc. apply (changes_shown _ _ _ _ _ Hc). by intros []. Qed.

Lemma became_same sl w w' : changes nothing w w' → filled w sl → became sl w w'.
Proof.
  intros Hc Hf. split; [by apply changes_nothing|]. unfold filled. by rewrite (unchanged_shown _ _ _ _ Hc).
Qed.

Lemma became_put sl old o o' w w1 w2 :
  changes (only (sl_kind sl) (sl_key sl)) w w1 → put (sl_kind sl) old o o' w1 w2 →
  obj_key _ o = sl_key sl → (kept (sl_kind sl) old o o' → stores (sl_kind sl) old o o' → sl_ok sl (Some o')) →
  became sl w w2.
Proof.
  intros Hc (Hc2 & Hs & Hkept & Hst) Hk Ho. rewrite Hk in Hc2, Hs. split; [by eapply changes_trans|].
  unfold filled. rewrite Hs. auto.
Qed.

Lemma settled_Ret {A} (a : A) sl w w' : became sl w w' → reaches (Ret a) w' (λ r w2, r = a ∧ became sl w w2).
Proof. intros Hb. by apply reaches_Ret. Qed.
End slots.
#[export] Hint Resolve changes_good changes_nothing : search.

(** The first request: an object is looked up. *)
Tactic Notation "look" ident(w1) ident(Hc) ident(o) ident(Hs) ident(Hk) :=
  apply reaches_get; [by eauto with search|]; intros w1 Hc;
  match goal with |- match ?x with _ => _ end => destruct x as [o|] eqn:Hs end; [intros Hk|intros ? ->].

Section steps.
Context `{ApiServer W}.
Context `{SemanticEquality smap} `{SemanticEquality NetworkPolicySpec}.
Context `{SemanticEquality (list OwnerReference)} `{SemanticEquality (list PolicyRule)}.
Context `{SemanticEquality RoleRef} `{SemanticEquality (list Subject)}.
Context `{SemanticEquality (list RuleGroup)} `{DeploymentSpecEquality}.

(** A missing object is created. *)
Lemma settles_create {A} sl o (a : A) (g : result (Obj (sl_kind sl)) → prog A) w w1 :
  good w → changes nothing w w1 → sendable _ o → obj_key _ o = sl_key sl →
  (∀ o', kept _ None o o' → stores _ None o o' → sl_ok sl (Some o')) → (∀ o', g (Ok o') = Ret a) →
  reaches (bind (call (Create (sl_kind sl) o)) g) w1 (λ r w', r = a ∧ became sl w w').
Proof.
  intros Hg Hc Hf Hk Ho Hgo. apply reaches_create; [by eauto with search|done|].
  intros w2 o' Hp. rewrite Hgo. apply settled_Ret. eapply became_put; [by apply changes_nothing|done..|auto].
Qed.

(** An object that differs is updated. *)
Lemma settles_update {A} sl found o (a : A) (g : result (Obj (sl_kind sl)) → prog A) w w1 :
  good w → changes nothing w w1 → shown w (sl_kind sl) (sl_key sl) = Some found →
  finalizable (sl_kind sl) = false → sendable _ o → obj_key _ o = sl_key sl →
  (∀ o', kept _ (Some found) o o' → stores _ (Some found) o o' → sl_ok sl (Some o')) → (∀ o', g (Ok o') = Ret a) →
  reaches (bind (call (Update (sl_kind sl) o)) g) w1 (λ r w', r = a ∧ became sl w w').
Proof.
  intros Hg Hc Hn Hfin Hf Hk Ho Hgo. apply (reaches_update _ o _ _ _ _ found); [by left|by eauto with search|done| | |].
  - by rewrite Hk, (unchanged_shown _ _ _ _ Hc).
  - by eapply live_update.
  - intros w2 o' Hp. rewrite Hgo. apply settled_Ret. eapply became_put; [by apply changes_nothing|done..|auto].
Qed.

Lemma settles_createIfAbsent strict k x :
  sendable k x → settles (createIfAbsent strict k x) stepOk (slot_of (present k (obj_key k x))).
Proof.
  intros Hf w Hg. unfold createIfAbsent. look w1 Hc o Hs Hk.
  - apply settled_Ret, became_same; [done|]. unfold filled. cbn. rewrite Hs. by eexists.
  - eapply (settles_create (slot_of (present k (obj_key k x)))); try done. by eexists.
Qed.

Lemma settles_serviceAccount sa :
  length (sa_ImagePullSecrets sa) ≤ 1 → om_Finalizers (sa_Meta sa) = [] →
  settles (createSearchServiceAccount sa) stepOk (account (keyOf (sa_Meta sa))).
Proof.
  intros Hl Hf w Hg.
  assert (Hok : ∀ old o', kept KServiceAccount old sa o' → sl_ok (account (keyOf (sa_Meta sa))) (Some o')).
  { intros old o' [_ _ _ Hp]. exists o'. split; [done|]. cbn in Hp. by rewrite Hp. }
  unfold createSearchServiceAccount. cbv zeta. look w1 Hc o Hs Hk.
  - destruct (Nat.ltb_spec 1 (length (sa_ImagePullSecrets o))).
    + eapply (settles_update (account (keyOf (sa_Meta sa)))); try done; first [intros _ _; exact Hf|intros o' Hk' _; by eapply Hok].
    + apply settled_Ret, became_same; [done|]. unfold filled. cbn. rewrite Hs. by eexists.
  - eapply (settles_create (account (keyOf (sa_Meta sa)))); try done; first [intros _ _; exact Hf|intros o' Hk' _; by eapply Hok].
Qed.

Lemma settles_roles cr : om_Finalizers (cr_Meta cr) = [] → settles (createUpdateRoles cr) stepOk (slot_of (role cr)).
Proof.
  intros Hf w Hg. unfold createUpdateRoles. look w1 Hc o Hs Hk.
  - destruct (DeepEqual _ _) eqn:Heq; cbn [negb].
    + apply settled_Ret, became_same; [done|]. unfold filled. cbn. rewrite Hs. eexists. split; [done|].
      by apply DeepEqual_spec.
    + eapply (settles_update (slot_of (role cr))); try done; [exact (live_sendable _ _ _ _ Hg Hs)|].
      intros o' [_ _ _ Hr] _. by eexists.
  - eapply (settles_create (slot_of (role cr))); try done; [intros _ _; exact Hf|]. intros o' [_ _ _ Hr] _. by eexists.
Qed.

Lemma settles_binding rb :
  binding_spelled_out rb → om_Finalizers (crb_Meta rb) = [] → settles (createRoleBinding rb) stepOk (slot_of (binding rb)).
Proof.
  intros Hso Hf w Hg.
  assert (Hok : ∀ old o', kept KClusterRoleBinding old rb o' → sl_ok (slot_of (binding rb)) (Some o')).
  { intros old o' [_ _ _ Hm]. exists o'. split; [done|]. by apply Hm. }
  unfold createRoleBinding. look w1 Hc o Hs Hk.
  - destruct (DeepEqual (crb_RoleRef _) _) eqn:Hr; cbn [negb].
    + apply (proj1 (DeepEqual_spec _ _)) in Hr. destruct (DeepEqual (crb_Subjects _) _) eqn:Hsub; cbn [negb].
      * apply settled_Ret, became_same; [done|]. unfold filled. cbn. rewrite Hs. eexists. split; [done|].
        split; [done|by apply DeepEqual_spec].
      * eapply (settles_update (slot_of (binding rb))); try done; [exact (live_sendable _ _ _ _ Hg Hs)|].
        intros o' [_ _ _ Hm] _. exists o'. split; [done|]. destruct Hm as [Hm1 Hm2].
        { unfold binding_spelled_out in *. cbn. by rewrite Hr. }
        split; [by rewrite Hm1; cbn|by rewrite Hm2].
    + apply reaches_delete; [by eauto with search|done..|]. intros w2 a Hc2 Hn Ha.
      change (keyOf (crb_Meta o) = keyOf (crb_Meta rb)) in Hk. rewrite Hk in Hc2, Hn, Ha.
      destruct a as [e|].
      { destruct Ha as [_ Ha]. rewrite (unchanged_shown w w1) in Ha by done. by rewrite Hs in Ha. }
      apply reaches_create; [by eauto with search|intros _ _; exact Hf|]. intros w3 o' Hp. apply settled_Ret.
      eapply (became_put (slot_of (binding rb))); [|exact Hp|done|intros Hkept _; by eapply Hok].
      eapply changes_trans; [by apply changes_nothing|exact Hc2].
  - eapply (settles_create (slot_of (binding rb))); try done; first [intros _ _; exact Hf|intros o' Hk' _; by eapply Hok].
Qed.

Lemma settles_deployment d : om_Finalizers (dep_Meta d) = [] → settles (createOrUpdateDeployment d) stepOk (deployed d).
Proof.
  intros Hf. assert (Hd : ∀ old o', stores KDeployment old d o' → sl_ok (deployed d) (Some o'))
    by (intros old o' Hst; exists o'; split; [done|right; by exists old]).
  intros w Hg. unfold createOrUpdateDeployment. look w1 Hc o Hs Hk.
  - destruct (SpecDeepEqual _ _) eqn:Heq; cbn [negb].
    + apply settled_Ret, became_same; [done|]. unfold filled. cbn. rewrite Hs. eexists. split; [done|by left].
    + eapply (settles_update (deployed d)); try done; first [intros _ _; exact Hf|intros o' _ Hst; by eapply Hd].
  - eapply (settles_create (deployed d)); try done; first [intros _ _; exact Hf|intros o' _ Hst; by eapply Hd].
Qed.

Lemma settles_policy np :
  policy_spelled_out np → om_Finalizers (np_Meta np) = [] →
  settles (createOrUpdateNetworkPolicy np) stepOk (slot_of (policy np)).
Proof.
  intros Hso Hf w Hg. unfold createOrUpdateNetworkPolicy. look w1 Hc o Hs Hk.
  - cbv zeta. destruct (_ || _) eqn:Hq.
    + eapply (settles_update (slot_of (policy np))); try done.
      * exact (live_sendable _ _ _ _ Hg Hs).
      * intros o' [_ _ _ Hm] _. exists o'. split; [done|]. by apply Hm.
    + apply settled_Ret, became_same; [done|]. unfold filled. cbn. rewrite Hs. eexists. split; [done|].
      apply orb_false_elim in Hq as [[Ha%negb_false_iff Hb%negb_false_iff]%orb_false_elim Hd%negb_false_iff].
      apply (proj1 (DeepEqual_spec _ _)) in Ha. apply (proj1 (DeepEqual_spec _ _)) in Hb.
      by apply (proj1 (DeepEqual_spec _ _)) in Hd.
  - eapply (settles_create (slot_of (policy np))); try done; [intros _ _; exact Hf|]. intros o' [_ _ _ Hm] _. exists o'. split; [done|]. by apply Hm.
Qed.

Lemma settles_rule r : om_Finalizers (pru_Meta r) = [] → settles (createOrUpdatePrometheusRule r) stepOk (rule r).
Proof.
  intros Hf w Hg. unfold createOrUpdatePrometheusRule. look w1 Hc o Hs Hk.
  - destruct (DeepEqual _ _) eqn:Heq; cbn [negb].
    + apply settled_Ret, became_same; [done|]. unfold filled. cbn. rewrite Hs. eexists. split; [done|].
      by apply DeepEqual_spec.
    + eapply (settles_update (rule r)); try done; [exact (live_sendable _ _ _ _ Hg Hs)|]. intros o' [_ _ _ Hm] _. by eexists.
  - eapply (settles_create (rule r)); try done; [intros _ _; exact Hf|]. intros o' [_ _ _ Hm] _. by eexists.
Qed.

Lemma settles_webhookCA : settles ensureWebhookCAInjection None webhookCA.
Proof.
  intros w Hg. unfold ensureWebhookCAInjection. look w1 Hc o Hs Hk.
  - destruct (String.eqb_spec (get_str (om_Annotations (vwc_Meta o)) caInjectionAnnotation) "true") as [Ha|Ha].
    + apply settled_Ret, became_same; [done|]. unfold filled. cbn. rewrite Hs. by intros ? [= <-].
    + cbv zeta. eapply (settles_update webhookCA); try done; [exact (live_sendable _ _ _ _ Hg Hs)|].
      intros o' [_ _ _ Hm] _. cbn in Hm |- *. intros ? [= <-]. unfold get_str. rewrite Hm. cbn. by rewrite lookup_insert_eq.
  - apply settled_Ret, became_same; [done|]. unfold filled. cbn. by rewrite Hs.
Qed.

Lemma settles_delete k n :
  finalizable k = false → k ≠ KCollectorConfig → settles (deleteObject k n) None (absent k n).
Proof.
  intros Hf Hk w Hg. unfold deleteObject. apply reaches_delete; [done..|]. intros w' a Hc Hn Ha.
  destruct a as [e|]; [destruct Ha as [-> _]|]; by apply settled_Ret.
Qed.
End steps.

(** * Programs that only look things up *)

Section lookups.
Context `{ApiServer W}.

(** No execution panics. *)
Definition total {A} (p : prog A) : Prop := ∀ t o, exec p t o → ∃ a, o = Done a.

(** Whose requests all are lookups of inputs: what satisfies [P]. *)
Definition looks (P : ∀ R, Api R → Prop) {A} (p : prog A) : Prop :=
  issues (λ R q, reads_only q = true ∧ P R q) p ∧ total p.

Lemma reaches_lookups (P : ∀ R, Api R → Prop) {A} (p : prog A) w v :
  good w → looks P p →
  (∀ R (q : Api R), P R q → outside nothing q) →
  (∀ R (q : Api R), P R q → view w R q = v R q) →
  reaches p w (λ a w', changes nothing w w' ∧ answers v p a).
Proof.
  intros Hg [Hi Ht] HP Hv. revert w Hg Hi Ht Hv. induction p as [a|e|R q f IH]; intros w Hg Hi Ht Hv.
  - apply reaches_Ret. split; [by apply changes_refl|]. exists []. split; [constructor|by apply Forall_nil].
  - destruct (Ht [] (Crashed e)) as [a Ha]; [constructor|done].
  - assert (Hq : reads_only q = true ∧ P R q).
    { destruct (eval v (f (v R q))) as [o t] eqn:He.
      assert (Hex : exec (Op q f) (Ev q (v R q) :: t) o).
      { constructor. destruct (eval_exec v (f (v R q))) as [Hex _]. by rewrite He in Hex. }
      by apply Hi, Forall_cons in Hex as [? _]. }
    destruct Hq as [Hr HPq]. apply (reaches_read q f w); [done..|]. intros w' Hc _.
    eapply reaches_mono; [|eapply IH].
    + intros a w2 [Hc2 (t & He & Hct)]. split; [by eapply changes_trans|].
      exists (Ev q (view w R q) :: t). split; [by constructor|]. apply Forall_cons. split; [|done].
      intros _. by apply Hv.
    + by eauto with search.
    + intros t o He. specialize (Hi (Ev q (view w R q) :: t) o).
      apply (Forall_cons_1 _ (Ev q (view w R q))), Hi. by constructor.
    + intros t o He. apply (Ht (Ev q (view w R q) :: t)). by constructor.
    + intros R' q' Hq'. rewrite (view_changes nothing w); auto.
Qed.
End lookups.

Lemma total_wp {A} (p : prog A) : wp no_guarantee p returns → total p.
Proof. intros Hp t o He. by apply (wp_exec _ _ _ _ _ Hp He). Qed.

(** * The steps that are more than one object *)

Section compound.
Context `{ApiServer W}.
Context `{Environ} `{Quantities} `{ControllerUtilLaws} `{NestedFields} `{TLSLibrary} `{StatusConditions}.
Context `{SemanticEquality CollectorConfigSpec} `{SemanticEquality smap} `{SemanticEquality NetworkPolicySpec}.
Context `{SemanticEquality (list OwnerReference)} `{SemanticEquality (list PolicyRule)}.
Context `{SemanticEquality RoleRef} `{SemanticEquality (list Subject)}.
Context `{SemanticEquality (list RuleGroup)} `{DeploymentSpecEquality}.
Context (sha256 : string → list Byte.byte).

(** A part that changes nothing before a step. *)
Lemma settles_after {A} (p : prog A) (g : A → prog stepResult) sl :
  (∀ w, good w → reaches p w (λ a w', changes nothing w w' ∧ settles (g a) stepOk sl)) → settles (bind p g) stepOk sl.
Proof.
  intros Hp w Hg. apply reaches_bind. eapply reaches_mono; [|by apply Hp]. cbv beta. intros a w1 [Hc Ha].
  eapply reaches_mono; [|apply Ha; by eauto with search]. cbv beta. intros r w2 [-> [Hc2 Hf]].
  split; [done|]. split; [|done]. eapply changes_trans; [by apply changes_nothing|done].
Qed.

Lemma reaches_generatePass n w : good w → reaches (generatePass n) w (λ _ w', changes nothing w w').
Proof.
  revert w. induction n as [|n IH]; intros w Hg; cbn [generatePass].
  - apply reaches_Ret. by apply changes_refl.
  - apply reaches_read; [done..|]. intros w1 Hc Hi. cbn [answer_ok] in Hi.
    destruct (get_in_range (view w _ (RandInt (String.length passChars))) passChars) as [c ->].
    { apply Hi. by apply Nat.ltb_lt. }
    apply reaches_bind. eapply reaches_mono; [|apply IH; by eauto with search]. cbv beta. intros rest w2 Hc2.
    apply reaches_Ret. by eapply changes_trans.
Qed.

Lemma settles_secret name user s :
  settles (secret <- dbSecret name user s ;; createSecret secret) stepOk
    (slot_of (present KSecret (mkNN name (s_Namespace s)))).
Proof.
  apply settles_after. intros w Hg. unfold dbSecret. apply reaches_bind.
  eapply reaches_mono; [|by apply reaches_generatePass]. cbv beta. intros pw w1 Hc. apply reaches_Ret.
  split; [done|].
  match goal with |- settles (createSecret ?x) _ _ => pose proof (settles_createIfAbsent true KSecret x) as Hs end.
  unfold obj_key in Hs. cbn [obj_meta sec_Meta] in Hs. rewrite withOwner_Name, withOwner_namespace in Hs.
  apply Hs. intros _ _. apply withOwner_Finalizers.
Qed.

(** Building a service account that is owned never fails. *)
Lemma ownedServiceAccount_Ok name s :
  ∃ sa, ownedServiceAccount name s = Ok sa ∧ keyOf (sa_Meta sa) = mkNN name (s_Namespace s) ∧
    sa_ImagePullSecrets sa = [] ∧ om_Finalizers (sa_Meta sa) = [].
Proof.
  unfold ownedServiceAccount.
  destruct (SetControllerReference_free s (newMeta name (s_Namespace s))) as [m Hm]; [done..|]. rewrite Hm.
  eexists. split; [done|]. apply SetControllerReference_ok in Hm as [-> _]. done.
Qed.

(** ** The volume claim *)

Definition claimKey (s : Search) : NamespacedName :=
  mkNN (getPVCName (ss_StorageClassName (sp_DBStorage (s_Spec s)))) (s_Namespace s).

Lemma settles_claim s :
  settles (present <- isPVCPresent s ;; if negb present then configurePVC s else Ret true) true
    (slot_of (present_or_unread KPVC (claimKey s))).
Proof.
  intros w Hg. unfold isPVCPresent, configurePVC, createPVC. apply reaches_bind. fold (claimKey s). look w1 Hc o Hs Hk.
  - apply reaches_Ret. cbn [negb]. apply settled_Ret, became_same; [done|]. unfold filled. cbn. rewrite Hs. by eexists.
  - apply reaches_Ret. cbn [negb]. apply reaches_bind. cbv zeta.
    apply reaches_get; [by eauto with search|]. intros w2 Hc2.
    rewrite (unchanged_shown w w1), Hs by done. intros e' ->.
    apply reaches_create; [by eauto with search|done|].
    intros w3 o' Hp. apply reaches_Ret. apply settled_Ret.
    eapply (became_put (slot_of (present_or_unread KPVC (claimKey s)))); [|exact Hp|done|by eexists].
    apply changes_nothing. by eapply changes_trans.
Qed.

(** ** The policies *)

Lemma reaches_steps nps w :
  good w → Forall (λ np, policy_spelled_out np ∧ om_Finalizers (np_Meta np) = []) nps → NoDup (map (λ np, keyOf (np_Meta np)) nps) →
  reaches (runSteps (map createOrUpdateNetworkPolicy nps)) w (λ r w', r = stepOk ∧
    changes (λ k n, k = KNetworkPolicy ∧ n ∈ map (λ np, keyOf (np_Meta np)) nps) w w' ∧
    Forall (λ np, filled w' (slot_of (policy np))) nps).
Proof.
  revert w. induction nps as [|np nps IH]; intros w Hg Hso Hnd; cbn [map runSteps].
  - apply reaches_Ret. split; [done|]. split; [by apply changes_refl|by apply Forall_nil].
  - apply NoDup_cons in Hnd as [Hn Hnd]. apply Forall_cons in Hso as [[Hnp Hfin] Hso]. apply reaches_bind.
    eapply reaches_mono; [|by apply settles_policy].
    cbv beta. intros r w1 [-> [Hc Hf]]. unfold stepOk at 1. eapply reaches_mono; [|apply IH; by eauto with search].
    cbv beta. intros r w2 (-> & Hc2 & Hf2). split; [done|]. split.
    + eapply changes_trans; (eapply changes_mono; [|eassumption]); cbn.
      * intros k n [-> ->]. split; [done|left].
      * intros k n [-> ?]. split; [done|by right].
    + apply Forall_cons. split; [|done]. unfold filled. rewrite (changes_shown _ _ _ _ _ Hc2); [exact Hf|].
      cbn. by intros [_ ?].
Qed.

(** ** The merge *)

Definition ccs : Kind → NamespacedName → Prop := λ k _, k = KCollectorConfig.

(** CollectorConfigs that are there stay there. *)
Definition keeps_ccs (w w' : W) : Prop :=
  changes ccs w w' ∧ ∀ n, is_Some (shown w KCollectorConfig n) → is_Some (shown w' KCollectorConfig n).

Lemma keeps_trans w1 w2 w3 : keeps_ccs w1 w2 → keeps_ccs w2 w3 → keeps_ccs w1 w3.
Proof. intros [Hc Hk] [Hc2 Hk2]. split; [by eapply changes_trans|auto]. Qed.

Lemma keeps_unchanged w w' : changes nothing w w' → keeps_ccs w w'.
Proof. intros Hc. split; [by apply changes_nothing|]. intros n. by rewrite (unchanged_shown w w'). Qed.

Lemma keeps_shown o o' w w' :
  changes (only KCollectorConfig (obj_key KCollectorConfig o)) w w' →
  shown w' KCollectorConfig (obj_key KCollectorConfig o) = Some o' → keeps_ccs w w'.
Proof.
  intros Hc Hs. split; [eapply changes_mono; [|exact Hc]; by intros k n [-> _]|].
  intros n Hn. destruct (decide (n = obj_key KCollectorConfig o)) as [->|Hne]; [rewrite Hs; by eexists|].
  rewrite (changes_shown _ _ _ _ _ Hc); [done|]. by intros [_ ?].
Qed.

Lemma keeps_put old o o' w w' : put KCollectorConfig old o o' w w' → keeps_ccs w w'.
Proof. intros (Hc & Hs & _). by eapply keeps_shown. Qed.

(** CollectorConfigs are written with whatever finalizers they have. *)
Lemma sendable_cc o : sendable KCollectorConfig o.
Proof. by intros _ []. Qed.

Lemma reaches_addBackupLabel cc w :
  good w → is_Some (shown w KCollectorConfig (obj_key KCollectorConfig cc)) →
  reaches (addBackupLabel cc) w (λ r w', keeps_ccs w w' ∧
    ∃ cc', r = (cc', None) ∧ obj_key KCollectorConfig cc' = obj_key KCollectorConfig cc).
Proof.
  intros Hg [old Hs]. unfold addBackupLabel. destruct (has_key _ _).
  - apply reaches_Ret. split; [by apply keeps_unchanged, changes_refl|]. by eexists.
  - cbv zeta. eapply reaches_update; [by right|done|apply sendable_cc|exact Hs|by eapply live_update|].
    intros w' o' Hp. apply reaches_Ret. split; [by eapply keeps_put|]. exists o'. split; [done|].
    destruct Hp as (_ & _ & Hk & _). by rewrite (kept_key _ _ _ _ Hk).
Qed.

Lemma reaches_mergeTeams items rules seen w :
  good w → Forall (λ o, is_Some (shown w KCollectorConfig (obj_key KCollectorConfig o))) items →
  reaches (mergeTeams items rules seen) w (λ r w', keeps_ccs w w' ∧ ∃ x, r = Ok x).
Proof.
  revert rules seen w. induction items as [|tc items IH]; intros rules seen w Hg Hi; cbn [mergeTeams].
  - apply reaches_Ret. split; [by apply keeps_unchanged, changes_refl|by eexists].
  - apply Forall_cons in Hi as [Htc Hi]. apply reaches_bind.
    eapply reaches_mono; [|by apply reaches_addBackupLabel]. cbv beta.
    intros r w1 [Hk (cc' & -> & _)]. eapply reaches_mono; [|apply IH].
    + cbv beta. intros r w2 [Hk2 Hr]. split; [by eapply keeps_trans|done].
    + by destruct Hk as [? _]; eauto with search.
    + eapply Forall_impl; [exact Hi|]. cbv beta. intros o. apply Hk.
Qed.

Lemma reaches_updateUserCCStatus u msgs w :
  good w → is_Some (shown w KCollectorConfig (obj_key KCollectorConfig u)) →
  reaches (updateUserCCStatus u msgs) w (λ _ w', keeps_ccs w w').
Proof.
  intros Hg Hs. unfold updateUserCCStatus. cbv zeta. apply reaches_read; [done..|]. intros w1 Hc _.
  apply reaches_status; [by eauto with search|done| |].
  - rewrite (unchanged_shown w w1) by done. exact Hs.
  - intros w2 o' Hc2 Hs2. apply reaches_Ret. eapply keeps_trans; [by apply keeps_unchanged|by eapply keeps_shown].
Qed.

Lemma reaches_mergeUser ns rules teams w :
  good w → reaches (mergeUser ns rules teams) w (λ r w', keeps_ccs w w' ∧ ∃ spec, r = Ok spec).
Proof.
  intros Hg. unfold mergeUser. look w1 Hc o Hs Hk.
  - destruct (mergeUserRules _ _ _ _) as [rs msgs]. cbv zeta. apply reaches_bind.
    eapply reaches_mono; [|apply reaches_addBackupLabel; [by eauto with search|]].
    2: { rewrite (unchanged_shown w w1), Hk, Hs by done. by eexists. }
    cbv beta. intros r w2 [Hk2 (cc' & -> & Hcc)]. apply reaches_bind.
    eapply reaches_mono; [|apply reaches_updateUserCCStatus; [by destruct Hk2; eauto with search|]].
    2: { rewrite Hcc. apply Hk2. rewrite (unchanged_shown w w1), Hk, Hs by done. by eexists. }
    cbv beta. intros r w3 Hk3. apply reaches_Ret. split; [|by eexists].
    eapply keeps_trans; [by apply keeps_unchanged|by eapply keeps_trans].
  - apply reaches_Ret. split; [by apply keeps_unchanged|by eexists].
Qed.

(** The merged config is there afterwards. *)
Definition merged (s : Search) : Slot := slot_of (present KCollectorConfig (mkNN mergedCollectorConfigName (s_Namespace s))).

Lemma reaches_writeMerged s spec w :
  good w → reaches (writeMerged s (s_Namespace s) spec) w (λ r w', r = stepOk ∧ keeps_ccs w w' ∧ filled w' (merged s)).
Proof.
  intros Hg. unfold writeMerged. look w1 Hc o Hs Hk.
  - assert (Hf : filled w1 (merged s)) by (unfold filled; cbn; rewrite (unchanged_shown w w1), Hs by done; by eexists).
    destruct (DeepEqual _ _).
    + apply reaches_Ret. split; [done|]. split; [by apply keeps_unchanged|done].
    + assert (Hko : obj_key KCollectorConfig (cc_set_Spec spec o) = obj_key KCollectorConfig o) by done.
      eapply reaches_update; [by left|by eauto with search|apply sendable_cc| |by eapply live_update|].
      * by rewrite Hko, Hk, (unchanged_shown w w1), Hs by done.
      * intros w2 o' Hp. apply reaches_Ret. split; [done|]. split.
        -- eapply keeps_trans; [by apply keeps_unchanged|by eapply keeps_put].
        -- destruct Hp as (_ & Hp & _). rewrite Hko, Hk in Hp. unfold filled. cbn. rewrite Hp. by eexists.
  - destruct (SetControllerReference_free s (newMeta mergedCollectorConfigName (s_Namespace s))) as [m Hm]; [done..|].
    rewrite Hm. apply SetControllerReference_ok in Hm as [Hm _].
    set (cc := mkCC m spec []).
    assert (Hko : obj_key KCollectorConfig cc = mkNN mergedCollectorConfigName (s_Namespace s))
      by (unfold obj_key; cbn; by rewrite Hm).
    apply (reaches_create KCollectorConfig cc); [by eauto with search|apply sendable_cc|].
    intros w2 o' Hp. apply reaches_Ret. split; [done|]. split.
    + eapply keeps_trans; [by apply keeps_unchanged|by eapply keeps_put].
    + destruct Hp as (_ & Hp & _). rewrite Hko in Hp. unfold filled. cbn. rewrite Hp. by eexists.
Qed.

Lemma reaches_merged s w :
  good w →
  reaches (createOrUpdateMergedCollectorConfig s) w (λ r w', r = stepOk ∧ changes ccs w w' ∧ filled w' (merged s)).
Proof.
  intros Hg. unfold createOrUpdateMergedCollectorConfig. cbv zeta. apply reaches_read; [done..|].
  intros w1 Hc (items & -> & Hi). apply reaches_bind.
  eapply reaches_mono; [|apply reaches_mergeTeams; [by eauto with search|]].
  2: { apply Forall_forall. intros o Ho. rewrite (unchanged_shown w w1) by done.
       rewrite Forall_forall in Hi. apply Hi. by apply (elem_of_sort_by cc_Name). }
  cbv beta. intros r w2 [Hk2 ([rules configs] & ->)]. apply reaches_bind.
  eapply reaches_mono; [|apply reaches_mergeUser; by destruct Hk2; eauto with search].
  cbv beta. intros r w3 [Hk3 (spec & ->)].
  eapply reaches_mono; [|apply reaches_writeMerged; by destruct Hk3; eauto with search].
  cbv beta. intros r w4 (-> & Hk4 & Hf). split; [done|]. split; [|done].
  eapply changes_trans; [by apply changes_nothing|]. destruct Hk2 as [Hk2 _], Hk3 as [Hk3 _], Hk4 as [Hk4 _].
  eapply changes_trans; [done|]. by eapply changes_trans.
Qed.

(** ** The database *)

(** The data of the ConfigMap after the step, given what was there. *)
Definition nextConfig (new : smap) (before : option ConfigMap) : smap :=
  match before with None => new | Some cm => nextData new (cm_Data cm) end.

(** The ConfigMap has these entries and the label that backs it up, and the
    deployment is the one for it. *)
Definition configured (s : Search) (data : smap) (workMem : string) (w : W) : Prop :=
  ∃ cm d, shown w KConfigMap (postgresKey s) = Some cm ∧ shown w KDeployment (postgresKey s) = Some d ∧
    map_of (cm_Data cm) = data ∧ has_key (om_Labels (cm_Meta cm)) backupLabel = true ∧
    sl_ok (deployed (pgDeploymentOf workMem s (postgresConfigHash sha256 (cm_Data cm)))) (Some d).

Definition databaseOf (s : Search) : Kind → NamespacedName → Prop :=
  λ k n, (k = KConfigMap ∨ k = KDeployment) ∧ n = postgresKey s.

(** The ConfigMap the step starts from. *)
Definition desiredConfig (s : Search) (tls : PostgresTLSConfig) (workMem : string) : ConfigMap :=
  mkConfigMap (withOwner s (set_Labels (Some {[ backupLabel := "" ]}) (newMeta postgresConfigmapName (s_Namespace s))))
    (Some (postgresData tls workMem)).

Lemma reaches_configMap s tls workMem w :
  good w →
  reaches (createOrUpdateConfigMap (desiredConfig s tls workMem)) w (λ r w', ∃ cm cm',
    r = (stepOk, cm) ∧ changes (only KConfigMap (postgresKey s)) w w' ∧
    shown w' KConfigMap (postgresKey s) = Some cm' ∧
    map_of (cm_Data cm') = nextConfig (postgresData tls workMem) (shown w KConfigMap (postgresKey s)) ∧
    map_of (cm_Data cm) = map_of (cm_Data cm') ∧ has_key (om_Labels (cm_Meta cm')) backupLabel = true).
Proof.
  intros Hg. set (dc := desiredConfig s tls workMem).
  assert (Hk : keyOf (cm_Meta dc) = postgresKey s).
  { unfold keyOf, dc. cbn. by rewrite withOwner_Name, withOwner_namespace. }
  assert (Hn : om_Name (cm_Meta dc) = postgresConfigmapName) by (unfold dc; cbn; by rewrite withOwner_Name).
  assert (Hl : has_key (om_Labels (cm_Meta dc)) backupLabel = true).
  { unfold dc. cbn. rewrite withOwner_Labels. done. }
  assert (Hd : cm_Data dc = Some (postgresData tls workMem)) by done.
  assert (Hfin : om_Finalizers (cm_Meta dc) = []) by apply withOwner_Finalizers.
  unfold createOrUpdateConfigMap. rewrite Hk. look w1 Hc o Hs Ho.
  - unfold updateConfigMap. rewrite Hn, String.eqb_refl, Hd, UpdatePostgresConfigmap_Some. cbn [bind cm_Data cm_Meta].
    rewrite Hl. cbn [andb map_of]. destruct (_ || _) eqn:Hq.
    + set (cm := mkConfigMap (cm_Meta dc) (Some (nextData (postgresData tls workMem) (cm_Data o)))).
      assert (Hcm : obj_key KConfigMap cm = postgresKey s) by exact Hk.
      apply (reaches_update KConfigMap cm _ _ _ _ o); [by left|by eauto with search|intros _ _; exact Hfin| |by eapply live_update|].
      * by rewrite Hcm, (unchanged_shown w w1), Hs by done.
      * intros w2 o' (Hc2 & Hs2 & [_ _ _ [Hd' Hl']] & _). rewrite Hcm in Hc2, Hs2. apply reaches_Ret. exists o', o'.
        split; [done|]. split; [eapply changes_trans; [by apply changes_nothing|done]|].
        split_and!; [done|by rewrite Hd'|done|]. unfold has_key in *. by rewrite Hl'.
    + apply reaches_Ret. eexists _, o. split; [done|]. split; [by apply changes_nothing|].
      rewrite (unchanged_shown w w1) by done. split; [done|].
      apply orb_false_elim in Hq as [Heq%negb_false_iff Hlab%negb_false_iff].
      apply (proj1 (DeepEqual_spec _ _)) in Heq. by split_and!.
  - assert (Hcm : obj_key KConfigMap dc = postgresKey s) by exact Hk.
    apply (reaches_create KConfigMap dc); [by eauto with search|intros _ _; exact Hfin|].
    intros w2 o' (Hc2 & Hs2 & [_ _ _ [Hd' Hl']] & _). rewrite Hcm in Hc2, Hs2. apply reaches_Ret. exists o', o'.
    split; [done|]. split; [eapply changes_trans; [by apply changes_nothing|done]|].
    split_and!; [done|by rewrite Hd', Hd|done|]. unfold has_key in *. by rewrite Hl'.
Qed.

(** ** The inputs of a reconciliation *)

(** What a reconciliation may write: not the CR, and of ConfigMaps its own only. *)
Definition operated : Kind → NamespacedName → Prop := λ k n,
  k ≠ KSearch ∧
  (k = KConfigMap → nn_Name n ∈ [postgresConfigmapName; indexerConfigmapName; caCertConfigmapName]).

(** The same with the CR, which gets its finalizer. *)
Definition touched : Kind → NamespacedName → Prop := λ k n, k = KSearch ∨ operated k n.

(** A lookup of something else. *)
Definition input {R} (q : Api R) : Prop :=
  match q with Get k n => ¬ touched k n | DynGet _ _ | DynList _ => True | _ => False end.

Lemma input_outside {R} (q : Api R) : input q → outside nothing q.
Proof. destruct q; try done. intros _ []. Qed.

Lemma input_view w w' {R} (q : Api R) : good w → changes touched w w' → input q → view w' R q = view w R q.
Proof. intros Hg Hc Hq. eapply view_changes; [done..|]. by destruct q. Qed.

(** The ConfigMap the CR names for the database settings is none of the operator's. *)
Definition own_settings (s : Search) : Prop :=
  sp_DBConfig (s_Spec s) ∉ [postgresConfigmapName; indexerConfigmapName; caCertConfigmapName].

Lemma looks_WORK_MEM s : own_settings s → looks (@input) (GetDBConfigFromSearchCR s "WORK_MEM").
Proof.
  intros Hs. split.
  - unfold GetDBConfigFromSearchCR, getDBConfigData. issue_steps. split; [done|]. intros [?|[_ Hn]]; [done|]. by apply Hs, Hn.
  - intros t o He. apply exec_work_mem in He as (v & -> & _). by eexists.
Qed.

Local Ltac look_steps := split; [by issue_steps|apply total_wp; unfold call; wp_steps; try done; by eexists].

Lemma looks_PostgresTLS : looks (@input) getPostgresTLSConfig.
Proof. unfold getPostgresTLSConfig, fetchTLSProfileSpec. look_steps. Qed.
Lemma looks_TLSEnvVars : looks (@input) getTLSEnvVars.
Proof. unfold getTLSEnvVars, fetchTLSProfileSpec. look_steps. Qed.
Lemma looks_clusterName : looks (@input) getClusterNameFromMCH.
Proof. unfold getClusterNameFromMCH. look_steps. Qed.
Lemma looks_NetworkPolicies s : looks (@input) (NetworkPolicies true s).
Proof. unfold NetworkPolicies, getMCETargetNamespace. look_steps. Qed.

(** Inputs are what they were when the reconciliation began, in [w0]. *)
Lemma reaches_inputs {A} (p : prog A) w0 w :
  good w0 → changes operated w0 w → looks (@input) p →
  reaches p w (λ a w', changes nothing w w' ∧ answers (view w0) p a).
Proof.
  intros Hg Hc Hp. apply (reaches_lookups (@input)); [by eauto with search|done|intros R q; apply input_outside|].
  intros R q Hq. apply input_view; [done| |done]. eapply changes_mono; [|exact Hc]. by right.
Qed.

Lemma input_is_lookup {R} (q : Api R) : input q → is_lookup q = true.
Proof. destruct q; try done. destruct k; try done. intros Hn. exfalso. apply Hn. by right. Qed.

(** The answer is determined. *)
Lemma answers_unique {A} v (p : prog A) a b : looks (@input) p → answers v p a → answers v p b → a = b.
Proof.
  intros [Hi _] Ha Hb.
  assert (Hl : issues (λ R q, is_lookup q = true) p).
  { intros t o He. eapply Forall_impl; [by eapply Hi|]. intros [R q x] [_ Hq]. by apply input_is_lookup. }
  apply (answers_eval v p _ Hl) in Ha, Hb. congruence.
Qed.

(** Answers to lookups of inputs last. *)
Lemma answers_last {A} (p : prog A) w w' a :
  good w → changes touched w w' → looks (@input) p → answers (view w) p a → answers (view w') p a.
Proof.
  intros Hg Hc [Hi _] (t & He & Ht). exists t. split; [done|]. specialize (Hi t _ He).
  apply Forall_forall. intros e Hin. rewrite Forall_forall in Hi, Ht. specialize (Hi e Hin). specialize (Ht e Hin).
  destruct e as [R q x]. cbn in *. destruct Hi as [_ Hq]. intros Hl. rewrite (Ht Hl). symmetry. by apply input_view.
Qed.

Lemma database_operated s k n : databaseOf s k n → operated k n.
Proof. intros [[-> | ->] ->]; (split; [done|]); intros ?; [left|done]. Qed.

Lemma config_database s k n : only KConfigMap (postgresKey s) k n → databaseOf s k n.
Proof. intros [-> ->]. split; [by left|done]. Qed.

Lemma reaches_database s w0 w :
  good w0 → own_settings s → changes operated w0 w →
  reaches (reconcileDatabase sha256 s) w (λ r w', r = stepOk ∧ changes (databaseOf s) w w' ∧
    ∃ tls workMem, answers (view w0) getPostgresTLSConfig tls ∧
      answers (view w0) (GetDBConfigFromSearchCR s "WORK_MEM") workMem ∧
      configured s (nextConfig (postgresData tls workMem) (shown w KConfigMap (postgresKey s))) workMem w').
Proof.
  intros Hg Hown Hc. unfold reconcileDatabase, PostgresConfigmap, PGDeployment. cbv zeta.
  apply reaches_bind. eapply reaches_mono; [|by apply (reaches_inputs _ w0), looks_PostgresTLS].
  cbv beta. intros tls w1 [Hc1 Htls]. assert (Hc01 : changes operated w0 w1) by (eapply changes_trans; [done|by apply changes_nothing]).
  apply reaches_bind, reaches_bind. eapply reaches_mono; [|by apply (reaches_inputs _ w0), looks_WORK_MEM].
  cbv beta. intros wm w2 [Hc2 Hwm]. assert (Hc02 : changes operated w0 w2) by (eapply changes_trans; [done|by apply changes_nothing]).
  apply reaches_Ret. fold (desiredConfig s tls wm). apply reaches_bind.
  eapply reaches_mono; [|apply reaches_configMap; by eauto with search].
  cbv beta. intros r w3 (cm & cm' & -> & Hc3 & Hs3 & Hd & Hcm & Hl).
  assert (Hc03 : changes operated w0 w3).
  { eapply changes_trans; [done|]. eapply changes_mono; [|exact Hc3].
    intros k n Hk. by eapply database_operated, config_database. }
  unfold stepOk. apply reaches_bind, reaches_bind. eapply reaches_mono; [|by apply (reaches_inputs _ w0), looks_WORK_MEM].
  cbv beta. intros wm' w4 [Hc4 Hwm']. rewrite (answers_unique _ _ _ _ (looks_WORK_MEM s Hown) Hwm' Hwm). apply reaches_Ret.
  set (d := pgDeploymentOf _ _ _).
  assert (Hdk : keyOf (dep_Meta d) = postgresKey s).
  { unfold d, pgDeploymentOf, finishDeployment, keyOf. cbn [dep_Meta]. by rewrite withOwner_Name, withOwner_namespace. }
  eapply reaches_mono; [|apply settles_deployment; [apply withOwner_Finalizers|by eauto with search]].
  cbv beta. intros r w5 [-> [Hc5 (o & Ho & Hspec)]]. cbn [deployed sl_kind sl_key] in Hc5, Ho, Hspec.
  rewrite Hdk in Hc5, Ho. split; [done|]. split.
  - eapply changes_trans; [by apply changes_nothing, (changes_trans _ _ _ _ Hc1 Hc2)|].
    eapply changes_trans; [eapply changes_mono; [apply config_database|exact Hc3]|].
    eapply changes_trans; [by apply changes_nothing|]. eapply changes_mono; [|exact Hc5].
    intros k n [-> ->]. split; [by right|done].
  - exists tls, wm. split; [done|]. split; [done|]. exists cm', o. split_and!.
    + rewrite (changes_shown _ _ _ _ _ Hc5) by (by intros [? _]). by rewrite (unchanged_shown w3 w4).
    + done.
    + by rewrite Hd, (unchanged_shown w1 w2), (unchanged_shown w w1).
    + done.
    + exists o. split; [done|]. by rewrite <-(hash_map_of sha256 _ _ Hcm).
Qed.
End compound.
