(* ===== verification/Round.v ===== *)
(** One reconciliation of an active CR on an API server that grants its writes and is
    otherwise left alone: it succeeds, and each object of the operator is as desired
    afterwards. The steps of [Steps] are composed along the order of [Reconcile]; a list
    of slots says what they fill, and that their kinds and names are distinct is why no
    step undoes the work of another. *)
From Stdlib Require Import Ascii String.
From S2P Require Import Prelude GoStrings K8s V1alpha1 Effects Interfaces Selectors MemServer Fixtures ImageValidation Common CollectorMerge PostgresConfig Deployments Objects Networks TLS SearchCR Features Status Addon Resources Seeder Reconciler Rollout Established Quiescence ApiServer Steps.

Local Open Scope search_scope.

(** * Sequences of steps with an invariant *)

Section sequences.
Context `{ApiServer W}.

(** The slots to keep once they are filled. *)
Context (D : list Slot).

(** A step keeps the invariant [I], touches [F] only and fills the slots [sls]. *)
Definition covers {A} (I : W → Prop) (s : prog A) (a : A) (F : Kind → NamespacedName → Prop) (sls : list Slot) : Prop :=
  ∀ w, I w → reaches s w (λ r w', r = a ∧ changes F w w' ∧ Forall (filled w') sls).

Definition stable (I : W → Prop) (F : Kind → NamespacedName → Prop) : Prop := ∀ w w', I w → changes F w w' → I w'.

(** Of the slots to keep, the frame of a step meets only those it fills. *)
Definition meets (F : Kind → NamespacedName → Prop) (sls : list Slot) : Prop :=
  ∀ sl, sl ∈ D → sl ∈ sls ∨ ¬ F (sl_kind sl) (sl_key sl).

Definition stays (w w' : W) : Prop := ∀ sl, sl ∈ D → filled w sl → filled w' sl.

(** What runs from [I] to [I'], succeeds with the process [p'], and leaves the slots
    [ds] filled, if they are to be kept. *)
Definition brings (I I' : W → Prop) (p' : Process) (q : reconciliation) (ds : list Slot) : Prop :=
  ∀ w, I w → reaches q w (λ r w',
    r = (emptyResult, None, p') ∧ I' w' ∧ stays w w' ∧ ∀ sl, sl ∈ D → sl ∈ ds → filled w' sl).

Lemma stays_changes F w w' sls : changes F w w' → meets F sls → Forall (filled w') sls → stays w w'.
Proof.
  intros Hc Hm Hf sl Hsl Hw. rewrite Forall_forall in Hf. destruct (Hm sl Hsl) as [?|Hn]; [by apply Hf|].
  unfold filled. by rewrite (changes_shown _ _ _ _ _ Hc).
Qed.

Lemma stays_trans w1 w2 w3 : stays w1 w2 → stays w2 w3 → stays w1 w3.
Proof. intros H12 H23 sl Hsl Hf. auto. Qed.

(** ** Rules *)

(** A step, and what follows it. *)
Lemma brings_then {A} I I' p' (s : prog A) a F sls (g : A → reconciliation) ds :
  covers I s a F sls → stable I F → meets F sls → brings I I' p' (g a) ds → brings I I' p' (bind s g) (sls ++ ds).
Proof.
  intros Hs Hst Hm Hg w Hw. apply reaches_bind. eapply reaches_mono; [|by apply Hs]. cbv beta.
  intros r w1 (-> & Hc & Hf). eapply reaches_mono; [|apply Hg; by eapply Hst]. cbv beta.
  intros r w2 (-> & HI & Hk & Hfill). split; [done|]. split; [done|].
  split; [eapply stays_trans; [by eapply stays_changes|done]|].
  intros sl Hsl [Hin|Hin]%elem_of_app; [|by apply Hfill]. apply Hk; [done|]. rewrite Forall_forall in Hf. auto.
Qed.

Lemma brings_step I I' p p' s F sls rest ds :
  covers I s stepOk F sls → stable I F → meets F sls → brings I I' p' rest ds →
  brings I I' p' (orElse p s rest) (sls ++ ds).
Proof. intros. unfold orElse. by eapply brings_then. Qed.

Lemma brings_deleting I I' p p' d F sls rest ds :
  covers I d None F sls → stable I F → meets F sls → brings I I' p' rest ds →
  brings I I' p' (deleting p d rest) (sls ++ ds).
Proof. intros. unfold deleting. by eapply brings_then. Qed.

Lemma brings_account `{ControllerUtil} I I' p p' sa rest F sls ds :
  covers I (createSearchServiceAccount sa) stepOk F sls → stable I F → meets F sls → brings I I' p' rest ds →
  brings I I' p' (withAccount p (Ok sa) rest) (sls ++ ds).
Proof. intros. unfold withAccount. by eapply brings_step. Qed.

(** A lookup of inputs. *)
Lemma brings_look {A} (I I' : W → Prop) p' (q : prog A) (P : A → Prop) (g : A → reconciliation) ds :
  (∀ w, I w → reaches q w (λ a w', changes nothing w w' ∧ P a)) → stable I nothing →
  (∀ a, P a → brings I I' p' (g a) ds) → brings I I' p' (bind q g) ds.
Proof.
  intros Hq Hst Hg w Hw. apply reaches_bind. eapply reaches_mono; [|by apply Hq]. cbv beta. intros a w1 [Hc Ha].
  eapply reaches_mono; [|apply Hg; [done|by eapply Hst]]. cbv beta. intros r w2 (-> & HI & Hk & Hf).
  split_and!; [done..| |done]. eapply stays_trans; [|done]. eapply (stays_changes nothing _ _ []); [done| |done].
  intros sl _. right. by intros [].
Qed.

Lemma brings_Ret (I I' : W → Prop) p' : (∀ w, I w → I' w) → brings I I' p' (Ret (emptyResult, None, p')) [].
Proof. intros HI w Hw. apply reaches_Ret. split_and!; auto. by intros ??. by intros ? _ ?%elem_of_nil. Qed.

(** One slot at a time. *)
Lemma covers_settles {A} (I : W → Prop) (s : prog A) a sl :
  (∀ w, I w → good w) → settles s a sl → covers I s a (only (sl_kind sl) (sl_key sl)) [sl].
Proof.
  intros HI Hs w Hw. eapply reaches_mono; [|apply Hs; auto]. cbv beta. intros r w' [-> [Hc Hf]].
  split_and!; [done..|]. by apply Forall_singleton.
Qed.
End sequences.

(** * The slots of a reconciliation *)

(** Their kinds and names, but for the volume claim. *)
Definition fixedNames : list (Kind * string) :=
  map (pair KServiceAccount) componentAccounts ++
  map (pair KClusterRole) [getRoleName +:+ "-indexer"; getAddonRoleName; getSearchUserRoleName] ++
  map (pair KClusterRoleBinding) (map (append getRoleBindingName) ["-api"; "-collector"; "-indexer"]) ++
  [(KVWC, webhookConfigName); (KCollectorConfig, mergedCollectorConfigName)] ++
  map (pair KSecret) ["search-postgres"; apiReadonlySecretName; mcpReadonlySecretName] ++
  map (pair KService) ["search-postgres"; "search-indexer"; "search-search-api"; "search-collector"] ++
  map (pair KServiceMonitor) ["search-indexer-monitor"; "search-api-monitor"; "search-collector-monitor"] ++
  map (pair KDeployment) ["search-collector"; "search-indexer"; "search-api"] ++
  map (pair KNetworkPolicy) (map networkPolicyName [postgresDeploymentName; indexerDeploymentName; apiDeploymentName; collectorDeploymentName;
                                             "search-operator"]) ++
  map (pair KConfigMap) [indexerConfigmapName; caCertConfigmapName] ++
  [(KPrometheusRule, SearchPVCAlertRuleName); (KClusterRole, getRoleName);
   (KClusterRoleBinding, getRoleBindingName); (KServiceAccount, "search-serviceaccount")].

(** The names are distinct, and those of objects the operator may write beside the
    database. *)
Definition operated_name (x : Kind * string) : Prop :=
  x.1 ≠ KPVC ∧ x.1 ≠ KSearch ∧ (x.1 = KConfigMap → x.2 ∈ [indexerConfigmapName; caCertConfigmapName]) ∧
  (x.1 = KDeployment → x.2 ≠ postgresDeploymentName).

Lemma fixedNames_distinct : NoDup fixedNames.
Proof. apply (bool_decide_unpack _). vm_compute. exact I. Qed.

Lemma fixedNames_operated : Forall operated_name fixedNames.
Proof. apply (bool_decide_unpack _). vm_compute. exact I. Qed.

Section slots.
Context (W : Type) `{ApiServer W}.
Context `{Environ} `{Quantities} `{ControllerUtilLaws} `{DeploymentSpecEquality}.
Context (s : Search) (tls : list EnvVar) (clusterName mce : string).

Let inNamespace (name : string) : NamespacedName := mkNN name (s_Namespace s).

Definition claimSlots : list Slot :=
  if String.eqb (ss_StorageClassName (sp_DBStorage (s_Spec s))) "" then []
  else [slot_of (present_or_unread KPVC (claimKey s))].

(** In the order of [Reconcile]. *)
Definition fixedSlots : list Slot :=
  map (λ name, account (inNamespace name)) componentAccounts ++
  map (λ r, slot_of (role r)) [IndexerClusterRole s; AddonClusterRole s; GlobalSearchUserClusterRole s] ++
  map (λ b, slot_of (binding b)) [APIClusterRoleBinding s; CollectorClusterRoleBinding s; IndexerClusterRoleBinding s] ++
  [webhookCA; merged s] ++
  map (λ name, slot_of (present KSecret (inNamespace name)))
    ["search-postgres"; apiReadonlySecretName; mcpReadonlySecretName] ++
  map (λ name, slot_of (present KService (inNamespace name)))
    ["search-postgres"; "search-indexer"; "search-search-api"; "search-collector"] ++
  map (λ name, slot_of (present KServiceMonitor (inNamespace name)))
    ["search-indexer-monitor"; "search-api-monitor"; "search-collector-monitor"] ++
  map deployed
    [collectorDeploymentOf clusterName s tls; IndexerDeployment s tls; APIDeployment s tls] ++
  map (λ np, slot_of (policy np)) (policiesFor s mce) ++
  map (λ name, slot_of (present KConfigMap (inNamespace name))) [indexerConfigmapName; caCertConfigmapName] ++
  [rule (SearchPVCPrometheusRule s);
   absent KClusterRole (inNamespace getRoleName); absent KClusterRoleBinding (mkNN getRoleBindingName "");
   absent KServiceAccount (inNamespace "search-serviceaccount")].

Definition allSlots : list Slot := claimSlots ++ fixedSlots.

Definition slotName (sl : Slot) : Kind * string := (sl_kind sl, nn_Name (sl_key sl)).

Lemma NoDup_map_inj {A B} (f : A → B) l x y : NoDup (map f l) → x ∈ l → y ∈ l → f x = f y → x = y.
Proof.
  induction l as [|z l IH]; [by intros _ ?%elem_of_nil|]. cbn [map]. intros [Hz Hl]%NoDup_cons.
  intros [->|Hx]%elem_of_cons [->|Hy]%elem_of_cons Hf; auto; exfalso; apply Hz.
  - rewrite Hf. by apply list_elem_of_fmap_2.
  - rewrite <-Hf. by apply list_elem_of_fmap_2.
Qed.

Lemma fixedSlots_names : map slotName fixedSlots = fixedNames.
Proof.
  unfold fixedSlots, fixedNames, componentAccounts. cbn [map app]. unfold slotName. cbn [sl_kind sl_key account slot_of].
  cbn. rewrite !withOwner_Name. cbn. done.
Qed.

Lemma fixedSlot_name sl : sl ∈ fixedSlots → slotName sl ∈ fixedNames.
Proof. rewrite <-fixedSlots_names. apply list_elem_of_fmap_2. Qed.

Lemma claimSlots_kind sl : sl ∈ claimSlots → sl = slot_of (present_or_unread KPVC (claimKey s)).
Proof. unfold claimSlots. destruct (String.eqb _ ""); [by intros ?%elem_of_nil|apply list_elem_of_singleton]. Qed.

(** A slot is known by its kind and name. *)
Lemma slots_distinct sl sl' : sl ∈ allSlots → sl' ∈ allSlots → slotName sl = slotName sl' → sl = sl'.
Proof.
  unfold allSlots. rewrite !elem_of_app.
  assert (Hk : ∀ a b, a ∈ claimSlots → b ∈ fixedSlots → slotName a ≠ slotName b).
  { intros a b ->%claimSlots_kind Hb%fixedSlot_name Hab. pose proof fixedNames_operated as Ho.
    rewrite Forall_forall in Ho. destruct (Ho _ Hb) as [Hn _]. by rewrite <-Hab in Hn. }
  intros [Ha|Ha] [Hb|Hb] Hab.
  - by rewrite (claimSlots_kind _ Ha), (claimSlots_kind _ Hb).
  - by destruct (Hk _ _ Ha Hb).
  - by destruct (Hk _ _ Hb Ha).
  - eapply NoDup_map_inj; [|done..]. rewrite fixedSlots_names. apply fixedNames_distinct.
Qed.

(** Frames that leave the database and the inputs alone. *)
Definition aside (F : Kind → NamespacedName → Prop) : Prop := ∀ k n, F k n → operated k n ∧ ¬ databaseOf s k n.

Lemma slot_aside sl : sl ∈ allSlots → aside (only (sl_kind sl) (sl_key sl)).
Proof.
  unfold allSlots. rewrite elem_of_app. intros [->%claimSlots_kind|Hsl] k n [-> ->].
  - split; [by split|]. by intros [[?|?] _].
  - apply fixedSlot_name in Hsl. pose proof fixedNames_operated as Ho. rewrite Forall_forall in Ho.
    destruct (Ho _ Hsl) as (_ & Hs & Hc & Hd). cbn in Hs, Hc, Hd. split.
    + split; [done|]. intros Hk. right. by apply Hc.
    + intros [[Hk|Hk] Hn]; [specialize (Hc Hk)|specialize (Hd Hk)]; rewrite Hn in *; [|done].
      revert Hc. cbn. set_solver.
Qed.

Lemma ccs_aside : aside ccs.
Proof. intros k n ->. split; [by split|]. by intros [[?|?] _]. Qed.

Lemma nothing_aside : aside nothing.
Proof. by intros k n []. Qed.
End slots.

(** * One reconciliation *)

Section round.
Context `{ApiServer W}.
Context `{Environ} `{Quantities} `{ControllerUtilLaws} `{NestedFields} `{TLSLibrary} `{StatusConditions}.
Context `{SemanticEquality CollectorConfigSpec} `{SemanticEquality smap} `{SemanticEquality NetworkPolicySpec}.
Context `{SemanticEquality (list OwnerReference)} `{SemanticEquality (list PolicyRule)}.
Context `{SemanticEquality RoleRef} `{SemanticEquality (list Subject)}.
Context `{SemanticEquality (list RuleGroup)} `{DeploymentSpecEquality}.
Context (sha256 : string → list Byte.byte).

(** It starts in [w0], for the CR [s]; the inputs are those [w0] shows. *)
Context (w0 : W) (s : Search) (p : Process) (tls : list EnvVar) (clusterName mce : string) (D : list Slot).
Hypothesis w0_good : good w0.
Hypothesis settings : own_settings s.
Hypothesis plain_s : plain s.
Hypothesis no_hub_name : shown w0 KConfigMap (mkNN SEARCH_GLOBAL_CONFIG (s_Namespace s)) = None.
Hypothesis tls_answer : answers (view w0) getTLSEnvVars tls.
Hypothesis name_answer : answers (view w0) getClusterNameFromMCH clusterName.
Hypothesis mce_answer : answers (view w0) (NetworkPolicies true s) (policiesFor s mce).
Hypothesis D_slots : ∀ sl, sl ∈ D → sl ∈ allSlots W s tls clusterName mce.
(** The first reconciliation of a process also deletes monitors of old releases. *)
Hypothesis D_cleaned : pr_Cleaned p = false → D = [].

(** Before the database step, after it, and at the end. *)
Definition before_database (w : W) : Prop := changes (λ k n, operated k n ∧ ¬ databaseOf s k n) w0 w.
Definition after_database (ptls : PostgresTLSConfig) (workMem : string) (w : W) : Prop :=
  changes operated w0 w ∧
  configured sha256 s (nextConfig (postgresData ptls workMem) (shown w0 KConfigMap (postgresKey s))) workMem w.
Definition at_end (w : W) : Prop :=
  ∃ ptls workMem, answers (view w0) getPostgresTLSConfig ptls ∧
    answers (view w0) (GetDBConfigFromSearchCR s "WORK_MEM") workMem ∧ after_database ptls workMem w.

(** An invariant that the steps beside the database do not disturb. *)
Definition steady (I : W → Prop) : Prop :=
  (∀ w, I w → good w ∧ changes operated w0 w) ∧ ∀ F, aside s F → stable I F.

Lemma before_steady : steady before_database.
Proof.
  split.
  - intros w Hw. split; [by eauto with search|]. eapply changes_mono; [|exact Hw]. by intros k n [? _].
  - intros F HF w w' Hw Hc. eapply changes_trans; [exact Hw|]. by eapply changes_mono.
Qed.

Lemma after_steady ptls workMem : steady (after_database ptls workMem).
Proof.
  split; [intros w [Hc _]; split; [by eauto with search|done]|].
  intros F HF w w' [Hc Hconf] Hc'. split.
  - eapply changes_trans; [exact Hc|]. eapply changes_mono; [|exact Hc']. intros k n Hn. by apply HF in Hn as [? _].
  - destruct Hconf as (cm & d & Hcm & Hd & Hrest). exists cm, d. split; [|split; [|exact Hrest]].
    + rewrite (changes_shown _ _ _ _ _ Hc'); [done|]. intros [_ Hn]%HF. apply Hn. split; [by left|done].
    + rewrite (changes_shown _ _ _ _ _ Hc'); [done|]. intros [_ Hn]%HF. apply Hn. split; [by right|done].
Qed.

(** ** The steps under a steady invariant *)

Section under.
Context (I I' : W → Prop) (HI : steady I) (p' : Process).
Local Abbreviation slots := (allSlots W s tls clusterName mce).

Lemma meets_one sl : sl ∈ slots → meets D (only (sl_kind sl) (sl_key sl)) [sl].
Proof.
  intros Hsl sl' Hsl'. destruct (decide (slotName sl' = slotName sl)) as [Hn|Hn].
  - left. apply list_elem_of_singleton. apply (slots_distinct W s tls clusterName mce); eauto.
  - right. intros [Hk Hkey]. apply Hn. unfold slotName. by rewrite Hk, Hkey.
Qed.

Lemma one_then {A} (st : prog A) a sl sl' (g : A → reconciliation) ds :
  settles st a sl → sl = sl' → sl' ∈ slots → brings D I I' p' (g a) ds → brings D I I' p' (bind st g) (sl' :: ds).
Proof.
  intros Hs -> Hin Hg. apply (brings_then D I I' p' st a (only (sl_kind sl') (sl_key sl')) [sl'] g ds).
  - apply covers_settles; [|done]. intros w Hw. by apply HI.
  - apply HI. by eapply slot_aside.
  - by apply meets_one.
  - done.
Qed.

Lemma one_step st sl sl' rest ds :
  settles st stepOk sl → sl = sl' → sl' ∈ slots → brings D I I' p' rest ds →
  brings D I I' p' (orElse p st rest) (sl' :: ds).
Proof. intros. unfold orElse. by eapply one_then. Qed.

Lemma one_deletion p1 k n rest ds :
  finalizable k = false → k ≠ KCollectorConfig → absent k n ∈ slots → brings D I I' p' rest ds →
  brings D I I' p' (deleting p1 (deleteObject k n) rest) (absent k n :: ds).
Proof. intros. unfold deleting. eapply one_then; [by apply settles_delete|done..]. Qed.

Lemma account_step name rest ds :
  account (mkNN name (s_Namespace s)) ∈ slots → brings D I I' p' rest ds →
  brings D I I' p' (withAccount p (ownedServiceAccount name s) rest) (account (mkNN name (s_Namespace s)) :: ds).
Proof.
  intros Hin Hr. destruct (ownedServiceAccount_Ok name s) as (sa & -> & Hk & Hp & Hf). unfold withAccount.
  eapply one_step; [apply settles_serviceAccount; [rewrite Hp; cbn; lia|done]|by rewrite Hk|done|done].
Qed.

(** Lookups of inputs find what [w0] shows. *)
Lemma look_inputs {A} (q : prog A) w :
  looks (@input) q → I w → reaches q w (λ a w', changes nothing w w' ∧ answers (view w0) q a).
Proof. intros Hq Hw. apply reaches_inputs; [done| |done]. by apply HI. Qed.

Lemma input_then {A} (q : prog A) a (g : A → reconciliation) ds :
  looks (@input) q → answers (view w0) q a → brings D I I' p' (g a) ds → brings D I I' p' (bind q g) ds.
Proof.
  intros Hq Ha Hg. apply (brings_look D I I' p' q (λ b, b = a)).
  - intros w Hw. eapply reaches_mono; [|by apply look_inputs]. cbv beta. intros b w' [Hc Hb].
    split; [done|]. by apply (answers_unique (view w0) q).
  - apply HI, nothing_aside.
  - by intros ? ->.
Qed.

Lemma collector_step rest ds :
  deployed (collectorDeploymentOf clusterName s tls) ∈ slots → brings D I I' p' rest ds →
  brings D I I' p' (orElse p (d <- CollectorDeployment s tls ;; createOrUpdateDeployment d) rest)
    (deployed (collectorDeploymentOf clusterName s tls) :: ds).
Proof.
  intros Hin Hr. set (sl := deployed _) in *. apply (brings_step D I I' p p' _ (only (sl_kind sl) (sl_key sl)) [sl] rest ds).
  - intros w Hw. apply reaches_bind. unfold CollectorDeployment. apply reaches_bind.
    eapply reaches_mono; [|apply look_inputs; [apply looks_clusterName|done]]. cbv beta. intros c w1 [Hc Ha].
    rewrite (answers_unique _ _ _ _ looks_clusterName Ha name_answer). apply reaches_Ret.
    eapply reaches_mono; [|apply settles_deployment; [apply withOwner_Finalizers|by eauto with search]]. cbv beta. intros r w2 [-> [Hc2 Hf]].
    split; [done|]. split; [|by apply Forall_singleton]. eapply changes_trans; [by apply changes_nothing|exact Hc2].
  - apply HI. by eapply slot_aside.
  - by apply meets_one.
  - done.
Qed.

Lemma merged_step rest ds :
  merged s ∈ slots → brings D I I' p' rest ds →
  brings D I I' p' (orElse p (createOrUpdateMergedCollectorConfig s) rest) (merged s :: ds).
Proof.
  intros Hin Hr. apply (brings_step D I I' p p' _ ccs [merged s] rest ds); [| | |done].
  - intros w Hw. eapply reaches_mono; [|apply reaches_merged; by apply HI]. cbv beta. intros r w' (-> & Hc & Hf).
    split_and!; [done..|]. by apply Forall_singleton.
  - apply HI, ccs_aside.
  - intros sl Hsl. destruct (decide (sl_kind sl = KCollectorConfig)) as [Hk|]; [|by right].
    left. apply list_elem_of_singleton. apply (slots_distinct W s tls clusterName mce); [by apply D_slots|done|].
    apply D_slots, elem_of_app in Hsl as [->%claimSlots_kind|Hsl%(fixedSlot_name W)]; [done|].
    assert (Hone : Forall (λ x, x.1 = KCollectorConfig → x = (KCollectorConfig, mergedCollectorConfigName)) fixedNames)
      by (apply (bool_decide_unpack _); vm_compute; exact Logic.I).
    rewrite Forall_forall in Hone. by apply Hone.
Qed.

Lemma policies_spelled_out :
  Forall (λ np, policy_spelled_out np ∧ om_Finalizers (np_Meta np) = []) (policiesFor s mce).
Proof.
  unfold policiesFor. repeat (apply Forall_cons; split; [split; [|apply withOwner_Finalizers]|]); [..|by apply Forall_nil].
  all: unfold policy_spelled_out; cbn; split_and!; [done|repeat first [done|apply Forall_nil; done|apply Forall_cons; split]..].
Qed.

Lemma policies_step rest ds :
  (∀ np, np ∈ policiesFor s mce → slot_of (policy np) ∈ slots) → brings D I I' p' rest ds →
  brings D I I' p' (orElse p (reconcileNetworkPolicies true s) rest)
    (map (λ np, slot_of (policy np)) (policiesFor s mce) ++ ds).
Proof.
  intros Hin Hr. set (keys := map (λ np, keyOf (np_Meta np)) (policiesFor s mce)).
  apply (brings_step D I I' p p' _ (λ k n, k = KNetworkPolicy ∧ n ∈ keys)); [| | |done].
  - intros w Hw. unfold reconcileNetworkPolicies. apply reaches_bind.
    eapply reaches_mono; [|apply look_inputs; [apply looks_NetworkPolicies|done]]. cbv beta. intros nps w1 [Hc Ha].
    rewrite (answers_unique _ _ _ _ (looks_NetworkPolicies s) Ha mce_answer).
    eapply reaches_mono; [|apply reaches_steps; [by eauto with search|apply policies_spelled_out|]].
    + cbv beta. intros r w2 (-> & Hc2 & Hf). split; [done|].
      split; [eapply changes_trans; [by apply changes_nothing|exact Hc2]|]. apply Forall_fmap. exact Hf.
    + apply (NoDup_fmap_1 nn_Name). unfold policiesFor, keyOf. cbn. rewrite !withOwner_Name.
      apply (bool_decide_unpack _). vm_compute. exact Logic.I.
  - apply HI. intros k n [-> _]. split; [by split|]. by intros [[?|?] _].
  - intros sl Hsl. destruct (decide (sl_kind sl = KNetworkPolicy)) as [Hk|]; [|right; by intros [? _]].
    destruct (decide (sl_key sl ∈ keys)) as [Hin'|]; [|right; by intros [_ ?]]. left.
    apply list_elem_of_fmap in Hin' as (np & Hkey & Hnp).
    rewrite (slots_distinct W s tls clusterName mce sl (slot_of (policy np))); [by apply (list_elem_of_fmap_2 (λ np, slot_of (policy np)))|auto..|].
    unfold slotName. by rewrite Hk, Hkey.
Qed.
End under.

(** ** The database *)

Lemma database_step p' rest ds :
  (∀ ptls workMem, answers (view w0) getPostgresTLSConfig ptls →
     answers (view w0) (GetDBConfigFromSearchCR s "WORK_MEM") workMem →
     brings D (after_database ptls workMem) at_end p' rest ds) →
  brings D before_database at_end p' (orElse p (reconcileDatabase sha256 s) rest) ds.
Proof.
  intros Hr w Hw. pose proof (proj1 before_steady w Hw) as [Hg Hc]. unfold orElse. apply reaches_bind.
  eapply reaches_mono; [|by apply (reaches_database sha256 s w0)]. cbv beta.
  intros r w1 (-> & Hc1 & ptls & wm & Hptls & Hwm & Hconf). unfold stepOk.
  rewrite (changes_shown _ _ _ _ _ Hw) in Hconf by (intros [_ Hn]; apply Hn; split; [by left|done]).
  eapply reaches_mono; [|eapply Hr; [done..|]].
  - cbv beta. intros r w2 (-> & Hend & Hk & Hf). split_and!; [done..| |done]. eapply stays_trans; [|done].
    apply (stays_changes D (databaseOf s) w w1 []); [done| |by apply Forall_nil].
    intros sl Hsl. right. eapply (slot_aside W s tls clusterName mce); [by apply D_slots|done].
  - split; [|done]. eapply changes_trans; [done|]. eapply changes_mono; [|done]. apply database_operated.
Qed.

(** ** The objects of old releases *)

Definition cleaned : Process := mkProcess (pr_AddonStarted p) true (pr_CollectorImage p).

Definition legacy : Kind → NamespacedName → Prop := λ k _, k ∈ [KServiceMonitor; KRole; KRoleBinding; KCMA].

Lemma deletion_legacy k n w :
  good w → k ∈ [KServiceMonitor; KRole; KRoleBinding; KCMA] →
  reaches (deleteObject k n) w (λ _ w', changes legacy w w').
Proof.
  intros Hg Hk. assert (Hf : finalizable k = false ∧ k ≠ KCollectorConfig)
    by (rewrite !elem_of_cons, elem_of_nil in Hk; naive_solver).
  eapply reaches_mono; [|by apply settles_delete; try apply Hf]. cbv beta. intros r w' [_ [Hc _]].
  eapply changes_mono; [|exact Hc]. by intros k' n' [-> _].
Qed.

Lemma owner_legacy w : good w → reaches (removeOwnerRefClusterManagementAddon s) w (λ _ w', changes legacy w w').
Proof.
  intros Hg. unfold removeOwnerRefClusterManagementAddon. look w1 Hc o Hs Hk; cbv zeta.
  - destruct (dropSearchRef _) as [refs|]; [|by apply reaches_Ret, changes_nothing].
    assert (Hko : obj_key KCMA (mkCMA (set_OwnerReferences refs (cma_Meta o))) = obj_key KCMA o) by done.
    eapply (reaches_update KCMA); [by left|by eauto with search|exact (live_sendable _ _ _ _ Hg Hs)| |by eapply live_update|].
    + by rewrite Hko, Hk, (unchanged_shown w w1), Hs by done.
    + intros w2 o' [Hc2 _]. apply reaches_Ret. eapply changes_trans; [by apply changes_nothing|].
      eapply changes_mono; [|exact Hc2]. intros k n [-> _]. unfold legacy. set_solver.
  - cbn. by apply reaches_Ret, changes_nothing.
Qed.

Lemma reaches_then {A B} (F : Kind → NamespacedName → Prop) (q : prog A) (g : A → prog B) w (Q : B → W → Prop) :
  reaches q w (λ _ w', changes F w w') → (∀ a w', changes F w w' → reaches (g a) w' (λ b w2, changes F w' w2 ∧ Q b w2)) →
  reaches (bind q g) w (λ b w2, changes F w w2 ∧ Q b w2).
Proof.
  intros Hq Hg. apply reaches_bind. eapply reaches_mono; [|exact Hq]. cbv beta. intros a w1 Hc.
  eapply reaches_mono; [|by apply Hg]. cbv beta. intros b w2 [Hc2 HQ]. split; [by eapply changes_trans|done].
Qed.

Lemma reaches_cleanOnce w :
  good w → pr_Cleaned p = false → reaches (cleanOnce p s) w (λ r w', changes legacy w w' ∧ r = cleaned).
Proof.
  intros Hg Hp. unfold cleanOnce. rewrite Hp.
  assert (Hl : ∀ w, good w → reaches (deleteLegacyServiceMonitorSetup s) w (λ _ w', changes legacy w w')).
  { intros w1 Hg1. apply (reaches_mono _ _ (λ _ w', changes legacy w1 w' ∧ True)); [by intros ? ? [? _]|].
    unfold deleteLegacyServiceMonitorSetup.
    repeat (apply reaches_then; [apply deletion_legacy; [by eauto with search|set_solver]|intros ? ? ?]).
    apply reaches_Ret. split; [apply changes_refl; by eauto with search|done]. }
  apply reaches_then; [by apply Hl|]. intros a w1 Hc1. apply reaches_then; [apply owner_legacy; by eauto with search|].
  intros b w2 Hc2. apply reaches_Ret. split; [apply changes_refl; by eauto with search|done].
Qed.

(** ** From start to end *)

Local Abbreviation slots := (allSlots W s tls clusterName mce).

Lemma legacy_aside : aside s legacy.
Proof.
  intros k n Hk. unfold legacy in Hk. split.
  - split; intros ->; set_solver.
  - intros [[-> | ->] _]; set_solver.
Qed.

Lemma all_in_slots : Forall (λ sl, sl ∈ slots) (fixedSlots W s tls clusterName mce).
Proof. apply Forall_forall. intros sl Hsl. unfold allSlots. apply elem_of_app. by right. Qed.

Lemma clean_then I (HI : steady I) (g : Process → reconciliation) ds :
  brings D I at_end cleaned (g cleaned) ds → brings D I at_end cleaned (bind (cleanOnce p s) g) ds.
Proof.
  intros Hg. destruct (Sumbool.sumbool_of_bool (pr_Cleaned p)) as [Hp|Hp].
  - unfold cleanOnce. rewrite Hp. cbn [bind]. assert (p = cleaned) as -> by (unfold cleaned; rewrite <-Hp; by destruct p).
    done.
  - apply (brings_then D I at_end cleaned (cleanOnce p s) cleaned legacy [] g ds); [| | |done].
    + intros w Hw. eapply reaches_mono; [|apply reaches_cleanOnce; [by apply HI|done]]. cbv beta.
      intros r w' [Hc ->]. split_and!; [done..|]. by apply Forall_nil.
    + apply HI, legacy_aside.
    + rewrite (D_cleaned Hp). by intros sl ?%elem_of_nil.
Qed.

(** The name of an object a builder gives an owner. *)
Local Ltac named := unfold obj_key, keyOf, account, rule; cbn; by rewrite ?withOwner_Name, ?withOwner_namespace.

Lemma brings_legacy ptls workMem :
  answers (view w0) getPostgresTLSConfig ptls → answers (view w0) (GetDBConfigFromSearchCR s "WORK_MEM") workMem →
  brings D (after_database ptls workMem) at_end cleaned (reconcileLegacy p s)
    [rule (SearchPVCPrometheusRule s); absent KClusterRole (mkNN getRoleName (s_Namespace s));
     absent KClusterRoleBinding (mkNN getRoleBindingName "");
     absent KServiceAccount (mkNN "search-serviceaccount" (s_Namespace s))].
Proof.
  intros Hptls Hwm. pose proof (after_steady ptls workMem) as HI.
  pose proof all_in_slots as Hin. unfold fixedSlots in Hin. rewrite !Forall_app, !Forall_cons in Hin. split_hyps.
  unfold reconcileLegacy. eapply one_step; [done|apply settles_rule, withOwner_Finalizers|done|assumption|].
  apply clean_then; [done|]. unfold deleteLegacyRBAC, deleteClusterRole, deleteClusterRoleBinding.
  do 3 (eapply one_deletion; [done|done|done|assumption|]). apply brings_Ret. intros w Hw. by exists ptls, workMem.
Qed.

(** The features of a plain CR do nothing. *)
Lemma hub_then I (HI : steady I) I' p' rest ds :
  brings D I I' p' (rest s) ds → brings D I I' p' (feature p (addEnvToSearchAPI s) rest) ds.
Proof.
  intros Hr. unfold feature. apply (brings_look D I I' p' _ (λ r, r = (stepOk, s))); [| |by intros ? ->].
  - intros w Hw. destruct (proj1 HI w Hw) as [Hg Hc]. unfold addEnvToSearchAPI. apply reaches_get; [done|].
    intros w1 Hc1. rewrite (changes_shown _ _ _ _ _ Hc), no_hub_name.
    + intros e ->. by apply reaches_Ret.
    + intros [_ Hn]. specialize (Hn eq_refl). cbn in Hn. revert Hn. apply (bool_decide_unpack _). vm_compute. exact Logic.I.
  - apply HI, nothing_aside.
Qed.

Lemma feature_then I I' p' step rest r ds :
  step = Ret ((Some r, None), s) → brings D I I' p' (rest s) ds → brings D I I' p' (feature p step rest) ds.
Proof. by intros ->. Qed.

Lemma brings_features ptls workMem :
  answers (view w0) getPostgresTLSConfig ptls → answers (view w0) (GetDBConfigFromSearchCR s "WORK_MEM") workMem →
  brings D (after_database ptls workMem) at_end cleaned
    (reconcileFeatures p s (reconcileLegacy p))
    [rule (SearchPVCPrometheusRule s); absent KClusterRole (mkNN getRoleName (s_Namespace s));
     absent KClusterRoleBinding (mkNN getRoleBindingName "");
     absent KServiceAccount (mkNN "search-serviceaccount" (s_Namespace s))].
Proof.
  intros Hptls Hwm. eapply feature_then; [by apply plain_globalSearch|]. apply hub_then; [apply after_steady|].
  eapply feature_then; [by apply plain_fineGrained|]. eapply feature_then; [by apply plain_virtualMachines|].
  by apply brings_legacy.
Qed.

(** What is sent has no finalizers and leaves nothing to defaults. *)
Local Ltac sent :=
  try solve [ intros _ _; first [reflexivity|apply withOwner_Finalizers]
            | first [reflexivity|apply withOwner_Finalizers]
            | split; [done|by repeat constructor]
            | done ].

(** One more slot. *)
Local Ltac slot lem := eapply one_step; [first [apply before_steady|apply after_steady]|apply lem; sent|first [reflexivity|named]|assumption|].

Lemma brings_resources rest :
  (∀ ptls workMem, answers (view w0) getPostgresTLSConfig ptls →
     answers (view w0) (GetDBConfigFromSearchCR s "WORK_MEM") workMem →
     brings D (after_database ptls workMem) at_end cleaned rest
       [rule (SearchPVCPrometheusRule s); absent KClusterRole (mkNN getRoleName (s_Namespace s));
        absent KClusterRoleBinding (mkNN getRoleBindingName "");
        absent KServiceAccount (mkNN "search-serviceaccount" (s_Namespace s))]) →
  brings D before_database at_end cleaned (reconcileResources sha256 p s rest) (fixedSlots W s tls clusterName mce).
Proof.
  intros Hrest. pose proof all_in_slots as Hin. unfold fixedSlots, componentAccounts in *. cbn [map app] in *.
  rewrite !Forall_cons, Forall_app, !Forall_cons in Hin. split_hyps.
  unfold reconcileResources, reconcileComponents.
  eapply one_step; [apply before_steady|apply settles_serviceAccount; [cbn; lia|apply withOwner_Finalizers]|named|assumption|].
  do 2 (apply account_step; [apply before_steady|assumption|]).
  eapply one_step; [apply before_steady|apply settles_serviceAccount; [cbn; lia|apply withOwner_Finalizers]|named|assumption|].
  do 3 slot settles_roles. do 3 slot settles_binding.
  eapply one_then; [apply before_steady|apply settles_webhookCA|reflexivity|assumption|].
  apply merged_step; [apply before_steady|assumption|].
  do 3 slot settles_secret.
  slot (settles_createIfAbsent true KService).
  apply database_step. intros ptls wm Hptls Hwm. specialize (Hrest ptls wm Hptls Hwm).
  do 2 slot (settles_createIfAbsent true KService).
  eapply one_then; [apply after_steady|apply (settles_createIfAbsent true KService); sent|named|assumption|].
  do 3 slot (settles_createIfAbsent false KServiceMonitor).
  eapply input_then; [apply after_steady|apply looks_TLSEnvVars|exact tls_answer|].
  apply collector_step; [apply after_steady|assumption|].
  do 2 slot settles_deployment.
  apply policies_step; [apply after_steady| |].
  { intros np Hnp. match goal with Hall : Forall _ (map _ (policiesFor s mce)) |- _ => rewrite Forall_fmap, Forall_forall in Hall; exact (Hall np Hnp) end. }
  do 2 slot (settles_createIfAbsent false KConfigMap).
  exact Hrest.
Qed.

Lemma brings_active :
  brings D before_database at_end cleaned (reconcileActive sha256 p s) (allSlots W s tls clusterName mce).
Proof.
  unfold reconcileActive, allSlots, claimSlots. cbv zeta.
  assert (Hr := brings_resources _ brings_features).
  destruct (String.eqb _ "") eqn:Hs; cbn [negb bind]; [exact Hr|].
  eapply (one_then _ _ before_steady cleaned _ true (slot_of (present_or_unread KPVC (claimKey s)))
    (slot_of (present_or_unread KPVC (claimKey s)))); [apply settles_claim|done| |exact Hr].
  unfold allSlots, claimSlots. rewrite Hs. left.
Qed.
End round.
