(* ===== verification/Convergence.v ===== *)
(** Reconciling again and again on an API server that grants the writes and is otherwise
    left alone: every round succeeds, the second leaves the cluster as desired, and from
    then on the rounds change nothing but CollectorConfigs. What [Round] shows of one
    round is carried from each to the next; [Quiescence] says what is still written once
    the cluster is as desired. *)
From Stdlib Require Import Ascii String.
From S2P Require Import Prelude GoStrings K8s V1alpha1 Effects Interfaces Selectors MemServer Fixtures ImageValidation Common CollectorMerge PostgresConfig Deployments Objects Networks TLS SearchCR Features Status Addon Resources Seeder Reconciler Rollout Established Quiescence ApiServer ApiMem Steps Round.

Local Open Scope search_scope.

(** * The CR *)



Section finalizer.
Context `{ControllerUtilLaws}.



End finalizer.

(** * Quiet programs *)

Section quiet_runs.
Context `{ApiServer W} `{DeploymentSpecEquality}.
Context (v : ∀ R, Api R → R) (wanted : Deployment → Prop).

(** The Deployments on the server are what it made of the desired ones. *)
Hypothesis wanted_made : ∀ d, wanted d →
  ∃ o, v _ (Get KDeployment (keyOf (dep_Meta d))) = Ok o ∧
    (SpecDeepEqual (dep_Spec o) (dep_Spec d) = true ∨ ∃ old, stores KDeployment old d o).








End quiet_runs.

(** * One round *)

Section convergence.
Context `{ApiServer W}.
Context `{Environ} `{Quantities} `{ControllerUtilLaws} `{NestedFields} `{TLSLibrary} `{StatusConditions}.
Context `{SemanticEquality CollectorConfigSpec} `{SemanticEquality smap} `{SemanticEquality NetworkPolicySpec}.
Context `{SemanticEquality (list OwnerReference)} `{SemanticEquality (list PolicyRule)}.
Context `{SemanticEquality RoleRef} `{SemanticEquality (list Subject)}.
Context `{SemanticEquality (list RuleGroup)} `{DeploymentSpecEquality}.
Context (sha256 : string → list Byte.byte).

(** The request is for the CR itself. *)
Context (req : NamespacedName).
Hypothesis for_the_CR : HasPrefix (nn_Name req) "Pod/" = false.













(** * The second round *)








(** ** The cluster is as desired *)











(** * Round after round *)







End convergence.

(** * The theorem at a concrete input

    A new process on a server that fills in defaults; the CR was just created. In the
    third round three Deployments are sent again, since the server chose a strategy
    for them. *)

#[local] Existing Instance ref_NestedString.
#[local] Existing Instance sampleTLSLibrary.
#[local] Existing Instance sampleEnviron.
#[local] Existing Instance sampleQuantities.






