(* ===== verification/Robustness.v ===== *)
(** When the operator can panic: a reconciliation returns on every execution in
    which the server's answers have the shape the type assertions, index and slice
    expressions of the source take for granted. *)
From Stdlib Require Import Ascii String.
From S2P Require Import Prelude GoStrings K8s V1alpha1 Effects Interfaces Selectors MemServer Fixtures ImageValidation Common CollectorMerge PostgresConfig Deployments Objects Networks TLS SearchCR Features Status Addon Resources Seeder Reconciler.

Local Open Scope search_scope.

(** * What is taken for granted *)

Definition is_map (v : json) : Prop := ∃ m, v = JMap m.
Definition list_of_maps (v : json) : Prop := ∃ l, v = JList l ∧ Forall is_map l.

(** The status of a managed cluster, when there is one, is an object whose claims,
    when there are any, are a list of objects. *)
Definition cluster_shape (u : Unstructured) : Prop :=
  field "status" (u_Object u) = JNull ∨
  ∃ m, field "status" (u_Object u) = JMap m ∧
    (field "clusterClaims" m = JNull ∨ list_of_maps (field "clusterClaims" m)).

(** The engine lists its components under spec.overrides. *)
Definition engine_shape (u : Unstructured) : Prop :=
  ∃ spec overrides, field "spec" (u_Object u) = JMap spec ∧ field "overrides" spec = JMap overrides ∧
    list_of_maps (field "components" overrides).

Definition status_shape (u : Unstructured) : Prop :=
  field "status" (u_Object u) = JNull ∨ is_map (field "status" (u_Object u)).

(** The name of a pod of a deployment has a dash. *)
Definition pod_name_shape (name : string) : Prop := is_Some (deploymentNameOf name).

Definition on_ok {A} (P : A → Prop) (a : result A) : Prop := match a with Ok x => P x | Err _ => True end.

(** The answers the source takes for granted: random draws are in range, unstructured
    objects that are answered have the shape of their kind, and the operator's pods
    have the names deployments give them. Every request may be answered with an
    error. *)
Definition well_behaved (e : event) : Prop :=
  match e with
  | Ev q a =>
      match q in Api R return R → Prop with
      | RandInt b => λ n, n < b
      | List KPod _ => λ a, on_ok (Forall (λ p, pod_name_shape (om_Name (pod_Meta p)))) a
      | DynGet r _ => λ a,
          if decide (r = configmapsGvr) then on_ok (λ u, is_map (field "data" (u_Object u))) a
          else if decide (r = managedClustrAddonGvr) then on_ok status_shape a
          else True
      | DynList r => λ a,
          if decide (r = managedClusterResourceGvr) then on_ok (Forall cluster_shape) a
          else if decide (r = multiclusterengineResourceGvr) then on_ok (Forall engine_shape) a
          else True
      | _ => λ _, True
      end a
  end.

(** The status of the CR is a subresource: an accepted update of the CR leaves it
    alone, so that it is answered with the conditions [cs] the CR was last read with,
    if the status was not written since ([None] when it was). *)
Fixpoint status_kept (cs : option (list Condition)) (t : list event) : bool :=
  match t with
  | [] => true
  | Ev q a :: t =>
      match q in Api R return R → bool with
      | Get KSearch _ => λ a,
          match a with Ok s => status_kept (Some (s_Conditions s)) t | Err _ => status_kept cs t end
      | Update KSearch _ => λ a,
          match a, cs with
          | Ok s, Some l => bool_decide (s_Conditions s = l) && status_kept cs t
          | _, _ => status_kept cs t
          end
      | StatusUpdate KSearch _ => λ _, status_kept None t
      | _ => λ _, status_kept cs t
      end a
  end.

(** The panic that is left: the items of a listing of the managed clusters that
    failed are ranged over. *)
Definition listing_failed (t : list event) (w : string) : Prop :=
  w = "invalid memory address or nil pointer dereference" ∧
  ∃ t0 e, t = t0 ++ [Ev (DynList managedClusterResourceGvr) (Err e)].

(** * Programs that do not panic otherwise *)

(** What a request may be: anything, or nothing that reads the CR or writes its
    status. *)
Definition anything R (_ : Api R) : Prop := True.
Definition others R (q : Api R) : Prop :=
  match q with Get KSearch _ | StatusUpdate KSearch _ => False | _ => True end.

(** For well-behaved answers the requests are of [G], and the program panics after a
    failed listing only. *)
Definition safe (G : ∀ R, Api R → Prop) {A} (p : prog A) : Prop :=
  ∀ t o, exec p t o → Forall well_behaved t →
    Forall (ev_ok G) t ∧ ∀ w, o = Crashed w → listing_failed t w.

(** The same from a state in which the CR has the conditions [cs]. *)
Definition safe_from (cs : list Condition) {A} (p : prog A) : Prop :=
  ∀ t w, exec p t (Crashed w) → Forall well_behaved t → status_kept (Some cs) t = true → listing_failed t w.

Lemma listing_failed_app t1 t2 w : listing_failed t2 w → listing_failed (t1 ++ t2) w.
Proof. intros (Hw & t0 & e & ->). split; [done|]. exists (t1 ++ t0), e. by rewrite app_assoc. Qed.

Section safe.
Context (G : ∀ R, Api R → Prop).

Lemma safe_Ret {A} (a : A) : safe G (Ret a).
Proof. intros t o [-> ->]%exec_Ret _. by split. Qed.

Lemma safe_call {R} (q : Api R) : G R q → safe G (call q).
Proof.
  intros Hq t o (x & t' & -> & [-> ->]%exec_Ret)%exec_Op _. split; [|done]. by repeat constructor.
Qed.

Lemma safe_bind_post {A B} (p : prog A) (g : A → prog B) :
  safe G p → (∀ t a, exec p t (Done a) → Forall well_behaved t → safe G (g a)) → safe G (bind p g).
Proof.
  intros Hp Hg t o [(a & t1 & t2 & -> & Ha & Hb)|(w' & Hw & ->)]%exec_bind Ht.
  - apply Forall_app in Ht as [Ht1 Ht2]. destruct (Hp _ _ Ha Ht1) as [H1 _].
    destruct (Hg t1 a Ha Ht1 _ _ Hb Ht2) as [H2 Hc]. split; [by apply Forall_app|].
    intros w Hw. by apply listing_failed_app, Hc.
  - destruct (Hp _ _ Hw Ht) as [H1 Hc]. split; [done|]. intros w [= <-]. by apply Hc.
Qed.

Lemma safe_bind {A B} (p : prog A) (g : A → prog B) : safe G p → (∀ a, safe G (g a)) → safe G (bind p g).
Proof. intros Hp Hg. apply safe_bind_post; auto. Qed.

(** What is known of an answer may be used. *)
Lemma safe_answer {R B} (q : Api R) (g : R → prog B) :
  G R q → (∀ a, well_behaved (Ev q a) → safe G (g a)) → safe G (bind (call q) g).
Proof.
  intros Hq Hg. apply safe_bind_post; [by apply safe_call|].
  intros t a (x & t' & -> & [-> [= ->]]%exec_Ret)%exec_Op [Hx _]%Forall_cons. by apply Hg.
Qed.

Lemma safe_foldM {S A} (body : S → A → prog S) s l :
  (∀ s x, x ∈ l → safe G (body s x)) → safe G (foldM body s l).
Proof.
  revert s. induction l as [|x l IH]; intros s Hb; cbn [foldM]; [apply safe_Ret|].
  apply safe_bind; [apply Hb; left|]. intros s'. apply IH. intros s2 y Hy. apply Hb. by right.
Qed.

(** The loop over the managed clusters. *)
Lemma safe_listing {B} (errs : result (list Unstructured) → list error) body (g : list error → prog B) :
  G _ (DynList managedClusterResourceGvr) → (∀ es c, safe G (body es c)) → (∀ es, safe G (g es)) →
  safe G (a <- call (DynList managedClusterResourceGvr) ;; es <- forClusters a (errs a) body ;; g es).
Proof.
  intros Hq Hb Hg t o He Ht. unfold call in He. cbn [bind] in He. apply exec_Op in He as ([items|e] & t1 & -> & He).
  - apply Forall_cons in Ht as [_ Ht].
    assert (Hs : safe G (es <- foldM body (errs (Ok items)) items ;; g es)).
    { apply safe_bind; [apply safe_foldM; intros; apply Hb|done]. }
    destruct (Hs _ _ He Ht) as [H1 H2]. split; [by constructor|]. intros w Hw.
    by apply (listing_failed_app [_]), H2.
  - cbn [forClusters bind] in He. apply exec_Panic in He as [-> ->]. split; [by repeat constructor|].
    intros w [= <-]. split; [done|]. by exists [], e.
Qed.

Lemma safe_issues {A} (p : prog A) t o : safe G p → exec p t o → Forall well_behaved t → Forall (ev_ok G) t.
Proof. intros Hp He Ht. by destruct (Hp t o He Ht). Qed.
End safe.

(** ** Programs for which the conditions of the CR matter *)

Lemma status_kept_prefix cs t1 t2 : status_kept cs (t1 ++ t2) = true → status_kept cs t1 = true.
Proof.
  revert cs. induction t1 as [|[R q a] t1 IH]; intros cs; [done|]. cbn [app status_kept].
  destruct q as [k n|k o|k o|k o|k o|k o|k n|r n|r|r ns u|r ns u|r n| |b]; try (destruct k); try apply IH;
    destruct a; try apply IH; (destruct cs; [|apply IH]); intros [H1 H2]%andb_true_iff; apply andb_true_iff;
    (split; [done|by apply IH]).
Qed.

Lemma status_kept_suffix cs t1 t2 :
  Forall (ev_ok others) t1 → status_kept (Some cs) (t1 ++ t2) = true → status_kept (Some cs) t2 = true.
Proof.
  induction 1 as [|[R q a] t1 Hq _ IH]; [done|]. cbn [app status_kept].
  destruct q as [k n|k o|k o|k o|k o|k o|k n|r n|r|r ns u|r ns u|r n| |b]; try (destruct k); try apply IH; try done.
  destruct a; [|apply IH]. intros [_ Hk]%andb_true_iff. by apply IH.
Qed.

Lemma safe_safe_from cs {A} (p : prog A) : safe anything p → safe_from cs p.
Proof. intros Hp t w He Ht _. by destruct (Hp _ _ He Ht) as [_ Hc]; apply Hc. Qed.

(** The first part may do anything, the second one relies on what it returned. *)
Lemma safe_from_bind cs {A B} (p : prog A) (g : A → prog B) :
  safe_from cs p →
  (∀ t a, exec p t (Done a) → Forall well_behaved t → status_kept (Some cs) t = true → safe anything (g a)) →
  safe_from cs (bind p g).
Proof.
  intros Hp Hg t w [(a & t1 & t2 & -> & Ha & Hb)|(w' & Hw & [= <-])]%exec_bind Ht Hk; [|by apply Hp].
  apply Forall_app in Ht as [Ht1 Ht2]. pose proof (Hg t1 a Ha Ht1 (status_kept_prefix _ _ _ Hk)) as Hs.
  destruct (Hs _ _ Hb Ht2) as [_ Hc]. by apply listing_failed_app, Hc.
Qed.

(** The first part neither reads the CR nor writes its status. *)
Lemma safe_from_then cs {A B} (p : prog A) (g : A → prog B) :
  safe others p →
  (∀ t a, exec p t (Done a) → Forall well_behaved t → status_kept (Some cs) t = true → safe_from cs (g a)) →
  safe_from cs (bind p g).
Proof.
  intros Hp Hg t w [(a & t1 & t2 & -> & Ha & Hb)|(w' & Hw & [= <-])]%exec_bind Ht Hk.
  - apply Forall_app in Ht as [Ht1 Ht2]. apply listing_failed_app.
    eapply Hg; [done|done|by eapply status_kept_prefix|done..|].
    eapply status_kept_suffix; [|done]. by eapply safe_issues.
  - by destruct (Hp _ _ Hw Ht) as [_ Hc]; apply Hc.
Qed.

Create HintDb safe.
#[export] Hint Resolve safe_Ret safe_call : safe.

(** Requests are of [anything], and most of [others]. *)
#[export] Hint Extern 1 (anything _ _) => exact I : safe.
#[export] Hint Extern 1 (others _ _) => exact I : safe.

(** One step towards [safe]: by a known part, a request, or a case of the code. *)
Ltac safe_step :=
  match goal with
  | |- safe _ (Ret _) => apply safe_Ret
  | |- safe _ (call _) => apply safe_call; solve [eauto with safe nocore]
  | |- safe _ (bind (call _) _) => apply safe_answer; [solve [eauto with safe nocore]|intros ? ?]
  | |- safe _ (bind _ _) => apply safe_bind; [|intros ?]
  | |- safe _ (foldM _ _ _) => apply safe_foldM; intros
  | |- safe _ (match ?x with _ => _ end) => destruct x eqn:?
  | |- safe _ (let _ := _ in _) => cbv zeta
  end.
Ltac safe_steps := repeat (first [solve [eauto with safe nocore] | safe_step]); try solve [eauto with safe nocore].

Lemma safe_any {A} (p : prog A) : safe others p → safe anything p.
Proof.
  intros Hp t o He Ht. destruct (Hp t o He Ht) as [_ Hc]. split; [|exact Hc].
  apply Forall_forall. by intros [R q a] _.
Qed.
#[export] Hint Extern 2 (safe anything _) => apply safe_any; solve [eauto with safe nocore] : safe.

(** * The operations *)

Section operations.
Context `{Environ} `{Quantities} `{ControllerUtil} `{NestedFields} `{TLSLibrary} `{StatusConditions}.
Context `{SemanticEquality CollectorConfigSpec} `{SemanticEquality smap} `{SemanticEquality NetworkPolicySpec}.
Context `{SemanticEquality (list OwnerReference)} `{SemanticEquality (list PolicyRule)}.
Context `{SemanticEquality RoleRef} `{SemanticEquality (list Subject)}.
Context `{SemanticEquality (list RuleGroup)} `{DeploymentSpecEquality}.

Lemma safe_createIfAbsent strict k x : k ≠ KSearch → safe others (createIfAbsent strict k x).
Proof. intros Hk. assert (∀ n, others _ (Get k n)) by by destruct k. unfold createIfAbsent. safe_steps. Qed.

Lemma safe_serviceAccount sa : safe others (createSearchServiceAccount sa).
Proof. unfold createSearchServiceAccount. safe_steps. Qed.

Lemma safe_roles cr : safe others (createUpdateRoles cr).
Proof. unfold createUpdateRoles. safe_steps. Qed.

Lemma safe_binding rb : safe others (createRoleBinding rb).
Proof. unfold createRoleBinding. safe_steps. Qed.

Lemma safe_webhookCA : safe others ensureWebhookCAInjection.
Proof. unfold ensureWebhookCAInjection. safe_steps. Qed.

Lemma safe_deployment d : safe others (createOrUpdateDeployment d).
Proof. unfold createOrUpdateDeployment. safe_steps. Qed.

Lemma safe_prometheusRule r : safe others (createOrUpdatePrometheusRule r).
Proof. unfold createOrUpdatePrometheusRule. safe_steps. Qed.

Lemma safe_deleteObject k n : safe others (deleteObject k n).
Proof. unfold deleteObject. safe_steps. Qed.

Lemma safe_MCE : safe others getMCETargetNamespace.
Proof. unfold getMCETargetNamespace. safe_steps. Qed.

Lemma safe_TLSProfile : safe others fetchTLSProfileSpec.
Proof. unfold fetchTLSProfileSpec. safe_steps. Qed.

Lemma safe_dbConfig instance v : safe others (GetDBConfigFromSearchCR instance v).
Proof. unfold GetDBConfigFromSearchCR, getDBConfigData. safe_steps. Qed.

#[local] Hint Resolve safe_createIfAbsent safe_serviceAccount safe_roles safe_binding safe_webhookCA
  safe_deployment safe_prometheusRule safe_deleteObject safe_MCE safe_TLSProfile safe_dbConfig : safe.

Lemma safe_services svc : safe others (createService svc).
Proof. by apply safe_createIfAbsent. Qed.
Lemma safe_monitors sm : safe others (createServiceMonitor sm).
Proof. by apply safe_createIfAbsent. Qed.
Lemma safe_ownConfigMap cm : safe others (createConfigMap cm).
Proof. by apply safe_createIfAbsent. Qed.

Lemma safe_networkPolicies instance : safe others (reconcileNetworkPolicies true instance).
Proof.
  unfold reconcileNetworkPolicies, NetworkPolicies. safe_steps.
  match goal with |- safe others (runSteps (map _ ?l)) => generalize l end.
  intros l. induction l as [|np l IH]; cbn [map runSteps]; [apply safe_Ret|].
  apply safe_bind; [|intros [[r|] e]; [apply safe_Ret|exact IH]].
  unfold createOrUpdateNetworkPolicy. safe_steps.
Qed.

Lemma safe_merged instance : safe others (createOrUpdateMergedCollectorConfig instance).
Proof.
  unfold createOrUpdateMergedCollectorConfig. safe_steps.
  - match goal with |- safe others (mergeTeams ?l ?a ?b) => generalize l a b end.
    intros l. induction l as [|x l IH]; intros rules configs; cbn [mergeTeams]; [apply safe_Ret|].
    unfold addBackupLabel. safe_steps.
  - unfold mergeUser, addBackupLabel, updateUserCCStatus. safe_steps.
  - unfold writeMerged. safe_steps.
Qed.

(** A draw in range names a character. *)
Lemma safe_generatePass n : safe others (generatePass n).
Proof.
  induction n as [|n IH]; cbn [generatePass]; [apply safe_Ret|].
  apply safe_answer; [done|]. intros i Hi. cbn in Hi. destruct (get_in_range i passChars Hi) as [c ->].
  safe_steps.
Qed.

Lemma safe_dbSecret name user instance : safe others (secret <- dbSecret name user instance ;; createSecret secret).
Proof.
  apply safe_bind; [|intros secret; by apply safe_createIfAbsent].
  unfold dbSecret. apply safe_bind; [apply safe_generatePass|]. intros. apply safe_Ret.
Qed.

Lemma safe_collectorDeployment instance env :
  safe others (d <- CollectorDeployment instance env ;; createOrUpdateDeployment d).
Proof. unfold CollectorDeployment, getClusterNameFromMCH. safe_steps. Qed.

Lemma safe_PostgresTLS : safe others getPostgresTLSConfig ∧ safe others getTLSEnvVars.
Proof. unfold getPostgresTLSConfig, getTLSEnvVars. split; safe_steps. Qed.

Lemma safe_postgresConfigmap instance tls : safe others (PostgresConfigmap instance tls).
Proof. unfold PostgresConfigmap. safe_steps. Qed.

(** The ConfigMap of the database has data, so its entries can be assigned. *)
Lemma safe_database sha256 instance : safe others (reconcileDatabase sha256 instance).
Proof.
  unfold reconcileDatabase. apply safe_bind; [apply safe_PostgresTLS|intros tls].
  apply safe_bind_post; [apply safe_postgresConfigmap|]. intros t cm Hcm _.
  assert (Hd : ∃ d, cm_Data cm = Some d).
  { revert Hcm. unfold PostgresConfigmap. cbv zeta.
    intros [(v & t1 & t2 & -> & _ & [_ [= ->]]%exec_Ret)|(w & _ & ?)]%exec_bind; [|done]. by eexists. }
  destruct Hd as [d Hd]. apply safe_bind.
  - assert (Hup : ∀ found, safe others (updateConfigMap found cm)).
    { intros found. unfold updateConfigMap. rewrite Hd, UpdatePostgresConfigmap_Some. safe_steps. }
    unfold createOrUpdateConfigMap. safe_steps.
  - intros [[[r|] e] cm']; [apply safe_Ret|]. unfold PGDeployment. safe_steps.
Qed.
#[local] Hint Resolve safe_services safe_monitors safe_ownConfigMap safe_networkPolicies safe_merged safe_dbSecret
  safe_collectorDeployment safe_database : safe.

(** Setting a variable of the search API leaves the conditions. *)
Lemma searchAPIEnvVar_conditions s ev no s' :
  searchAPIEnvVar s ev = (no, s') → s_Conditions s' = s_Conditions s.
Proof. unfold searchAPIEnvVar. intros Hs. repeat case_match; by simplify_eq. Qed.

Lemma envUpdate_conditions cs s ev t e s' :
  exec (updateSearchApiDeployment s ev) t (Done (e, s')) → s_Conditions s = cs →
  status_kept (Some cs) t = true → s_Conditions s' = cs.
Proof.
  unfold updateSearchApiDeployment. destruct (searchAPIEnvVar s ev) as [no s1] eqn:Hs.
  apply searchAPIEnvVar_conditions in Hs. intros He <-. destruct no; [by apply exec_Ret in He as [_ [= -> ->]]|].
  unfold call in He. cbn [bind] in He. apply exec_Op in He as ([o|err] & t1 & -> & He);
    apply exec_Ret in He as [_ [= -> ->]]; [|done]. by intros [Hx%bool_decide_eq_true _]%andb_true_iff.
Qed.

Lemma safe_dropCondition i instance : i < length (s_Conditions instance) → safe others (dropCondition i instance).
Proof. intros Hi. unfold dropCondition. rewrite (proj2 (Nat.ltb_lt _ _) Hi). apply safe_Ret. Qed.

Lemma safe_envUpdate instance ev : safe others (updateSearchApiDeployment instance ev).
Proof. unfold updateSearchApiDeployment. safe_steps. Qed.
Lemma safe_commit instance : safe anything (commitSearchCRInstanceState instance).
Proof. unfold commitSearchCRInstanceState. safe_steps. Qed.
#[local] Hint Resolve safe_envUpdate safe_commit : safe.

Lemma safe_conditionCR instance c : safe anything (updateStatusConditionCR instance c).
Proof. unfold updateStatusConditionCR. safe_steps. Qed.
Lemma safe_globalStatus instance c : safe anything (updateGlobalSearchStatus instance c).
Proof. unfold updateGlobalSearchStatus. safe_steps. Qed.
Lemma safe_newCondition ty st r m : safe others (newCondition ty st r m).
Proof. unfold newCondition. safe_steps. Qed.

(** The console's ConfigMaps have data. *)
Lemma safe_flag key b ns name : safe others (setConsoleFlag key b ns name).
Proof.
  unfold setConsoleFlag. apply safe_answer; [done|]. intros [u|e] Ha; [|apply safe_Ret].
  cbn in Ha. rewrite decide_True in Ha by done. destruct Ha as [m Hm]. rewrite Hm. cbn [as_map bind]. safe_steps.
Qed.

Lemma safe_createUnlessExists gvr ns u : safe others (createUnlessExists gvr ns u).
Proof. unfold createUnlessExists. safe_steps. Qed.
Lemma safe_deletePair g1 n1 g2 n2 errs c : safe others (deletePair g1 n1 g2 n2 errs c).
Proof. unfold deletePair, deleteIfExists. safe_steps. Qed.
#[local] Hint Resolve safe_conditionCR safe_globalStatus safe_newCondition safe_flag safe_createUnlessExists
  safe_deletePair : safe.

Lemma safe_scan l acc : Forall is_map l → safe others (scanComponents l acc).
Proof.
  intros Hl. revert acc. induction Hl as [|x l [m ->] _ IH]; intros acc; cbn [scanComponents]; [apply safe_Ret|].
  cbn [as_map bind]. apply IH.
Qed.

Lemma safe_engine n1 n2 : safe others (validateEngine n1 n2).
Proof.
  unfold validateEngine. apply safe_answer; [done|]. intros [[|mce l]|e] Ha; [apply safe_Ret| |apply safe_Ret].
  cbn in Ha. apply Forall_cons in Ha as [(spec & overrides & Hs & Ho & cs & Hc & Hm) _].
  rewrite Hs. cbn [as_map bind]. rewrite Ho. cbn [as_map bind]. rewrite Hc. cbn [as_list bind].
  apply safe_bind; [by apply safe_scan|]. intros [a b]. safe_steps.
Qed.

Lemma safe_claims l : Forall is_map l → safe others (anyHubClaim l).
Proof.
  induction 1 as [|x l [m ->] _ IH]; cbn [anyHubClaim]; [apply safe_Ret|]. cbn [as_map bind].
  destruct (_ && _); [apply safe_Ret|exact IH].
Qed.

Lemma safe_isHub c : cluster_shape c → safe others (clusterIsHub c).
Proof.
  intros Hc. unfold clusterIsHub. destruct (String.eqb _ _); [apply safe_Ret|].
  destruct Hc as [->|(m & -> & Hc)]; [apply safe_Ret|]. cbn [is_nil as_map bind].
  destruct Hc as [->|(l & -> & Hl)]; [apply safe_Ret|]. cbn [is_nil as_list bind]. by apply safe_claims.
Qed.
#[local] Hint Resolve safe_engine : safe.

Lemma safe_configureHub namespace errs c : cluster_shape c → safe others (configureHub namespace errs c).
Proof.
  intros Hc. unfold configureHub. apply safe_bind; [by apply safe_isHub|]. intros b.
  destruct (negb b); [apply safe_Ret|]. unfold createManagedServiceAccount. safe_steps.
  unfold createManifestWork. apply safe_answer; [done|]. intros [msa|e] Ha; [|apply safe_Ret]. cbv zeta.
  cbn in Ha. destruct Ha as [Ha|[m Ha]]; rewrite Ha; cbn [is_nil as_map bind]; safe_steps.
Qed.

Lemma safe_switchGlobal b instance : safe others (switchGlobalSearch b instance).
Proof. unfold switchGlobalSearch, updateConsoleConfig. safe_steps. Qed.
#[local] Hint Resolve safe_switchGlobal : safe.

Lemma safe_enableGlobal instance : safe others (enableGlobalSearch instance).
Proof.
  unfold enableGlobalSearch. apply safe_bind; [apply safe_switchGlobal|]. intros [errs s].
  apply safe_answer; [done|]. intros [items|e] Hi; cbv zeta; (apply safe_bind; [|intros; apply safe_Ret]);
    [|apply safe_Ret]. apply safe_foldM. intros es c Hc. apply safe_configureHub. by eapply Forall_forall in Hi.
Qed.

Lemma safe_disableGlobal instance : safe others (disableGlobalSearch instance).
Proof.
  unfold disableGlobalSearch. apply safe_bind; [apply safe_switchGlobal|]. intros [errs s].
  apply safe_listing; [done|auto with safe|intros; apply safe_Ret].
Qed.
#[local] Hint Resolve safe_enableGlobal safe_disableGlobal : safe.

Lemma switchGlobal_conditions cs b s t errs s' :
  exec (switchGlobalSearch b s) t (Done (errs, s')) → s_Conditions s = cs → Forall well_behaved t →
  status_kept (Some cs) t = true → s_Conditions s' = cs.
Proof.
  unfold switchGlobalSearch. intros He Hs Ht Hk.
  do 3 (let Hstep := fresh in apply exec_bind in He as [(? & ? & ? & -> & Hstep & He)|(w & _ & ?)]; [|done]; cbv zeta in He;
        let Ht1 := fresh in apply Forall_app in Ht as [Ht1 Ht]; eapply status_kept_suffix in Hk;
        [|eapply safe_issues; [|exact Hstep|exact Ht1]; unfold updateConsoleConfig; auto with safe]).
  apply exec_bind in He as [([e s1] & t3 & t4 & -> & Hu & He)|(w & _ & ?)]; [|done].
  apply exec_Ret in He as [_ [= -> ->]]. eapply envUpdate_conditions; [done..|by eapply status_kept_prefix].
Qed.

Lemma disableGlobal_conditions cs s t e s' :
  exec (disableGlobalSearch s) t (Done (e, s')) → s_Conditions s = cs → Forall well_behaved t →
  status_kept (Some cs) t = true → s_Conditions s' = cs.
Proof.
  unfold disableGlobalSearch. intros He Hs Ht Hk.
  apply exec_bind in He as [([errs s1] & t1 & t2 & -> & Hsw & He)|(w & _ & ?)]; [|done].
  apply Forall_app in Ht as [Ht _].
  do 2 (apply exec_bind in He as [(? & ? & ? & -> & _ & He)|(w & _ & ?)]; [|done]).
  apply exec_Ret in He as [_ [= -> ->]]. eapply switchGlobal_conditions; [done..|by eapply status_kept_prefix].
Qed.

(** The condition to drop is still there: the updates before left the status. *)
Lemma safe_globalSearch cs instance :
  s_Conditions instance = cs → safe_from cs (reconcileGlobalSearch instance).
Proof.
  intros Hcs. unfold reconcileGlobalSearch, validateGlobalSearchDependencies.
  destruct (String.eqb _ _); [apply safe_safe_from; safe_steps|].
  destruct (find_index _ _) as [i|] eqn:Hi; [|apply safe_safe_from, safe_Ret]. apply find_index_lt in Hi.
  apply safe_from_bind; [apply safe_safe_from; auto with safe|]. intros t [e s] He Ht Hk.
  apply (disableGlobal_conditions cs) in He; [|done..]. destruct e as [e|]; [safe_steps|].
  apply safe_bind; [apply safe_any, safe_dropCondition; by rewrite He, <-Hcs|]. intros. safe_steps.
Qed.

Lemma safe_VMFlag b : safe others (updateConsoleConfigVM b).
Proof. unfold updateConsoleConfigVM. safe_steps. Qed.
#[local] Hint Resolve safe_VMFlag : safe.

Lemma safe_virtualMachines instance : safe anything (reconcileVirtualMachineConfiguration instance).
Proof.
  unfold reconcileVirtualMachineConfiguration, validateVirtualMachineDependencies.
  destruct (String.eqb _ _).
  - safe_steps. unfold configureVirtualMachineActions, configureVMCluster, createVMManagedServiceAccount,
      createVMClusterPermission. safe_steps.
  - destruct (find_index _ _) as [i|] eqn:Hi; [|apply safe_Ret]. apply find_index_lt in Hi.
    apply safe_bind.
    + unfold disableVirtualMachineActions. apply safe_bind; [apply safe_any, safe_VMFlag|]. intros e.
      apply safe_listing; [done|auto with safe|intros; apply safe_Ret].
    + intros [e|]; [safe_steps|]. apply safe_bind; [by apply safe_any, safe_dropCondition|]. intros. safe_steps.
Qed.

Lemma safe_fineGrained instance : safe anything (reconcileFineGrainedRBACConfiguration instance).
Proof. unfold reconcileFineGrainedRBACConfiguration, removeStatusCondition. safe_steps. Qed.

Lemma safe_hubName instance : safe others (addEnvToSearchAPI instance).
Proof. unfold addEnvToSearchAPI. safe_steps. Qed.

#[local] Hint Resolve safe_virtualMachines safe_fineGrained safe_hubName : safe.

(** No feature reports an error without a result, which [Reconcile] would
    dereference. *)
Definition never_half (p : prog (stepResult * Search)) : Prop :=
  ∀ t e s, ¬ exec p t (Done ((None, Some e), s)).

Lemma never_half_bind {A} (p : prog A) g : (∀ a, never_half (g a)) → never_half (bind p g).
Proof. intros Hg t e s [(a & t1 & t2 & _ & _ & Hb)|(w & _ & ?)]%exec_bind; [by eapply Hg|done]. Qed.

Lemma never_half_Ret r s : (∀ e, r ≠ (None, Some e)) → never_half (Ret (r, s)).
Proof. intros Hr t e s' [_ [= <- _]]%exec_Ret. by eapply Hr. Qed.

Ltac never_half_steps :=
  repeat match goal with
  | |- never_half (Ret _) => by apply never_half_Ret
  | |- never_half (bind _ _) => apply never_half_bind; intros ?
  | |- never_half (match ?x with _ => _ end) => destruct x
  end.

Lemma features_report instance :
  never_half (reconcileGlobalSearch instance) ∧ never_half (addEnvToSearchAPI instance) ∧
  never_half (reconcileFineGrainedRBACConfiguration instance) ∧
  never_half (reconcileVirtualMachineConfiguration instance).
Proof.
  unfold reconcileGlobalSearch, addEnvToSearchAPI, reconcileFineGrainedRBACConfiguration,
    reconcileVirtualMachineConfiguration.
  split_and!; never_half_steps.
Qed.

(** * The reconciliation *)

Lemma safe_orElse G p step rest : safe G step → safe G rest → safe G (orElse p step rest).
Proof. intros Hs Hr. unfold orElse. safe_steps. Qed.

Lemma safe_feature p step rest :
  safe anything step → never_half step → (∀ s, safe anything (rest s)) → safe anything (feature p step rest).
Proof.
  intros Hs Hn Hr. unfold feature. apply safe_bind_post; [done|].
  intros t [[[r|] [e|]] s] He _; [apply safe_Ret|apply Hr|by apply Hn in He|apply Hr].
Qed.

Lemma safe_deleting G p d rest : safe G d → safe G rest → safe G (deleting p d rest).
Proof. intros Hd Hr. unfold deleting. safe_steps. Qed.

Lemma safe_firstError G steps : Forall (safe G) steps → safe G (firstError steps).
Proof. induction 1 as [|p steps Hp _ IH]; cbn [firstError]; [apply safe_Ret|]. safe_steps. Qed.

Lemma safe_removeOwnerRef instance : safe others (removeOwnerRefClusterManagementAddon instance).
Proof. unfold removeOwnerRefClusterManagementAddon. safe_steps. Qed.
#[local] Hint Resolve safe_removeOwnerRef : safe.

Lemma safe_setFinalizer instance : safe others (setFinalizer instance).
Proof.
  unfold setFinalizer, finalizeSearch, deleteClusterRole, deleteClusterRoleBinding. safe_steps.
  apply safe_firstError. repeat (apply Forall_cons; split; [auto with safe|]). by apply Forall_nil.
Qed.

(** The CR as [setFinalizer] leaves it, when the reconciliation goes on, has the
    conditions it was read with. *)
Lemma setFinalizer_conditions cs s t d s' :
  exec (setFinalizer s) t (Done (d, None, s')) → s_Conditions s = cs → Forall well_behaved t →
  status_kept (Some cs) t = true → s_Conditions s' = cs.
Proof.
  assert (Hw : ∀ s1 d1 t1, exec (u <- call (Update KSearch s1) ;;
      match u with Ok o => Ret (d1, @None error, o) | Err e => Ret (false, Some e, s1) end) t1 (Done (d, None, s')) →
    status_kept (Some cs) t1 = true → s_Conditions s' = cs).
  { intros s1 d1 t1 He Hk. unfold call in He. cbn [bind] in He. apply exec_Op in He as ([o|e] & t2 & -> & He);
      apply exec_Ret in He as [_ He]; [|done]. injection He as _ ->.
    by apply andb_true_iff in Hk as [Hx%bool_decide_eq_true _]. }
  unfold setFinalizer. intros He Hs Ht Hk. destruct (om_DeletionTimestamp _).
  - destruct (ContainsFinalizer _ _); [|by apply exec_Ret in He as [_ [= _ ->]]].
    apply exec_bind in He as [([e|] & t1 & t2 & -> & Hf & He)|(w & _ & ?)]; [by apply exec_Ret in He as [_ ?]| |done].
    eapply Hw; [exact He|]. eapply status_kept_suffix; [|exact Hk]. apply Forall_app in Ht as [Ht _].
    eapply safe_issues; [|exact Hf|exact Ht]. unfold finalizeSearch, deleteClusterRole, deleteClusterRoleBinding.
    apply safe_firstError. repeat (apply Forall_cons; split; [auto with safe|]). by apply Forall_nil.
  - destruct (negb _); [by eapply Hw|by apply exec_Ret in He as [_ [= _ ->]]].
Qed.

Lemma safe_legacy p instance : safe others (reconcileLegacy p instance).
Proof.
  unfold reconcileLegacy, cleanOnce, deleteLegacyRBAC, deleteClusterRole, deleteClusterRoleBinding,
    deleteLegacyServiceMonitorSetup.
  apply safe_orElse; [auto with safe|]. safe_steps.
  all: repeat (apply safe_deleting; [auto with safe|]); apply safe_Ret.
Qed.

Lemma safe_from_orElse cs p step rest : safe others step → safe_from cs rest → safe_from cs (orElse p step rest).
Proof.
  intros Hs Hr. apply safe_from_then; [done|]. intros t [[r|] e] _ _ _; [apply safe_safe_from, safe_Ret|done].
Qed.

Lemma safe_from_withAccount cs p sa rest : safe_from cs rest → safe_from cs (withAccount p sa rest).
Proof.
  intros Hr. unfold withAccount. destruct sa; [|apply safe_safe_from, safe_Ret].
  apply safe_from_orElse; [apply safe_serviceAccount|done].
Qed.

Lemma safe_resources cs sha256 p instance rest :
  safe_from cs rest → safe_from cs (reconcileResources sha256 p instance rest).
Proof.
  intros Hrest. destruct safe_PostgresTLS as [Ht1 Ht2]. unfold reconcileResources, reconcileComponents.
  repeat first
    [ assumption
    | apply safe_from_orElse; [first [assumption | apply safe_dbSecret | solve [auto with safe nocore]]|]
    | apply safe_from_withAccount
    | apply safe_from_then; [first [assumption | solve [auto with safe nocore]]|intros ? ? ? ? ?] ].
Qed.

Lemma safe_from_feature cs p step rest :
  safe_from cs step → never_half step → (∀ s, safe anything (rest s)) → safe_from cs (feature p step rest).
Proof.
  intros Hs Hn Hr. apply safe_from_bind; [done|].
  intros t [[[r|] [e|]] s] He _ _; [apply safe_Ret|apply Hr|by apply Hn in He|apply Hr].
Qed.

Lemma safe_active cs sha256 p instance :
  s_Conditions instance = cs → safe_from cs (reconcileActive sha256 p instance).
Proof.
  intros Hcs. unfold reconcileActive, reconcileFeatures. cbv zeta. apply safe_from_then.
  { unfold isPVCPresent, configurePVC, createPVC. safe_steps. }
  intros _ [|] _ _ _; cbn [negb]; [|apply safe_safe_from, safe_Ret].
  apply safe_resources. destruct (features_report instance) as (Hg & _).
  apply safe_from_feature; [by apply safe_globalSearch|done|intros s1]. destruct (features_report s1) as (_ & He & _).
  apply safe_feature; [auto with safe|done|intros s2]. destruct (features_report s2) as (_ & _ & Hf & _).
  apply safe_feature; [auto with safe|done|intros s3]. destruct (features_report s3) as (_ & _ & _ & Hv).
  apply safe_feature; [auto with safe|done|intros s4]. apply safe_any, safe_legacy.
Qed.

(** Pods named as their deployments name them can be told apart. *)
Lemma safe_scanPods pods : Forall (λ p, pod_name_shape (om_Name (pod_Meta p))) pods → safe others (scanPods pods).
Proof.
  intros Hp. unfold scanPods. apply safe_foldM. intros acc p Hin.
  rewrite Forall_forall in Hp. destruct (Hp p Hin) as [d ->]. apply safe_Ret.
Qed.

Lemma safe_status instance podName : pod_name_shape podName → safe anything (updateStatus instance podName).
Proof.
  intros [d Hd]. unfold updateStatus. rewrite Hd.
  assert (Hname : pod_name_shape podName) by (by exists d).
  apply safe_answer; [done|]. intros [pods|e] Ha; [|apply safe_Ret]. cbn in Ha.
  apply safe_bind_post.
  - destruct pods; safe_steps.
  - intros t pods' Hp _. assert (Hpods : Forall (λ p, pod_name_shape (om_Name (pod_Meta p))) pods').
    { destruct pods as [|p pods]; [|by apply exec_Ret in Hp as [_ [= ->]]].
      unfold call in Hp. cbn [bind] in Hp. apply exec_Op in Hp as (now & t' & _ & [_ [= ->]]%exec_Ret).
      apply Forall_singleton. exact Hname. }
    unfold updateStatusCondition. apply safe_bind; [|intros; safe_steps].
    apply safe_bind; [by apply safe_any, safe_scanPods|]. intros [ty c]. safe_steps.
Qed.
End operations.

(** * Theorem *)

Section never_panics.
Context `{Environ} `{Quantities} `{ControllerUtil} `{NestedFields} `{TLSLibrary} `{StatusConditions}.
Context `{SemanticEquality CollectorConfigSpec} `{SemanticEquality smap} `{SemanticEquality NetworkPolicySpec}.
Context `{SemanticEquality (list OwnerReference)} `{SemanticEquality (list PolicyRule)}.
Context `{SemanticEquality RoleRef} `{SemanticEquality (list Subject)}.
Context `{SemanticEquality (list RuleGroup)} `{DeploymentSpecEquality}.

(** C14: when the operator panics. For a request of any watch and every execution in
    which the answers are well behaved, whether they are objects or errors,
    [Reconcile] returns a result: no index, slice or type assertion fails, no nil is
    dereferenced, and no entry of a nil map is assigned, whichever features are on.
    There is one exception, and the source has it: where a listing of the managed
    clusters was just answered with an error, the nil listing is ranged over. What is
    taken for granted of the answers is listed in [well_behaved] and [status_kept];
    the name in a pod request must be one a deployment gives. *)
Theorem reconcile_never_panics sha256 req p t o :
  exec (Reconcile sha256 req p) t o → Forall well_behaved t → status_kept None t = true →
  (∀ rest, nn_Name req = "Pod/" +:+ rest → ∀ name, nth_error (Split (nn_Name req) "/") 1 = Some name → pod_name_shape name) →
  (∃ r, o = Done r) ∨ (∃ w, o = Crashed w ∧ listing_failed t w).
Proof.
  intros He Ht Hk Hreq. destruct o as [r|w]; [left; by exists r|right; exists w; split; [done|]].
  unfold Reconcile, call in He. cbn [bind] in He. apply exec_Op in He as ([s|e] & t1 & -> & He);
    [|by apply exec_Ret in He as [_ ?]].
  apply Forall_cons in Ht as [_ Ht]. apply (listing_failed_app [_]). cbn [status_kept] in Hk.
  revert t1 w He Ht Hk. match goal with |- ∀ t w, exec ?q t _ → _ => change (safe_from (s_Conditions s) q) end.
  cbv zeta. destruct (HasPrefix (nn_Name req) "Pod/") eqn:Hp.
  - apply HasPrefix_spec in Hp as (rest & Hp). specialize (Hreq rest Hp). rewrite Hp in Hreq |- *.
    change ("Pod/" +:+ rest) with ("Pod" +:+ String "/" rest) in Hreq |- *.
    rewrite Split_append in Hreq |- * by done.
    destruct (Split rest "/") as [|name l] eqn:Hs; [by apply Split_nonempty in Hs|].
    apply safe_safe_from, safe_bind; [|intros; apply safe_Ret]. apply safe_status. by apply Hreq.
  - apply safe_from_then; [apply safe_setFinalizer|]. intros t1 [[d [e|]] s'] He Ht Hk; [apply safe_safe_from, safe_Ret|].
    apply (setFinalizer_conditions (s_Conditions s)) in He; [|done..].
    destruct d; [apply safe_safe_from, safe_Ret|]. destruct (IsPaused _); [apply safe_safe_from, safe_Ret|].
    by apply safe_active.
Qed.
End never_panics.

(** * The theorem at a concrete input *)

#[local] Existing Instance ref_NestedString.
#[local] Existing Instance sampleTLSLibrary.
#[local] Existing Instance sampleEnviron.
#[local] Existing Instance sampleQuantities.

(** A test that is sound for traces without managed clusters. *)
Definition well_behavedb (e : event) : bool :=
  match e with
  | Ev q a =>
      match q in Api R return R → bool with
      | RandInt b => λ n, (n <? b)%nat
      | List KPod _ => λ a,
          match a with
          | Ok pods => forallb (λ p, bool_decide (is_Some (deploymentNameOf (om_Name (pod_Meta p))))) pods
          | Err _ => true
          end
      | DynGet _ _ => λ a, match a with Ok _ => false | Err _ => true end
      | DynList r => λ a,
          match a with Ok (_ :: _) => false | _ => true end
      | _ => λ _, true
      end a
  end.

Lemma well_behavedb_sound t : forallb well_behavedb t = true → Forall well_behaved t.
Proof.
  intros Ht%Is_true_true%forallb_True. eapply Forall_impl; [exact Ht|]. cbv beta.
  intros [R q a] He%Is_true_true. destruct q as [k n|k o|k o|k o|k o|k o|k n|r n|r|r ns u|r ns u|r n| |b]; try done.
  - destruct k; try done. destruct a as [pods|e]; [|done]. cbn in He |- *.
    apply Forall_forall. intros p Hp. rewrite forallb_elem in He. specialize (He p Hp).
    by apply bool_decide_eq_true in He.
  - destruct a as [u|e]; [discriminate He|]. unfold well_behaved. destruct (decide _); [done|]. by destruct (decide _).
  - unfold well_behavedb in He. unfold well_behaved.
    destruct a as [[|u l]|err]; [|done|]; repeat destruct (decide _); try done; by apply Forall_nil.
  - cbn in He |- *. by apply Nat.ltb_lt.
Qed.

Lemma reconcile_never_panics_witness :
  let p := Reconcile sampleHash searchRequest newProcess in
  List.length (run_trace p freshCluster) = 134 ∧
  ((∃ r, run_outcome p freshCluster = Done r) ∨
   (∃ w, run_outcome p freshCluster = Crashed w ∧ listing_failed (run_trace p freshCluster) w)).
Proof.
  cbv zeta. split; [vm_compute; reflexivity|].
  apply (reconcile_never_panics sampleHash searchRequest newProcess
           (run_trace (Reconcile sampleHash searchRequest newProcess) freshCluster)).
  - apply run_exec.
  - apply well_behavedb_sound. vm_compute. reflexivity.
  - vm_compute. reflexivity.
  - intros rest Hr. discriminate Hr.
Defined.
