(* ===== verification/Wiring.v ===== *)
(** How the objects of the components fit together: services and the pods behind
    them, policies and the connections the components are configured to make,
    pods and the secrets, ConfigMaps, claims and accounts they refer to. Each is
    built by a function of its own in [src/controllers/create_*.go]; nothing in
    the code but agreeing literals keeps them together. *)
From Stdlib Require Import Ascii String.
From S2P Require Import Prelude GoStrings K8s V1alpha1 Effects Interfaces Selectors MemServer Fixtures ImageValidation Common PostgresConfig Deployments Objects Networks TLS Status Resources.

Local Open Scope search_scope.

(** * The components *)

Record Component := mkComponent {
  co_Name : string; co_Service : Service; co_Deployment : Deployment; co_Account : string
}.

Section wiring.
Context `{Environ} `{Quantities} `{ControllerUtil}.
Context (instance : Search) (tls : list EnvVar) (clusterName workMem configHash : string).

Definition apiComponent : Component :=
  mkComponent apiDeploymentName (APIService instance) (APIDeployment instance tls) getAPIServiceAccountName.
Definition indexerComponent : Component :=
  mkComponent indexerDeploymentName (IndexerService instance) (IndexerDeployment instance tls)
    getIndexerServiceAccountName.
Definition collectorComponent : Component :=
  mkComponent collectorDeploymentName (CollectorService instance)
    (collectorDeploymentOf clusterName instance tls) getCollectorServiceAccountName.
Definition postgresComponent : Component :=
  mkComponent postgresDeploymentName (PGService instance) (pgDeploymentOf workMem instance configHash)
    getPostgresServiceAccountName.

Definition components : list Component :=
  [apiComponent; indexerComponent; collectorComponent; postgresComponent].
End wiring.

(** * Specification *)

(** The labels and the containers of the pods of a deployment. *)
Definition podLabels (c : Component) : smap := ds_TemplateLabels (dep_Spec (co_Deployment c)).
Definition containers (c : Component) : list Container := ps_Containers (ds_PodSpec (dep_Spec (co_Deployment c))).
Definition volumes (c : Component) : list Volume := ps_Volumes (ds_PodSpec (dep_Spec (co_Deployment c))).

(** A service has the pods of a component behind it. *)
Definition selects (svc : Service) (c : Component) : Prop :=
  om_Namespace (svc_Meta svc) = om_Namespace (dep_Meta (co_Deployment c)) ∧ svc_Selector svc ⊆ podLabels c.

(** The name of a service in the cluster's DNS. *)
Definition service_host (svc : Service) : string :=
  om_Name (svc_Meta svc) +:+ "." +:+ om_Namespace (svc_Meta svc) +:+ ".svc".

(** A probe that asks over HTTP asks the port. *)
Definition probes_port (port : Z) (p : option Probe) : Prop :=
  match p with
  | Some p => match pr_Handler p with HTTPGet q _ _ => q = port | ExecProbe _ => True end
  | None => True
  end.

(** The pods of a component, and those of the cluster's monitoring, as the sources
    of connections. *)
Definition podEndpoint (nsLabels : smap) (c : Component) : endpoint :=
  mkEnd (om_Namespace (dep_Meta (co_Deployment c))) nsLabels (podLabels c).
Definition is_monitoring (e : endpoint) : Prop := {[ nsLabelKey := openshiftMonitoring ]} ⊆ e_nsLabels e.

(** The policies admit connections from [src] to the port behind the service. *)
Definition admitted `{ControllerUtil} (instance : Search) (mce : string) (src : endpoint) (server : Component) : Prop :=
  ∀ p, p ∈ svc_Ports (co_Service server) →
    ingress_allowed (policiesFor instance mce) src (s_Namespace instance) (podLabels server) (sp_TargetPort p).

(** The monitors of the reconciliation. *)
Definition monitors (instance : Search) : list ServiceMonitor :=
  let ns := s_Namespace instance in
  [ MonitorOfService instance "search-indexer" ns; MonitorOfService instance "search-api" ns;
    CollectorServiceMonitor instance "search-collector" ns ].

(** A monitor scrapes a service: it looks in its namespace for its labels, and
    names one of its ports. *)
Definition scrapes (m : ServiceMonitor) (svc : Service) : Prop :=
  om_Namespace (svc_Meta svc) ∈ sm_MatchNames m ∧ sm_Selector m ⊆ map_of (om_Labels (svc_Meta svc)) ∧
  ∀ e, e ∈ sm_Endpoints m → ∃ p, p ∈ svc_Ports svc ∧ sp_Name p = ep_Port e.

Section inputs.
Context `{ControllerUtil} (instance : Search) (cs : list Component).

(** Every secret a run of the builder makes has the name and the key. *)
Definition provides (name key : string) (b : prog Secret) : Prop :=
  ∀ t s, exec b t (Done s) →
    obj_key KSecret s = mkNN name (s_Namespace instance) ∧ is_Some (sec_StringData s !! key).

Definition secretBuilders : list (prog Secret) :=
  [PGSecret instance; APIReadonlySecret instance; MCPReadonlySecret instance].

(** The service certificate operator writes the certificate of an annotated
    service to the secret the annotation names. *)
Definition certified (name : string) : Prop :=
  ∃ c, c ∈ cs ∧ get_str (om_Annotations (svc_Meta (co_Service c)))
                  "service.beta.openshift.io/serving-cert-secret-name" = name.

(** What a volume refers to is made by the operator, or on its behalf. *)
Definition available (v : Volume) : Prop :=
  match vol_Source v with
  | VSSecret name _ => certified name
  | VSConfigMap name =>
      ∀ pgTLS t cm, exec (PostgresConfigmap instance pgTLS) t (Done cm) →
        obj_key KConfigMap cm = mkNN name (s_Namespace instance)
  | VSPersistentVolumeClaim name =>
      ∀ t out o a, exec (createPVC instance) t out → Ev (Create KPVC o) a ∈ t →
        obj_key KPVC o = mkNN name (s_Namespace instance)
  | VSEmptyDir _ => True
  end.

(** A mount of one file of a ConfigMap is of a file it has. *)
Definition file_available (m : VolumeMount) : Prop :=
  vm_SubPath m = "" ∨ ∀ pgTLS workMem, is_Some (postgresData pgTLS workMem !! vm_SubPath m).

(** The builders of the service accounts. *)
Definition accounts : list (result ServiceAccount) :=
  [ Ok (SearchAPIServiceAccount instance); SearchPostgresServiceAccount instance;
    SearchIndexerServiceAccount instance; Ok (SearchCollectorServiceAccount instance) ].
Definition makes_account (name : string) (r : result ServiceAccount) : Prop :=
  ∀ sa, r = Ok sa → obj_key KServiceAccount sa = mkNN name (s_Namespace instance).
End inputs.

(** * Theorems *)

Section theorems.
Context `{Environ} `{Quantities} `{ControllerUtilLaws}.
Context (instance : Search) (tls : list EnvVar) (clusterName workMem configHash : string).

Let cs := components instance tls clusterName workMem configHash.

Lemma components_cases c :
  c ∈ cs → c = apiComponent instance tls ∨ c = indexerComponent instance tls ∨
    c = collectorComponent instance tls clusterName ∨ c = postgresComponent instance workMem configHash.
Proof. unfold cs, components. rewrite !elem_of_cons. intros [|[|[|[|[]%elem_of_nil]]]]; auto. Qed.

Lemma deployment_namespace c : c ∈ cs → om_Namespace (dep_Meta (co_Deployment c)) = s_Namespace instance.
Proof.
  intros [->|[->|[->| ->]]]%components_cases; cbn; by rewrite withOwner_namespace.
Qed.

Lemma service_namespace c : c ∈ cs → om_Namespace (svc_Meta (co_Service c)) = s_Namespace instance.
Proof.
  intros [->|[->|[->| ->]]]%components_cases; cbn; by rewrite withOwner_namespace.
Qed.

Lemma podLabels_component c : c ∈ cs → podLabels c = componentLabels (co_Name c) ∧ knownDeployment (co_Name c) = true.
Proof. by intros [->|[->|[->| ->]]]%components_cases. Qed.

(** C18: each service has the pods of its component behind it and no others: over
    all pairs, it selects the pods of a deployment exactly when that is its own.
    Its one port leads to the port the network policy of the component opens and
    the probes ask; the deployment selects its own pods; and the labels on them are
    those by which the watch notices the pod and the status lists it. *)
Theorem services_reach_components c c' :
  c ∈ cs → c' ∈ cs →
  (selects (co_Service c) c' ↔ co_Name c' = co_Name c) ∧
  (∃ p, svc_Ports (co_Service c) = [p] ∧ sp_Port p = component_port (co_Name c) ∧
     sp_TargetPort p = component_port (co_Name c) ∧ sp_Protocol p = "TCP") ∧
  Forall (λ k, probes_port (component_port (co_Name c)) (ct_LivenessProbe k) ∧
               probes_port (component_port (co_Name c)) (ct_ReadinessProbe k)) (containers c) ∧
  ds_Selector (dep_Spec (co_Deployment c)) ⊆ podLabels c ∧
  om_Name (dep_Meta (co_Deployment c)) = co_Name c ∧
  searchLabels (Some (podLabels c)) = true ∧
  {[ "app" := "search"; "name" := co_Name c ]} ⊆ podLabels c.
Proof.
  intros Hc Hc'. split.
  - unfold selects. rewrite service_namespace, deployment_namespace by done.
    destruct (podLabels_component c' Hc') as [-> _].
    apply components_cases in Hc as [->|[->|[->| ->]]];
      apply components_cases in Hc' as [->|[->|[->| ->]]]; cbn; (split;
      [intros [_ Hs]; first [done|exfalso; revert Hs; apply (bool_decide_unpack _); by vm_compute]
      |intros Hn; first [discriminate Hn|split; [done|]; apply (bool_decide_unpack _); by vm_compute]]).
  - clear Hc'. destruct (podLabels_component c Hc) as [-> _].
    apply components_cases in Hc as [->|[->|[->| ->]]]; cbn; rewrite ?withOwner_Name;
      (split; [by eexists|]); (split; [by repeat constructor|]);
      split_and!; try done; apply (bool_decide_unpack _); by vm_compute.
Qed.

(** What the policy of a component admits decides what reaches its service. *)
Lemma admitted_own mce src c :
  c ∈ cs →
  Exists (λ rule, rule_allows (s_Namespace instance) rule src (component_port (co_Name c)))
    (nps_Ingress (np_Spec (ownPolicy instance mce (co_Name c)))) →
  admitted instance mce src c.
Proof.
  intros Hc Hr p Hp. destruct (podLabels_component c Hc) as [-> Hk]. apply ingress_own; [done|].
  assert (sp_TargetPort p = component_port (co_Name c)) as ->; [|exact Hr]. clear Hr. revert p Hp.
  apply components_cases in Hc as [->|[->|[->| ->]]]; cbn; by intros p ->%list_elem_of_singleton.
Qed.

Lemma indexer_url ns :
  "https://" +:+ ("search-indexer" +:+ "." +:+ ns +:+ ".svc") +:+ ":3010" =
  "https://search-indexer." +:+ ns +:+ ".svc:3010".
Proof. by rewrite !append_assoc. Qed.

(** An element written out in a list. *)
Local Ltac listed := repeat first [left|right].

(** The first rule admits a peer that matches; otherwise look at the next. *)
Local Ltac first_rule :=
  apply Exists_cons_hd; split; [right; cbn [ing_From]|by apply port_tcp].

Lemma postgres_admits nsLabels mce c :
  c ∈ [apiComponent instance tls; indexerComponent instance tls] →
  admitted instance mce (podEndpoint nsLabels c) (postgresComponent instance workMem configHash).
Proof.
  intros Hc. apply admitted_own; [unfold cs, components; listed|]. cbn.
  first_rule. revert Hc. rewrite !elem_of_cons, elem_of_nil. intros [->|[->|[]]].
  - apply Exists_cons_tl, Exists_cons_hd. cbn. by rewrite withOwner_namespace.
  - apply Exists_cons_hd. cbn. by rewrite withOwner_namespace.
Qed.

Lemma indexer_admits nsLabels mce :
  admitted instance mce (podEndpoint nsLabels (collectorComponent instance tls clusterName))
    (indexerComponent instance tls).
Proof.
  apply admitted_own; [unfold cs, components; listed|]. cbn. apply Exists_cons_tl. first_rule.
  apply Exists_cons_hd. cbn. by rewrite withOwner_namespace.
Qed.

Lemma monitoring_admitted mce src c :
  c ∈ cs → co_Name c ≠ postgresDeploymentName → is_monitoring src → admitted instance mce src c.
Proof.
  intros Hc Hn Hs. apply admitted_own; [done|].
  apply components_cases in Hc as [->|[->|[->| ->]]]; cbn; [| | |by destruct Hn];
    repeat first [first_rule; apply Exists_cons_hd; cbn; exact Hs | apply Exists_cons_tl].
Qed.

(** C19: the connections the components are configured to make lead to the right
    service and are let through. The indexer and the API get the host name of the
    database's service and the collector the address of the indexer's, with its
    port, in the namespace of the CR; each monitor scrapes the service of its
    component; and the network policies admit each of these connections, whatever
    the labels of the namespace, and those of the monitoring namespace to every
    component but the database. *)
Theorem connections_admitted nsLabels mce :
  let db := postgresComponent instance workMem configHash in
  let indexer := indexerComponent instance tls in
  let collector := collectorComponent instance tls clusterName in
  (∀ c, c ∈ [apiComponent instance tls; indexer] →
     (∃ k, containers c = [k] ∧ newEnvVar "DB_HOST" (service_host (co_Service db)) ∈ ct_Env k) ∧
     admitted instance mce (podEndpoint nsLabels c) db) ∧
  ((∃ k p, containers collector = [k] ∧ svc_Ports (co_Service indexer) = [p] ∧ sp_Port p = 3010%Z ∧
      newEnvVar "AGGREGATOR_URL" ("https://" +:+ service_host (co_Service indexer) +:+ ":3010") ∈ ct_Env k) ∧
   admitted instance mce (podEndpoint nsLabels collector) indexer) ∧
  (∀ m, m ∈ monitors instance → ∃ c, c ∈ cs ∧ co_Name c ≠ postgresDeploymentName ∧ scrapes m (co_Service c)) ∧
  (∀ c src, c ∈ cs → co_Name c ≠ postgresDeploymentName → is_monitoring src → admitted instance mce src c).
Proof.
  cbv zeta. split_and!.
  - intros c Hc. split; [|by apply postgres_admits]. revert Hc. rewrite !elem_of_cons, elem_of_nil.
    intros [->|[->|[]]]; (eexists; split; [reflexivity|]); unfold service_host; cbn;
      rewrite withOwner_Name, withOwner_namespace; cbn; listed.
  - eexists _, _. split; [reflexivity|]. split; [reflexivity|]. split; [done|]. unfold service_host.
    cbn [co_Service indexerComponent svc_Meta IndexerService componentService].
    rewrite withOwner_Name, withOwner_namespace. cbn -[String.append]. rewrite indexer_url. listed.
  - apply indexer_admits.
  - intros m. unfold monitors. rewrite !elem_of_cons, elem_of_nil. intros [->|[->|[->|[]]]];
      [exists (indexerComponent instance tls)|exists (apiComponent instance tls)|
       exists (collectorComponent instance tls clusterName)];
      (split; [unfold cs, components; listed|]); (split; [done|]); unfold scrapes; cbn;
      rewrite withOwner_namespace, withOwner_Labels; cbn;
      (split; [listed|]); (split; [done|]); intros e ->%list_elem_of_singleton; eexists; (split; [left|done]).
  - intros c src. apply monitoring_admitted.
Qed.

Lemma dbSecret_provides name user key :
  key ∈ ["database-user"; "database-password"; "database-name"] →
  provides instance name key (dbSecret name user instance).
Proof.
  intros Hk t s. unfold dbSecret. intros [(pw & t1 & t2 & -> & _ & [_ [= ->]]%exec_Ret)|(w & _ & ?)]%exec_bind; [|done].
  split; [unfold obj_key; cbn; by rewrite withOwner_Name, withOwner_namespace|].
  revert Hk. rewrite !elem_of_cons, elem_of_nil. intros [->|[->|[->|[]]]]; by eexists.
Qed.

(** The secret variables of the operator itself. *)
Lemma secret_provided name key :
  name ∈ ["search-postgres"; apiReadonlySecretName; mcpReadonlySecretName] →
  key ∈ ["database-user"; "database-password"; "database-name"] →
  Exists (provides instance name key) (secretBuilders instance).
Proof.
  rewrite !(elem_of_cons _ name), elem_of_nil. intros [->|[->|[->|[]]]] Hk.
  - by apply Exists_cons_hd, dbSecret_provides.
  - by apply Exists_cons_tl, Exists_cons_hd, dbSecret_provides.
  - by apply Exists_cons_tl, Exists_cons_tl, Exists_cons_hd, dbSecret_provides.
Qed.

Lemma postgresConfigmap_available name v :
  vol_Source v = VSConfigMap name → name = postgresConfigmapName → available instance cs v.
Proof.
  intros Hv ->. unfold available. rewrite Hv. intros pgTLS t cm. unfold PostgresConfigmap. cbv zeta.
  intros [(wm & t1 & t2 & -> & _ & [_ [= ->]]%exec_Ret)|(w & _ & ?)]%exec_bind; [|done].
  unfold obj_key. cbn. by rewrite withOwner_Name, withOwner_namespace.
Qed.

(** The name under which an event creates an object. *)
Let created_key (e : event) : option NamespacedName :=
  let 'Ev q _ := e in match q with Create k o => Some (obj_key k o) | _ => None end.

Lemma postgresVolume_available : available instance cs (getPostgresVolume instance).
Proof.
  unfold getPostgresVolume. case_match; [|done]. unfold available. cbn [vol_Source].
  intros t out o a. unfold createPVC, call. cbv zeta. cbn [bind].
  intros ([o'|e] & t' & -> & He)%exec_Op; [apply exec_Ret in He as [-> _]|destruct (IsNotFound e)].
  - by intros Heq%list_elem_of_singleton%(f_equal created_key).
  - apply exec_Op in He as (a' & t2 & -> & He). destruct a'; apply exec_Ret in He as [-> _];
      rewrite !elem_of_cons, elem_of_nil; intros [Heq|[Heq|[]]]; apply (f_equal created_key) in Heq;
      [done|exact (f_equal (default (mkNN "" "")) Heq)|done|exact (f_equal (default (mkNN "" "")) Heq)].
  - apply exec_Ret in He as [-> _]. by intros Heq%list_elem_of_singleton%(f_equal created_key).
Qed.

(** A container's variable comes from the CR, from the TLS settings, or from the
    operator, and then its secret is one the operator makes. *)
Definition env_provided (c : Component) (e : EnvVar) : Prop :=
  e ∈ getContainerEnvVar (co_Name c) instance ∨ e ∈ tls ∨
  ∀ src ref, ev_ValueFrom e = Some src → evs_SecretKeyRef src = Some ref →
    Exists (provides instance (sk_Name ref) (sk_Key ref)) (secretBuilders instance).

Lemma value_provided c name v : env_provided c (newEnvVar name v).
Proof. do 2 right. intros src ref Hs. discriminate Hs. Qed.

Lemma metadata_provided c name key : env_provided c (newMetadataEnvVar name key).
Proof. do 2 right. intros src ref [= <-] Hr. discriminate Hr. Qed.

Lemma secretVar_provided c name key secret :
  secret ∈ ["search-postgres"; apiReadonlySecretName; mcpReadonlySecretName] →
  key ∈ ["database-user"; "database-password"; "database-name"] →
  env_provided c (newSecretEnvVar name key secret).
Proof. intros Hn Hk. do 2 right. intros src ref [= <-] [= <-]. by apply secret_provided. Qed.

Lemma containerEnv_provided c k : c ∈ cs → k ∈ containers c → Forall (env_provided c) (ct_Env k).
Proof.
  intros Hc. apply components_cases in Hc as [->|[->|[->| ->]]]; intros ->%list_elem_of_singleton;
    cbn -[postgresEnv]; rewrite ?postgresEnv_eq; apply Forall_forall; intros e;
    rewrite ?elem_of_cons, ?elem_of_app, ?list_elem_of_singleton; intros He;
    repeat (destruct He as [->|He]; [first [apply value_provided|apply metadata_provided|apply secretVar_provided; listed]|]).
  all: unfold env_provided; cbn [co_Name apiComponent indexerComponent collectorComponent postgresComponent].
  1-3: tauto.
  destruct He as [He| ->]; [tauto|]. apply (value_provided (postgresComponent instance workMem configHash)).
Qed.

Lemma volumes_available c v : c ∈ cs → v ∈ volumes c → available instance cs v.
Proof.
  intros Hc Hv.
  assert (Hcert : ∀ c', c' ∈ cs → certified cs (get_str (om_Annotations (svc_Meta (co_Service c')))
    "service.beta.openshift.io/serving-cert-secret-name")) by (intros c' Hc'; by exists c').
  assert (Hapi := Hcert (apiComponent instance tls) ltac:(unfold cs, components; listed)).
  assert (Hindexer := Hcert (indexerComponent instance tls) ltac:(unfold cs, components; listed)).
  assert (Hdb := Hcert (postgresComponent instance workMem configHash) ltac:(unfold cs, components; listed)).
  clear Hcert. cbn in Hapi, Hindexer, Hdb. rewrite !withOwner_Annotations in Hapi, Hindexer, Hdb.
  apply components_cases in Hc as [->|[->|[->| ->]]].
  1-3: apply list_elem_of_singleton in Hv as ->; assumption.
  unfold volumes in Hv. cbn in Hv. unfold postgresVolumes in Hv. rewrite !elem_of_cons in Hv.
  destruct Hv as [->|[->|[->|[->|[->|Hv]]]]].
  1-3: by apply (postgresConfigmap_available postgresConfigmapName).
  - exact Hdb.
  - apply postgresVolume_available.
  - by destruct Hv as [->|[->|[->|[->|?%elem_of_nil]]]].
Qed.

Lemma mounts_in_volumes c k :
  c ∈ cs → k ∈ containers c →
  NoDup (map vol_Name (volumes c)) ∧
  Forall (λ m, vm_Name m ∈ map vol_Name (volumes c) ∧ file_available m) (ct_VolumeMounts k).
Proof.
  assert (Hpg : vol_Name (getPostgresVolume instance) = "postgresdb")
    by (unfold getPostgresVolume; by case_match).
  intros Hc. apply components_cases in Hc as [->|[->|[->| ->]]]; intros ->%list_elem_of_singleton;
    unfold volumes; cbn -[postgresVolumes]; unfold postgresVolumes; cbn [map vol_Name]; rewrite ?Hpg;
    (split; [apply (bool_decide_unpack _); by vm_compute|]).
  all: repeat (apply Forall_cons; split; [|]); try apply Forall_nil; try done; cbn [vm_Name];
    (split; [listed|first [by left|right; intros pgTLS wm; by eexists]]).
Qed.

(** C20: the pods find what they refer to. In every component's pod each mount is of
    one volume of the pod; each volume is empty, or a ConfigMap or claim under the
    name the operator creates it under, or a certificate some service of the
    components asks for; a file mounted from the ConfigMap is one of its entries;
    each secret variable the operator adds names a secret and a key the operator
    generates; and the account of the pod is one the operator creates. The subjects
    of the cluster role bindings are accounts of the components. *)
Theorem pods_find_their_inputs c :
  c ∈ cs →
  NoDup (map vol_Name (volumes c)) ∧
  (∀ v, v ∈ volumes c → available instance cs v) ∧
  (∃ k, containers c = [k] ∧
     Forall (λ m, vm_Name m ∈ map vol_Name (volumes c) ∧ file_available m) (ct_VolumeMounts k) ∧
     Forall (env_provided c) (ct_Env k)) ∧
  ps_ServiceAccountName (ds_PodSpec (dep_Spec (co_Deployment c))) = co_Account c ∧
  Exists (makes_account instance (co_Account c)) (accounts instance) ∧
  (∀ b s, b ∈ [APIClusterRoleBinding instance; IndexerClusterRoleBinding instance; CollectorClusterRoleBinding instance] →
     s ∈ crb_Subjects b → ∃ c', c' ∈ cs ∧ s = serviceAccountSubject (co_Account c') (s_Namespace instance)).
Proof.
  intros Hc.
  assert (∃ k, containers c = [k]) as (k & Hk).
  { apply components_cases in Hc as [->|[->|[->| ->]]]; by eexists. }
  destruct (mounts_in_volumes c k Hc) as [Hnd Hm]; [rewrite Hk; left|].
  split; [done|]. split; [by intros v; apply volumes_available|].
  split; [exists k; split_and!; [done..|]; apply containerEnv_provided; [done|rewrite Hk; left]|].
  split; [apply components_cases in Hc as [->|[->|[->| ->]]]; done|]. split.
  - unfold accounts, makes_account, SearchPostgresServiceAccount, SearchIndexerServiceAccount, ownedServiceAccount.
    assert (Hown : ∀ name sa, match SetControllerReference instance (newMeta name (s_Namespace instance)) with
        | Ok meta => Ok (mkServiceAccount meta []) | Err e => Err e end = Ok sa →
        obj_key KServiceAccount sa = mkNN name (s_Namespace instance)).
    { intros name sa Hs. destruct (SetControllerReference _ _) eqn:Hr; [|done]. injection Hs as <-.
      apply SetControllerReference_ok in Hr as [Hr _]. unfold obj_key. cbn. by rewrite Hr. }
    apply components_cases in Hc as [->|[->|[->| ->]]].
    + apply Exists_cons_hd. intros sa [= <-]. unfold obj_key. cbn. by rewrite withOwner_Name, withOwner_namespace.
    + do 2 apply Exists_cons_tl. apply Exists_cons_hd. apply Hown.
    + do 3 apply Exists_cons_tl. apply Exists_cons_hd. intros sa [= <-]. unfold obj_key. cbn.
      by rewrite withOwner_Name, withOwner_namespace.
    + apply Exists_cons_tl, Exists_cons_hd. apply Hown.
  - intros b s. rewrite !elem_of_cons, elem_of_nil.
    intros [->|[->|[->|[]]]] ->%list_elem_of_singleton;
      [exists (apiComponent instance tls)|exists (indexerComponent instance tls)|
       exists (collectorComponent instance tls clusterName)]; (split; [unfold cs, components; listed|done]).
Qed.
End theorems.

(** * The theorems at concrete inputs *)

#[local] Existing Instance sampleEnviron.
#[local] Existing Instance sampleQuantities.

Definition sampleComponents : list Component :=
  components customSearch sampleTLSEnv "local-cluster" "32MB" "hash".
Definition sampleAPI : Component := apiComponent customSearch sampleTLSEnv.
Definition samplePostgres : Component := postgresComponent customSearch "32MB" "hash".

Lemma services_reach_components_witness :
  (selects (co_Service sampleAPI) sampleAPI ↔ co_Name sampleAPI = co_Name sampleAPI) ∧
  (selects (co_Service sampleAPI) samplePostgres ↔ co_Name samplePostgres = co_Name sampleAPI).
Proof.
  split; apply (services_reach_components customSearch sampleTLSEnv "local-cluster" "32MB" "hash");
    repeat (first [left|right]).
Defined.

Lemma connections_admitted_witness :
  admitted customSearch "mce" (podEndpoint ∅ sampleAPI) samplePostgres ∧
  ∀ m, m ∈ monitors customSearch → ∃ c, c ∈ sampleComponents ∧ co_Name c ≠ postgresDeploymentName ∧
    scrapes m (co_Service c).
Proof.
  destruct (connections_admitted customSearch sampleTLSEnv "local-cluster" "32MB" "hash" ∅ "mce")
    as (Hdb & _ & Hm & _).
  split; [apply Hdb; left|exact Hm].
Defined.

Lemma pods_find_their_inputs_witness :
  List.length (volumes samplePostgres) = 9 ∧ ∀ v, v ∈ volumes samplePostgres → available customSearch sampleComponents v.
Proof.
  split; [reflexivity|].
  apply (pods_find_their_inputs customSearch sampleTLSEnv "local-cluster" "32MB" "hash" samplePostgres).
  repeat (first [left|right]).
Defined.
