(* ===== verification/Startup.v ===== *)
(** [src/main.go]: what the process sets up, in which order, which failures end it
    and which are only logged.

    Parameters (classes [SchemeLibrary], [ManagerLibrary], laws [SchemeLibraryLaws],
    [ManagerLibraryLaws]): the kinds the API packages register, the manager of
    controller-runtime, which remembers what is registered with it and the scheme it
    was given, and the dynamic client. Parsing the flags and the loggers are left out. *)
From Stdlib Require Import Ascii String.
From S2P Require Import Prelude GoStrings K8s V1alpha1 Effects Interfaces Selectors MemServer Fixtures ImageValidation Common CollectorMerge PostgresConfig Deployments Objects Networks TLS SearchCR Features Status Addon Resources Seeder Reconciler Watches.

Local Open Scope search_scope.

(** * The scheme

    [runtime.Scheme]: the kinds a client can encode, decode and name as owners. *)
Record GroupVersionKind := mkGVK { gvk_Group : string; gvk_Version : string; gvk_Kind : string }.
#[export] Instance GVK_eq_dec : EqDecision GroupVersionKind. Proof. solve_decision. Defined.
Abbreviation Scheme := (list GroupVersionKind).

(** [AddToScheme] of the packages: the new scheme and an error. *)
Class SchemeLibrary := {
  ClientGoAddToScheme : Scheme → Scheme * option error;
  MonitorAddToScheme : Scheme → Scheme * option error;
  ClusterAddToScheme : Scheme → Scheme * option error;
  AdmissionAddToScheme : Scheme → Scheme * option error;
  AddonAddToScheme : Scheme → Scheme * option error
}.

(** The types [search_types.go] and [collectorconfig_types.go] register with the
    builder of [groupversion_info.go]. *)
Definition searchTypes : list string := ["Search"; "SearchList"].
Definition collectorConfigTypes : list string := ["CollectorConfig"; "CollectorConfigList"].
Definition SearchAddToScheme (s : Scheme) : Scheme * option error :=
  (s ++ map (mkGVK "search.open-cluster-management.io" "v1alpha1") (collectorConfigTypes ++ searchTypes), None).

(** [utilruntime.Must(f(scheme))] for each: the first error is a panic. *)
Fixpoint mustAddAll (fs : list (Scheme → Scheme * option error)) (s : Scheme) : option Scheme :=
  match fs with
  | [] => Some s
  | f :: fs => let '(s, err) := f s in match err with Some _ => None | None => mustAddAll fs s end
  end.

(** [init] *)
Definition initScheme `{SchemeLibrary} : option Scheme :=
  mustAddAll [ClientGoAddToScheme; SearchAddToScheme; MonitorAddToScheme; ClusterAddToScheme; AdmissionAddToScheme] [].

(** The kind the objects of the typed client have at the API server. *)
Definition gvk (k : Kind) : GroupVersionKind :=
  match k with
  | KSearch => mkGVK "search.open-cluster-management.io" "v1alpha1" "Search"
  | KCollectorConfig => mkGVK "search.open-cluster-management.io" "v1alpha1" "CollectorConfig"
  | KConfigMap => mkGVK "" "v1" "ConfigMap"
  | KSecret => mkGVK "" "v1" "Secret"
  | KService => mkGVK "" "v1" "Service"
  | KServiceAccount => mkGVK "" "v1" "ServiceAccount"
  | KDeployment => mkGVK "apps" "v1" "Deployment"
  | KPVC => mkGVK "" "v1" "PersistentVolumeClaim"
  | KPod => mkGVK "" "v1" "Pod"
  | KClusterRole => mkGVK "rbac.authorization.k8s.io" "v1" "ClusterRole"
  | KClusterRoleBinding => mkGVK "rbac.authorization.k8s.io" "v1" "ClusterRoleBinding"
  | KRole => mkGVK "rbac.authorization.k8s.io" "v1" "Role"
  | KRoleBinding => mkGVK "rbac.authorization.k8s.io" "v1" "RoleBinding"
  | KNetworkPolicy => mkGVK "networking.k8s.io" "v1" "NetworkPolicy"
  | KServiceMonitor => mkGVK "monitoring.coreos.com" "v1" "ServiceMonitor"
  | KPrometheusRule => mkGVK "monitoring.coreos.com" "v1" "PrometheusRule"
  | KVWC => mkGVK "admissionregistration.k8s.io" "v1" "ValidatingWebhookConfiguration"
  | KCMA => mkGVK "addon.open-cluster-management.io" "v1alpha1" "ClusterManagementAddOn"
  end.

(** The kind of a list of them. *)
Definition listKind (g : GroupVersionKind) : GroupVersionKind :=
  mkGVK (gvk_Group g) (gvk_Version g) (gvk_Kind g +:+ "List").

(** The package that defines a kind. *)
Inductive ApiPackage := ClientGo | SearchApi | Monitoring | AddonApi.
Definition definedBy (k : Kind) : ApiPackage :=
  match k with
  | KSearch | KCollectorConfig => SearchApi
  | KServiceMonitor | KPrometheusRule => Monitoring
  | KCMA => AddonApi
  | _ => ClientGo
  end.

(** * The process

    The flags, with the values they have unless given. *)
Record Flags := mkFlags { metricsAddr : string; enableLeaderElection : bool; probeAddr : string }.
Definition defaultFlags : Flags := mkFlags ":8080" false ":8081".

(** [ctrl.Options]; the namespaces of the cache are [nil] for all. *)
Record ManagerOptions := mkManagerOptions {
  mo_MetricsAddress : string; mo_WebhookPort : Z; mo_ProbeAddress : string;
  mo_LeaderElection : bool; mo_LeaderElectionID : string;
  mo_DefaultNamespaces : option (list string); mo_Scheme : Scheme
}.

(** What the process hands to its manager. The client of the controller may be nil;
    setting up the webhook sets the client its checks list configs with. *)
Inductive Registration (DynamicClient : Type) :=
| Controller (dynamicClient : option DynamicClient) (watches : list Watch)
| CollectorConfigWebhook (webhookClientSet : bool)
| Runnable_ (namespace : string)
| HealthzCheck (name : string)
| ReadyzCheck (name : string).
Arguments Controller {DynamicClient}.
Arguments CollectorConfigWebhook {DynamicClient}.
Arguments Runnable_ {DynamicClient}.
Arguments HealthzCheck {DynamicClient}.
Arguments ReadyzCheck {DynamicClient}.

Class ManagerLibrary := {
  RestConfig : Type; Manager : Type; DynamicClient : Type;
  CtrlGetConfig : result RestConfig;
  CtrlNewManager : RestConfig → ManagerOptions → result Manager;
  ManagerConfig : Manager → RestConfig;
  (** A client, or nil and an error. *)
  DynamicNewForConfig : RestConfig → option DynamicClient * option error;
  (** [mgr.GetScheme()], a pointer: what is added to it is known to the manager. *)
  GetScheme : Manager → Scheme;
  SetScheme : Scheme → Manager → Manager;
  Register_ : Manager → Registration DynamicClient → Manager * option error;
  StartManager : Manager → option error;
  registered : Manager → list (Registration DynamicClient)
}.

(** How the process ends: the manager it started, if it came to that, and the exit
    code. *)
Record Exit `{ManagerLibrary} := mkExit { ex_Started : option Manager; ex_Code : nat }.

Section startup.
Context `{Environ} `{SchemeLibrary} `{ManagerLibrary}.

Definition managerOptions (scheme : Scheme) (flags : Flags) : ManagerOptions :=
  let watchNs := Getenv "WATCH_NAMESPACE" in
  mkManagerOptions (metricsAddr flags) 9443%Z (probeAddr flags) (enableLeaderElection flags)
    "b648e39a.open-cluster-management.io" (if negb (String.eqb watchNs "") then Some [watchNs] else None) scheme.

(** Registering with the manager in order; the first failure exits. *)
Fixpoint registerAll (mgr : Manager) (rs : list (Registration DynamicClient)) (k : Manager → Exit) : Exit :=
  match rs with
  | [] => k mgr
  | r :: rs =>
      let '(mgr, err) := Register_ mgr r in
      match err with
      | Some _ => mkExit _ None 1
      | None => registerAll mgr rs k
      end
  end.

(** [main]: the namespace of the seeder is left empty. *)
Definition main (scheme : Scheme) (flags : Flags) : Exit :=
  match CtrlGetConfig with
  | Err _ => mkExit _ None 1
  | Ok config =>
      match CtrlNewManager config (managerOptions scheme flags) with
      | Err _ => mkExit _ None 1
      | Ok mgr =>
          let '(dynClient, _) := DynamicNewForConfig (ManagerConfig mgr) in
          (* a failure is logged only *)
          let '(scheme, _) := AddonAddToScheme (GetScheme mgr) in
          let mgr := SetScheme scheme mgr in
          registerAll mgr
            [Controller dynClient SetupWithManager; CollectorConfigWebhook true; Runnable_ "";
             HealthzCheck "healthz"; ReadyzCheck "readyz"]
            (λ mgr, mkExit _ (Some mgr) (match StartManager mgr with Some _ => 1 | None => 0 end))
      end
  end.

(** The process: a panic of [init] exits with 2. *)
Definition process (flags : Flags) : Exit :=
  match initScheme with None => mkExit _ None 2 | Some scheme => main scheme flags end.
End startup.

(** * Theorem *)

(** What the packages document: their kinds, and the lists of them, are in a scheme
    they are added to, and what was there stays. *)
Definition adds (p : ApiPackage) (f : Scheme → Scheme * option error) : Prop := ∀ s s' e, f s = (s', e) →
  s ⊆ s' ∧ (e = None → ∀ k, definedBy k = p → gvk k ∈ s' ∧ listKind (gvk k) ∈ s').
Class SchemeLibraryLaws `{SchemeLibrary} := {
  ClientGo_adds : adds ClientGo ClientGoAddToScheme;
  Monitor_adds : adds Monitoring MonitorAddToScheme;
  Cluster_keeps s s' e : ClusterAddToScheme s = (s', e) → s ⊆ s';
  Admission_keeps s s' e : AdmissionAddToScheme s = (s', e) → s ⊆ s';
  Addon_adds : adds AddonApi AddonAddToScheme
}.

Class ManagerLibraryLaws `{ManagerLibrary} := {
  NewManager_registered c o m : CtrlNewManager c o = Ok m → registered m = [] ∧ GetScheme m = mo_Scheme o;
  SetScheme_registered s m : registered (SetScheme s m) = registered m ∧ GetScheme (SetScheme s m) = s;
  Register_registered m r m' : Register_ m r = (m', None) → registered m' = registered m ++ [r] ∧ GetScheme m' = GetScheme m
}.

Section startup_lemmas.
Context `{Environ} `{SchemeLibraryLaws} `{ManagerLibraryLaws}.

(** A manager that is started has everything registered, whatever comes of it. *)
Lemma registerAll_started mgr rs k ex :
  registerAll mgr rs k = ex →
  ex = mkExit _ None 1 ∨ ∃ m, ex = k m ∧ registered m = registered mgr ++ rs ∧ GetScheme m = GetScheme mgr.
Proof.
  intros <-. revert mgr. induction rs as [|r rs IH]; intros mgr; cbn [registerAll].
  - right. exists mgr. by rewrite app_nil_r.
  - destruct (Register_ mgr r) as [m' [e|]] eqn:Hr; [by left|]. apply Register_registered in Hr as [Hr Hs].
    destruct (IH m') as [He|(m & He & Hm & Hms)]; [by left|right]. exists m. split; [done|].
    by rewrite Hm, Hr, Hms, Hs, <-app_assoc.
Qed.

(** A scheme with the kinds of a package. *)
Definition knows (s : Scheme) (p : ApiPackage) : Prop := ∀ k, definedBy k = p → gvk k ∈ s ∧ listKind (gvk k) ∈ s.

Lemma knows_mono s s' p : s ⊆ s' → knows s p → knows s' p.
Proof. intros Hs Hk k Hp. destruct (Hk k Hp) as [Ha Hb]. split; by apply Hs. Qed.

Lemma Search_adds : adds SearchApi SearchAddToScheme.
Proof.
  intros s s' e [= <- <-]. split; [set_solver|]. intros _ k Hk. rewrite !elem_of_app.
  destruct k; try done; split; right; cbn; set_solver.
Qed.

Lemma mustAddAll_cons f fs s s' : mustAddAll (f :: fs) s = Some s' → ∃ s1, f s = (s1, None) ∧ mustAddAll fs s1 = Some s'.
Proof. cbn. destruct (f s) as [s1 [e|]]; [done|]. by exists s1. Qed.

Lemma initScheme_knows s : initScheme = Some s → knows s ClientGo ∧ knows s SearchApi ∧ knows s Monitoring.
Proof.
  intros (s1 & [_ Hk1]%ClientGo_adds & (s2 & [Hs2 Hk2]%Search_adds & (s3 & [Hs3 Hk3]%Monitor_adds &
    (s4 & Hs4%Cluster_keeps & (s5 & Hs5%Admission_keeps & [= <-])%mustAddAll_cons)%mustAddAll_cons)%mustAddAll_cons)%mustAddAll_cons)%mustAddAll_cons.
  assert (Hs : s3 ⊆ s5) by by etrans. split_and!.
  - eapply knows_mono; [|exact (Hk1 eq_refl)]. etrans; [exact Hs2|]. by etrans.
  - eapply knows_mono; [|exact (Hk2 eq_refl)]. by etrans.
  - by eapply knows_mono; [|exact (Hk3 eq_refl)].
Qed.

(** The operator never runs half set up: when the manager is started, the
    controller with its nine watches, the admission webhook with a client to check
    against the integration configs, the seeder that finds its own namespace and
    both probes are registered, and nothing else; and its scheme has every kind the
    operator requests, alone and in lists, so that no request fails in the client. Of
    the kinds, only the add-on's may be missing, and of the clients the dynamic one may
    be nil: these two failures are only logged. The process exits with 0 exactly when
    the manager ran and ended without an error. *)
Theorem startup_complete flags :
  match ex_Started (process flags) with
  | None => ex_Code (process flags) ≠ 0
  | Some m =>
      (ex_Code (process flags) = 0 ↔ StartManager m = None) ∧
      ∃ scheme config mgr, initScheme = Some scheme ∧ CtrlNewManager config (managerOptions scheme flags) = Ok mgr ∧
        registered m = [Controller (DynamicNewForConfig (ManagerConfig mgr)).1 SetupWithManager;
          CollectorConfigWebhook true; Runnable_ ""; HealthzCheck "healthz"; ReadyzCheck "readyz"] ∧
        ∀ k, k ≠ KCMA ∨ (AddonAddToScheme scheme).2 = None → gvk k ∈ GetScheme m ∧ listKind (gvk k) ∈ GetScheme m
  end.
Proof.
  unfold process. destruct initScheme as [scheme|] eqn:Hi; [|done]. apply initScheme_knows in Hi as (Hk1 & Hk2 & Hk3).
  unfold main. destruct CtrlGetConfig as [config|]; [|done].
  destruct (CtrlNewManager config _) as [mgr|] eqn:Hm; [|done]. apply NewManager_registered in Hm as Hn. destruct Hn as [Hn Hsc].
  cbn in Hsc. destruct (DynamicNewForConfig _) as [dyn e1] eqn:Hd.
  destruct (AddonAddToScheme (GetScheme mgr)) as [scheme' e2] eqn:Ha. rewrite Hsc in Ha.
  destruct (SetScheme_registered scheme' mgr) as [Hr1 Hr2].
  match goal with |- context [registerAll ?a ?b ?c] => destruct (registerAll_started a b c _ eq_refl) as [->|(m & -> & Hr & Hs)] end;
    [done|]. cbn. split; [destruct (StartManager m); split; congruence|].
  exists scheme, config, mgr. split_and!; [done..|by rewrite Hd, Hr, Hr1, Hn|]. rewrite Hs, Hr2, Ha. cbn. intros k Hk.
  apply Addon_adds in Ha as [Hs' Hk4]. destruct (definedBy k) eqn:Hp.
  - by apply (knows_mono _ _ _ Hs' Hk1).
  - by apply (knows_mono _ _ _ Hs' Hk2).
  - by apply (knows_mono _ _ _ Hs' Hk3).
  - apply Hk4; [|done]. destruct Hk as [Hk|Hk]; [by destruct k|done].
Qed.
End startup_lemmas.

(** * The theorem at a concrete input

    A library whose dynamic client cannot be made: the operator starts without it. *)

Definition allKinds : list Kind :=
  [KSearch; KCollectorConfig; KConfigMap; KSecret; KService; KServiceAccount; KDeployment; KPVC; KPod; KClusterRole;
   KClusterRoleBinding; KRole; KRoleBinding; KNetworkPolicy; KServiceMonitor; KPrometheusRule; KVWC; KCMA].

Definition addPackage (p : ApiPackage) (s : Scheme) : Scheme * option error :=
  (s ++ concat (map (λ k, if match definedBy k, p with ClientGo, ClientGo | Monitoring, Monitoring | AddonApi, AddonApi => true | _, _ => false end
                          then [gvk k; listKind (gvk k)] else []) allKinds), None).

#[local] Instance sampleSchemes : SchemeLibrary := {|
  ClientGoAddToScheme := addPackage ClientGo; MonitorAddToScheme := addPackage Monitoring;
  ClusterAddToScheme s := (s, None); AdmissionAddToScheme s := (s, None); AddonAddToScheme := addPackage AddonApi
|}.

Lemma addPackage_adds p : p ≠ SearchApi → adds p (addPackage p).
Proof.
  intros Hp s s' e [= <- <-]. split; [set_solver|]. intros _ k Hk. unfold addPackage. rewrite !(elem_of_app s).
  destruct p; try done; destruct k; try discriminate Hk; split; right; apply (bool_decide_unpack _); vm_compute; exact I.
Qed.

#[local] Instance sampleSchemesLaws : SchemeLibraryLaws.
Proof.
  split; try (by apply addPackage_adds).
  - by intros s s' e [= <- <-].
  - by intros s s' e [= <- <-].
Qed.

#[local] Instance clientlessLibrary : ManagerLibrary := {|
  RestConfig := unit; Manager := list (Registration unit) * Scheme; DynamicClient := unit;
  CtrlGetConfig := Ok tt; CtrlNewManager _ o := Ok ([], mo_Scheme o); ManagerConfig _ := tt;
  DynamicNewForConfig _ := (None, Some (Errorf "no transport"));
  GetScheme := snd; SetScheme s m := (m.1, s); Register_ m r := ((m.1 ++ [r], m.2), None);
  StartManager _ := None; registered := fst
|}.
#[local] Instance clientlessLibraryLaws : ManagerLibraryLaws.
Proof. split; [by intros c o m [= <-]|done|by intros m r m' [= <-]]. Qed.

Lemma startup_complete_witness `{Environ} :
  ∃ m, ex_Started (process defaultFlags) = Some m ∧ Controller None SetupWithManager ∈ registered m ∧
    gvk KCMA ∈ GetScheme m.
Proof.
  pose proof (startup_complete defaultFlags) as Hs. eexists. split; [reflexivity|].
  destruct Hs as [_ (scheme & config & mgr & Hi & _ & Hr & Hk)]. split; [rewrite Hr; left|].
  apply Hk. by right.
Defined.
